(** * httprunner/loader.py: a shallow embedding and its specification

    The loader reads test artifacts, resolves api and testcase references
    and assembles testcases.  The Python code works on JSON-like objects
    that are shared and mutated in place ([dict.popitem], [dict.update],
    item assignment, [list.append]), so the embedding keeps an explicit
    object store: dictionaries and lists live in a heap and are named by
    their address, scalars are immediate values.  Every function of the
    module is a computation in a state-and-exception monad over that store.

    What the module imports from outside (os.path, the yaml, json and csv
    readers, importlib, httprunner.parser) is a record of operations, the
    [world]; nothing is assumed about it unless a theorem says so. *)

From Stdlib Require Import ZArith String Ascii List Lia Bool.
From stdpp Require Import base tactics option list strings.

Local Open Scope Z_scope.
Local Open Scope nat_scope.
Local Open Scope string_scope.
Local Open Scope list_scope.

(** ** Python values *)

Abbreviation addr := nat (only parsing).

(** Hashable scalars, as they occur as dictionary keys.  Python identifies
    [True] with [1] and [False] with [0] as keys; [to_key] below does the
    same.  Floats are outside the model. *)
Inductive key : Type :=
  | KNone
  | KInt (z : Z)
  | KStr (s : string).

Inductive value : Type :=
  | VNone
  | VBool (b : bool)
  | VInt (z : Z)
  | VStr (s : string)
  | VFunc (name : string)          (* a callable of an imported module *)
  | VRef (a : addr).               (* a dict or a list, by identity *)

(** A [dict] keeps insertion order (it matters to [popitem]). *)
Inductive obj : Type :=
  | ODict (d : list (key * value))
  | OList (l : list value).

#[global] Instance key_eq_dec : EqDecision key.
Proof. solve_decision. Defined.
#[global] Instance value_eq_dec : EqDecision value.
Proof. solve_decision. Defined.
#[global] Instance obj_eq_dec : EqDecision obj.
Proof. solve_decision. Defined.

Definition to_key (v : value) : option key :=
  match v with
  | VNone => Some KNone
  | VBool b => Some (KInt (if b then 1%Z else 0%Z))
  | VInt z => Some (KInt z)
  | VStr s => Some (KStr s)
  | VFunc _ => None
  | VRef _ => None                 (* unhashable: list, dict *)
  end.

Definition of_key (k : key) : value :=
  match k with
  | KNone => VNone
  | KInt z => VInt z
  | KStr s => VStr s
  end.

(** ** Dictionaries as insertion-ordered association lists *)

Fixpoint dict_get (d : list (key * value)) (k : key) : option value :=
  match d with
  | [] => None
  | (k', v) :: d' => if decide (k' = k) then Some v else dict_get d' k
  end.

(** [d[k] = v]: an existing key keeps its position, a new one goes last. *)
Fixpoint dict_set (d : list (key * value)) (k : key) (v : value)
  : list (key * value) :=
  match d with
  | [] => [(k, v)]
  | (k', v') :: d' =>
      if decide (k' = k) then (k, v) :: d' else (k', v') :: dict_set d' k v
  end.

Definition dict_has (d : list (key * value)) (k : key) : bool :=
  match dict_get d k with Some _ => true | None => false end.

(** [d.update(other)] for a mapping [other]. *)
Definition dict_update (d other : list (key * value)) : list (key * value) :=
  fold_left (fun acc kv => dict_set acc (fst kv) (snd kv)) other d.

(** [d.popitem()]: the pair inserted last, and what is left. *)
Fixpoint dict_popitem (d : list (key * value))
  : option (key * value * list (key * value)) :=
  match d with
  | [] => None
  | kv :: d' =>
      match dict_popitem d' with
      | None => Some (kv, [])
      | Some (last, rest) => Some (last, kv :: rest)
      end
  end.

(** ** Strings: the [str] methods the loader uses *)

Definition is_space (c : ascii) : bool :=
  let n := nat_of_ascii c in
  (Nat.leb 9 n && Nat.leb n 13) || (Nat.leb 28 n && Nat.leb n 32).

Fixpoint lstrip_chars (l : list ascii) : list ascii :=
  match l with
  | c :: l' => if is_space c then lstrip_chars l' else l
  | [] => []
  end.

(** [s.strip()] (ASCII white space). *)
Definition strip (s : string) : string :=
  string_of_list_ascii
    (rev (lstrip_chars (rev (lstrip_chars (list_ascii_of_string s))))).

(** [c in s] for a one-character [c]. *)
Fixpoint has_char (c : ascii) (s : string) : bool :=
  match s with
  | EmptyString => false
  | String c' s' => if Ascii.eqb c' c then true else has_char c s'
  end.

(** [s.split(c, 1)] when [c] occurs in [s]: the text before the first
    occurrence and the text after it. *)
Fixpoint split_once (c : ascii) (s : string) : option (string * string) :=
  match s with
  | EmptyString => None
  | String c' s' =>
      if Ascii.eqb c' c then Some (EmptyString, s')
      else match split_once c s' with
           | Some (l, r) => Some (String c' l, r)
           | None => None
           end
  end.

Definition lower_char (c : ascii) : ascii :=
  let n := nat_of_ascii c in
  if Nat.leb 65 n && Nat.leb n 90 then ascii_of_nat (n + 32) else c.

(** [s.lower()] (ASCII letters). *)
Fixpoint lower (s : string) : string :=
  match s with
  | EmptyString => EmptyString
  | String c s' => String (lower_char c) (lower s')
  end.

(** [sub in s] for strings. *)
Fixpoint str_contains (s sub : string) : bool :=
  String.prefix sub s ||
  match s with
  | EmptyString => false
  | String _ s' => str_contains s' sub
  end.

(** [s.endswith(suffix)]. *)
Definition endswith (s suffix : string) : bool :=
  String.prefix (string_of_list_ascii (rev (list_ascii_of_string suffix)))
                (string_of_list_ascii (rev (list_ascii_of_string s))).

(** ** The interpreter state *)

Inductive exn : Type :=
  | FileFormatError | FileNotFound | ApiNotFound    (* httprunner.exceptions *)
  | KeyError | IndexError | TypeError | AttributeError | ValueError
  | ImportError | YAMLError | RecursionError
  | IOError | UnicodeDecodeError.

#[global] Instance exn_eq_dec : EqDecision exn.
Proof. solve_decision. Defined.

Inductive log_level : Type := LInfo | LWarning | LError.

(** A log record: which message of the module, and its argument. *)
Inductive log_msg : Type :=
  | MsgContentEmpty (file_path : string)
  | MsgContentInvalid (file_path : string)
  | MsgJSONDecodeError (json_file : string)
  | MsgUnsupportedFormat (file_path : string)
  | MsgLoadingEnv (dot_env_path : string)
  | MsgUnexpectedBlockKey (k : value)
  | MsgApiDuplicated (api_id : value)
  | MsgPathNotExist (path : string).

Record state : Type := mkState {
  heap : list obj;                        (* the objects, by address *)
  log : list (log_level * log_msg);       (* logger calls, oldest first *)
  opened : list string;                   (* files opened, oldest first *)
  sys_path : list string;                 (* sys.path *)
  os_environ : list (string * string)     (* os.environ, latest first *)
}.

Definition set_heap (h : list obj) (s : state) : state :=
  mkState h (log s) (opened s) (sys_path s) (os_environ s).
Definition add_log (l : log_level) (m : log_msg) (s : state) : state :=
  mkState (heap s) (log s ++ [(l, m)]) (opened s) (sys_path s) (os_environ s).
Definition add_opened (p : string) (s : state) : state :=
  mkState (heap s) (log s) (opened s ++ [p]) (sys_path s) (os_environ s).
Definition set_sys_path (sp : list string) (s : state) : state :=
  mkState (heap s) (log s) (opened s) sp (os_environ s).
Definition set_os_environ_field (e : list (string * string)) (s : state)
  : state :=
  mkState (heap s) (log s) (opened s) (sys_path s) e.

(** A call returns a value, raises, or does not return within the fuel
    given to the recursive functions. *)
Inductive outcome (A : Type) : Type :=
  | Val (a : A)
  | Exc (e : exn)
  | Timeout.
Arguments Val {A} a.
Arguments Exc {A} e.
Arguments Timeout {A}.

Definition M (A : Type) : Type := state -> outcome A * state.

Definition ret {A} (a : A) : M A := fun s => (Val a, s).
Definition raise {A} (e : exn) : M A := fun s => (Exc e, s).
Definition timeout {A} : M A := fun s => (Timeout, s).
Definition bind {A B} (m : M A) (f : A -> M B) : M B :=
  fun s =>
    match m s with
    | (Val a, s') => f a s'
    | (Exc e, s') => (Exc e, s')
    | (Timeout, s') => (Timeout, s')
    end.

Notation "'do' x <- m ; k" := (bind m (fun x => k))
  (at level 10, x name, m at level 100, k at level 200, only parsing).
Notation "'do' ' p <- m ; k" := (bind m (fun x => let 'p := x in k))
  (at level 10, p pattern, m at level 100, k at level 200, only parsing).

(** [try: m except e: h] *)
Definition try_except {A} (m : M A) (e : exn) (h : M A) : M A :=
  fun s =>
    match m s with
    | (Exc e', s') => if decide (e' = e) then h s' else (Exc e', s')
    | r => r
    end.

(** A [for] loop over a snapshot of the items. *)
Fixpoint for_each {A} (l : list A) (body : A -> M unit) : M unit :=
  match l with
  | [] => ret tt
  | x :: l' => do _ <- body x; for_each l' body
  end.

Definition get_state : M state := fun s => (Val s, s).
Definition modify (f : state -> state) : M unit := fun s => (Val tt, f s).
Definition log_info (m : log_msg) : M unit := modify (add_log LInfo m).
Definition log_warning (m : log_msg) : M unit := modify (add_log LWarning m).
Definition log_error (m : log_msg) : M unit := modify (add_log LError m).

(** ** Operations on objects *)

Definition deref (v : value) (s : state) : option obj :=
  match v with
  | VRef a => heap s !! a
  | _ => None
  end.

(** A new object; its address is the next free one. *)
Definition alloc (o : obj) : M value :=
  fun s => (Val (VRef (length (heap s))), set_heap (heap s ++ [o]) s).

Definition store (a : addr) (o : obj) : M unit :=
  modify (fun s => set_heap (<[a := o]> (heap s)) s).

(** [isinstance(v, dict)] *)
Definition is_dict (v : value) (s : state) : bool :=
  match deref v s with Some (ODict _) => true | _ => false end.

(** [len(v)] for a dict or a list. *)
Definition len_of (v : value) (s : state) : nat :=
  match deref v s with
  | Some (ODict d) => length d
  | Some (OList l) => length l
  | None => 0
  end.

(** [not v] is [negb (truthy v)]. *)
Definition truthy (v : value) (s : state) : bool :=
  match v with
  | VNone => false
  | VBool b => b
  | VInt z => negb (Z.eqb z 0)
  | VStr x => negb (String.eqb x "")
  | VFunc _ => true
  | VRef a =>
      match heap s !! a with
      | Some (ODict []) | Some (OList []) => false
      | _ => true
      end
  end.

(** [y == x] where one side is a scalar; two containers are compared by
    identity. *)
Definition py_eq (y x : value) : bool :=
  match to_key y, to_key x with
  | Some a, Some b => bool_decide (a = b)
  | _, _ => bool_decide (y = x)
  end.

(** [v == "text"] *)
Definition eq_str (v : value) (x : string) : bool :=
  match v with VStr y => String.eqb y x | _ => false end.

(** [iter(v)], taken as a snapshot: the elements of a list, the keys of a
    dict, the characters of a string. *)
Definition py_iter (v : value) : M (list value) :=
  fun s =>
    match v, deref v s with
    | _, Some (OList l) => (Val l, s)
    | _, Some (ODict d) => (Val (map (fun kv => of_key (fst kv)) d), s)
    | VStr x, _ =>
        (Val (map (fun c => VStr (String c EmptyString))
                  (list_ascii_of_string x)), s)
    | _, _ => (Exc TypeError, s)
    end.

(** [x in c] *)
Definition py_contains (x : value) (c : value) : M bool :=
  fun s =>
    match c, deref c s with
    | _, Some (ODict d) =>
        match to_key x with
        | Some k => (Val (dict_has d k), s)
        | None => (Exc TypeError, s)
        end
    | _, Some (OList l) =>
        (Val (existsb (fun y => py_eq y x) l), s)
    | VStr y, _ =>
        match x with
        | VStr x' => (Val (str_contains y x'), s)
        | _ => (Exc TypeError, s)
        end
    | _, _ => (Exc TypeError, s)
    end.

(** [c[k]] *)
Definition py_getitem (c : value) (k : value) : M value :=
  fun s =>
    match deref c s with
    | Some (ODict d) =>
        match to_key k with
        | Some k' =>
            match dict_get d k' with
            | Some v => (Val v, s)
            | None => (Exc KeyError, s)
            end
        | None => (Exc TypeError, s)
        end
    | Some (OList l) =>
        match k with
        | VInt z =>
            let n := length l in
            let i := if Z.ltb z 0 then (z + Z.of_nat n)%Z else z in
            if Z.ltb i 0 then (Exc IndexError, s)
            else match l !! Z.to_nat i with
                 | Some v => (Val v, s)
                 | None => (Exc IndexError, s)
                 end
        | _ => (Exc TypeError, s)
        end
    | None => (Exc TypeError, s)
    end.

(** [c[k] = v] *)
Definition py_setitem (c : value) (k : value) (v : value) : M unit :=
  fun s =>
    match c, deref c s with
    | VRef a, Some (ODict d) =>
        match to_key k with
        | Some k' =>
            (Val tt, set_heap (<[a := ODict (dict_set d k' v)]> (heap s)) s)
        | None => (Exc TypeError, s)
        end
    | _, _ => (Exc TypeError, s)
    end.

(** [c.get(k, default)] *)
Definition py_get (c : value) (k : value) (default : value) : M value :=
  fun s =>
    match deref c s with
    | Some (ODict d) =>
        match to_key k with
        | Some k' =>
            match dict_get d k' with
            | Some v => (Val v, s)
            | None => (Val default, s)
            end
        | None => (Exc TypeError, s)
        end
    | _ => (Exc AttributeError, s)
    end.

(** [c.items()], as a snapshot. *)
Definition py_items (c : value) : M (list (value * value)) :=
  fun s =>
    match deref c s with
    | Some (ODict d) => (Val (map (fun kv => (of_key (fst kv), snd kv)) d), s)
    | _ => (Exc AttributeError, s)
    end.

(** [c.popitem()] *)
Definition py_popitem (c : value) : M (value * value) :=
  fun s =>
    match c, deref c s with
    | VRef a, Some (ODict d) =>
        match dict_popitem d with
        | Some (k, v, rest) =>
            (Val (of_key k, v), set_heap (<[a := ODict rest]> (heap s)) s)
        | None => (Exc KeyError, s)
        end
    | _, _ => (Exc AttributeError, s)
    end.

(** [l.append(v)] *)
Definition py_append (l : value) (v : value) : M unit :=
  fun s =>
    match l, deref l s with
    | VRef a, Some (OList xs) =>
        (Val tt, set_heap (<[a := OList (xs ++ [v])]> (heap s)) s)
    | _, _ => (Exc AttributeError, s)
    end.

(** [c.update(other)]: a mapping is merged pair by pair; any other
    iterable must yield two-element iterables. *)
Definition py_update (c : value) (other : value) : M unit :=
  fun s =>
    match deref other s with
    | Some (ODict o) =>
        match c, deref c s with
        | VRef a, Some (ODict d) =>
            (Val tt, set_heap (<[a := ODict (dict_update d o)]> (heap s)) s)
        | _, _ => (Exc AttributeError, s)
        end
    | _ =>
        (do items <- py_iter other;
         for_each items (fun item =>
           do kv <- py_iter item;
           match kv with
           | [k; v] => py_setitem c k v
           | _ => raise ValueError
           end)) s
    end.

(** [range(n)] as a number of iterations. *)
Definition py_range (n : value) : M nat :=
  match n with
  | VInt z => ret (Z.to_nat z)
  | VBool b => ret (if b then 1 else 0)
  | _ => raise TypeError
  end.

(** ** Documents: what a parser returns

    The value [yaml.load] or [json.load] returns is a finite tree; the
    keys of a mapping are distinct.  [build] makes the objects of such a
    tree, children first, all of them new. *)

#[warnings="-register-all"]
Inductive doc : Type :=
  | DNone
  | DBool (b : bool)
  | DInt (z : Z)
  | DStr (s : string)
  | DList (l : list doc)
  | DDict (d : list (key * doc)).

Section build_all.
Context {A B : Type} (f : A -> list obj -> B * list obj).

Fixpoint build_all (l : list A) (h : list obj) : list B * list obj :=
  match l with
  | [] => ([], h)
  | x :: l' =>
      let '(y, h1) := f x h in
      let '(ys, h2) := build_all l' h1 in
      (y :: ys, h2)
  end.

End build_all.

Fixpoint build (d : doc) (h : list obj) : value * list obj :=
  match d with
  | DNone => (VNone, h)
  | DBool b => (VBool b, h)
  | DInt z => (VInt z, h)
  | DStr x => (VStr x, h)
  | DList l =>
      let '(vs, h') := build_all build l h in
      (VRef (length h'), h' ++ [OList vs])
  | DDict kd =>
      let '(kvs, h') :=
        build_all (fun kx h0 => let '(v, h1) := build (snd kx) h0 in
                                ((fst kx, v), h1)) kd h in
      (VRef (length h'), h' ++ [ODict kvs])
  end.

Definition build_doc (d : doc) : M value :=
  fun s => let '(v, h') := build d (heap s) in (Val v, set_heap h' s).

(** The tree a value stands for, read through at most [fuel] levels of
    objects; [None] when the structure is deeper (or cyclic). *)
Fixpoint doc_of (fuel : nat) (h : list obj) (v : value) : option doc :=
  match v with
  | VNone => Some DNone
  | VBool b => Some (DBool b)
  | VInt z => Some (DInt z)
  | VStr x => Some (DStr x)
  | VFunc _ => None
  | VRef a =>
      match fuel with
      | O => None
      | S n =>
          match h !! a with
          | Some (OList l) => DList <$> mapM (doc_of n h) l
          | Some (ODict d) =>
              DDict <$> mapM (fun kv => pair (fst kv) <$> doc_of n h (snd kv)) d
          | None => None
          end
      end
  end.

(** Modelled from the spec: [utils.deepcopy_dict] is not part of this file;
    the spec says the cached definition "is deep-copied before attachment".
    The copy is a new tree of objects equal in structure to the one read.
    A structure that is not a finite tree of JSON values is outside the
    model ([RecursionError]). *)
Definition deepcopy_dict (data : value) : M value :=
  fun s =>
    match doc_of (length (heap s)) (heap s) data with
    | Some d => build_doc d s
    | None => (Exc RecursionError, s)
    end.

(** Modelled from the spec: [utils.set_os_environ] is not part of this
    file; "keys are also exported to the surrounding process
    environment". *)
Definition set_os_environ (variables_mapping : value) : M unit :=
  fun s =>
    match deref variables_mapping s with
    | Some (ODict d) =>
        for_each d (fun kv =>
          match kv with
          | (KStr variable, VStr x) =>
              modify (fun s0 =>
                set_os_environ_field ((variable, x) :: os_environ s0) s0)
          | _ => raise TypeError
          end) s
    | _ => (Exc AttributeError, s)
    end.

(** Modelled from the spec: [validator.is_function] is not part of this
    file; the function mapping holds "every exposed top-level callable". *)
Definition is_function (item : value) : bool :=
  match item with VFunc _ => true | _ => false end.

(** ** The world outside the module *)

(** What reading a file as csv comes to: [io.open] raises, or the file is
    opened and the reader yields its rows and then ends, or raises while
    it is iterated. *)
Inductive csv_reading : Type :=
  | CsvOpenError (e : exn)
  | CsvRows (rows : list doc) (err : option exn).

Record world : Type := mkWorld {
  (* os, os.path *)
  getcwd : string;
  sep : string;
  path_exists : string -> bool;
  isfile : string -> bool;
  isdir : string -> bool;
  isabs : string -> bool;
  join : string -> string -> string;
  dirname : string -> string;
  abspath : string -> string;
  splitext : string -> string * string;
  walk : string -> list (string * list string * list string);
  (* the content of a file, through the reader that is applied to it *)
  yaml_load : string -> option doc;       (* [None]: the parser raises *)
  json_load : string -> option doc;       (* [None]: JSONDecodeError *)
  csv_DictReader : string -> csv_reading;
  readlines : string -> list string;      (* the lines, line ends kept *)
  (* importlib.import_module, given sys.path: the module's attributes *)
  import_module : list string -> string -> option (list (string * value));
  built_in : list (string * value);       (* httprunner.built_in *)
  (* httprunner.parser.parse_data *)
  parse_data : value -> value -> value -> M value
}.

(** The two module-level dictionaries are the first objects of the heap;
    the names are never rebound. *)
Definition project_mapping : value := VRef 0.
Definition tests_def_mapping : value := VRef 1.

Definition init_heap : list obj :=
  [ ODict [];
    ODict [(KStr "api", VRef 2); (KStr "testcases", VRef 3)];
    ODict [];
    ODict [] ].

Definition init_state : state := mkState init_heap [] [] [] [].

Section Loader.
Context (W : world).

(** ** file loader *)

Definition _check_format (file_path : string) (content : value) : M unit :=
  do s <- get_state;
  if negb (truthy content s) then
    do _ <- log_error (MsgContentEmpty file_path);
    raise FileFormatError
  else if negb (match deref content s with Some _ => true | None => false end)
  then
    do _ <- log_error (MsgContentInvalid file_path);
    raise FileFormatError
  else ret tt.

Definition load_yaml_file (yaml_file : string) : M value :=
  do _ <- modify (add_opened yaml_file);
  match yaml_load W yaml_file with
  | None => raise YAMLError
  | Some d =>
      do yaml_content <- build_doc d;
      do _ <- _check_format yaml_file yaml_content;
      ret yaml_content
  end.

Definition load_json_file (json_file : string) : M value :=
  do _ <- modify (add_opened json_file);
  match json_load W json_file with
  | None =>
      do _ <- log_error (MsgJSONDecodeError json_file);
      raise FileFormatError
  | Some d =>
      do json_content <- build_doc d;
      do _ <- _check_format json_file json_content;
      ret json_content
  end.

Definition load_csv_file (csv_file : string) : M value :=
  do csv_content_list <- alloc (OList []);
  match csv_DictReader W csv_file with
  | CsvOpenError e => raise e
  | CsvRows rows err =>
      do _ <- modify (add_opened csv_file);
      do _ <- for_each rows (fun r =>
                do row <- build_doc r;
                py_append csv_content_list row);
      match err with
      | Some e => raise e
      | None => ret csv_content_list
      end
  end.

Definition load_file (file_path : string) : M value :=
  if negb (isfile W file_path) then raise FileNotFound
  else
    let file_suffix := lower (snd (splitext W file_path)) in
    if decide (file_suffix = ".json") then load_json_file file_path
    else if bool_decide (file_suffix ∈ [".yaml"; ".yml"]) then
      load_yaml_file file_path
    else if decide (file_suffix = ".csv") then load_csv_file file_path
    else
      do _ <- log_warning (MsgUnsupportedFormat file_path);
      alloc (OList []).

(** [folder_path] is one path, or a list or set of paths. *)
Inductive folder_arg : Type :=
  | OnePath (folder_path : string)
  | ManyPaths (folder_paths : list string).

Definition load_folder_files_path (folder_path : string) (recursive : bool)
  : list string :=
  if negb (path_exists W folder_path) then []
  else
    let dirs := walk W folder_path in
    flat_map
      (fun '(dirpath, _, filenames) =>
         let filenames_list :=
           filter (fun filename =>
                     endswith filename ".yml" || endswith filename ".yaml"
                     || endswith filename ".json") filenames in
         map (fun filename => join W dirpath filename) filenames_list)
      (if recursive then dirs else take 1 dirs).

(** The iteration order of [set(folder_path)] is Python's choice; here it
    is the order of first occurrence. *)
Definition load_folder_files (folder_path : folder_arg) (recursive : bool)
  : list string :=
  match folder_path with
  | ManyPaths ps =>
      flat_map (fun path => load_folder_files_path path recursive)
               (remove_dups ps)
  | OnePath p => load_folder_files_path p recursive
  end.

(** The body of the [for line in fp] loop of [load_dot_env_file]. *)
Definition dot_env_line (env_variables_mapping : value) (line : string)
  : M unit :=
  do '(variable, x) <-
    (if has_char "=" line then
       match split_once "=" line with
       | Some p => ret p | None => raise ValueError end
     else if has_char ":" line then
       match split_once ":" line with
       | Some p => ret p | None => raise ValueError end
     else raise FileFormatError);
  py_setitem env_variables_mapping (VStr (strip variable)) (VStr (strip x)).

Definition load_dot_env_file (dot_env_path : string) : M value :=
  if negb (isfile W dot_env_path) then alloc (ODict [])
  else
    do _ <- log_info (MsgLoadingEnv dot_env_path);
    do env_variables_mapping <- alloc (ODict []);
    do _ <- modify (add_opened dot_env_path);
    do _ <- for_each (readlines W dot_env_path)
              (dot_env_line env_variables_mapping);
    do _ <- set_os_environ env_variables_mapping;
    ret env_variables_mapping.

Fixpoint locate_file (fuel : nat) (start_path file_name : string)
  : M string :=
  match fuel with
  | O => timeout
  | S fuel' =>
      do start_dir_path <-
        (if isfile W start_path then ret (dirname W start_path)
         else if isdir W start_path then ret start_path
         else raise FileNotFound);
      let file_path := join W start_dir_path file_name in
      if isfile W file_path then ret (abspath W file_path)
      else if bool_decide (abspath W start_dir_path
                             ∈ [getcwd W; abspath W (sep W)])
      then raise FileNotFound
      else locate_file fuel' (dirname W start_dir_path) file_name
  end.

(** ** debugtalk.py module loader *)

Definition load_module_functions (module : list (string * value))
  : M value :=
  do module_functions <- alloc (ODict []);
  do _ <- for_each module (fun '(name, item) =>
            if is_function item then
              py_setitem module_functions (VStr name) item
            else ret tt);
  ret module_functions.

Definition load_builtin_functions : M value :=
  load_module_functions (built_in W).

Definition load_debugtalk_functions : M value :=
  do s <- get_state;
  match import_module W (sys_path s) "debugtalk" with
  | Some imported_module => load_module_functions imported_module
  | None => raise ImportError
  end.

(** ** testcase loader *)

Definition _get_api_definition (name : value) : M value :=
  try_except
    (do api <- py_getitem tests_def_mapping (VStr "api");
     do block <- py_getitem api name;
     deepcopy_dict block)
    KeyError
    (raise ApiNotFound).

(** [os.path.join(a, b)] on two Python values. *)
Definition py_join (a b : value) : M string :=
  match a, b with
  | VStr x, VStr y => ret (join W x y)
  | _, _ => raise TypeError
  end.

(** [load_teststep] and [load_testcase] call each other; each body is
    written over the other function, and the knot is tied on the fuel. *)
Definition load_teststep_with (load_testcase : value -> M value)
    (raw_stepinfo : value) : M value :=
  do has_api <- py_contains (VStr "api") raw_stepinfo;
  if has_api then
    (* reference api *)
    do api_name <- py_getitem raw_stepinfo (VStr "api");
    do api_def <- _get_api_definition api_name;
    do _ <- py_setitem raw_stepinfo (VStr "api_def") api_def;
    ret raw_stepinfo
  else
  do has_func <- py_contains (VStr "func") raw_stepinfo;
  if has_func then ret raw_stepinfo
  else
  do has_testcase <- py_contains (VStr "testcase") raw_stepinfo;
  if has_testcase then
    (* reference testcase *)
    do testcase_path <- py_getitem raw_stepinfo (VStr "testcase");
    do testcases <- py_getitem tests_def_mapping (VStr "testcases");
    do cached <- py_contains testcase_path testcases;
    do testcase_dict <-
      (if negb cached then
         do pwd <- py_getitem project_mapping (VStr "PWD");
         do testcase_path <- py_join pwd testcase_path;
         do raw_testcase <- load_file testcase_path;
         do testcase_dict <- load_testcase raw_testcase;
         do _ <- py_setitem tests_def_mapping (VStr testcase_path)
                            testcase_dict;
         ret testcase_dict
       else py_getitem tests_def_mapping testcase_path);
    do _ <- py_setitem raw_stepinfo (VStr "testcase_def") testcase_dict;
    ret raw_stepinfo
  else
    (* define directly *)
    ret raw_stepinfo.

(** The body of the [for item in raw_testcase] loop of [load_testcase]. *)
Definition testcase_item (load_teststep : value -> M value)
    (config teststeps item : value) : M unit :=
  do s <- get_state;
  if negb (is_dict item s) || negb (Nat.eqb (len_of item s) 1) then
    raise FileFormatError
  else
  do '(key, test_block) <- py_popitem item;
  do s <- get_state;
  if negb (is_dict test_block s) then raise FileFormatError
  else if eq_str key "config" then py_update config test_block
  else if eq_str key "test" then
    do teststep <- load_teststep test_block;
    py_append teststeps teststep
  else log_warning (MsgUnexpectedBlockKey key).

Definition load_testcase_with (load_teststep : value -> M value)
    (raw_testcase : value) : M value :=
  do config <- alloc (ODict []);
  do teststeps <- alloc (OList []);
  do items <- py_iter raw_testcase;
  do _ <- for_each items (testcase_item load_teststep config teststeps);
  alloc (ODict [(KStr "config", config); (KStr "teststeps", teststeps)]).

Fixpoint load_testcase (fuel : nat) (raw_testcase : value) : M value :=
  match fuel with
  | O => timeout
  | S fuel' =>
      load_testcase_with (load_teststep_with (load_testcase fuel'))
                         raw_testcase
  end.

Definition load_teststep (fuel : nat) (raw_stepinfo : value) : M value :=
  load_teststep_with (load_testcase fuel) raw_stepinfo.

Definition load_folder_content (folder_path : string) : M value :=
  do items_mapping <- alloc (ODict []);
  do _ <- for_each (load_folder_files (OnePath folder_path) true)
            (fun file_path =>
               do content <- load_file file_path;
               py_setitem items_mapping (VStr file_path) content);
  ret items_mapping.

(** The body of the [for api_item in api_items] loop of
    [load_api_folder]. *)
Definition api_item_step (api_definition_mapping api_item : value)
  : M unit :=
  do '(key, api_dict) <- py_popitem api_item;
  do api_id <- py_get api_dict (VStr "id") VNone;
  do duplicated <- py_contains api_id api_definition_mapping;
  do _ <- (if duplicated then log_warning (MsgApiDuplicated api_id)
           else ret tt);
  py_setitem api_definition_mapping api_id api_dict.

Definition load_api_folder (api_folder_path : string) : M value :=
  do api_definition_mapping <- alloc (ODict []);
  do api_items_mapping <- load_folder_content api_folder_path;
  do files <- py_items api_items_mapping;
  do _ <- for_each files (fun '(api_file_path, api_items) =>
            do items <- py_iter api_items;
            for_each items (api_item_step api_definition_mapping));
  ret api_definition_mapping.

Definition load_debugtalk_py (fuel : nat) (start_path : string)
  : M (string * value) :=
  try_except
    (do debugtalk_path <- locate_file fuel start_path "debugtalk.py";
     let project_working_directory := dirname W debugtalk_path in
     do _ <- modify (fun s =>
               set_sys_path (project_working_directory :: sys_path s) s);
     do debugtalk_functions <- load_debugtalk_functions;
     ret (project_working_directory, debugtalk_functions))
    FileNotFound
    (let project_working_directory := getcwd W in
     do _ <- modify (fun s =>
               set_sys_path (project_working_directory :: sys_path s) s);
     do debugtalk_functions <- alloc (ODict []);
     ret (project_working_directory, debugtalk_functions)).

Definition load_project_tests (fuel : nat) (test_path : string)
    (dot_env_path : option string) : M unit :=
  do '(project_working_directory, debugtalk_functions) <-
    load_debugtalk_py fuel test_path;
  do _ <- py_setitem project_mapping (VStr "PWD")
                     (VStr project_working_directory);
  do _ <- py_setitem project_mapping (VStr "functions") debugtalk_functions;
  let dot_env_path :=
    match dot_env_path with
    | Some p => if decide (p = "") then join W project_working_directory ".env"
                else p
    | None => join W project_working_directory ".env"
    end in
  do env <- load_dot_env_file dot_env_path;
  do _ <- py_setitem project_mapping (VStr "env") env;
  do api <- load_api_folder (join W project_working_directory "api");
  py_setitem tests_def_mapping (VStr "api") api.

(** The inner function of [load_tests]. *)
Definition load_test_file (fuel : nat) (path : string) : M value :=
  do raw_testcase <- load_file path;
  try_except
    (do testcase <- load_testcase fuel raw_testcase;
     do config <- py_getitem testcase (VStr "config");
     do _ <- py_setitem config (VStr "path") (VStr path);
     ret testcase)
    FileFormatError
    (alloc (ODict [])).

(** The body of the [for path in files_list] loop of [load_tests]. *)
Definition load_tests_item (fuel : nat) (testcases_list : value)
    (path : string) : M unit :=
  do testcase <- load_test_file fuel path;
  do s <- get_state;
  if negb (truthy testcase s) then ret tt
  else py_append testcases_list testcase.

Definition load_tests (fuel : nat) (path : string)
    (dot_env_path : option string) : M value :=
  if negb (path_exists W path) then
    do _ <- log_error (MsgPathNotExist path);
    raise FileNotFound
  else
  let path := if negb (isabs W path) then join W (getcwd W) path else path in
  do _ <- load_project_tests fuel path dot_env_path;
  do tests_mapping <-
    alloc (ODict [(KStr "project_mapping", project_mapping)]);
  do testcases_list <- alloc (OList []);
  do _ <-
    (if isdir W path then
       let files_list := load_folder_files (OnePath path) true in
       for_each files_list (load_tests_item fuel testcases_list)
     else if isfile W path then
       do testcase <- load_test_file fuel path;
       do s <- get_state;
       if truthy testcase s then py_append testcases_list testcase
       else ret tt
     else ret tt);
  do _ <- py_setitem tests_mapping (VStr "testcases") testcases_list;
  ret tests_mapping.

(** The body of the [for item in raw_testcase] loop of
    [load_locust_tests]. *)
Definition locust_item (fuel : nat) (config tests item : value) : M unit :=
  do '(key, test_block) <- py_popitem item;
  if eq_str key "config" then py_update config test_block
  else if eq_str key "test" then
    do teststep <- load_teststep fuel test_block;
    do weight <- py_get test_block (VStr "weight") (VInt 1);
    do n <- py_range weight;
    for_each (seq 0 n) (fun _ => py_append tests teststep)
  else ret tt.

Definition load_locust_tests (fuel : nat) (path : string)
    (dot_env_path : option string) : M value :=
  do raw_testcase <- load_file path;
  do _ <- load_project_tests fuel path dot_env_path;
  do config <- alloc (ODict []);
  do tests <- alloc (OList []);
  do items <- py_iter raw_testcase;
  do _ <- for_each items (locust_item fuel config tests);
  (* parse config variables *)
  do empty_list <- alloc (OList []);
  do raw_config_variables <- py_get config (VStr "variables") empty_list;
  do empty_dict <- alloc (ODict []);
  do functions <- py_getitem project_mapping (VStr "functions");
  do config_variables <-
    parse_data W raw_config_variables empty_dict functions;
  (* parse config name *)
  do name <- py_get config (VStr "name") (VStr "");
  do functions <- py_getitem project_mapping (VStr "functions");
  do parsed_name <- parse_data W name config_variables functions;
  do _ <- py_setitem config (VStr "name") parsed_name;
  (* parse config request *)
  do empty_dict <- alloc (ODict []);
  do request <- py_get config (VStr "request") empty_dict;
  do functions <- py_getitem project_mapping (VStr "functions");
  do parsed_request <- parse_data W request config_variables functions;
  do _ <- py_setitem config (VStr "request") parsed_request;
  alloc (ODict [(KStr "config", config); (KStr "tests", tests)]).

End Loader.

(** ** A POSIX world over a table of files

    The functions of [posixpath] on strings, and a file system given by
    the list of its directories (in the order [os.walk] visits them) and
    the table of its files.  The theorems below hold for every [world];
    this one is used to run the loader on concrete projects. *)

Definition slash : ascii := "/"%char.
Definition is_slash (c : ascii) : bool := Ascii.eqb c slash.

Fixpoint drop_while {A} (p : A -> bool) (l : list A) : list A :=
  match l with
  | x :: l' => if p x then drop_while p l' else l
  | [] => []
  end.

Fixpoint take_while {A} (p : A -> bool) (l : list A) : list A :=
  match l with
  | x :: l' => if p x then x :: take_while p l' else []
  | [] => []
  end.

(** [posixpath.join(a, b)] *)
Definition posix_join (a b : string) : string :=
  if String.prefix "/" b then b
  else if decide (a = "") then b
  else if endswith a "/" then a +:+ b
  else a +:+ "/" +:+ b.

(** [posixpath.dirname(p)] *)
Definition posix_dirname (p : string) : string :=
  let r := rev (list_ascii_of_string p) in
  let head := drop_while (fun c => negb (is_slash c)) r in
  string_of_list_ascii
    (rev (if forallb is_slash head then head else drop_while is_slash head)).

(** [posixpath.basename(p)] *)
Definition posix_basename (p : string) : string :=
  string_of_list_ascii
    (rev (take_while (fun c => negb (is_slash c))
                     (rev (list_ascii_of_string p)))).

Definition posix_isabs (p : string) : bool := String.prefix "/" p.

(** [posixpath.splitext(p)]: the extension starts at the last dot of the
    last component, unless only dots come before it. *)
Definition posix_splitext (p : string) : string * string :=
  let r := rev (list_ascii_of_string p) in
  let base := take_while (fun c => negb (is_slash c)) r in
  let is_dot c := Ascii.eqb c "."%char in
  let ext := take_while (fun c => negb (is_dot c)) base in
  let stem := drop_while (fun c => negb (is_dot c)) base in
  match stem with
  | _ :: before =>
      if forallb is_dot before then (p, "")
      else (string_of_list_ascii (rev (drop (S (length ext)) r)),
            string_of_list_ascii ("."%char :: rev ext))
  | [] => (p, "")
  end.

(** The components of a path between slashes. *)
Fixpoint components (l : list ascii) (cur : list ascii)
  : list (list ascii) :=
  match l with
  | [] => [rev cur]
  | c :: l' =>
      if is_slash c then rev cur :: components l' []
      else components l' (c :: cur)
  end.

(** [posixpath.normpath(p)] *)
Definition posix_normpath (p : string) : string :=
  if decide (p = "") then "."
  else
    let initial_slashes :=
      if String.prefix "/" p then
        if String.prefix "//" p && negb (String.prefix "///" p) then 2 else 1
      else 0 in
    let dotdot := [".";"."]%char in
    let new_comps :=
      fold_left
        (fun acc comp =>
           if decide (comp = []) then acc
           else if decide (comp = ["."%char]) then acc
           else if negb (bool_decide (comp = dotdot))
                   || (Nat.eqb initial_slashes 0
                       && bool_decide (acc = []))
                   || bool_decide (head acc = Some dotdot)
           then comp :: acc
           else tail acc)
        (components (list_ascii_of_string p) []) [] in
    let body :=
      string_of_list_ascii
        (concat (match rev new_comps with
                 | [] => []
                 | c :: cs => c :: map (fun x => slash :: x) cs
                 end)) in
    let path :=
      string_of_list_ascii (repeat slash initial_slashes) +:+ body in
    if decide (path = "") then "." else path.

Inductive file : Type :=
  | FDoc (d : doc)                        (* parses to [d] *)
  | FBad                                  (* the parser rejects it *)
  | FCsv (rows : list doc)
  | FLines (lines : list string)
  | FModule (attrs : list (string * value)).

Fixpoint lookup_file (files : list (string * file)) (p : string)
  : option file :=
  match files with
  | [] => None
  | (q, f) :: files' => if decide (q = p) then Some f else lookup_file files' p
  end.

Definition posix_world (cwd : string) (dirs : list string)
    (files : list (string * file)) : world :=
  let abspath p :=
    posix_normpath (if posix_isabs p then p else posix_join cwd p) in
  let file_at p := lookup_file files (abspath p) in
  let isdir p := bool_decide (abspath p ∈ dirs) in
  let parsed p := match file_at p with Some (FDoc d) => Some d | _ => None end in
  {| getcwd := cwd;
     sep := "/";
     path_exists p := isdir p || bool_decide (is_Some (file_at p));
     isfile p := bool_decide (is_Some (file_at p));
     isdir := isdir;
     isabs := posix_isabs;
     join := posix_join;
     dirname := posix_dirname;
     abspath := abspath;
     splitext := posix_splitext;
     walk top :=
       map (fun d =>
              (d,
               map posix_basename
                   (filter (fun d' => bool_decide (posix_dirname d' = d
                                                   /\ d' <> d)) dirs),
               map (fun qf => posix_basename (fst qf))
                   (filter (fun qf => bool_decide
                                        (posix_dirname (fst qf) = d)) files)))
           (filter (fun d => bool_decide (d = abspath top)
                             || String.prefix (abspath top +:+ "/") d) dirs);
     yaml_load := parsed;
     json_load := parsed;
     csv_DictReader p :=
       match file_at p with
       | Some (FCsv rows) => CsvRows rows None
       | Some FBad => CsvRows [] (Some UnicodeDecodeError)
       | Some _ => CsvRows [] None
       | None => CsvOpenError IOError
       end;
     readlines p :=
       match file_at p with Some (FLines lines) => lines | _ => [] end;
     import_module sp name :=
       head (omap (fun d =>
                     match lookup_file files
                             (abspath (posix_join d (name +:+ ".py"))) with
                     | Some (FModule attrs) => Some attrs
                     | _ => None
                     end) sp);
     built_in := [];
     parse_data data _ _ := ret data |}.

(** ** Definitions used to state the properties *)

Section SpecDefs.
Context (W : world).

(** The directory [n] levels above [d], by [os.path.dirname]. *)
Fixpoint ancestor (n : nat) (d : string) : string :=
  match n with
  | O => d
  | S n' => ancestor n' (dirname W d)
  end.

(** A directory (not a file) that does not hold [file_name]. *)
Definition dir_without (file_name d : string) : Prop :=
  isfile W d = false /\ isdir W d = true
  /\ isfile W (join W d file_name) = false.

(** The working directory or the root: where the upward search stops. *)
Definition is_boundary (d : string) : Prop :=
  abspath W d ∈ [getcwd W; abspath W (sep W)].

#[global] Instance is_boundary_dec d : Decision (is_boundary d).
Proof. unfold is_boundary. apply _. Defined.

End SpecDefs.

(** What a line of the environment file contributes, in the words of the
    interface: the text before and after the first [=], or the first [:]
    when there is no [=], both stripped. *)
Definition env_pair (line : string) : option (string * string) :=
  match split_once "=" line with
  | Some (variable, x) => Some (strip variable, strip x)
  | None =>
      match split_once ":" line with
      | Some (variable, x) => Some (strip variable, strip x)
      | None => None
      end
  end.

(** The mapping after the lines before the first malformed one, and
    whether every line was well formed. *)
Fixpoint env_fold (lines : list string) (d : list (key * value))
  : list (key * value) * bool :=
  match lines with
  | [] => (d, true)
  | line :: lines' =>
      match env_pair line with
      | Some (variable, x) =>
          env_fold lines' (dict_set d (KStr variable) (VStr x))
      | None => (d, false)
      end
  end.

(** The pairs [set_os_environ] exports, latest first. *)
Definition env_exports (d : list (key * value)) : list (string * string) :=
  rev (omap (fun kv => match kv with
                       | (KStr variable, VStr x) => Some (variable, x)
                       | _ => None
                       end) d).

Definition str_pair (kv : key * value) : Prop :=
  match kv with (KStr _, VStr _) => True | _ => False end.

(** The line feed that ends a line of a text file. *)
Definition LF : string := String (ascii_of_nat 10) EmptyString.

(** A project [/w/p] with its anchor, below the working directory [/w]. *)
Definition anchor_world : world :=
  posix_world "/w" ["/"; "/w"; "/w/p"; "/w/p/tests"; "/w/q"; "/w/q/tests"]
    [("/w/p/debugtalk.py", FModule []);
     ("/w/p/.env", FLines ["A=1" +:+ LF; "B:2" +:+ LF]);
     ("/w/q/.env", FLines ["A=1" +:+ LF; "C" +:+ LF; "B:2" +:+ LF])].

(** A project with a testcase [sub.yml] that two steps refer to, and a
    folder of testcase files, one of them empty and one with a block that
    is not a mapping. *)
Definition sub_yml : doc :=
  DList [DDict [(KStr "config", DDict [(KStr "name", DStr "sub")])]].

Definition good_yml : doc :=
  DList [DDict [(KStr "config", DDict [(KStr "name", DStr "good")])];
         DDict [(KStr "test", DDict [(KStr "name", DStr "step");
                                     (KStr "request", DDict [])])]].

Definition bad_blocks_yml : doc :=
  DList [DDict [(KStr "config", DDict [(KStr "name", DStr "bad")])];
         DStr "oops"].

Definition login_yml : doc :=
  DList [DDict [(KStr "api",
                 DDict [(KStr "id", DStr "login");
                        (KStr "request", DDict [(KStr "url", DStr "/login")]);
                        (KStr "validate", DList [])])]].

Definition project_world : world :=
  posix_world "/w"
    ["/"; "/w"; "/w/p"; "/w/p/api"; "/w/p/suite"; "/w/p/broken"]
    [("/w/p/debugtalk.py", FModule []);
     ("/w/p/api/login.yml", FDoc login_yml);
     ("/w/p/sub.yml", FDoc sub_yml);
     ("/w/p/suite/bad.yml", FDoc bad_blocks_yml);
     ("/w/p/suite/good.yml", FDoc good_yml);
     ("/w/p/broken/empty.yml", FDoc DNone);
     ("/w/p/broken/good.yml", FDoc good_yml)].

(** The state after the project was loaded. *)
Definition project_state : state :=
  snd (load_project_tests project_world 5 "/w/p" None init_state).

Definition step_doc (name : string) : doc :=
  DDict [(KStr "name", DStr name); (KStr "testcase", DStr "sub.yml")].

(** Two steps that refer to the same testcase file, resolved one after
    the other; the result is the pair of the attached testcases. *)
Definition resolve_twice : M (value * value) :=
  do step1 <- build_doc (step_doc "first");
  do step2 <- build_doc (step_doc "second");
  do r1 <- load_teststep project_world 5 step1;
  do r2 <- load_teststep project_world 5 step2;
  do def1 <- py_getitem r1 (VStr "testcase_def");
  do def2 <- py_getitem r2 (VStr "testcase_def");
  ret (def1, def2).

(** ** Trees of objects *)

Fixpoint doc_depth (d : doc) : nat :=
  match d with
  | DList l => S (list_max (map doc_depth l))
  | DDict kd => S (list_max (map (fun kx => doc_depth (snd kx)) kd))
  | _ => 0
  end.

(** [v] stands for the tree [d] in the heap [h]. *)
Definition denotes (h : list obj) (v : value) (d : doc) : Prop :=
  exists n, doc_of n h v = Some d.

(** Two heaps hold the same objects at the addresses from [lo] up to
    [hi]. *)
Definition same_on (lo hi : nat) (h' h : list obj) : Prop :=
  forall a, lo <= a < hi -> h' !! a = h !! a.

(** References at or above [lo]; scalars are not restricted. *)
Definition val_ge (lo : nat) (v : value) : Prop :=
  match v with VRef a => lo <= a | _ => True end.

Definition obj_ge (lo : nat) (o : obj) : Prop :=
  match o with
  | ODict d => Forall (fun kv => val_ge lo (snd kv)) d
  | OList l => Forall (val_ge lo) l
  end.

(** The dictionary [tests_def_mapping["api"]] of a state. *)
Definition api_cache (s : state) (cache : list (key * value)) : Prop :=
  exists top A,
    heap s !! 1 = Some (ODict top)
    /\ dict_get top (KStr "api") = Some (VRef A)
    /\ heap s !! A = Some (ODict cache).

(** The loaded project with one more object, a step that refers to the
    api [name]. *)
Definition api_step_state (name : string) : state :=
  snd (build_doc (DDict [(KStr "name", DStr "s"); (KStr "api", DStr name)])
                 project_state).

(** The definition of the api [login] as a tree. *)
Definition login_def : doc :=
  DDict [(KStr "id", DStr "login");
         (KStr "request", DDict [(KStr "url", DStr "/login")]);
         (KStr "validate", DList [])].

(** ** Frames

    What a call leaves alone.  The objects a file is parsed into are
    new, and the entries [test] and [config] of a block lead to objects of
    the same file; this is what keeps a nested [load_testcase] inside the
    objects of its own file. *)

Definition obj_closed (lo : nat) (o : obj) : Prop :=
  match o with
  | ODict d =>
      forall k x, (k, VRef x) ∈ d ->
                  k = KStr "test" \/ k = KStr "config" -> lo <= x
  | OList _ => True
  end.

Definition region_closed (lo : nat) (h : list obj) : Prop :=
  forall a o, lo <= a -> h !! a = Some o -> obj_closed lo o.

Definition items_in_region (lo : nat) (h : list obj) (raw : value) : Prop :=
  match raw with
  | VRef a =>
      match h !! a with
      | Some (OList l) => Forall (val_ge lo) l
      | _ => True
      end
  | _ => True
  end.

(** No object below [lo] changes, [tests_def_mapping] apart. *)
Definition frame (lo : nat) (h h' : list obj) : Prop :=
  length h <= length h'
  /\ forall a, a < lo -> a <> 1 -> h' !! a = h !! a.

(** What [load_teststep] does to the step dictionary itself. *)
Definition step_effect (d d' : list (key * value)) : Prop :=
  if dict_has d (KStr "api") then
    exists x, d' = dict_set d (KStr "api_def") x
  else if dict_has d (KStr "func") then d' = d
  else if dict_has d (KStr "testcase") then
    exists x, d' = dict_set d (KStr "testcase_def") x
  else d' = d.

(** [h'] is [h] followed by new objects that refer to new objects only. *)
Definition grows (h h' : list obj) : Prop :=
  (exists new, h' = h ++ new)
  /\ forall a o, length h <= a -> h' !! a = Some o -> obj_ge (length h) o.

(** The two halves of the induction on the fuel: a nested
    [load_testcase] that is given the objects of a file stays within the
    region above [lo]; so does [load_teststep] on a step of the region. *)
Definition testcase_ok (rec : value -> M value) : Prop :=
  forall raw s v s' lo,
    rec raw s = (Val v, s') ->
    2 <= lo -> lo <= length (heap s) ->
    region_closed lo (heap s) -> items_in_region lo (heap s) raw ->
    frame lo (heap s) (heap s') /\ region_closed lo (heap s').

Definition teststep_ok (step : value -> M value) : Prop :=
  forall b s v s' lo,
    step b s = (Val v, s') ->
    2 <= lo -> lo <= length (heap s) ->
    region_closed lo (heap s) -> val_ge lo b ->
    frame lo (heap s) (heap s') /\ region_closed lo (heap s') /\ v = b.

(** ** Consumed blocks *)

(** A dictionary with at most one entry, none of them a reference that
    [load_teststep] resolves. *)
Definition inert (d : list (key * value)) : Prop :=
  length d <= 1
  /\ dict_has d (KStr "api") = false
  /\ dict_has d (KStr "testcase") = false.

Definition small (d : list (key * value)) : Prop := length d <= 1.

(** Among the objects below [n] and outside [ex], a dictionary that
    satisfies [ok] is left as it is or emptied. *)
Definition settles (ok : list (key * value) -> Prop) (ex : list nat)
    (n : nat) (h h' : list obj) : Prop :=
  length h <= length h'
  /\ forall a d, a < n -> a ∉ ex -> h !! a = Some (ODict d) -> ok d ->
       h' !! a = Some (ODict d) \/ h' !! a = Some (ODict []).

(** An element of a raw testcase that is a block to consume: an
    allocated dictionary, not one of [ex], that satisfies [ok]. *)
Definition block_item (ok : list (key * value) -> Prop) (ex : list nat)
    (n : nat) (h : list obj) (item : value) : Prop :=
  exists a d, item = VRef a /\ a < n /\ (a ∉ ex)
              /\ h !! a = Some (ODict d) /\ ok d.

Definition emptied (h : list obj) (item : value) : Prop :=
  exists a, item = VRef a /\ h !! a = Some (ODict []).

(** A load-test file: a config block, a step of weight 3 that refers to
    an api, and a step without weight. *)
Definition locust_yml : doc :=
  DList [DDict [(KStr "config", DDict [(KStr "name", DStr "load")])];
         DDict [(KStr "test", DDict [(KStr "name", DStr "a");
                                     (KStr "api", DStr "login");
                                     (KStr "weight", DInt 3)])];
         DDict [(KStr "test", DDict [(KStr "name", DStr "b");
                                     (KStr "request", DDict [])])]].

(** The raw content of a testcase file, parsed in the loaded project. *)
Definition raw_state (d : doc) : state := snd (build_doc d project_state).
Definition raw_addr (d : doc) : nat := length (heap (raw_state d)) - 1.

(** An api file with two definitions that have no id. *)
Definition no_id_yml : doc :=
  DList [DDict [(KStr "api", DDict [(KStr "request", DDict [])])];
         DDict [(KStr "api", DDict [(KStr "validate", DList [])])]].

(** A project whose api folder holds the file [no_id_yml]. *)
Definition no_id_world : world :=
  posix_world "/w" ["/"; "/w"; "/w/p"; "/w/p/api"]
    [("/w/p/debugtalk.py", FModule []);
     ("/w/p/api/defs.yml", FDoc no_id_yml)].

(** ** Labelled blocks *)

(** A block of a raw testcase as it lies in the heap: the one-entry
    dictionary [{key: body}], both parts objects. *)
Record block : Type := mkBlock {
  blk_item : nat;                       (* address of the block *)
  blk_key : key;                        (* its label *)
  blk_addr : nat;                       (* address of its body *)
  blk_body : list (key * value)         (* the body when the loop starts *)
}.

Definition block_at (h : list obj) (b : block) : Prop :=
  h !! blk_item b = Some (ODict [(blk_key b, VRef (blk_addr b))])
  /\ h !! blk_addr b = Some (ODict (blk_body b)).

Definition block_addrs (bs : list block) : list nat :=
  flat_map (fun b => [blk_item b; blk_addr b]) bs.

Definition block_items (bs : list block) : list value :=
  map (fun b => VRef (blk_item b)) bs.

Definition is_config (b : block) : bool :=
  bool_decide (blk_key b = KStr "config").
Definition is_test (b : block) : bool :=
  bool_decide (blk_key b = KStr "test").

(** The bodies of the config blocks, in file order. *)
Definition config_bodies (bs : list block) : list (list (key * value)) :=
  map blk_body (filter (fun b => is_config b = true) bs).

(** The steps of the test blocks, in file order. *)
Definition test_steps (bs : list block) : list value :=
  map (fun b => VRef (blk_addr b)) (filter (fun b => is_test b = true) bs).

(** The binding of [k] in the last dictionary of [ds] that has one. *)
Fixpoint last_binding (ds : list (list (key * value))) (k : key)
  : option value :=
  match ds with
  | [] => None
  | d :: ds' =>
      match last_binding ds' k with
      | Some v => Some v
      | None => dict_get d k
      end
  end.

(** Objects below the end of [h] and outside [keep] are the same in
    [h']. *)
Definition untouched (keep : list nat) (h h' : list obj) : Prop :=
  length h <= length h'
  /\ forall x, x < length h -> x ∉ keep -> h' !! x = h !! x.



(** A step that [load_teststep] returns as it is: no ["api"] entry, and
    a ["func"] entry or no ["testcase"] entry. *)
Definition direct_step (d : list (key * value)) : bool :=
  negb (dict_has d (KStr "api"))
  && (dict_has d (KStr "func") || negb (dict_has d (KStr "testcase"))).


(** A block whose step, if it is a ["test"] block, is defined directly;
    with a weight that [range] accepts. *)
Definition direct_block (b : block) : Prop :=
  is_test b = true -> direct_step (blk_body b) = true.


(** The testcase [load_testcase] assembles from the blocks [bs]: the
    config is the bodies of the config blocks merged from left to right,
    the steps are the bodies of the test blocks in file order. *)
Definition merged_testcase (bs : list block) (h : list obj) (v : value)
  : Prop :=
  exists tc c t,
    v = VRef tc
    /\ h !! tc
       = Some (ODict [(KStr "config", VRef c); (KStr "teststeps", VRef t)])
    /\ h !! c = Some (ODict (fold_left dict_update (config_bodies bs) []))
    /\ h !! t = Some (OList (test_steps bs)).

(** [parser.parse_data] is not part of this file.  What the loader needs
    of it: a call leaves the objects that are there as they are, and, for
    the loader to return, it returns. *)
Definition parse_data_frame (W : world) : Prop :=
  forall data variables functions s r s',
    parse_data W data variables functions s = (r, s') ->
    length (heap s) <= length (heap s')
    /\ forall x, x < length (heap s) -> heap s' !! x = heap s !! x.



(** ** The content of an api folder *)

(** The files of a folder as [load_folder_content] leaves them in the
    heap: the mapping at [m] binds each path to a list, the list of the
    labelled blocks of the file. *)
Definition folder_blocks (h : list obj) (m : nat)
    (fs : list (key * nat * list block)) : Prop :=
  h !! m = Some (ODict (map (fun f => (f.1.1, VRef f.1.2)) fs))
  /\ Forall (fun f => h !! f.1.2 = Some (OList (block_items f.2))
                      /\ Forall (block_at h) f.2) fs.

(** The blocks of all the files, in the order of the mapping. *)
Definition all_blocks (fs : list (key * nat * list block)) : list block :=
  flat_map snd fs.

(** [api_dict.get("id")] *)
Definition api_id (b : block) : value :=
  default VNone (dict_get (blk_body b) (KStr "id")).

(** The definitions by id after the blocks [bs], starting from [dm]: a
    later definition replaces an earlier one with the same id. *)
Definition api_mapping (bs : list block) (dm : list (key * value))
  : list (key * value) :=
  fold_left (fun dm b =>
               match to_key (api_id b) with
               | Some k => dict_set dm k (VRef (blk_addr b))
               | None => dm
               end) bs dm.

(** The warnings logged for the blocks [bs], starting from [dm]: one for
    each block whose id is bound already. *)
Fixpoint api_warnings (bs : list block) (dm : list (key * value))
  : list (log_level * log_msg) :=
  match bs with
  | [] => []
  | b :: bs' =>
      match to_key (api_id b) with
      | Some k =>
          (if dict_has dm k then [(LWarning, MsgApiDuplicated (api_id b))]
           else [])
          ++ api_warnings bs' (dict_set dm k (VRef (blk_addr b)))
      | None => []
      end
  end.

(** An id that can be a key of the mapping of definitions; a block
    without id has nothing to satisfy. *)
Definition hashable_id (b : block) : Prop :=
  forall x, dict_get (blk_body b) (KStr "id") = Some x -> is_Some (to_key x).

(** The blocks of [no_id_yml] as [load_folder_content] leaves them in
    the heap when [load_api_folder] is called in the initial state. *)
Definition no_id_files : list (key * nat * list block) :=
  [(KStr "/w/p/api/defs.yml", 12,
    [mkBlock 8 (KStr "api") 7 [(KStr "request", VRef 6)];
     mkBlock 11 (KStr "api") 10 [(KStr "validate", VRef 9)]])].


(** The file of the example: two config blocks. *)
Definition two_configs_yml : doc :=
  DList [DDict [(KStr "config", DDict [(KStr "name", DStr "x")])];
         DDict [(KStr "config", DDict [(KStr "name", DStr "y");
                                       (KStr "variables", DList [])])]].

(** The two blocks of [two_configs_yml] as they lie in
    [raw_state two_configs_yml]. *)
Definition two_configs_blocks : list block :=
  [mkBlock 14 (KStr "config") 13 [(KStr "name", VStr "x")];
   mkBlock 17 (KStr "config") 16
           [(KStr "name", VStr "y"); (KStr "variables", VRef 15)]].


(** A load-test file whose steps are defined directly. *)
Definition direct_yml : doc :=
  DList [DDict [(KStr "config", DDict [(KStr "name", DStr "direct")])];
         DDict [(KStr "test", DDict [(KStr "name", DStr "a");
                                     (KStr "request", DDict []);
                                     (KStr "weight", DInt 3)])];
         DDict [(KStr "test", DDict [(KStr "name", DStr "b");
                                     (KStr "request", DDict [])])]].

(** The project with two load-test files next to it. *)
Definition locust_world : world :=
  posix_world "/w"
    ["/"; "/w"; "/w/p"; "/w/p/api"]
    [("/w/p/debugtalk.py", FModule []);
     ("/w/p/api/login.yml", FDoc login_yml);
     ("/w/p/locust.yml", FDoc locust_yml);
     ("/w/p/direct.yml", FDoc direct_yml)].



(** The step of weight 3 of [locust_yml] once it is resolved. *)
Definition locust_step_a : doc :=
  DDict [(KStr "name", DStr "a"); (KStr "api", DStr "login");
         (KStr "weight", DInt 3);
         (KStr "api_def", login_def)].

(** What [build] makes: new objects after the old ones, which refer to
    new objects only, and from which the tree can be read back. *)
Definition built (d : doc) (h : list obj) (v : value) (h' : list obj)
  : Prop :=
  (exists new, h' = h ++ new)
  /\ val_ge (length h) v
  /\ (forall a o, length h <= a -> h' !! a = Some o -> obj_ge (length h) o)
  /\ (forall hx n, same_on (length h) (length h') hx h' ->
                   doc_depth d <= n -> doc_of n hx v = Some d).

(** Operations that only read the state. *)
Definition reads_only {A} (m : M A) : Prop :=
  forall s r s', m s = (r, s') -> s' = s.

(** ** Tactics for closed runs *)

Ltac not_in_list :=
  let H := fresh in
  intros H;
  repeat (apply elem_of_cons in H as [H|H]; [discriminate H|]);
  inversion H.

Ltac block_item_here :=
  eexists _, _; split; [reflexivity|];
  split; [vm_compute; lia|];
  split; [vm_compute; not_in_list|];
  split; [vm_compute; reflexivity|];
  repeat split; vm_compute; lia || reflexivity.

(** Runs a closed computation that returns, and names its result. *)
Ltac run_val H :=
  match goal with
  | |- exists u s', ?L = (Val u, s') /\ _ =>
      let u := fresh "u" in
      let e := fresh "e" in
      let s' := fresh "s'" in
      destruct L as [[u|e|] s'] eqn:H;
      [ exists u, s'; split; [reflexivity|]
      | vm_compute in H; discriminate H
      | vm_compute in H; discriminate H ]
  end.

(** ** Definitions for the properties of the other functions *)

(** A list or a dictionary with something in it: what [_check_format]
    lets through. *)
Definition is_nonempty_container (h : list obj) (v : value) : bool :=
  match v with
  | VRef a =>
      match h !! a with
      | Some (ODict (_ :: _)) | Some (OList (_ :: _)) => true
      | _ => false
      end
  | _ => false
  end.

(** The suffixes that [str.endswith] accepts in [load_folder_files]. *)
Definition artifact_name (filename : string) : bool :=
  endswith filename ".yml" || endswith filename ".yaml"
  || endswith filename ".json".

(** A folder with one file of each kind. *)
Definition files_world : world :=
  posix_world "/w" ["/"; "/w"; "/w/d"; "/w/d/sub"]
    [("/w/d/a.json", FDoc (DDict [(KStr "k", DInt 1)]));
     ("/w/d/b.YML", FDoc (DList [DStr "x"]));
     ("/w/d/empty.yml", FDoc (DList []));
     ("/w/d/scalar.yaml", FDoc (DStr "text"));
     ("/w/d/bad.json", FBad);
     ("/w/d/bad.yml", FBad);
     ("/w/d/rows.csv",
      FCsv [DDict [(KStr "username", DStr "test1");
                   (KStr "password", DStr "111111")];
            DDict [(KStr "username", DStr "test2");
                   (KStr "password", DStr "222222")]]);
     ("/w/d/none.csv", FCsv []);
     ("/w/d/bad.csv", FBad);
     ("/w/d/notes.txt", FLines ["hello"]);
     ("/w/d/sub/c.yaml", FDoc (DList [DInt 1]))].


(** The directory in which [locate_file] looks for a start path, and the
    directory it looks in [n] levels further up. *)
Definition start_dir (W : world) (start_path : string) : string :=
  if isfile W start_path then dirname W start_path else start_path.

Fixpoint search_dir (W : world) (n : nat) (start_path : string) : string :=
  match n with
  | O => start_dir W start_path
  | S n' => search_dir W n' (dirname W (start_dir W start_path))
  end.

(** The mapping [load_module_functions] builds from the attributes of a
    module, entered one after the other. *)
Definition module_dict (module : list (string * value))
    (d : list (key * value)) : list (key * value) :=
  fold_left (fun acc nv => if is_function (snd nv)
                           then dict_set acc (KStr (fst nv)) (snd nv)
                           else acc) module d.

(** A project whose [debugtalk.py] has two functions and a constant, and
    a folder without one. *)
Definition debugtalk_world : world :=
  posix_world "/w" ["/"; "/w"; "/w/p"; "/w/p/tests"; "/w/q"]
    [("/w/p/debugtalk.py",
      FModule [("setup", VFunc "setup"); ("VERSION", VStr "1.0");
               ("teardown", VFunc "teardown")]);
     ("/w/p/tests/t.yml", FDoc (DList [DDict [(KStr "config", DDict [])]]))].

(** The parts of the state outside the heap and the log: [sys.path] and
    [os.environ]. *)
Definition same_env (s s' : state) : Prop :=
  sys_path s' = sys_path s /\ os_environ s' = os_environ s.

(** What the mapping of [load_folder_content] holds after some of the
    files: their paths as keys and, for a parsed file, its document. *)
Definition content_of (W : world) (L : nat) (files : list string) (s : state) : Prop :=
  exists d,
    heap s !! L = Some (ODict d)
    /\ (forall k, dict_has d k = true <-> exists f, f ∈ files /\ k = KStr f)
    /\ forall f c,
         dict_get d (KStr f) = Some c ->
         lower (snd (splitext W f)) ∈ [".json"; ".yaml"; ".yml"] ->
         exists doc,
           (if decide (lower (snd (splitext W f)) = ".json")
            then json_load W f else yaml_load W f) = Some doc
           /\ forall hx, same_on (S L) (length (heap s)) hx (heap s) ->
                         denotes hx c doc.

(** A document that [_check_format] lets through. *)
Definition nonempty_doc (d : doc) : bool :=
  match d with
  | DList (_ :: _) | DDict (_ :: _) => true
  | _ => false
  end.

(** The files [load_file] returns for: a file that parses to a list or a
    dictionary that is not empty, a csv file that is opened and read to
    its end, a file with another suffix. *)
Definition loadable (W : world) (file_path : string) : bool :=
  isfile W file_path &&
  (let suffix := lower (snd (splitext W file_path)) in
   if decide (suffix = ".json") then
     match json_load W file_path with
     | Some d => nonempty_doc d
     | None => false
     end
   else if bool_decide (suffix ∈ [".yaml"; ".yml"]) then
     match yaml_load W file_path with
     | Some d => nonempty_doc d
     | None => false
     end
   else if decide (suffix = ".csv") then
     match csv_DictReader W file_path with
     | CsvRows _ None => true
     | _ => false
     end
   else true).

(** A step that refers to the testcase file [rel]: a dictionary at [b]
    with a ["testcase"] entry and no ["api"] or ["func"] entry, in a state
    where the project directory is [pwd] and the dictionary
    [tests_def_mapping["testcases"]] is the object at [t], with or
    without the key [rel]. *)
Record testcase_step (s : state) (b : nat) (d : list (key * value))
    (rel pwd : string) (td : list (key * value)) (t : nat) (cached : bool)
  : Prop := mkTestcaseStep {
  ts_step : heap s !! b = Some (ODict d);
  ts_no_api : dict_has d (KStr "api") = false;
  ts_no_func : dict_has d (KStr "func") = false;
  ts_testcase : dict_get d (KStr "testcase") = Some (VStr rel);
  ts_pwd : exists pm, heap s !! 0 = Some (ODict pm)
                      /\ dict_get pm (KStr "PWD") = Some (VStr pwd);
  ts_mapping : heap s !! 1 = Some (ODict td);
  ts_testcases : dict_get td (KStr "testcases") = Some (VRef t);
  ts_cached : exists tc, heap s !! t = Some (ODict tc)
                         /\ dict_has tc (KStr rel) = cached
}.

(** A state in which [tests_def_mapping["testcases"]] has the key
    [sub.yml]; [tests_def_mapping] itself has it too when [top] is set.
    The step at address 5 refers to that testcase. *)
Definition cached_state (top : bool) : state :=
  mkState
    [ ODict [(KStr "PWD", VStr "/w/p")];
      ODict ([(KStr "api", VRef 2); (KStr "testcases", VRef 3)]
             ++ if top then [(KStr "sub.yml", VRef 4)] else []);
      ODict [];
      ODict [(KStr "sub.yml", VRef 4)];
      ODict [(KStr "config", VRef 2); (KStr "teststeps", VRef 2)];
      ODict [(KStr "name", VStr "s"); (KStr "testcase", VStr "sub.yml")] ]
    [] [] [] [].

(** The loaded project with a step that refers to the testcase file
    [rel]. *)
Definition ref_step_state (rel : string) : state :=
  snd (build_doc (DDict [(KStr "name", DStr "s"); (KStr "testcase", DStr rel)])
                 project_state).

(** Checks [testcase_step] on a closed state. *)
Ltac testcase_step_here :=
  constructor;
  [ vm_compute; reflexivity | vm_compute; reflexivity
  | vm_compute; reflexivity | vm_compute; reflexivity
  | eexists; split; vm_compute; reflexivity
  | vm_compute; reflexivity | vm_compute; reflexivity
  | eexists; split; vm_compute; reflexivity ].

(** Raw testcases with a first block that is not as expected: a string,
    a block whose body is a string, a block with the key [setup]; and a
    step whose api reference is a list. *)
Definition scalar_block_yml : doc := DList [DStr "oops"].
Definition scalar_body_yml : doc := DList [DDict [(KStr "test", DStr "oops")]].
Definition setup_block_yml : doc := DList [DDict [(KStr "setup", DDict [])]].
Definition list_api_step : doc := DDict [(KStr "api", DList [DStr "login"])].

(** A project with a testcase file whose top level is a mapping. *)
Definition mapping_world : world :=
  posix_world "/w" ["/"; "/w"; "/w/p"]
    [("/w/p/single.yml",
      FDoc (DDict [(KStr "config", DDict [(KStr "name", DStr "x")])]))].

(** A state reached from another by loading: no object is gone, the log
    and the list of opened files have grown at the end, [sys.path] and
    [os.environ] are the same. *)
Definition extends (s s' : state) : Prop :=
  length (heap s) <= length (heap s')
  /\ log s `prefix_of` log s'
  /\ opened s `prefix_of` opened s'
  /\ sys_path s' = sys_path s
  /\ os_environ s' = os_environ s.

(** A computation that only extends the state, however it ends. *)
Definition steady {A} (m : M A) : Prop :=
  forall s r s', m s = (r, s') -> extends s s'.

(** A load-test block whose weight is written as a string. *)
Definition string_weight_yml : doc :=
  DList [DDict [(KStr "test", DDict [(KStr "name", DStr "a");
                                     (KStr "weight", DStr "3")])]].

(** The content of a testcase file with one step, which refers to the
    testcase file [rel]. *)
Definition referring_yml (rel : string) : doc :=
  DList [DDict [(KStr "test", DDict [(KStr "testcase", DStr rel)])]].

(** A project whose testcase [loop.yml] refers to itself. *)
Definition loop_world : world :=
  posix_world "/w" ["/"; "/w"; "/w/p"]
    [("/w/p/debugtalk.py", FModule []);
     ("/w/p/loop.yml", FDoc (referring_yml "loop.yml"))].

Definition loop_state : state :=
  snd (build_doc (DDict [(KStr "testcase", DStr "loop.yml")])
         (snd (load_project_tests loop_world 5 "/w/p" None init_state))).

(** * Properties *)

(** ** POSIX paths *)

Example posix_dirname_ex :
  map posix_dirname ["/a/b/c.yml"; "/a/b/"; "/a"; "/"; "a"; "//"]
  = ["/a/b"; "/a/b"; "/"; "/"; ""; "//"].
Proof. reflexivity. Qed.

Example posix_splitext_ex :
  map posix_splitext ["/p/t.YML"; "/p.d/t"; "/p/.env"; "a.tar.gz"]
  = [("/p/t", ".YML"); ("/p.d/t", ""); ("/p/.env", ""); ("a.tar", ".gz")].
Proof. reflexivity. Qed.

Example posix_normpath_ex :
  map posix_normpath ["/a/./b/../c/"; "a//b"; ""; "/.."; "../x"; "//a"]
  = ["/a/c"; "a/b"; "."; "/"; "../x"; "//a"].
Proof. reflexivity. Qed.


(** ** The state monad *)

Lemma bind_val {A B} (m : M A) (f : A -> M B) s a s' :
  m s = (Val a, s') -> bind m f s = f a s'.
Proof. unfold bind. intros ->. reflexivity. Qed.

Lemma bind_exc {A B} (m : M A) (f : A -> M B) s e s' :
  m s = (Exc e, s') -> bind m f s = (Exc e, s').
Proof. unfold bind. intros ->. reflexivity. Qed.

Lemma bind_timeout {A B} (m : M A) (f : A -> M B) s s' :
  m s = (Timeout, s') -> bind m f s = (Timeout, s').
Proof. unfold bind. intros ->. reflexivity. Qed.

Lemma set_heap_same s : set_heap (heap s) s = s.
Proof. destruct s; reflexivity. Qed.

(** ** locate_file *)

Section LocateFile.
Context (W : world).

Lemma locate_file_here fuel start_path file_name s :
  isfile W start_path = false ->
  isdir W start_path = true ->
  isfile W (join W start_path file_name) = true ->
  locate_file W (S fuel) start_path file_name s
  = (Val (abspath W (join W start_path file_name)), s).
Proof.
  intros Hf Hd Ha. simpl. unfold bind. rewrite Hf, Hd. simpl.
  rewrite Ha. reflexivity.
Qed.

Lemma locate_file_up fuel start_path file_name s :
  dir_without W file_name start_path ->
  ~ is_boundary W start_path ->
  locate_file W (S fuel) start_path file_name s
  = locate_file W fuel (dirname W start_path) file_name s.
Proof.
  intros (Hf & Hd & Ha) Hb. simpl. unfold bind. rewrite Hf, Hd. simpl.
  rewrite Ha. rewrite bool_decide_eq_false_2 by exact Hb. reflexivity.
Qed.

Lemma locate_file_boundary fuel start_path file_name s :
  dir_without W file_name start_path ->
  is_boundary W start_path ->
  locate_file W (S fuel) start_path file_name s = (Exc FileNotFound, s).
Proof.
  intros (Hf & Hd & Ha) Hb. simpl. unfold bind. rewrite Hf, Hd. simpl.
  rewrite Ha. rewrite bool_decide_eq_true_2 by exact Hb. reflexivity.
Qed.

Lemma locate_file_absent n : forall fuel start_path file_name s,
  (forall i, i <= n -> dir_without W file_name (ancestor W i start_path)) ->
  is_boundary W (ancestor W n start_path) ->
  n < fuel ->
  locate_file W fuel start_path file_name s = (Exc FileNotFound, s).
Proof.
  induction n as [|n IH]; intros fuel start_path file_name s Hall Hb Hfuel.
  - destruct fuel as [|fuel]; [lia|].
    apply locate_file_boundary; [apply (Hall 0); lia | exact Hb].
  - destruct fuel as [|fuel]; [lia|].
    destruct (decide (is_boundary W start_path)) as [Hb0|Hb0].
    + apply locate_file_boundary; [apply (Hall 0); lia | exact Hb0].
    + rewrite locate_file_up; [| apply (Hall 0); lia | exact Hb0].
      apply IH; [| exact Hb | lia].
      intros i Hi. apply (Hall (S i)). lia.
Qed.

(** C5.  [locate_file] started from a directory that directly holds the
    anchor file returns the absolute path of that file; started from a
    directory with no anchor at any level up to the working directory or
    the file system root, it raises [FileNotFound]; in a directory without
    the anchor that is neither of the two, it is the search from the
    directory one level up ([os.path.dirname]). *)
Theorem locate_file_spec (start_path file_name : string) (s : state) :
  isfile W start_path = false ->
  isdir W start_path = true ->
  (forall fuel,
      isfile W (join W start_path file_name) = true ->
      locate_file W (S fuel) start_path file_name s
      = (Val (abspath W (join W start_path file_name)), s))
  /\ (forall n fuel,
      (forall i, i <= n -> dir_without W file_name (ancestor W i start_path)) ->
      is_boundary W (ancestor W n start_path) ->
      n < fuel ->
      locate_file W fuel start_path file_name s = (Exc FileNotFound, s))
  /\ (forall fuel,
      isfile W (join W start_path file_name) = false ->
      ~ is_boundary W start_path ->
      locate_file W (S fuel) start_path file_name s
      = locate_file W fuel (dirname W start_path) file_name s).
Proof.
  intros Hf Hd. split; [|split].
  - intros fuel Ha. by apply locate_file_here.
  - intros n fuel Hall Hb Hfuel. by eapply locate_file_absent.
  - intros fuel Ha Hb. by apply locate_file_up.
Qed.

End LocateFile.

Lemma locate_file_spec_witness :
  locate_file anchor_world 1 "/w/p" "debugtalk.py" init_state
    = (Val "/w/p/debugtalk.py", init_state)
  /\ locate_file anchor_world 3 "/w/q/tests" "debugtalk.py" init_state
    = (Exc FileNotFound, init_state)
  /\ locate_file anchor_world 2 "/w/p/tests" "debugtalk.py" init_state
    = locate_file anchor_world 1 "/w/p" "debugtalk.py" init_state.
Proof.
  split; [|split].
  - destruct (locate_file_spec anchor_world "/w/p" "debugtalk.py" init_state
                eq_refl eq_refl) as (Hhere & _ & _).
    apply Hhere. reflexivity.
  - destruct (locate_file_spec anchor_world "/w/q/tests" "debugtalk.py"
                init_state eq_refl eq_refl) as (_ & Habsent & _).
    apply (Habsent 2); [| | lia].
    + intros i Hi.
      destruct i as [|[|[|i]]]; [vm_compute; auto .. | lia].
    + unfold is_boundary. vm_compute. apply list_elem_of_here.
  - destruct (locate_file_spec anchor_world "/w/p/tests" "debugtalk.py"
                init_state eq_refl eq_refl) as (_ & _ & Hup).
    apply Hup; [reflexivity |].
    unfold is_boundary. vm_compute. intros H.
    apply elem_of_cons in H as [H|H]; [discriminate H|].
    apply elem_of_cons in H as [H|H]; [discriminate H|].
    by apply elem_of_nil in H.
Defined.

(** ** load_dot_env_file *)

Lemma split_once_has_char c line :
  has_char c line = false <-> split_once c line = None.
Proof.
  induction line as [|c' line IH]; simpl; [done|].
  destruct (Ascii.eqb c' c); [split; discriminate|].
  rewrite IH. destruct (split_once c line) as [[l r]|]; split; done.
Qed.

Lemma env_pair_None line :
  env_pair line = None <->
  has_char "=" line = false /\ has_char ":" line = false.
Proof.
  unfold env_pair. rewrite !split_once_has_char.
  destruct (split_once "=" line) as [[??]|];
    destruct (split_once ":" line) as [[??]|]; intuition congruence.
Qed.

Lemma lookup_insert_obj (h : list obj) a (o o' : obj) :
  h !! a = Some o -> <[a := o']> h !! a = Some o'.
Proof.
  intros H. apply list_lookup_insert_eq. by eapply lookup_lt_Some.
Qed.

Lemma dot_env_line_run a line s d :
  heap s !! a = Some (ODict d) ->
  dot_env_line (VRef a) line s =
    match env_pair line with
    | Some (variable, x) =>
        (Val tt,
         set_heap (<[a := ODict (dict_set d (KStr variable) (VStr x))]>
                     (heap s)) s)
    | None => (Exc FileFormatError, s)
    end.
Proof.
  intros Ha. unfold dot_env_line, env_pair, bind.
  destruct (has_char "=" line) eqn:E1.
  - destruct (split_once "=" line) as [[l r]|] eqn:E2.
    + simpl. unfold py_setitem. simpl. rewrite Ha. reflexivity.
    + apply split_once_has_char in E2. congruence.
  - apply split_once_has_char in E1 as ->.
    destruct (has_char ":" line) eqn:E3.
    + destruct (split_once ":" line) as [[l r]|] eqn:E4.
      * simpl. unfold py_setitem. simpl. rewrite Ha. reflexivity.
      * apply split_once_has_char in E4. congruence.
    + apply split_once_has_char in E3 as ->. reflexivity.
Qed.

Lemma dot_env_loop_run a lines : forall s d,
  heap s !! a = Some (ODict d) ->
  for_each lines (dot_env_line (VRef a)) s =
    (if snd (env_fold lines d) then Val tt else Exc FileFormatError,
     set_heap (<[a := ODict (fst (env_fold lines d))]> (heap s)) s).
Proof.
  induction lines as [|line lines IH]; intros s d Ha; simpl.
  - rewrite list_insert_id by done. by rewrite set_heap_same.
  - unfold bind. rewrite (dot_env_line_run a line s d Ha).
    destruct (env_pair line) as [[variable x]|]; simpl.
    + erewrite IH by (simpl; by eapply lookup_insert_obj).
      simpl. by rewrite list_insert_insert_eq.
    + rewrite list_insert_id by done. by rewrite set_heap_same.
Qed.

Lemma env_fold_str_pairs lines : forall d,
  Forall str_pair d -> Forall str_pair (fst (env_fold lines d)).
Proof.
  induction lines as [|line lines IH]; intros d Hd; simpl; [done|].
  destruct (env_pair line) as [[variable x]|]; [|done].
  apply IH. clear IH. induction Hd as [|[k v] d Hk Hd IHd]; simpl.
  - by repeat constructor.
  - destruct (decide (k = KStr variable)); constructor; done.
Qed.

Lemma env_fold_all lines d :
  snd (env_fold lines d) = true <-> Forall (fun l => is_Some (env_pair l)) lines.
Proof.
  revert d. induction lines as [|line lines IH]; intros d; simpl.
  - split; [constructor | done].
  - destruct (env_pair line) as [[variable x]|] eqn:E.
    + rewrite IH. split; [intros H; constructor; eauto | by inversion 1].
    + split; [done|]. inversion 1 as [|?? [? Hs]]. congruence.
Qed.

Lemma set_os_environ_loop d : forall s,
  Forall str_pair d ->
  for_each d (fun kv =>
    match kv with
    | (KStr variable, VStr x) =>
        modify (fun s0 =>
          set_os_environ_field ((variable, x) :: os_environ s0) s0)
    | _ => raise TypeError
    end) s
  = (Val tt, set_os_environ_field (env_exports d ++ os_environ s) s).
Proof.
  induction d as [|[k v] d IH]; intros s Hd.
  - simpl. unfold ret. by destruct s.
  - inversion Hd as [|?? Hkv Hd']; subst.
    destruct k as [| |variable]; try done. destruct v as [| | |x| |]; try done.
    simpl. unfold bind, modify. rewrite IH by done. simpl.
    unfold env_exports. simpl. rewrite <- app_assoc. simpl.
    by destruct s.
Qed.

Section DotEnv.
Context (W : world).

(** The run of [load_dot_env_file] on an existing file. *)
Lemma load_dot_env_file_run dot_env_path s :
  isfile W dot_env_path = true ->
  let r := env_fold (readlines W dot_env_path) [] in
  load_dot_env_file W dot_env_path s =
    (if snd r then Val (VRef (length (heap s))) else Exc FileFormatError,
     mkState (heap s ++ [ODict (fst r)])
             (log s ++ [(LInfo, MsgLoadingEnv dot_env_path)])
             (opened s ++ [dot_env_path])
             (sys_path s)
             (if snd r then env_exports (fst r) ++ os_environ s
              else os_environ s)).
Proof.
  intros Hf r. unfold load_dot_env_file. rewrite Hf. simpl.
  unfold bind at 1. unfold log_info, modify at 1.
  unfold bind at 1. unfold alloc at 1. simpl.
  unfold bind at 1. unfold modify at 1.
  unfold bind at 1.
  rewrite (dot_env_loop_run _ _ _ []); simpl.
  2:{ rewrite lookup_app_r by lia. by rewrite Nat.sub_diag. }
  fold r.
  assert (Hins : <[length (heap s) := ODict (fst r)]> (heap s ++ [ODict []])
                 = heap s ++ [ODict (fst r)]).
  { rewrite insert_app_r_alt by lia. by rewrite Nat.sub_diag. }
  rewrite Hins.
  destruct (snd r) eqn:Hr; [|reflexivity].
  unfold bind, set_os_environ. simpl.
  rewrite lookup_app_r by lia. rewrite Nat.sub_diag. simpl.
  rewrite set_os_environ_loop by (apply env_fold_str_pairs; constructor).
  reflexivity.
Qed.

(** C6.  An environment file with the lines [A=1] and [B:2] yields the
    mapping [{"A": "1", "B": "2"}]; in general each line is split at its
    first [=], or at its first [:] when it has no [=], and the stripped
    halves are entered in file order; a file with a line that has neither
    separator makes [load_dot_env_file] raise [FileFormatError]. *)
Theorem load_dot_env_file_spec (dot_env_path : string) (s : state) :
  isfile W dot_env_path = true ->
  (readlines W dot_env_path = ["A=1" +:+ LF; "B:2" +:+ LF] ->
   exists s',
     load_dot_env_file W dot_env_path s = (Val (VRef (length (heap s))), s')
     /\ heap s' = heap s ++ [ODict [(KStr "A", VStr "1"); (KStr "B", VStr "2")]])
  /\ (Forall (fun line => is_Some (env_pair line)) (readlines W dot_env_path) ->
      exists s',
        load_dot_env_file W dot_env_path s = (Val (VRef (length (heap s))), s')
        /\ heap s' = heap s
             ++ [ODict (fst (env_fold (readlines W dot_env_path) []))])
  /\ (forall line,
        line ∈ readlines W dot_env_path ->
        has_char "=" line = false -> has_char ":" line = false ->
        exists s',
          load_dot_env_file W dot_env_path s = (Exc FileFormatError, s')).
Proof.
  intros Hf. pose proof (load_dot_env_file_run dot_env_path s Hf) as Hrun.
  simpl in Hrun. split; [|split].
  - intros Hl. rewrite Hl in Hrun. eexists. split; [exact Hrun|]. reflexivity.
  - intros Hall. apply env_fold_all with (d := []) in Hall.
    rewrite Hall in Hrun. eexists. split; [exact Hrun|]. reflexivity.
  - intros line Hin H1 H2.
    destruct (snd (env_fold (readlines W dot_env_path) [])) eqn:Hr.
    + apply env_fold_all in Hr. rewrite Forall_forall in Hr.
      destruct (Hr line Hin) as [p Hp].
      assert (env_pair line = None) by (by apply env_pair_None). congruence.
    + eexists. exact Hrun.
Qed.

End DotEnv.

Lemma load_dot_env_file_spec_witness :
  (exists s',
     load_dot_env_file anchor_world "/w/p/.env" init_state = (Val (VRef 4), s')
     /\ heap s' = init_heap
          ++ [ODict [(KStr "A", VStr "1"); (KStr "B", VStr "2")]])
  /\ (exists s',
        load_dot_env_file anchor_world "/w/q/.env" init_state
        = (Exc FileFormatError, s')).
Proof.
  split.
  - destruct (load_dot_env_file_spec anchor_world "/w/p/.env" init_state
                eq_refl) as (Hex & _ & _).
    apply Hex. reflexivity.
  - destruct (load_dot_env_file_spec anchor_world "/w/q/.env" init_state
                eq_refl) as (_ & _ & Hbad).
    apply (Hbad ("C" +:+ LF)); [| reflexivity | reflexivity].
    vm_compute. apply list_elem_of_further, list_elem_of_here.
Defined.

(** ** The testcase cache of load_teststep *)

(** C1.  The code does not do what the claim says.  Two steps that refer
    to [sub.yml] are resolved one after the other in the loaded project:
    the file is opened and parsed for each of them, the two steps get two
    different testcase objects, and the dictionary that is looked up,
    [tests_def_mapping["testcases"]], is still empty afterwards: the
    result of the first resolution was stored under the joined path in
    [tests_def_mapping] itself. *)
Theorem load_teststep_reparses :
  exists a1 a2 s',
    resolve_twice project_state = (Val (VRef a1, VRef a2), s')
    /\ a1 <> a2
    /\ opened s' = opened project_state ++ ["/w/p/sub.yml"; "/w/p/sub.yml"]
    /\ (exists t top,
          heap s' !! 1 = Some (ODict top)
          /\ dict_get top (KStr "testcases") = Some (VRef t)
          /\ heap s' !! t = Some (ODict [])
          /\ dict_get top (KStr "/w/p/sub.yml") = Some (VRef a2)).
Proof.
  eexists _, _, _. split; [vm_compute; reflexivity|].
  split; [discriminate|]. split; [reflexivity|].
  eexists _, _. repeat split; vm_compute; reflexivity.
Qed.

(** ** Directory-wide loading *)

Section LoadTests.
Context (W : world).

(** A [FileFormatError] of [load_file] itself is outside the [try] of
    [load_test_file]: it ends the loop over the files. *)
Lemma load_tests_item_load_file_error fuel testcases_list path rest e s s1 :
  load_file W path s = (Exc e, s1) ->
  for_each (path :: rest) (load_tests_item W fuel testcases_list) s
  = (Exc e, s1).
Proof.
  intros Hl. simpl. unfold bind at 1. unfold load_tests_item at 1.
  unfold bind at 1. unfold load_test_file. unfold bind at 1.
  by rewrite Hl.
Qed.

(** C2, amended.  In the loop of [load_tests] over the files of a
    directory, a file that [load_file] reads but whose assembly by
    [load_testcase] raises [FileFormatError] is skipped: [load_test_file]
    returns the empty testcase [{}], nothing is appended to the list of
    testcases, and the loop goes on with the remaining files. *)
Theorem load_tests_skips_malformed
    (fuel : nat) (testcases_list : value) (path : string)
    (rest : list string) (raw : value) (s s1 s2 : state) :
  load_file W path s = (Val raw, s1) ->
  load_testcase W fuel raw s1 = (Exc FileFormatError, s2) ->
  let s3 := set_heap (heap s2 ++ [ODict []]) s2 in
  load_test_file W fuel path s = (Val (VRef (length (heap s2))), s3)
  /\ load_tests_item W fuel testcases_list path s = (Val tt, s3)
  /\ for_each (path :: rest) (load_tests_item W fuel testcases_list) s
     = for_each rest (load_tests_item W fuel testcases_list) s3.
Proof.
  intros Hl Ht s3.
  assert (H1 : load_test_file W fuel path s
               = (Val (VRef (length (heap s2))), s3)).
  { unfold load_test_file. unfold bind at 1. rewrite Hl.
    unfold try_except. unfold bind at 1. rewrite Ht.
    rewrite decide_True by done. reflexivity. }
  assert (H2 : load_tests_item W fuel testcases_list path s = (Val tt, s3)).
  { unfold load_tests_item. unfold bind at 1. rewrite H1.
    unfold bind, get_state. unfold truthy. subst s3. simpl.
    rewrite lookup_app_r by lia. rewrite Nat.sub_diag. reflexivity. }
  split; [exact H1|]. split; [exact H2|].
  simpl. unfold bind at 1. by rewrite H2.
Qed.

End LoadTests.

(** C2 as stated fails: the folder [/w/p/broken] holds an empty YAML file,
    which fails the format validation of [load_file] with
    [FileFormatError]; [load_tests] on the folder raises that error and
    assembles nothing, although the other file of the folder is well
    formed. *)
Lemma load_tests_aborts_on_empty_file :
  load_folder_files project_world (OnePath "/w/p/broken") true
    = ["/w/p/broken/empty.yml"; "/w/p/broken/good.yml"]
  /\ fst (load_file project_world "/w/p/broken/empty.yml" project_state)
     = Exc FileFormatError
  /\ (exists v s', load_test_file project_world 5 "/w/p/broken/good.yml"
                     project_state = (Val v, s') /\ truthy v s' = true)
  /\ fst (load_tests project_world 5 "/w/p/broken" None init_state)
     = Exc FileFormatError.
Proof.
  split; [reflexivity|]. split; [reflexivity|].
  split; [|reflexivity].
  eexists _, _. split; vm_compute; reflexivity.
Qed.

(** The folder [/w/p/suite]: [bad.yml] has a block that is not a mapping,
    the loop skips it and assembles [good.yml]. *)
Lemma load_tests_skips_malformed_witness :
  let tl := VRef 100 in
  let s := project_state in
  let s1 := snd (load_file project_world "/w/p/suite/bad.yml" s) in
  let raw := VRef (length (heap s1) - 1) in
  let s2 := snd (load_testcase project_world 5 raw s1) in
  let s3 := set_heap (heap s2 ++ [ODict []]) s2 in
  load_test_file project_world 5 "/w/p/suite/bad.yml" s
    = (Val (VRef (length (heap s2))), s3)
  /\ load_tests_item project_world 5 tl "/w/p/suite/bad.yml" s = (Val tt, s3)
  /\ for_each ["/w/p/suite/bad.yml"; "/w/p/suite/good.yml"]
       (load_tests_item project_world 5 tl) s
     = for_each ["/w/p/suite/good.yml"] (load_tests_item project_world 5 tl) s3.
Proof.
  intros tl s s1 raw s2 s3.
  apply (load_tests_skips_malformed project_world 5 tl "/w/p/suite/bad.yml"
           ["/w/p/suite/good.yml"] raw s s1 s2).
  - vm_compute. reflexivity.
  - vm_compute. reflexivity.
Defined.

Example load_tests_suite :
  exists t s' good,
    load_tests project_world 5 "/w/p/suite" None init_state = (Val t, s')
    /\ doc_of 9 (heap s') t
       = Some (DDict
           [(KStr "project_mapping",
             DDict [(KStr "PWD", DStr "/w/p"); (KStr "functions", DDict []);
                    (KStr "env", DDict [])]);
            (KStr "testcases", DList [good])])
    /\ good = DDict
         [(KStr "config", DDict [(KStr "name", DStr "good");
                                 (KStr "path", DStr "/w/p/suite/good.yml")]);
          (KStr "teststeps", DList [DDict [(KStr "name", DStr "step");
                                           (KStr "request", DDict [])]])].
Proof.
  eexists _, _, _. split; [vm_compute; reflexivity|].
  split; vm_compute; reflexivity.
Qed.

(** ** Documents and their objects *)

Lemma doc_ind' (P : doc -> Prop) :
  P DNone -> (forall b, P (DBool b)) -> (forall z, P (DInt z)) ->
  (forall x, P (DStr x)) ->
  (forall l, Forall P l -> P (DList l)) ->
  (forall kd, Forall (fun kx => P (snd kx)) kd -> P (DDict kd)) ->
  forall d, P d.
Proof.
  intros HN HB HI HS HL HD.
  fix IH 1. intros [| b | z | x | l | kd];
    [apply HN | apply HB | apply HI | apply HS | |].
  - apply HL. induction l as [|d l IHl]; constructor; [apply IH | exact IHl].
  - apply HD. induction kd as [|[k d] kd IHkd]; constructor;
      [apply IH | exact IHkd].
Qed.

Lemma doc_of_mono n : forall m h v d,
  doc_of n h v = Some d -> n <= m -> doc_of m h v = Some d.
Proof.
  induction n as [|n IH]; intros m h v d Hd Hle.
  - destruct v; simpl in *; try done; destruct m; done.
  - destruct v as [| | | | |a]; simpl in *;
      try (destruct m; simpl; done).
    destruct m as [|m]; [lia|]. simpl.
    destruct (h !! a) as [[kvs|l]|]; [| |done].
    + destruct (mapM _ kvs) as [kd|] eqn:E; [|done]. simpl in Hd.
      assert (mapM (fun kv => pair kv.1 <$> doc_of m h kv.2) kvs = Some kd)
        as ->; [|done].
      apply mapM_Some. apply mapM_Some in E.
      eapply Forall2_impl; [exact E|]. intros [k v] [k' d'] Hv. simpl in *.
      destruct (doc_of n h v) as [dv|] eqn:Ev; [|done].
      erewrite IH; [exact Hv | exact Ev | lia].
    + destruct (mapM _ l) as [ds|] eqn:E; [|done]. simpl in Hd.
      assert (mapM (doc_of m h) l = Some ds) as ->; [|done].
      apply mapM_Some. apply mapM_Some in E.
      eapply Forall2_impl; [exact E|]. intros v d' Hv. simpl in *.
      eapply IH; [exact Hv | lia].
Qed.

(** A tree that is read in [h] is made of objects of [h] only. *)
Lemma doc_of_same_on n : forall h h' v d,
  doc_of n h v = Some d -> same_on 0 (length h) h' h ->
  doc_of n h' v = Some d.
Proof.
  induction n as [|n IH]; intros h h' v d Hd Hs.
  - destruct v; simpl in *; done.
  - destruct v as [| | | | |a]; simpl in *; try done.
    destruct (h !! a) as [o|] eqn:Ha; [|done].
    rewrite (Hs a) by (split; [lia | by eapply lookup_lt_Some]). rewrite Ha.
    destruct o as [kvs|l].
    + destruct (mapM _ kvs) as [kd|] eqn:E; [|done]. simpl in Hd.
      assert (mapM (fun kv => pair kv.1 <$> doc_of n h' kv.2) kvs = Some kd)
        as ->; [|done].
      apply mapM_Some. apply mapM_Some in E.
      eapply Forall2_impl; [exact E|]. intros [k v] [k' d'] Hv. simpl in *.
      destruct (doc_of n h v) as [dv|] eqn:Ev; [|done].
      erewrite IH; [exact Hv | exact Ev | exact Hs].
    + destruct (mapM _ l) as [ds|] eqn:E; [|done]. simpl in Hd.
      assert (mapM (doc_of n h') l = Some ds) as ->; [|done].
      apply mapM_Some. apply mapM_Some in E.
      eapply Forall2_impl; [exact E|]. intros v d' Hv. simpl in *.
      eapply IH; [exact Hv | exact Hs].
Qed.

Lemma same_on_app_l lo h new : same_on lo (length h) (h ++ new) h.
Proof. intros a Ha. apply lookup_app_l. lia. Qed.

Lemma same_on_trans lo hi h1 h2 h3 :
  same_on lo hi h1 h2 -> same_on lo hi h2 h3 -> same_on lo hi h1 h3.
Proof. intros H1 H2 a Ha. by rewrite H1, H2. Qed.

Lemma same_on_weaken lo hi lo' hi' h1 h2 :
  same_on lo hi h1 h2 -> lo <= lo' -> hi' <= hi -> same_on lo' hi' h1 h2.
Proof. intros H ?? a Ha. apply H. lia. Qed.

Lemma val_ge_weaken lo lo' v : val_ge lo v -> lo' <= lo -> val_ge lo' v.
Proof. destruct v; simpl; try done. lia. Qed.

Lemma obj_ge_weaken lo lo' o : obj_ge lo o -> lo' <= lo -> obj_ge lo' o.
Proof.
  intros H Hle. destruct o as [d|l]; simpl in *;
    (eapply Forall_impl; [exact H|]); simpl; intros x Hx;
    eapply val_ge_weaken; eauto.
Qed.

Lemma build_all_built {A B} (f : A -> list obj -> B * list obj)
    (body : A -> doc) (out : B -> value) (l : list A) :
  Forall (fun x => forall h y h', f x h = (y, h') ->
                     built (body x) h (out y) h') l ->
  forall h ys h',
    build_all f l h = (ys, h') ->
    (exists new, h' = h ++ new)
    /\ Forall (fun y => val_ge (length h) (out y)) ys
    /\ (forall a o, length h <= a -> h' !! a = Some o -> obj_ge (length h) o)
    /\ (forall hx, same_on (length h) (length h') hx h' ->
          Forall2 (fun y x => forall n, doc_depth (body x) <= n ->
                                doc_of n hx (out y) = Some (body x)) ys l).
Proof.
  induction 1 as [|x l Hx Hl IH]; intros h ys h' Hb; simpl in Hb.
  - inversion Hb; subst. split; [exists []; by rewrite app_nil_r|].
    split; [constructor|]. split; [|constructor].
    intros a o Ha Hlk. apply lookup_lt_Some in Hlk. lia.
  - destruct (f x h) as [y h1] eqn:Ef.
    destruct (build_all f l h1) as [ys' h2] eqn:Eb.
    inversion Hb; subst. clear Hb.
    destruct (Hx _ _ _ Ef) as ((n1 & ->) & Hv & Ho & Hd).
    destruct (IH _ _ _ Eb) as ((n2 & ->) & Hvs & Hos & Hds).
    assert (Hlen : length (h ++ n1) = length h + length n1)
      by apply length_app.
    split; [exists (n1 ++ n2); by rewrite app_assoc|].
    split; [constructor; [exact Hv|]|].
    { eapply Forall_impl; [exact Hvs|]. intros y' Hy'.
      eapply val_ge_weaken; [exact Hy'|]. lia. }
    split.
    + intros a o Ha Hlk.
      destruct (decide (a < length (h ++ n1))) as [Hlt|Hge].
      * rewrite lookup_app_l in Hlk by done. by eapply Ho.
      * eapply obj_ge_weaken; [eapply Hos; [|exact Hlk]|]; lia.
    + intros hx Hs.
      assert (Hlen2 : length ((h ++ n1) ++ n2) = length (h ++ n1) + length n2)
        by apply length_app.
      constructor.
      * intros n Hn. apply Hd; [|exact Hn].
        intros a Ha. rewrite Hs by lia. apply lookup_app_l. lia.
      * apply Hds. intros a Ha. apply Hs. lia.
Qed.

Lemma list_max_le_Forall (l : list nat) n :
  list_max l <= n -> Forall (fun x => x <= n) l.
Proof.
  induction l as [|x l IH]; simpl; [constructor|].
  intros H. constructor; [lia | apply IH; lia].
Qed.

Lemma build_all_keys kd : forall h kvs h',
  build_all (fun (kx : key * doc) h0 =>
               let '(v, h1) := build kx.2 h0 in ((kx.1, v), h1)) kd h
  = (kvs, h') ->
  Forall2 (fun (kv : key * value) (kx : key * doc) => kv.1 = kx.1) kvs kd.
Proof.
  induction kd as [|[k d] kd IH]; intros h kvs h' Eb; simpl in Eb.
  - inversion Eb. constructor.
  - destruct (build d h) as [v0 h0].
    destruct (build_all _ kd h0) as [kvs' h2] eqn:E2.
    inversion Eb; subst. constructor; [done|]. eapply IH. exact E2.
Qed.

Lemma build_built d : forall h v h', build d h = (v, h') -> built d h v h'.
Proof.
  induction d as [| b | z | x | l IHl | kd IHkd] using doc_ind';
    intros h v h' Hb; simpl in Hb.
  1-4: inversion Hb; subst; (split; [exists []; by rewrite app_nil_r|]);
       (split; [exact I|]);
       (split; [intros a o Ha Hlk; apply lookup_lt_Some in Hlk; lia
               | intros hx [|n] _ _; reflexivity]).
  - destruct (build_all build l h) as [vs h1] eqn:Eb.
    inversion Hb; subst. clear Hb.
    destruct (build_all_built build (fun d => d) (fun v => v) l IHl _ _ _ Eb)
      as ((new & ->) & Hvs & Hos & Hds).
    split; [exists (new ++ [OList vs]); by rewrite app_assoc|].
    split; [simpl; rewrite length_app; lia|].
    split.
    + intros a o Ha Hlk.
      destruct (decide (a < length (h ++ new))) as [Hlt|Hge].
      * rewrite lookup_app_l in Hlk by done. by eapply Hos.
      * rewrite lookup_app_r in Hlk by lia.
        destruct (a - length (h ++ new)) as [|i]; simpl in Hlk; [|done].
        inversion Hlk; subst. exact Hvs.
    + intros hx n Hs Hn. simpl in Hn. destruct n as [|n]; [lia|]. simpl.
      rewrite Hs by (rewrite !length_app; simpl; lia).
      rewrite lookup_app_r by lia. rewrite Nat.sub_diag. simpl.
      assert (mapM (doc_of n hx) vs = Some l) as ->; [|done].
      apply mapM_Some.
      assert (Hs' : same_on (length h) (length (h ++ new)) hx (h ++ new)).
      { intros a Ha. rewrite Hs by (rewrite length_app; simpl; lia).
        apply lookup_app_l. lia. }
      specialize (Hds hx Hs').
      assert (Hall' : Forall (fun d => doc_depth d <= n) l).
      { assert (Hn' : list_max (map doc_depth l) <= n) by lia.
        apply list_max_le_Forall in Hn'. by apply Forall_map in Hn'. }
      clear -Hds Hall'. induction Hds as [|v d vs l Hv Hds IH]; [constructor|].
      inversion Hall'; subst. constructor; [by apply Hv | by apply IH].
  - destruct (build_all _ kd h) as [kvs h1] eqn:Eb.
    inversion Hb; subst. clear Hb.
    assert (IH' : Forall (fun kx : key * doc => forall h y h',
                (let '(v, h1) := build kx.2 h in ((kx.1, v), h1)) = (y, h') ->
                built kx.2 h (y : key * value).2 h') kd).
    { eapply Forall_impl; [exact IHkd|]. intros [k d] Hd h0 y h0' Hy.
      simpl in *. destruct (build d h0) as [v0 h00] eqn:E0.
      inversion Hy; subst. simpl. by apply Hd. }
    destruct (build_all_built _ (fun kx => kx.2) (fun kv : key * value => kv.2)
                kd IH' _ _ _ Eb) as ((new & ->) & Hvs & Hos & Hds).
    split; [exists (new ++ [ODict kvs]); by rewrite app_assoc|].
    split; [simpl; rewrite length_app; lia|].
    split.
    + intros a o Ha Hlk.
      destruct (decide (a < length (h ++ new))) as [Hlt|Hge].
      * rewrite lookup_app_l in Hlk by done. by eapply Hos.
      * rewrite lookup_app_r in Hlk by lia.
        destruct (a - length (h ++ new)) as [|i]; simpl in Hlk; [|done].
        inversion Hlk; subst. exact Hvs.
    + intros hx n Hs Hn. simpl in Hn. destruct n as [|n]; [lia|]. simpl.
      rewrite Hs by (rewrite !length_app; simpl; lia).
      rewrite lookup_app_r by lia. rewrite Nat.sub_diag. simpl.
      assert (mapM (fun kv => pair kv.1 <$> doc_of n hx kv.2) kvs = Some kd)
        as ->; [|done].
      apply mapM_Some.
      assert (Hs' : same_on (length h) (length (h ++ new)) hx (h ++ new)).
      { intros a Ha. rewrite Hs by (rewrite length_app; simpl; lia).
        apply lookup_app_l. lia. }
      specialize (Hds hx Hs').
      assert (Hall' : Forall (fun kx : key * doc => doc_depth kx.2 <= n) kd).
      { assert (Hn' : list_max (map (fun kx : key * doc => doc_depth kx.2) kd)
                      <= n) by lia.
        apply list_max_le_Forall in Hn'. by apply Forall_map in Hn'. }
      pose proof (build_all_keys _ _ _ _ Eb) as Hkeys.
      clear -Hds Hall' Hkeys.
      induction Hds as [|kv kx kvs kd Hv Hds IH]; [constructor|].
      inversion Hall'; subst. inversion Hkeys; subst.
      constructor; [|by apply IH].
      rewrite Hv by done. simpl. destruct kv, kx; simpl in *; congruence.
Qed.

(** ** Api definitions *)

Lemma deepcopy_dict_run data d s :
  doc_of (length (heap s)) (heap s) data = Some d ->
  deepcopy_dict data s
  = (Val (build d (heap s)).1, set_heap (build d (heap s)).2 s).
Proof.
  intros Hd. unfold deepcopy_dict, build_doc. rewrite Hd.
  by destruct (build d (heap s)).
Qed.

Lemma get_api_definition_found name k cache blk d s :
  to_key name = Some k -> api_cache s cache ->
  dict_get cache k = Some blk ->
  doc_of (length (heap s)) (heap s) blk = Some d ->
  _get_api_definition name s
  = (Val (build d (heap s)).1, set_heap (build d (heap s)).2 s).
Proof.
  intros Hk (top & A & Htop & HA & Hc) Hblk Hd.
  unfold _get_api_definition, try_except, bind.
  unfold py_getitem at 1. simpl. rewrite Htop. simpl. rewrite HA.
  unfold py_getitem. simpl. rewrite Hc, Hk, Hblk.
  by rewrite (deepcopy_dict_run _ _ _ Hd).
Qed.

Lemma get_api_definition_absent name k cache s :
  to_key name = Some k -> api_cache s cache ->
  dict_get cache k = None ->
  _get_api_definition name s = (Exc ApiNotFound, s).
Proof.
  intros Hk (top & A & Htop & HA & Hc) Hblk.
  unfold _get_api_definition, try_except, bind.
  unfold py_getitem at 1. simpl. rewrite Htop. simpl. rewrite HA.
  unfold py_getitem. simpl. rewrite Hc, Hk, Hblk. reflexivity.
Qed.

Lemma api_cache_app s cache new :
  api_cache s cache -> api_cache (set_heap (heap s ++ new) s) cache.
Proof.
  intros (top & A & Htop & HA & Hc). exists top, A. simpl.
  split; [|split; [exact HA|]];
    (rewrite lookup_app_l; [done | by eapply lookup_lt_Some]).
Qed.

Lemma dict_has_get d k : dict_has d k = true <-> is_Some (dict_get d k).
Proof.
  unfold dict_has. destruct (dict_get d k); split; (done || by intros [??]).
Qed.

Section ApiDefinitions.
Context (W : world).

(** The api branch of [load_teststep], for a step that is a dictionary
    with an ["api"] entry. *)
Lemma load_teststep_api fuel b step name s :
  heap s !! b = Some (ODict step) ->
  dict_get step (KStr "api") = Some name ->
  load_teststep W fuel (VRef b) s =
    match _get_api_definition name s with
    | (Val v, s1) =>
        (Val (VRef b),
         set_heap (<[b := ODict (dict_set step (KStr "api_def") v)]> (heap s1))
                  s1)
    | (Exc e, s1) => (Exc e, s1)
    | (Timeout, s1) => (Timeout, s1)
    end.
Proof.
  intros Hb Hn. unfold load_teststep, load_teststep_with.
  unfold bind at 1. unfold py_contains at 1. simpl. rewrite Hb. simpl.
  unfold dict_has. rewrite Hn.
  unfold bind at 1. unfold py_getitem at 1. simpl. rewrite Hb. simpl.
  rewrite Hn.
  unfold bind at 1.
  destruct (_get_api_definition name s) as [[v|e|] s1] eqn:E; try reflexivity.
  assert (Hb1 : heap s1 !! b = Some (ODict step)).
  { revert E. unfold _get_api_definition, try_except, bind.
    destruct (py_getitem tests_def_mapping (VStr "api") s) as [[api|?|] s0] eqn:E0.
    2:{ destruct (decide _); [unfold raise|]; congruence. }
    2:{ congruence. }
    assert (s0 = s) as ->.
    { revert E0. unfold py_getitem. destruct (deref _ s) as [[?|?]|]; simpl;
        repeat case_match; congruence. }
    destruct (py_getitem api name s) as [[blk|?|] s0] eqn:E1.
    2:{ destruct (decide _); [unfold raise|]; congruence. }
    2:{ congruence. }
    assert (s0 = s) as ->.
    { revert E1. unfold py_getitem. destruct (deref _ s) as [[?|?]|]; simpl;
        repeat case_match; congruence. }
    unfold deepcopy_dict, build_doc.
    destruct (doc_of _ _ blk) as [d|].
    2:{ destruct (decide _); [unfold raise|]; congruence. }
    pose proof (build_built d (heap s) (build d (heap s)).1
                  (build d (heap s)).2) as Hbu.
    destruct (build d (heap s)) as [v' h'] eqn:Eb. simpl in Hbu.
    destruct (Hbu eq_refl) as ((new & ->) & _).
    intros [= <- <-]. simpl. rewrite lookup_app_l; [done|].
    by eapply lookup_lt_Some. }
  unfold bind, py_setitem. simpl. rewrite Hb1. reflexivity.
Qed.

(** C4.  A step block with an ["api"] entry whose value is an id (a
    hashable scalar): [load_teststep] raises [ApiNotFound] exactly when
    the id is not a key of the api cache; when it is, and the cached
    definition is a finite tree, the call returns the step with a copy of
    the definition attached as ["api_def"]. *)
Theorem load_teststep_api_found_iff
    (fuel : nat) (b : nat) (step : list (key * value)) (name : value)
    (k : key) (cache : list (key * value)) (s : state) :
  heap s !! b = Some (ODict step) ->
  dict_get step (KStr "api") = Some name ->
  to_key name = Some k ->
  api_cache s cache ->
  (forall blk, dict_get cache k = Some blk ->
               is_Some (doc_of (length (heap s)) (heap s) blk)) ->
  ((exists s', load_teststep W fuel (VRef b) s = (Exc ApiNotFound, s'))
   <-> dict_get cache k = None)
  /\ (forall blk, dict_get cache k = Some blk ->
        exists v s' d,
          load_teststep W fuel (VRef b) s = (Val (VRef b), s')
          /\ heap s' !! b = Some (ODict (dict_set step (KStr "api_def") v))
          /\ doc_of (length (heap s)) (heap s) blk = Some d
          /\ denotes (heap s') v d).
Proof.
  intros Hb Hn Hk Hc Hfin.
  pose proof (load_teststep_api fuel b step name s Hb Hn) as Hrun.
  assert (Hfound : forall blk, dict_get cache k = Some blk ->
        exists v s' d,
          load_teststep W fuel (VRef b) s = (Val (VRef b), s')
          /\ heap s' !! b = Some (ODict (dict_set step (KStr "api_def") v))
          /\ doc_of (length (heap s)) (heap s) blk = Some d
          /\ denotes (heap s') v d).
  { intros blk Hblk. destruct (Hfin blk Hblk) as [d Hd].
    rewrite (get_api_definition_found name k cache blk d s Hk Hc Hblk Hd)
      in Hrun.
    pose proof (build_built d (heap s) (build d (heap s)).1
                  (build d (heap s)).2) as Hbu.
    destruct (build d (heap s)) as [v h'] eqn:Eb. simpl in *.
    destruct (Hbu eq_refl) as ((new & ->) & Hv & Ho & Hread).
    eexists v, _, d. split; [exact Hrun|]. simpl.
    assert (Hlt : b < length (heap s)) by (by eapply lookup_lt_Some).
    split; [apply list_lookup_insert_eq; rewrite length_app; lia|].
    split; [exact Hd|].
    exists (doc_depth d). apply Hread; [|done].
    intros a Ha. apply list_lookup_insert_ne. lia. }
  split; [|exact Hfound].
  split.
  - intros [s' Hs']. destruct (dict_get cache k) as [blk|] eqn:Hblk; [|done].
    destruct (Hfound blk eq_refl) as (v & s'' & d & Hr & _). congruence.
  - intros Hnone.
    rewrite (get_api_definition_absent name k cache s Hk Hc Hnone) in Hrun.
    eauto.
Qed.

(** C3.  Two resolutions of an api id that is in the cache, one after the
    other.  Each returns new objects only; both results and the cached
    definition stand for the same tree; each of the three is made of its
    own objects (the cached one of objects that existed before, each copy
    of the objects its resolution made), so that changing any object of
    one copy changes neither what the other copy nor what the cached
    definition stands for.  [load_teststep] attaches what
    [_get_api_definition] returns. *)
Theorem api_definition_copies_independent
    (name : value) (k : key) (cache : list (key * value)) (blk : value)
    (d : doc) (s : state) :
  to_key name = Some k ->
  api_cache s cache ->
  dict_get cache k = Some blk ->
  doc_of (length (heap s)) (heap s) blk = Some d ->
  exists v1 n1 v2 n2,
    let s1 := set_heap (heap s ++ n1) s in
    let s2 := set_heap (heap s1 ++ n2) s1 in
    let lo := length (heap s) in
    let mid := length (heap s1) in
    let hi := length (heap s2) in
    _get_api_definition name s = (Val v1, s1)
    /\ _get_api_definition name s1 = (Val v2, s2)
    (* equal in structure *)
    /\ denotes (heap s2) v1 d /\ denotes (heap s2) v2 d
    /\ denotes (heap s2) blk d
    (* each owns its objects *)
    /\ (forall h', same_on 0 lo h' (heap s2) -> denotes h' blk d)
    /\ (forall h', same_on lo mid h' (heap s2) -> denotes h' v1 d)
    /\ (forall h', same_on mid hi h' (heap s2) -> denotes h' v2 d)
    (* a change to an object of one copy *)
    /\ (forall a o, lo <= a < mid ->
          denotes (<[a := o]> (heap s2)) v2 d
          /\ denotes (<[a := o]> (heap s2)) blk d)
    /\ (forall a o, mid <= a < hi ->
          denotes (<[a := o]> (heap s2)) v1 d
          /\ denotes (<[a := o]> (heap s2)) blk d)
    (* the step gets the copy *)
    /\ (forall fuel b step,
          heap s !! b = Some (ODict step) ->
          dict_get step (KStr "api") = Some name ->
          load_teststep W fuel (VRef b) s
          = (Val (VRef b),
             set_heap (<[b := ODict (dict_set step (KStr "api_def") v1)]>
                         (heap s1)) s1)).
Proof.
  intros Hk Hc Hblk Hd.
  pose proof (get_api_definition_found name k cache blk d s Hk Hc Hblk Hd)
    as Hrun1.
  pose proof (build_built d (heap s) (build d (heap s)).1
                (build d (heap s)).2) as Hbu1.
  destruct (build d (heap s)) as [v1 h1] eqn:Eb1. simpl in Hrun1, Hbu1.
  destruct (Hbu1 eq_refl) as ((n1 & ->) & Hv1 & Ho1 & Hread1). clear Hbu1.
  set (s1 := set_heap (heap s ++ n1) s) in *.
  assert (Hd1 : doc_of (length (heap s1)) (heap s1) blk = Some d).
  { eapply doc_of_mono; [eapply doc_of_same_on; [exact Hd|]|].
    - apply same_on_app_l.
    - simpl. rewrite length_app. lia. }
  pose proof (get_api_definition_found name k cache blk d s1 Hk
                (api_cache_app _ _ _ Hc) Hblk Hd1) as Hrun2.
  pose proof (build_built d (heap s1) (build d (heap s1)).1
                (build d (heap s1)).2) as Hbu2.
  destruct (build d (heap s1)) as [v2 h2] eqn:Eb2. simpl in Hrun2, Hbu2.
  destruct (Hbu2 eq_refl) as ((n2 & ->) & Hv2 & Ho2 & Hread2). clear Hbu2.
  exists v1, n1, v2, n2. cbv zeta. fold s1.
  set (s2 := set_heap (heap s1 ++ n2) s1) in *.
  assert (Hh1 : heap s1 = heap s ++ n1) by reflexivity.
  assert (Hh2 : heap s2 = heap s1 ++ n2) by reflexivity.
  assert (Hl1 : length (heap s1) = length (heap s) + length n1)
    by (rewrite Hh1; apply length_app).
  assert (Hl2 : length (heap s2) = length (heap s1) + length n2)
    by (rewrite Hh2; apply length_app).
  assert (Hown0 : forall h', same_on 0 (length (heap s)) h' (heap s2) ->
                             denotes h' blk d).
  { intros h' Hs. exists (length (heap s)).
    eapply doc_of_same_on; [exact Hd|].
    intros a Ha. rewrite Hs by lia. rewrite Hh2, Hh1.
    rewrite !lookup_app_l; [done | lia | rewrite length_app; lia]. }
  assert (Hown1 : forall h', same_on (length (heap s)) (length (heap s1)) h'
                               (heap s2) -> denotes h' v1 d).
  { intros h' Hs. exists (doc_depth d). apply Hread1; [|done].
    fold (heap s1). rewrite <- Hh1.
    intros a Ha. rewrite Hs by lia. rewrite Hh2. apply lookup_app_l. lia. }
  assert (Hown2 : forall h', same_on (length (heap s1)) (length (heap s2)) h'
                               (heap s2) -> denotes h' v2 d).
  { intros h' Hs. exists (doc_depth d). apply Hread2; [|done]. exact Hs. }
  split; [exact Hrun1|]. split; [exact Hrun2|].
  split; [apply Hown1; by intros a Ha|].
  split; [apply Hown2; by intros a Ha|].
  split; [apply Hown0; by intros a Ha|].
  split; [exact Hown0|]. split; [exact Hown1|]. split; [exact Hown2|].
  split; [|split].
  - intros a o Ha. split; [apply Hown2 | apply Hown0];
      intros a' Ha'; apply list_lookup_insert_ne; lia.
  - intros a o Ha. split; [apply Hown1 | apply Hown0];
      intros a' Ha'; apply list_lookup_insert_ne; lia.
  - intros fuel b step Hb Hn.
    rewrite (load_teststep_api fuel b step name s Hb Hn), Hrun1. reflexivity.
Qed.

End ApiDefinitions.

Lemma load_teststep_api_found_iff_witness :
  let b := length (heap project_state) in
  (exists s', load_teststep project_world 0 (VRef b) (api_step_state "logout")
              = (Exc ApiNotFound, s'))
  /\ (exists v s',
        load_teststep project_world 0 (VRef b) (api_step_state "login")
        = (Val (VRef b), s')
        /\ heap s' !! b
           = Some (ODict [(KStr "name", VStr "s"); (KStr "api", VStr "login");
                          (KStr "api_def", v)])
        /\ denotes (heap s') v login_def).
Proof.
  intros b. split.
  - edestruct (load_teststep_api_found_iff project_world 0 b)
      with (name := VStr "logout") (k := KStr "logout")
           (s := api_step_state "logout") as [Hiff _].
    + vm_compute. reflexivity.
    + vm_compute. reflexivity.
    + reflexivity.
    + eexists _, _. split; [|split]; vm_compute; reflexivity.
    + intros blk Hblk. vm_compute in Hblk. discriminate Hblk.
    + apply Hiff. vm_compute. reflexivity.
  - edestruct (load_teststep_api_found_iff project_world 0 b)
      with (name := VStr "login") (k := KStr "login")
           (s := api_step_state "login") as [_ Hfound].
    + vm_compute. reflexivity.
    + vm_compute. reflexivity.
    + reflexivity.
    + eexists _, _. split; [|split]; vm_compute; reflexivity.
    + intros blk Hblk. vm_compute in Hblk. inversion Hblk; subst.
      eexists. vm_compute. reflexivity.
    + edestruct Hfound as (v & s' & d & Hrun & Hb & Hd & Hden).
      * vm_compute. reflexivity.
      * vm_compute in Hd. inversion Hd; subst.
        exists v, s'. split; [exact Hrun|]. split; [exact Hb | exact Hden].
Defined.

Lemma api_definition_copies_independent_witness :
  exists v1 s1 v2 s2,
    _get_api_definition (VStr "login") project_state = (Val v1, s1)
    /\ _get_api_definition (VStr "login") s1 = (Val v2, s2)
    /\ denotes (heap s2) v1 login_def
    /\ denotes (heap s2) v2 login_def
    /\ (forall a o, length (heap project_state) <= a < length (heap s1) ->
          denotes (<[a := o]> (heap s2)) v2 login_def).
Proof.
  edestruct (api_definition_copies_independent project_world)
    with (name := VStr "login") (k := KStr "login") (d := login_def)
         (s := project_state)
    as (v1 & n1 & v2 & n2 & H1 & H2 & Hd1 & Hd2 & _ & _ & _ & _ & Hm & _).
  - reflexivity.
  - eexists _, _. split; [|split]; vm_compute; reflexivity.
  - vm_compute. reflexivity.
  - vm_compute. reflexivity.
  - eexists v1, _, v2, _. split; [exact H1|]. split; [exact H2|].
    split; [exact Hd1|]. split; [exact Hd2|].
    intros a o Ha. apply Hm. exact Ha.
Defined.

(** C4, counterexample.  A step whose ["api"] entry is a list, in the
    loaded project: the list is no key of the api cache, and
    [load_teststep] raises [TypeError] from the lookup, not
    [ApiNotFound]. *)
Lemma load_teststep_api_list_raises :
  let s := snd (build_doc list_api_step project_state) in
  heap s !! 14 = Some (ODict [(KStr "api", VRef 13)])
  /\ heap s !! 13 = Some (OList [VStr "login"])
  /\ api_cache s [(KStr "login", VRef 10)]
  /\ to_key (VRef 13) = None
  /\ load_teststep project_world 5 (VRef 14) s = (Exc TypeError, s)
  /\ ~ (exists s', load_teststep project_world 5 (VRef 14) s
                   = (Exc ApiNotFound, s')).
Proof.
  intros s.
  assert (Hrun : load_teststep project_world 5 (VRef 14) s
                 = (Exc TypeError, s)) by (vm_compute; reflexivity).
  split; [vm_compute; reflexivity|]. split; [vm_compute; reflexivity|].
  split.
  { eexists _, _. split; [vm_compute; reflexivity|].
    split; vm_compute; reflexivity. }
  split; [reflexivity|]. split; [exact Hrun|].
  intros [s' H]. rewrite Hrun in H. discriminate H.
Qed.

(** ** Runs that return: the steps of a computation *)

Lemma bind_inv {A B} (m : M A) (f : A -> M B) s b s' :
  bind m f s = (Val b, s') ->
  exists a s1, m s = (Val a, s1) /\ f a s1 = (Val b, s').
Proof.
  unfold bind. destruct (m s) as [[a|e|] s1]; [eauto | done | done].
Qed.

Lemma for_each_inv {A} (body : A -> M unit) x l s u s' :
  for_each (x :: l) body s = (Val u, s') ->
  exists s1, body x s = (Val tt, s1) /\ for_each l body s1 = (Val u, s').
Proof.
  simpl. intros H. apply bind_inv in H as ([] & s1 & H1 & H2). eauto.
Qed.

Lemma for_each_invariant {A} (I : state -> Prop) (P : A -> Prop)
    (body : A -> M unit) (l : list A) :
  (forall x s s1, P x -> I s -> body x s = (Val tt, s1) -> I s1) ->
  Forall P l ->
  forall s u s', I s -> for_each l body s = (Val u, s') -> I s'.
Proof.
  intros Hbody Hl. induction Hl as [|x l Hx Hl IH]; intros s u s' HI Hrun.
  - simpl in Hrun. inversion Hrun; by subst.
  - apply for_each_inv in Hrun as (s1 & H1 & H2). eauto.
Qed.

Lemma py_getitem_reads c k : reads_only (py_getitem c k).
Proof.
  intros s r s'. unfold py_getitem. repeat case_match; congruence.
Qed.

Lemma py_contains_reads x c : reads_only (py_contains x c).
Proof.
  intros s r s'. unfold py_contains. repeat case_match; congruence.
Qed.

Lemma py_get_reads c k dflt : reads_only (py_get c k dflt).
Proof.
  intros s r s'. unfold py_get. repeat case_match; congruence.
Qed.

Lemma py_iter_reads v : reads_only (py_iter v).
Proof.
  intros s r s'. unfold py_iter. repeat case_match; congruence.
Qed.

Lemma alloc_inv o s r s' :
  alloc o s = (r, s') ->
  r = Val (VRef (length (heap s))) /\ s' = set_heap (heap s ++ [o]) s.
Proof. unfold alloc. intros [= <- <-]. done. Qed.

Lemma dict_popitem_app d k v rest :
  dict_popitem d = Some (k, v, rest) -> d = rest ++ [(k, v)].
Proof.
  revert k v rest. induction d as [|kv d IH]; intros k v rest; simpl; [done|].
  destruct (dict_popitem d) as [[[k' v'] rest']|] eqn:E.
  - intros [= <- <- <-]. simpl. f_equal. by apply IH.
  - intros [= <- <-]. destruct d as [|? d]; [done|].
    simpl in E. by destruct (dict_popitem d) as [[[??]?]|].
Qed.

Lemma dict_popitem_last d k v :
  dict_popitem (d ++ [(k, v)]) = Some (k, v, d).
Proof.
  induction d as [|kv d IH]; simpl; [done|]. by rewrite IH.
Qed.

Lemma py_popitem_inv c k v s s' :
  py_popitem c s = (Val (k, v), s') ->
  exists a d kk rest,
    c = VRef a /\ heap s !! a = Some (ODict d)
    /\ dict_popitem d = Some (kk, v, rest) /\ k = of_key kk
    /\ s' = set_heap (<[a := ODict rest]> (heap s)) s.
Proof.
  unfold py_popitem. destruct c as [| | | | |a]; simpl; try done.
  destruct (heap s !! a) as [[d|l]|] eqn:Ha; try done.
  destruct (dict_popitem d) as [[[kk v'] rest]|] eqn:Ep; [|done].
  intros [= <- <- <-]. by exists a, d, kk, rest.
Qed.

Lemma py_setitem_inv c k v s u s' :
  py_setitem c k v s = (Val u, s') ->
  exists a d kk,
    c = VRef a /\ heap s !! a = Some (ODict d) /\ to_key k = Some kk
    /\ s' = set_heap (<[a := ODict (dict_set d kk v)]> (heap s)) s.
Proof.
  unfold py_setitem. destruct c as [| | | | |a]; simpl; try done.
  destruct (heap s !! a) as [[d|l]|] eqn:Ha; try done.
  destruct (to_key k) as [kk|] eqn:Ek; [|done].
  intros [= <- <-]. by exists a, d, kk.
Qed.

Lemma py_append_inv l v s u s' :
  py_append l v s = (Val u, s') ->
  exists a xs,
    l = VRef a /\ heap s !! a = Some (OList xs)
    /\ s' = set_heap (<[a := OList (xs ++ [v])]> (heap s)) s.
Proof.
  unfold py_append. destruct l as [| | | | |a]; simpl; try done.
  destruct (heap s !! a) as [[d|xs]|] eqn:Ha; try done.
  intros [= <- <-]. by exists a, xs.
Qed.

Lemma py_update_dict_inv c other s u s' :
  is_dict other s = true ->
  py_update c other s = (Val u, s') ->
  exists a d b o,
    c = VRef a /\ other = VRef b /\ heap s !! a = Some (ODict d)
    /\ heap s !! b = Some (ODict o)
    /\ s' = set_heap (<[a := ODict (dict_update d o)]> (heap s)) s.
Proof.
  unfold is_dict, py_update. destruct other as [| | | | |b]; simpl; try done.
  destruct (heap s !! b) as [[o|?]|] eqn:Hb; try done. intros _.
  destruct c as [| | | | |a]; simpl; try done.
  destruct (heap s !! a) as [[d|?]|] eqn:Ha; try done.
  intros [= <- <-]. by exists a, d, b, o.
Qed.

Lemma is_dict_inv v s :
  is_dict v s = true -> exists a d, v = VRef a /\ heap s !! a = Some (ODict d).
Proof.
  unfold is_dict. destruct v as [| | | | |a]; simpl; try done.
  destruct (heap s !! a) as [[d|?]|] eqn:Ha; try done. eauto.
Qed.

Lemma eq_str_inv k x : eq_str (of_key k) x = true -> k = KStr x.
Proof.
  destruct k; simpl; try done. intros H. by apply String.eqb_eq in H as ->.
Qed.

(** ** Dictionaries *)

Lemma dict_set_elem d k v k' v' :
  (k', v') ∈ dict_set d k v -> (k', v') ∈ d \/ (k' = k /\ v' = v).
Proof.
  induction d as [|[k0 v0] d IH]; simpl.
  - intros H. apply list_elem_of_singleton in H. inversion H; auto.
  - destruct (decide (k0 = k)) as [->|Hne]; intros H;
      apply elem_of_cons in H as [H|H].
    + inversion H; auto.
    + left. by apply list_elem_of_further.
    + inversion H; subst. left. apply list_elem_of_here.
    + destruct (IH H) as [?|?]; [left; by apply list_elem_of_further | auto].
Qed.

Lemma dict_update_elem o : forall d k v,
  (k, v) ∈ dict_update d o -> (k, v) ∈ d \/ (k, v) ∈ o.
Proof.
  unfold dict_update.
  induction o as [|[k0 v0] o IH]; intros d k v; simpl; [auto|].
  intros H. apply IH in H as [H|H].
  - apply dict_set_elem in H as [H|[-> ->]]; [auto|].
    right. apply list_elem_of_here.
  - right. by apply list_elem_of_further.
Qed.

Lemma dict_get_set_ne d k k' v :
  k <> k' -> dict_get (dict_set d k v) k' = dict_get d k'.
Proof.
  intros Hne. induction d as [|[k0 v0] d IH]; simpl.
  - by rewrite decide_False.
  - destruct (decide (k0 = k)) as [->|Hk]; simpl.
    + by rewrite !decide_False.
    + destruct (decide (k0 = k')); [done | exact IH].
Qed.

Lemma dict_get_set_eq d k v : dict_get (dict_set d k v) k = Some v.
Proof.
  induction d as [|[k0 v0] d IH]; simpl.
  - by rewrite decide_True.
  - destruct (decide (k0 = k)) as [->|Hk]; simpl.
    + by rewrite decide_True.
    + by rewrite decide_False.
Qed.

(** ** Closed regions *)

Lemma obj_ge_closed lo lo' o : obj_ge lo o -> lo' <= lo -> obj_closed lo' o.
Proof.
  destruct o as [d|l]; simpl; [|done]. intros Hd Hle k x Hin _.
  rewrite Forall_forall in Hd. specialize (Hd _ Hin). simpl in Hd. lia.
Qed.

Lemma region_closed_app lo h new :
  region_closed lo h -> lo <= length h ->
  (forall a o, length h <= a -> (h ++ new) !! a = Some o ->
               obj_ge (length h) o) ->
  region_closed lo (h ++ new).
Proof.
  intros Hc Hle Hnew a o Ha Hlk.
  destruct (decide (a < length h)) as [Hlt|Hge].
  - rewrite lookup_app_l in Hlk by done. by eapply Hc.
  - eapply obj_ge_closed; [eapply Hnew; [|exact Hlk]|]; lia.
Qed.

Lemma region_closed_alloc lo h o :
  region_closed lo h -> obj_closed lo o -> region_closed lo (h ++ [o]).
Proof.
  intros Hc Ho a o' Ha Hlk.
  destruct (decide (a < length h)) as [Hlt|Hge].
  - rewrite lookup_app_l in Hlk by done. by eapply Hc.
  - rewrite lookup_app_r in Hlk by lia.
    destruct (a - length h) as [|i]; simpl in Hlk; [|done].
    by inversion Hlk; subst.
Qed.

Lemma region_closed_insert lo h a o :
  region_closed lo h -> (lo <= a -> obj_closed lo o) ->
  region_closed lo (<[a := o]> h).
Proof.
  intros Hc Ho a' o' Ha' Hlk.
  destruct (decide (a = a')) as [->|Hne].
  - destruct (decide (a' < length h)) as [Hlt|Hge].
    + rewrite list_lookup_insert_eq in Hlk by done.
      inversion Hlk; subst. by apply Ho.
    + rewrite list_insert_ge in Hlk by lia. by eapply Hc.
  - rewrite list_lookup_insert_ne in Hlk by done. by eapply Hc.
Qed.

Lemma frame_refl lo h : frame lo h h.
Proof. split; [lia | done]. Qed.

Lemma frame_trans lo h1 h2 h3 :
  frame lo h1 h2 -> frame lo h2 h3 -> frame lo h1 h3.
Proof.
  intros [L1 F1] [L2 F2]. split; [lia|].
  intros a Ha Hn. rewrite F2, F1; done.
Qed.

Lemma frame_app lo h new : lo <= length h -> frame lo h (h ++ new).
Proof.
  intros Hle. split; [rewrite length_app; lia|].
  intros a Ha _. apply lookup_app_l. lia.
Qed.

Lemma frame_insert lo h a o : lo <= a \/ a = 1 -> frame lo h (<[a := o]> h).
Proof.
  intros Ha. split; [by rewrite length_insert|].
  intros a' Ha' Hn. apply list_lookup_insert_ne. lia.
Qed.

(** ** Calls that only make new objects *)

Lemma grows_refl h : grows h h.
Proof.
  split; [exists []; by rewrite app_nil_r|].
  intros a o Ha Hlk. apply lookup_lt_Some in Hlk. lia.
Qed.

Lemma grows_length h h' : grows h h' -> length h <= length h'.
Proof. intros [[new ->] _]. rewrite length_app. lia. Qed.

Lemma grows_trans h1 h2 h3 : grows h1 h2 -> grows h2 h3 -> grows h1 h3.
Proof.
  intros [[n1 ->] H1] [[n2 ->] H2]. split; [exists (n1 ++ n2); by rewrite app_assoc|].
  intros a o Ha Hlk.
  destruct (decide (a < length (h1 ++ n1))) as [Hlt|Hge].
  - rewrite lookup_app_l in Hlk by done. by eapply H1.
  - eapply obj_ge_weaken; [eapply H2; [|exact Hlk]|]; [lia|].
    rewrite length_app. lia.
Qed.

Lemma grows_alloc h o : obj_ge (length h) o -> grows h (h ++ [o]).
Proof.
  intros Ho. split; [by exists [o]|]. intros a o' Ha Hlk.
  rewrite lookup_app_r in Hlk by done.
  destruct (a - length h) as [|i]; simpl in Hlk; [|done].
  by inversion Hlk; subst.
Qed.

Lemma grows_insert h h' a o :
  grows h h' -> length h <= a -> obj_ge (length h) o ->
  grows h (<[a := o]> h').
Proof.
  intros [[new ->] H] Ha Ho. split.
  - exists (<[a - length h := o]> new). by rewrite insert_app_r_alt.
  - intros a' o' Ha' Hlk.
    destruct (decide (a = a')) as [->|Hne].
    + destruct (decide (a' < length (h ++ new))) as [Hlt|Hge].
      * rewrite list_lookup_insert_eq in Hlk by done. by inversion Hlk; subst.
      * rewrite list_insert_ge in Hlk by lia. by eapply H.
    + rewrite list_lookup_insert_ne in Hlk by done. by eapply H.
Qed.

Lemma grows_frame lo h h' : grows h h' -> lo <= length h -> frame lo h h'.
Proof. intros [[new ->] _] Hle. by apply frame_app. Qed.

Lemma grows_closed lo h h' :
  grows h h' -> lo <= length h -> region_closed lo h -> region_closed lo h'.
Proof. intros [[new ->] H] Hle Hc. by apply region_closed_app. Qed.

Lemma grows_lookup h h' a :
  grows h h' -> a < length h -> h' !! a = h !! a.
Proof. intros [[new ->] _] Ha. by apply lookup_app_l. Qed.

Lemma grows_items lo h h' v :
  grows h h' -> lo <= length h -> val_ge (length h) v ->
  items_in_region lo h' v.
Proof.
  intros [_ H] Hle Hv. destruct v as [| | | | |a]; simpl in *; try done.
  destruct (h' !! a) as [[d|l]|] eqn:Ha; try done.
  specialize (H _ _ Hv Ha). simpl in H.
  eapply Forall_impl; [exact H|]. intros x Hx. by eapply val_ge_weaken.
Qed.

Lemma build_doc_inv d s r s' :
  build_doc d s = (r, s') ->
  exists v, r = Val v /\ grows (heap s) (heap s')
            /\ val_ge (length (heap s)) v
            /\ log s' = log s /\ opened s' = opened s.
Proof.
  unfold build_doc. pose proof (build_built d (heap s)) as Hb.
  destruct (build d (heap s)) as [v h']. intros [= <- <-].
  destruct (Hb _ _ eq_refl) as (Hnew & Hv & Ho & _).
  exists v. simpl. done.
Qed.

Lemma deepcopy_dict_inv data v s s' :
  deepcopy_dict data s = (Val v, s') ->
  grows (heap s) (heap s') /\ val_ge (length (heap s)) v.
Proof.
  unfold deepcopy_dict. destruct (doc_of _ _ data) as [d|]; [|done].
  intros H. apply build_doc_inv in H as (v' & [= <-] & Hg & Hv & _). done.
Qed.

Lemma get_api_definition_inv name v s s' :
  _get_api_definition name s = (Val v, s') ->
  grows (heap s) (heap s') /\ val_ge (length (heap s)) v.
Proof.
  unfold _get_api_definition, try_except.
  destruct (bind _ _ s) as [[v'|e|] s1] eqn:E.
  - intros [= <- <-].
    apply bind_inv in E as (api & s0 & E0 & E).
    apply py_getitem_reads in E0 as ->.
    apply bind_inv in E as (blk & s0 & E0 & E).
    apply py_getitem_reads in E0 as ->.
    eapply deepcopy_dict_inv. exact E.
  - destruct (decide (e = KeyError)); [unfold raise|]; done.
  - done.
Qed.

Section FileFrames.
Context (W : world).

Lemma check_format_inv file_path content u s s' :
  _check_format file_path content s = (Val u, s') -> s' = s.
Proof.
  unfold _check_format, bind, get_state, log_error, modify, raise, ret.
  repeat case_match; congruence.
Qed.

Lemma load_csv_rows L rows : forall s0 s u s',
  grows (heap s0) (heap s) -> length (heap s0) <= L ->
  for_each rows (fun r => do row <- build_doc r; py_append (VRef L) row) s
  = (Val u, s') ->
  grows (heap s0) (heap s').
Proof.
  induction rows as [|r rows IH]; intros s0 s u s' Hg HL Hrun.
  - simpl in Hrun. inversion Hrun; by subst.
  - apply for_each_inv in Hrun as (s1 & H1 & H2).
    apply bind_inv in H1 as (row & s2 & Hb & Ha).
    apply build_doc_inv in Hb as (v & [= <-] & Hg2 & Hv & _).
    apply py_append_inv in Ha as (a & xs & [= <-] & Hxs & ->).
    eapply IH; [|exact HL|exact H2]. simpl.
    assert (Hg02 : grows (heap s0) (heap s2)) by (by eapply grows_trans).
    apply grows_insert; [exact Hg02 | exact HL |].
    destruct Hg02 as [_ Ho]. specialize (Ho _ _ HL Hxs). simpl in *.
    apply Forall_app. split; [exact Ho|]. constructor; [|constructor].
    eapply val_ge_weaken; [exact Hv|]. by apply grows_length.
Qed.

Lemma load_file_inv file_path v s s' :
  load_file W file_path s = (Val v, s') ->
  grows (heap s) (heap s') /\ val_ge (length (heap s)) v.
Proof.
  unfold load_file. destruct (isfile W file_path); simpl; [|done].
  destruct (decide _) as [_|_]; [|destruct (bool_decide _);
    [|destruct (decide _) as [_|_]]].
  - (* json *)
    unfold load_json_file. intros H.
    apply bind_inv in H as ([] & s1 & H1 & H). inversion H1; subst; clear H1.
    destruct (json_load W file_path) as [d|].
    2:{ apply bind_inv in H as (? & ? & _ & H). done. }
    apply bind_inv in H as (c & s2 & Hb & H).
    apply build_doc_inv in Hb as (v' & [= <-] & Hg & Hv & _).
    apply bind_inv in H as ([] & s3 & Hc & H).
    apply check_format_inv in Hc as ->. inversion H; subst. done.
  - (* yaml *)
    unfold load_yaml_file. intros H.
    apply bind_inv in H as ([] & s1 & H1 & H). inversion H1; subst; clear H1.
    destruct (yaml_load W file_path) as [d|]; [|done].
    apply bind_inv in H as (c & s2 & Hb & H).
    apply build_doc_inv in Hb as (v' & [= <-] & Hg & Hv & _).
    apply bind_inv in H as ([] & s3 & Hc & H).
    apply check_format_inv in Hc as ->. inversion H; subst. done.
  - (* csv *)
    unfold load_csv_file. intros H.
    apply bind_inv in H as (l & s1 & Ha & H).
    apply alloc_inv in Ha as [[= ->] ->].
    destruct (csv_DictReader W file_path) as [e|rows err]; [done|].
    apply bind_inv in H as ([] & s2 & Hm & H). inversion Hm; subst; clear Hm.
    apply bind_inv in H as ([] & s3 & Hl & H).
    destruct err as [e|]; [done|]. inversion H; subst; clear H.
    split; [|simpl; lia].
    eapply load_csv_rows; [| |exact Hl]; simpl; [|lia].
    apply grows_alloc. constructor.
  - (* unsupported *)
    intros H. apply bind_inv in H as ([] & s1 & Hm & H).
    inversion Hm; subst; clear Hm.
    apply alloc_inv in H as [[= ->] ->]. simpl.
    split; [|lia]. apply grows_alloc. constructor.
Qed.

End FileFrames.

(** ** The region of a nested testcase *)

Lemma obj_closed_set lo d kk v :
  obj_closed lo (ODict d) ->
  kk <> KStr "test" -> kk <> KStr "config" ->
  obj_closed lo (ODict (dict_set d kk v)).
Proof.
  intros Hd H1 H2 k x Hin Hk. simpl in *.
  apply dict_set_elem in Hin as [Hin|[-> _]]; [by eapply Hd | by destruct Hk].
Qed.

Lemma obj_closed_update lo d o :
  obj_closed lo (ODict d) -> obj_closed lo (ODict o) ->
  obj_closed lo (ODict (dict_update d o)).
Proof.
  intros Hd Ho k x Hin Hk. simpl in *.
  apply dict_update_elem in Hin as [Hin|Hin]; eauto.
Qed.

Lemma obj_closed_popitem lo d k v rest :
  obj_closed lo (ODict d) -> dict_popitem d = Some (k, v, rest) ->
  obj_closed lo (ODict rest).
Proof.
  intros Hd Hp. apply dict_popitem_app in Hp as ->. simpl in *.
  intros k' x Hin Hk. eapply Hd; [|exact Hk].
  apply elem_of_app. by left.
Qed.

Lemma py_iter_in_region lo raw s0 s items :
  grows (heap s0) (heap s) ->
  (forall a o, length (heap s0) <= a -> heap s !! a = Some o ->
               o = ODict [] \/ o = OList []) ->
  items_in_region lo (heap s0) raw ->
  py_iter raw s = (Val items, s) ->
  Forall (val_ge lo) items.
Proof.
  intros Hg Hnew Hr. unfold py_iter.
  destruct raw as [| | |x| |a]; simpl; try done.
  - intros [= <-]. apply Forall_forall. intros v Hv.
    apply list_elem_of_fmap in Hv as (c & -> & _). exact I.
  - destruct (heap s !! a) as [[d|l]|] eqn:Ha; [| |done].
    + intros [= <-]. apply Forall_forall. intros v Hv.
      apply list_elem_of_fmap in Hv as ([k w] & -> & _). by destruct k.
    + intros [= <-].
      destruct (decide (a < length (heap s0))) as [Hlt|Hge].
      * simpl in Hr. rewrite <- (grows_lookup _ _ _ Hg Hlt), Ha in Hr.
        exact Hr.
      * destruct (Hnew a (OList l)) as [?|[= ->]]; [lia | done | done |].
        constructor.
Qed.

Section Region.
Context (W : world).

Lemma load_teststep_with_ok rec :
  testcase_ok rec -> teststep_ok (load_teststep_with W rec).
Proof.
  intros Hrec b s v s' lo Hrun Hlo2 Hlo Hc Hb.
  unfold load_teststep_with in Hrun.
  apply bind_inv in Hrun as (has_api & s0 & H0 & Hrun).
  apply py_contains_reads in H0 as ->.
  destruct has_api.
  { (* reference api *)
    apply bind_inv in Hrun as (api_name & s0 & H0 & Hrun).
    apply py_getitem_reads in H0 as ->.
    apply bind_inv in Hrun as (api_def & s1 & Hg & Hrun).
    apply get_api_definition_inv in Hg as [Hg _].
    apply bind_inv in Hrun as ([] & s2 & Hs & Hrun).
    apply py_setitem_inv in Hs as (a & d & kk & -> & Ha & [= <-] & ->).
    inversion Hrun; subst; clear Hrun. simpl in *.
    pose proof (grows_closed lo _ _ Hg Hlo Hc) as Hc1.
    split; [|split; [|done]].
    - eapply frame_trans; [by apply grows_frame | apply frame_insert; auto].
    - apply region_closed_insert; [exact Hc1|]. intros _.
      apply obj_closed_set; [by eapply (Hc1 a) | done | done]. }
  apply bind_inv in Hrun as (has_func & s0 & H0 & Hrun).
  apply py_contains_reads in H0 as ->.
  destruct has_func.
  { inversion Hrun; subst. split; [apply frame_refl | done]. }
  apply bind_inv in Hrun as (has_testcase & s0 & H0 & Hrun).
  apply py_contains_reads in H0 as ->.
  destruct has_testcase.
  2:{ inversion Hrun; subst. split; [apply frame_refl | done]. }
  (* reference testcase *)
  apply bind_inv in Hrun as (testcase_path & s0 & H0 & Hrun).
  apply py_getitem_reads in H0 as ->.
  apply bind_inv in Hrun as (testcases & s0 & H0 & Hrun).
  apply py_getitem_reads in H0 as ->.
  apply bind_inv in Hrun as (cached & s0 & H0 & Hrun).
  apply py_contains_reads in H0 as ->.
  apply bind_inv in Hrun as (testcase_dict & s1 & Hload & Hrun).
  assert (Hmid : frame lo (heap s) (heap s1) /\ region_closed lo (heap s1)).
  { destruct cached; simpl in Hload.
    - apply py_getitem_reads in Hload as ->. split; [apply frame_refl | done].
    - apply bind_inv in Hload as (pwd & s0 & H0 & Hload).
      apply py_getitem_reads in H0 as ->.
      apply bind_inv in Hload as (path & s0 & H0 & Hload).
      assert (s0 = s) as ->.
      { revert H0. unfold py_join, ret, raise.
        repeat case_match; congruence. }
      apply bind_inv in Hload as (raw & s2 & Hf & Hload).
      apply load_file_inv in Hf as [Hg Hraw].
      apply bind_inv in Hload as (tc & s3 & Hr & Hload).
      apply bind_inv in Hload as ([] & s4 & Hs & Hload).
      apply py_setitem_inv in Hs as (a & d & kk & [= <-] & Ha & _ & ->).
      pose proof (grows_length _ _ Hg) as Hlen.
      destruct (Hrec raw s2 tc s3 lo Hr Hlo2) as [Hf3 Hc3];
        [lia | by eapply grows_closed | by eapply grows_items |].
      inversion Hload; subst; clear Hload. simpl.
      split.
      + eapply frame_trans; [by apply grows_frame|].
        eapply frame_trans; [exact Hf3 | apply frame_insert; auto].
      + apply region_closed_insert; [exact Hc3 | lia]. }
  destruct Hmid as [Hf1 Hc1].
  apply bind_inv in Hrun as ([] & s2 & Hs & Hrun).
  apply py_setitem_inv in Hs as (a & d & kk & -> & Ha & [= <-] & ->).
  inversion Hrun; subst; clear Hrun. simpl in *.
  split; [|split; [|done]].
  - eapply frame_trans; [exact Hf1 | apply frame_insert; auto].
  - apply region_closed_insert; [exact Hc1|]. intros _.
    apply obj_closed_set; [by eapply (Hc1 a) | done | done].
Qed.

(** The loop of [load_testcase] over items of the region. *)
Lemma testcase_item_ok step config teststeps lo :
  teststep_ok step -> 2 <= lo ->
  forall item s s1,
    val_ge lo item ->
    val_ge lo config /\ val_ge lo teststeps /\ lo <= length (heap s)
    /\ region_closed lo (heap s) ->
    testcase_item step config teststeps item s = (Val tt, s1) ->
    (val_ge lo config /\ val_ge lo teststeps /\ lo <= length (heap s1)
     /\ region_closed lo (heap s1))
    /\ frame lo (heap s) (heap s1).
Proof.
  intros Hstep Hlo2 item s s1 Hitem (Hcfg & Hts & Hlo & Hc) Hrun.
  unfold testcase_item in Hrun.
  apply bind_inv in Hrun as (s0 & s0' & H0 & Hrun).
  inversion H0; subst s0 s0'; clear H0.
  destruct (is_dict item s) eqn:Hd; [|done].
  destruct (Nat.eqb (len_of item s) 1) eqn:Hl; [|done]. simpl in Hrun.
  apply bind_inv in Hrun as ([key test_block] & s2 & Hp & Hrun).
  apply py_popitem_inv in Hp as (a & d & kk & rest & -> & Ha & Hpop & -> & ->).
  simpl in Hitem.
  assert (Hc2 : region_closed lo (<[a := ODict rest]> (heap s))).
  { apply region_closed_insert; [exact Hc|]. intros _.
    eapply obj_closed_popitem; [by eapply (Hc a) | exact Hpop]. }
  assert (Hf2 : frame lo (heap s) (<[a := ODict rest]> (heap s)))
    by (apply frame_insert; auto).
  apply bind_inv in Hrun as (s0 & s0' & H0 & Hrun).
  inversion H0; subst s0 s0'; clear H0.
  destruct (is_dict test_block _) eqn:Hd2; [|done]. simpl in Hrun.
  apply is_dict_inv in Hd2 as (bb & o & -> & Hbb). simpl in Hbb.
  assert (Hin : (kk, VRef bb) ∈ d).
  { apply dict_popitem_app in Hpop as ->. apply elem_of_app. right.
    apply list_elem_of_here. }
  destruct (eq_str (of_key kk) "config") eqn:Ek1.
  { apply eq_str_inv in Ek1 as ->.
    assert (Hbb_lo : lo <= bb).
    { eapply (Hc a (ODict d)); [done | done | exact Hin | by right]. }
    apply py_update_dict_inv in Hrun
      as (c & dc & b' & o' & -> & [= <-] & Hcc & Hb' & ->).
    2:{ unfold is_dict. simpl. by rewrite Hbb. }
    simpl in *. rewrite Hbb in Hb'. inversion Hb'; subst o'; clear Hb'.
    rewrite !length_insert. split; [split; [done|split; [done|split; [done|]]]|].
    - apply region_closed_insert; [exact Hc2|]. intros _.
      apply obj_closed_update; [by eapply (Hc2 c) | by eapply (Hc2 bb)].
    - eapply frame_trans; [exact Hf2 | apply frame_insert; auto]. }
  destruct (eq_str (of_key kk) "test") eqn:Ek2.
  { apply eq_str_inv in Ek2 as ->.
    assert (Hbb_lo : lo <= bb).
    { eapply (Hc a (ODict d)); [done | done | exact Hin | by left]. }
    apply bind_inv in Hrun as (teststep & s3 & Hs & Hrun).
    destruct (Hstep (VRef bb) _ teststep s3 lo Hs Hlo2) as (Hf3 & Hc3 & ->);
      [simpl; by rewrite length_insert | exact Hc2 | exact Hbb_lo |].
    simpl in Hf3, Hc3.
    apply py_append_inv in Hrun as (t & xs & -> & Ht & ->). simpl in *.
    rewrite length_insert.
    assert (Hlen3 : lo <= length (heap s3)).
    { destruct Hf3 as [Hl3 _]. rewrite length_insert in Hl3. lia. }
    split; [split; [done|split; [done|split; [done|]]]|].
    - apply region_closed_insert; [exact Hc3 | done].
    - eapply frame_trans; [exact Hf2|].
      eapply frame_trans; [exact Hf3 | apply frame_insert; auto]. }
  inversion Hrun; subst; clear Hrun. simpl. rewrite length_insert. done.
Qed.

Lemma load_testcase_with_ok step :
  teststep_ok step -> testcase_ok (load_testcase_with step).
Proof.
  intros Hstep raw s v s' lo Hrun Hlo2 Hlo Hc Hraw.
  unfold load_testcase_with in Hrun.
  apply bind_inv in Hrun as (config & s1 & Ha1 & Hrun).
  apply alloc_inv in Ha1 as [[= ->] ->].
  apply bind_inv in Hrun as (teststeps & s2 & Ha2 & Hrun).
  apply alloc_inv in Ha2 as [[= ->] ->]. simpl in Hrun.
  set (h2 := (heap s ++ [ODict []]) ++ [OList []]) in *.
  set (s2 := set_heap h2 (set_heap (heap s ++ [ODict []]) s)) in *.
  assert (Hg2 : grows (heap s) h2).
  { apply (grows_trans _ (heap s ++ [ODict []]));
      apply grows_alloc; simpl; constructor. }
  apply bind_inv in Hrun as (items & s3 & Hit & Hrun).
  pose proof (py_iter_reads _ _ _ _ Hit) as ->.
  assert (Hitems : Forall (val_ge lo) items).
  { eapply (py_iter_in_region lo raw s s2); [exact Hg2 | | exact Hraw | exact Hit].
    intros a o Ha Hlk. simpl in Hlk. unfold h2 in Hlk.
    destruct (decide (a = length (heap s))) as [->|Hne1].
    - rewrite lookup_app_l in Hlk by (rewrite length_app; simpl; lia).
      rewrite lookup_app_r in Hlk by lia. rewrite Nat.sub_diag in Hlk.
      inversion Hlk. by left.
    - rewrite lookup_app_r in Hlk by (rewrite length_app; simpl; lia).
      rewrite length_app in Hlk. simpl in Hlk.
      destruct (a - (length (heap s) + 1)) as [|i] eqn:Ei; simpl in Hlk;
        [|done]. inversion Hlk. by right. }
  apply bind_inv in Hrun as ([] & s4 & Hloop & Hrun).
  assert (Hinv : (val_ge lo (VRef (length (heap s)))
                  /\ val_ge lo (VRef (length (heap s ++ [ODict []])))
                  /\ lo <= length (heap s4)
                  /\ region_closed lo (heap s4))
                 /\ frame lo h2 (heap s4)).
  { refine (for_each_invariant
              (fun st => (val_ge lo (VRef (length (heap s)))
                          /\ val_ge lo (VRef (length (heap s ++ [ODict []])))
                          /\ lo <= length (heap st)
                          /\ region_closed lo (heap st))
                         /\ frame lo h2 (heap st))
              (val_ge lo) _ items _ Hitems s2 tt s4 _ Hloop).
    - intros x st st1 Hx [Hinv Hfr] Hbody.
      destruct (testcase_item_ok step _ _ lo Hstep Hlo2 x st st1 Hx Hinv Hbody)
        as [Hinv1 Hfr1].
      split; [exact Hinv1 | by eapply frame_trans].
    - simpl. rewrite length_app. simpl.
      pose proof (grows_length _ _ Hg2).
      split; [split; [lia|split; [lia|split; [lia|]]]|apply frame_refl].
      by eapply grows_closed. }
  destruct Hinv as [(_ & _ & Hlen4 & Hc4) Hf4].
  apply alloc_inv in Hrun as [[= ->] ->]. simpl.
  split.
  - eapply frame_trans; [by apply grows_frame|].
    eapply frame_trans; [exact Hf4 | by apply frame_app].
  - apply region_closed_alloc; [exact Hc4|].
    intros k x Hin Hk. pose proof (grows_length _ _ Hg2) as Hl2.
    apply elem_of_cons in Hin as [[= -> ->]|Hin]; [lia|].
    apply list_elem_of_singleton in Hin as [= -> ->]. by destruct Hk.
Qed.

Lemma load_testcase_ok fuel : testcase_ok (load_testcase W fuel).
Proof.
  induction fuel as [|fuel IH]; [by intros raw s v s' lo Hrun|].
  simpl. apply load_testcase_with_ok, load_teststep_with_ok, IH.
Qed.

Lemma load_teststep_ok fuel : teststep_ok (load_teststep W fuel).
Proof. apply load_teststep_with_ok, load_testcase_ok. Qed.

End Region.

(** ** What load_teststep changes *)

Lemma region_closed_length h : region_closed (length h) h.
Proof. intros a o Ha Hlk. apply lookup_lt_Some in Hlk. lia. Qed.

Lemma py_contains_dict x a d s :
  heap s !! a = Some (ODict d) ->
  py_contains (VStr x) (VRef a) s = (Val (dict_has d (KStr x)), s).
Proof. intros Ha. unfold py_contains. simpl. by rewrite Ha. Qed.

Lemma py_getitem_is_obj c k v s s' :
  py_getitem c k s = (Val v, s') -> exists a o, c = VRef a /\ heap s !! a = Some o.
Proof.
  unfold py_getitem. destruct c as [| | | | |a]; simpl; try done.
  destruct (heap s !! a) as [o|] eqn:Ha; [|done].
  intros _. exists a, o. split; [reflexivity | exact Ha].
Qed.

Section StepFrame.
Context (W : world).

(** [load_teststep] returns the step it was given; of the objects that
    existed before the call it changes the step and [tests_def_mapping]
    only; and the step, when it is a dictionary, gets at most the entry
    [api_def] or [testcase_def]. *)
Lemma load_teststep_frame fuel b s v s' :
  load_teststep W fuel b s = (Val v, s') ->
  v = b
  /\ length (heap s) <= length (heap s')
  /\ (forall a, a < length (heap s) -> a <> 1 -> b <> VRef a ->
                heap s' !! a = heap s !! a)
  /\ (forall a d, b = VRef a -> a <> 1 -> heap s !! a = Some (ODict d) ->
        exists d', heap s' !! a = Some (ODict d') /\ step_effect d d').
Proof.
  intros Hrun. unfold load_teststep, load_teststep_with in Hrun.
  assert (Hsame : forall a d, b = VRef a -> heap s !! a = Some (ODict d) ->
                  forall x, py_contains (VStr x) b s
                            = (Val (dict_has d (KStr x)), s)).
  { intros a d -> Ha x. by apply py_contains_dict. }
  apply bind_inv in Hrun as (has_api & s0 & Hapi & Hrun).
  pose proof (py_contains_reads _ _ _ _ _ Hapi) as ->.
  destruct has_api.
  { (* reference api *)
    apply bind_inv in Hrun as (api_name & s0 & H0 & Hrun).
    apply py_getitem_reads in H0 as ->.
    apply bind_inv in Hrun as (api_def & s1 & Hg & Hrun).
    apply get_api_definition_inv in Hg as [Hg _].
    apply bind_inv in Hrun as ([] & s2 & Hs & Hrun).
    apply py_setitem_inv in Hs as (a & d & kk & -> & Ha & [= <-] & ->).
    inversion Hrun; subst; clear Hrun. simpl.
    pose proof (grows_length _ _ Hg) as Hlen.
    assert (Hlt : a < length (heap s1)) by (by eapply lookup_lt_Some).
    split; [done|]. split; [by rewrite length_insert|]. split.
    - intros a' Ha' Hn1 Hne. rewrite list_lookup_insert_ne by congruence.
      by apply grows_lookup.
    - intros a' d0 [= <-] Hn1 Ha0.
      assert (a < length (heap s)) by (by eapply lookup_lt_Some).
      rewrite (grows_lookup _ _ _ Hg) in Ha by done.
      rewrite Ha0 in Ha. inversion Ha; subst d0.
      eexists. split; [by apply list_lookup_insert_eq|].
      unfold step_effect.
      rewrite (Hsame a d eq_refl Ha0 "api") in Hapi.
      assert (dict_has d (KStr "api") = true) as -> by congruence. eauto. }
  apply bind_inv in Hrun as (has_func & s0 & Hfunc & Hrun).
  pose proof (py_contains_reads _ _ _ _ _ Hfunc) as ->.
  destruct has_func.
  { inversion Hrun; subst; clear Hrun.
    split; [done|]. split; [done|]. split; [done|].
    intros a d -> Hn1 Ha. exists d. split; [done|]. unfold step_effect.
    rewrite (Hsame a d eq_refl Ha "api") in Hapi.
    rewrite (Hsame a d eq_refl Ha "func") in Hfunc.
    assert (dict_has d (KStr "api") = false) as -> by congruence.
    by assert (dict_has d (KStr "func") = true) as -> by congruence. }
  apply bind_inv in Hrun as (has_testcase & s0 & Htc & Hrun).
  pose proof (py_contains_reads _ _ _ _ _ Htc) as ->.
  destruct has_testcase.
  2:{ inversion Hrun; subst; clear Hrun.
      split; [done|]. split; [done|]. split; [done|].
      intros a d -> Hn1 Ha. exists d. split; [done|]. unfold step_effect.
      rewrite (Hsame a d eq_refl Ha "api") in Hapi.
      rewrite (Hsame a d eq_refl Ha "func") in Hfunc.
      rewrite (Hsame a d eq_refl Ha "testcase") in Htc.
      assert (dict_has d (KStr "api") = false) as -> by congruence.
      assert (dict_has d (KStr "func") = false) as -> by congruence.
      by assert (dict_has d (KStr "testcase") = false) as -> by congruence. }
  (* reference testcase *)
  apply bind_inv in Hrun as (testcase_path & s0 & H0 & Hrun).
  apply py_getitem_reads in H0 as ->.
  apply bind_inv in Hrun as (testcases & s0 & Hglob & Hrun).
  pose proof (py_getitem_reads _ _ _ _ _ Hglob) as ->.
  apply py_getitem_is_obj in Hglob as (g & og & [= <-] & Hg1).
  assert (Hlen2 : 2 <= length (heap s)).
  { apply lookup_lt_Some in Hg1. lia. }
  apply bind_inv in Hrun as (cached & s0 & H0 & Hrun).
  apply py_contains_reads in H0 as ->.
  apply bind_inv in Hrun as (testcase_dict & s1 & Hload & Hrun).
  assert (Hmid : frame (length (heap s)) (heap s) (heap s1)).
  { destruct cached; simpl in Hload.
    - apply py_getitem_reads in Hload as ->. apply frame_refl.
    - apply bind_inv in Hload as (pwd & s0 & H0 & Hload).
      apply py_getitem_reads in H0 as ->.
      apply bind_inv in Hload as (path & s0 & H0 & Hload).
      assert (s0 = s) as ->.
      { revert H0. unfold py_join, ret, raise.
        repeat case_match; congruence. }
      apply bind_inv in Hload as (raw & s2 & Hf & Hload).
      apply load_file_inv in Hf as [Hg Hraw].
      apply bind_inv in Hload as (tc & s3 & Hr & Hload).
      apply bind_inv in Hload as ([] & s4 & Hs & Hload).
      apply py_setitem_inv in Hs as (a & d & kk & [= <-] & Ha & _ & ->).
      pose proof (grows_length _ _ Hg) as Hlen.
      destruct (load_testcase_ok W fuel raw s2 tc s3 (length (heap s)) Hr Hlen2)
        as [Hf3 _];
        [lia
        | eapply grows_closed; [exact Hg | lia | apply region_closed_length]
        | by eapply grows_items |].
      inversion Hload; subst; clear Hload. simpl.
      eapply frame_trans; [by apply grows_frame|].
      eapply frame_trans; [exact Hf3 | apply frame_insert; auto]. }
  destruct Hmid as [Hl1 Hf1].
  apply bind_inv in Hrun as ([] & s2 & Hs & Hrun).
  apply py_setitem_inv in Hs as (a & d & kk & -> & Ha & [= <-] & ->).
  inversion Hrun; subst; clear Hrun. simpl.
  assert (Hlt : a < length (heap s1)) by (by eapply lookup_lt_Some).
  split; [done|]. split; [by rewrite length_insert|]. split.
  - intros a' Ha' Hn1 Hne. rewrite list_lookup_insert_ne by congruence.
    by apply Hf1.
  - intros a' d0 [= <-] Hn1 Ha0.
    assert (a < length (heap s)) by (by eapply lookup_lt_Some).
    rewrite Hf1 in Ha by done.
    rewrite Ha0 in Ha. inversion Ha; subst d0.
    eexists. split; [by apply list_lookup_insert_eq|].
    unfold step_effect.
    rewrite (Hsame a d eq_refl Ha0 "api") in Hapi.
    rewrite (Hsame a d eq_refl Ha0 "func") in Hfunc.
    rewrite (Hsame a d eq_refl Ha0 "testcase") in Htc.
    assert (dict_has d (KStr "api") = false) as -> by congruence.
    assert (dict_has d (KStr "func") = false) as -> by congruence.
    assert (dict_has d (KStr "testcase") = true) as -> by congruence. eauto.
Qed.

End StepFrame.

(** ** Blocks are consumed *)

Lemma inert_nil : inert [].
Proof. unfold inert, dict_has. simpl. auto. Qed.

Lemma settles_refl ok ex n h : settles ok ex n h h.
Proof. split; [lia | auto]. Qed.

Lemma settles_trans ok ex n h1 h2 h3 :
  ok [] -> settles ok ex n h1 h2 -> settles ok ex n h2 h3 ->
  settles ok ex n h1 h3.
Proof.
  intros Hnil [L1 H1] [L2 H2]. split; [lia|].
  intros a d Ha Hex Hd Hok.
  destruct (H1 a d Ha Hex Hd Hok) as [Hd2|Hd2].
  - by apply H2.
  - right. destruct (H2 a [] Ha Hex Hd2 Hnil); done.
Qed.

Lemma settles_same ok ex n h h' :
  length h <= length h' ->
  (forall a, a < n -> a ∉ ex -> h' !! a = h !! a) ->
  settles ok ex n h h'.
Proof.
  intros Hl Hs. split; [done|]. intros a d Ha Hex Hd _. left.
  by rewrite Hs.
Qed.

Lemma settles_insert_ex ok ex n h a o :
  a ∈ ex \/ n <= a -> settles ok ex n h (<[a := o]> h).
Proof.
  intros Ha. apply settles_same; [by rewrite length_insert|].
  intros a' Ha' Hex. apply list_lookup_insert_ne.
  intros ->. destruct Ha; [done | lia].
Qed.

Lemma small_popitem d k v rest :
  small d -> dict_popitem d = Some (k, v, rest) -> rest = [].
Proof.
  intros Hs Hp. apply dict_popitem_app in Hp as ->. unfold small in Hs.
  rewrite length_app in Hs. simpl in Hs. destruct rest; [done|simpl in Hs; lia].
Qed.

Lemma settles_popitem ok ex n h a d k v rest :
  (forall d, ok d -> small d) ->
  h !! a = Some (ODict d) -> dict_popitem d = Some (k, v, rest) ->
  settles ok ex n h (<[a := ODict rest]> h).
Proof.
  intros Hok Ha Hp. split; [by rewrite length_insert|].
  intros a' d' Ha' Hex Hd' Hokd.
  destruct (decide (a = a')) as [<-|Hne].
  - right. rewrite Ha in Hd'. inversion Hd'; subst d'.
    rewrite (small_popitem d k v rest) by auto.
    apply list_lookup_insert_eq. by eapply lookup_lt_Some.
  - left. by rewrite list_lookup_insert_ne.
Qed.

Lemma block_item_settles ok ex n h h' item :
  ok [] -> settles ok ex n h h' ->
  block_item ok ex n h item -> block_item ok ex n h' item.
Proof.
  intros Hnil [_ Hs] (a & d & -> & Ha & Hex & Hd & Hok).
  destruct (Hs a d Ha Hex Hd Hok) as [Hd'|Hd'];
    [exists a, d | exists a, []]; done.
Qed.

Lemma emptied_settles ok ex n h h' item :
  ok [] -> settles ok ex n h h' ->
  (exists a, item = VRef a /\ a < n /\ (a ∉ ex)
             /\ h !! a = Some (ODict [])) ->
  emptied h' item.
Proof.
  intros Hnil [_ Hs] (a & -> & Ha & Hex & Hd).
  exists a. split; [done|]. destruct (Hs a [] Ha Hex Hd Hnil); done.
Qed.

(** A loop that consumes its item and settles the rest empties every
    block of the list. *)
Lemma consume_loop ok ex n (Q : list obj -> value -> Prop)
    (body : value -> M unit) (items : list value) :
  ok [] ->
  (forall h h' item, settles ok ex n h h' -> Q h item -> Q h' item) ->
  (forall item s s1,
      Q (heap s) item -> n <= length (heap s) ->
      body item s = (Val tt, s1) ->
      settles ok ex n (heap s) (heap s1)
      /\ exists a, item = VRef a /\ a < n /\ (a ∉ ex)
                   /\ heap s1 !! a = Some (ODict [])) ->
  forall s u s',
    n <= length (heap s) ->
    Forall (Q (heap s)) items ->
    for_each items body s = (Val u, s') ->
    settles ok ex n (heap s) (heap s') /\ Forall (emptied (heap s')) items.
Proof.
  intros Hnil HQ Hbody.
  induction items as [|item items IH]; intros s u s' Hn Hall Hrun.
  - simpl in Hrun. inversion Hrun; subst. split; [apply settles_refl|constructor].
  - apply for_each_inv in Hrun as (s1 & H1 & H2).
    inversion Hall as [|?? Hitem Hrest]; subst.
    destruct (Hbody item s s1 Hitem Hn H1) as (Hs1 & a & -> & Ha & Hex & Ha1).
    assert (Hn1 : n <= length (heap s1)) by (destruct Hs1; lia).
    destruct (IH s1 u s' Hn1) as [Hs2 Hem]; [|exact H2|].
    { eapply Forall_impl; [exact Hrest|]. intros x Hx. by eapply HQ. }
    split; [by eapply settles_trans|].
    constructor; [|exact Hem].
    eapply emptied_settles; [exact Hnil | exact Hs2 |]. eauto.
Qed.

Lemma inert_small d : inert d -> small d.
Proof. by intros [? _]. Qed.

Lemma py_update_frame c other s u s' :
  py_update c other s = (Val u, s') ->
  length (heap s') = length (heap s)
  /\ forall a, c <> VRef a -> heap s' !! a = heap s !! a.
Proof.
  unfold py_update.
  assert (Hset : forall k v st u1 st1,
             py_setitem c k v st = (Val u1, st1) ->
             length (heap st1) = length (heap st)
             /\ forall a, c <> VRef a -> heap st1 !! a = heap st !! a).
  { intros k v st u1 st1 Hs.
    apply py_setitem_inv in Hs as (a & d & kk & -> & Ha & _ & ->). simpl.
    split; [by rewrite length_insert|].
    intros a' Hne. apply list_lookup_insert_ne. congruence. }
  destruct (deref other s) as [[o|l]|] eqn:Ho.
  - destruct c as [| | | | |a]; try done.
    destruct (deref (VRef a) s) as [[d|?]|]; try done.
    intros [= <- <-]. simpl. split; [by rewrite length_insert|].
    intros a' Hne. apply list_lookup_insert_ne. congruence.
  - intros H. apply bind_inv in H as (items & s0 & Hit & H).
    apply py_iter_reads in Hit as ->.
    refine (for_each_invariant
              (fun st => length (heap st) = length (heap s)
                         /\ forall a, c <> VRef a -> heap st !! a = heap s !! a)
              (fun _ => True) _ items _ _ s u s' _ H).
    + intros item st st1 _ [Hl Hf] Hb.
      apply bind_inv in Hb as (kv & s0 & Hit & Hb).
      apply py_iter_reads in Hit as ->.
      destruct kv as [|k [|v [|]]]; try done.
      destruct (Hset _ _ _ _ _ Hb) as [Hl1 Hf1].
      split; [lia|]. intros a Hne. rewrite Hf1, Hf; done.
    + by apply Forall_forall.
    + done.
  - intros H. apply bind_inv in H as (items & s0 & Hit & H).
    apply py_iter_reads in Hit as ->.
    refine (for_each_invariant
              (fun st => length (heap st) = length (heap s)
                         /\ forall a, c <> VRef a -> heap st !! a = heap s !! a)
              (fun _ => True) _ items _ _ s u s' _ H).
    + intros item st st1 _ [Hl Hf] Hb.
      apply bind_inv in Hb as (kv & s0 & Hit & Hb).
      apply py_iter_reads in Hit as ->.
      destruct kv as [|k [|v [|]]]; try done.
      destruct (Hset _ _ _ _ _ Hb) as [Hl1 Hf1].
      split; [lia|]. intros a Hne. rewrite Hf1, Hf; done.
    + by apply Forall_forall.
    + done.
Qed.

Lemma append_loop_inv {A} (l : list A) t v : forall s u s',
  for_each l (fun _ => py_append (VRef t) v) s = (Val u, s') ->
  length (heap s') = length (heap s)
  /\ (forall a, a <> t -> heap s' !! a = heap s !! a)
  /\ (forall xs, heap s !! t = Some (OList xs) ->
                 heap s' !! t = Some (OList (xs ++ replicate (length l) v))).
Proof.
  induction l as [|x l IH]; intros s u s' Hrun.
  - simpl in Hrun. inversion Hrun; subst. split; [done|]. split; [done|].
    intros xs Hxs. simpl. by rewrite app_nil_r.
  - apply for_each_inv in Hrun as (s1 & H1 & H2).
    apply py_append_inv in H1 as (a & xs & [= <-] & Hxs & ->).
    destruct (IH _ _ _ H2) as (Hl & Hf & Hc). simpl in *.
    rewrite length_insert in Hl.
    split; [done|]. split.
    + intros a Hne. rewrite Hf by done. by apply list_lookup_insert_ne.
    + intros xs' Hxs'. rewrite Hxs in Hxs'. inversion Hxs'; subst xs'.
      rewrite (Hc (xs ++ [v])).
      * by rewrite <- app_assoc.
      * apply list_lookup_insert_eq. by eapply lookup_lt_Some.
Qed.

Section Consume.
Context (W : world).

Lemma load_teststep_settles ex n fuel b s v s' :
  1 ∈ ex -> n <= length (heap s) ->
  load_teststep W fuel b s = (Val v, s') ->
  settles inert ex n (heap s) (heap s').
Proof.
  intros H1 Hn Hrun.
  destruct (load_teststep_frame W fuel b s v s' Hrun) as (_ & Hl & Hf & He).
  split; [done|]. intros a d Ha Hex Hd (_ & Hapi & Htc).
  assert (a <> 1) by (by intros ->).
  destruct (decide (b = VRef a)) as [->|Hne].
  - destruct (He a d eq_refl H Hd) as (d' & Hd' & Heff). left.
    unfold step_effect in Heff. rewrite Hapi, Htc in Heff.
    destruct (dict_has d (KStr "func")); by subst.
  - left. rewrite Hf; [done | lia | done | done].
Qed.

(** One turn of the loop of [load_testcase]. *)
Lemma testcase_item_consumes ex n fuel c t item s s1 :
  1 ∈ ex -> n <= c -> n <= t -> n <= length (heap s) ->
  (forall a, item = VRef a -> a < n /\ (a ∉ ex)) ->
  testcase_item (load_teststep W fuel) (VRef c) (VRef t) item s
  = (Val tt, s1) ->
  settles inert ex n (heap s) (heap s1)
  /\ exists a, item = VRef a /\ a < n /\ (a ∉ ex)
               /\ heap s1 !! a = Some (ODict []).
Proof.
  intros H1 Hc Ht Hn Hitem Hrun. unfold testcase_item in Hrun.
  apply bind_inv in Hrun as (s0 & s0' & H0 & Hrun).
  inversion H0; subst s0 s0'; clear H0.
  destruct (is_dict item s) eqn:Hd; [|done].
  destruct (Nat.eqb (len_of item s) 1) eqn:Hl; [|done]. simpl in Hrun.
  apply bind_inv in Hrun as ([key test_block] & s2 & Hp & Hrun).
  apply py_popitem_inv in Hp as (a & d & kk & rest & -> & Ha & Hpop & -> & ->).
  destruct (Hitem a eq_refl) as [Han Hex].
  assert (rest = []) as ->.
  { apply Nat.eqb_eq in Hl. unfold len_of in Hl. simpl in Hl.
    rewrite Ha in Hl. eapply small_popitem; [|exact Hpop]. unfold small. lia. }
  set (h2 := <[a := ODict []]> (heap s)) in *.
  assert (Ha2 : h2 !! a = Some (ODict [])).
  { apply list_lookup_insert_eq. by eapply lookup_lt_Some. }
  assert (Hs2 : settles inert ex n (heap s) h2).
  { eapply settles_popitem; [apply inert_small | exact Ha | exact Hpop]. }
  assert (Hrest : forall s3, settles inert ex n h2 (heap s3) ->
            settles inert ex n (heap s) (heap s3)
            /\ exists a0, VRef a = VRef a0 /\ a0 < n /\ (a0 ∉ ex)
                          /\ heap s3 !! a0 = Some (ODict [])).
  { intros s3 Hs3. split; [eapply settles_trans; eauto using inert_nil|].
    exists a. split; [done|]. split; [done|]. split; [done|].
    destruct Hs3 as [_ Hs3].
    destruct (Hs3 a [] Han Hex Ha2 inert_nil); done. }
  apply bind_inv in Hrun as (s0 & s0' & H0 & Hrun).
  inversion H0; subst s0 s0'; clear H0.
  destruct (is_dict test_block _) eqn:Hd2; [|done]. simpl in Hrun.
  destruct (eq_str (of_key kk) "config").
  { apply py_update_dict_inv in Hrun
      as (c' & dc & b' & o' & [= <-] & -> & Hcc & Hb' & ->); [|exact Hd2].
    apply Hrest. simpl. apply settles_insert_ex. by right. }
  destruct (eq_str (of_key kk) "test").
  { apply bind_inv in Hrun as (teststep & s3 & Hs & Hrun).
    apply py_append_inv in Hrun as (t' & xs & [= <-] & Hxs & ->).
    apply Hrest. simpl.
    eapply settles_trans; [apply inert_nil | | apply settles_insert_ex; by right].
    apply (load_teststep_settles ex n fuel test_block (set_heap h2 s)
             teststep s3 H1); [|exact Hs].
    simpl. unfold h2. by rewrite length_insert. }
  inversion Hrun; subst; clear Hrun. apply Hrest. simpl. apply settles_refl.
Qed.

(** One turn of the loop of [load_locust_tests]. *)
Lemma locust_item_consumes ex n fuel c t item s s1 :
  1 ∈ ex -> c ∈ ex -> t ∈ ex -> n <= length (heap s) ->
  block_item inert ex n (heap s) item ->
  locust_item W fuel (VRef c) (VRef t) item s = (Val tt, s1) ->
  settles inert ex n (heap s) (heap s1)
  /\ exists a, item = VRef a /\ a < n /\ (a ∉ ex)
               /\ heap s1 !! a = Some (ODict []).
Proof.
  intros H1 Hc Ht Hn (a & d & -> & Han & Hex & Ha & Hin) Hrun.
  unfold locust_item in Hrun.
  apply bind_inv in Hrun as ([key test_block] & s2 & Hp & Hrun).
  apply py_popitem_inv in Hp
    as (a' & d' & kk & rest & [= <-] & Ha' & Hpop & -> & ->).
  rewrite Ha in Ha'. inversion Ha'; subst d'; clear Ha'.
  assert (rest = []) as ->
    by (eapply small_popitem; [apply inert_small, Hin | exact Hpop]).
  set (h2 := <[a := ODict []]> (heap s)) in *.
  assert (Ha2 : h2 !! a = Some (ODict [])).
  { apply list_lookup_insert_eq. by eapply lookup_lt_Some. }
  assert (Hs2 : settles inert ex n (heap s) h2).
  { eapply settles_popitem; [apply inert_small | exact Ha | exact Hpop]. }
  assert (Hrest : forall s3, settles inert ex n h2 (heap s3) ->
            settles inert ex n (heap s) (heap s3)
            /\ exists a0, VRef a = VRef a0 /\ a0 < n /\ (a0 ∉ ex)
                          /\ heap s3 !! a0 = Some (ODict [])).
  { intros s3 Hs3. split; [eapply settles_trans; eauto using inert_nil|].
    exists a. split; [done|]. split; [done|]. split; [done|].
    destruct Hs3 as [_ Hs3].
    destruct (Hs3 a [] Han Hex Ha2 inert_nil); done. }
  destruct (eq_str (of_key kk) "config").
  { apply py_update_frame in Hrun as [Hl Hf]. apply Hrest.
    apply settles_same; [simpl in *; lia|].
    intros a0 Ha0 Hex0. apply Hf. intros [= ->]. done. }
  destruct (eq_str (of_key kk) "test").
  { apply bind_inv in Hrun as (teststep & s3 & Hs & Hrun).
    apply bind_inv in Hrun as (weight & s0 & H0 & Hrun).
    apply py_get_reads in H0 as ->.
    apply bind_inv in Hrun as (k & s0 & H0 & Hrun).
    assert (s0 = s3) as ->.
    { revert H0. unfold py_range, ret, raise. repeat case_match; congruence. }
    apply append_loop_inv in Hrun as (Hl & Hf & _).
    apply Hrest.
    eapply settles_trans; [apply inert_nil | |].
    - apply (load_teststep_settles ex n fuel test_block (set_heap h2 s)
               teststep s3 H1); [|exact Hs].
      simpl. unfold h2. by rewrite length_insert.
    - apply settles_same; [lia|]. intros a0 Ha0 Hex0. apply Hf.
      by intros ->. }
  inversion Hrun; subst; clear Hrun. apply Hrest. simpl. apply settles_refl.
Qed.

End Consume.

Lemma emptied_app h new item : emptied h item -> emptied (h ++ new) item.
Proof.
  intros (a & -> & Ha). exists a. split; [done|].
  rewrite lookup_app_l; [done | by eapply lookup_lt_Some].
Qed.

Section ConsumeTheorem.
Context (W : world).

Lemma load_testcase_consumes fuel r items s v s' :
  heap s !! r = Some (OList items) ->
  (forall a, VRef a ∈ items -> a < length (heap s) /\ a <> 1) ->
  load_testcase W fuel (VRef r) s = (Val v, s') ->
  Forall (emptied (heap s')) items.
Proof.
  intros Hr Hitems Hrun. destruct fuel as [|fuel]; [done|].
  simpl in Hrun. unfold load_testcase_with in Hrun.
  apply bind_inv in Hrun as (config & s1 & Ha1 & Hrun).
  apply alloc_inv in Ha1 as [[= ->] ->].
  apply bind_inv in Hrun as (teststeps & s2 & Ha2 & Hrun).
  apply alloc_inv in Ha2 as [[= ->] ->]. simpl in Hrun.
  apply bind_inv in Hrun as (items' & s3 & Hit & Hrun).
  assert (Hlt : r < length (heap s)) by (by eapply lookup_lt_Some).
  assert (items' = items /\ s3 = set_heap ((heap s ++ [ODict []]) ++ [OList []])
                                   (set_heap (heap s ++ [ODict []]) s))
    as [-> ->].
  { revert Hit. unfold py_iter. simpl.
    rewrite !lookup_app_l by (rewrite ?length_app; simpl; lia).
    rewrite Hr. by intros [= <- <-]. }
  apply bind_inv in Hrun as ([] & s4 & Hloop & Hrun).
  apply alloc_inv in Hrun as [[= ->] ->]. simpl.
  eapply Forall_impl; [|intros x Hx; apply emptied_app; exact Hx].
  set (n := length (heap s)) in *.
  refine (proj2 (consume_loop inert [1] n
                   (fun _ item => forall a, item = VRef a -> a < n /\ (a ∉ [1]))
                   _ items inert_nil _ _ _ tt s4 _ _ Hloop)).
  - auto.
  - intros item st st1 Hq Hn Hbody.
    eapply (testcase_item_consumes W [1] n fuel); [| | | exact Hn | exact Hq
                                                   | exact Hbody].
    + apply list_elem_of_here.
    + lia.
    + rewrite length_app. simpl. lia.
  - simpl. rewrite !length_app. simpl. lia.
  - apply Forall_forall. intros item Hin a ->.
    destruct (Hitems a Hin) as [Ha Hne]. split; [done|].
    by intros ->%list_elem_of_singleton.
Qed.

Lemma locust_loop_consumes fuel c t items s u s' :
  Forall (block_item inert [1; c; t] (length (heap s)) (heap s)) items ->
  for_each items (locust_item W fuel (VRef c) (VRef t)) s = (Val u, s') ->
  Forall (emptied (heap s')) items.
Proof.
  intros Hitems Hloop.
  refine (proj2 (consume_loop inert [1; c; t] (length (heap s))
                   (block_item inert [1; c; t] (length (heap s)))
                   _ items inert_nil _ _ s u s' _ Hitems Hloop)).
  - intros h h' item Hs Hq. eapply block_item_settles; eauto using inert_nil.
  - intros item st st1 Hq Hn Hbody.
    eapply (locust_item_consumes W [1; c; t] _ fuel c t);
      [| | | exact Hn | exact Hq | exact Hbody].
    + apply list_elem_of_here.
    + apply list_elem_of_further, list_elem_of_here.
    + apply list_elem_of_further, list_elem_of_further, list_elem_of_here.
  - done.
Qed.

End ConsumeTheorem.

(** ** Api definitions without an id *)

Lemma api_item_step_run m a b d kk rest db dm kid s :
  heap s !! a = Some (ODict d) ->
  dict_popitem d = Some (kk, VRef b, rest) ->
  a <> m -> a <> b ->
  heap s !! b = Some (ODict db) ->
  heap s !! m = Some (ODict dm) ->
  let api_id := default VNone (dict_get db (KStr "id")) in
  to_key api_id = Some kid ->
  let s2 := set_heap (<[a := ODict rest]> (heap s)) s in
  let s3 := if dict_has dm kid
            then add_log LWarning (MsgApiDuplicated api_id) s2 else s2 in
  api_item_step (VRef m) (VRef a) s
  = (Val tt,
     set_heap (<[m := ODict (dict_set dm kid (VRef b))]> (heap s3)) s3).
Proof.
  intros Ha Hpop Ham Hab Hb Hm api_id Hk s2 s3.
  unfold api_item_step. unfold bind at 1. unfold py_popitem. simpl.
  rewrite Ha, Hpop.
  unfold bind at 1. unfold py_get. simpl.
  rewrite list_lookup_insert_ne by done. rewrite Hb. simpl.
  assert (Hid : match dict_get db (KStr "id") with
                | Some v => (Val v, s2)
                | None => (Val VNone, s2)
                end = (Val api_id, s2)).
  { unfold api_id. by destruct (dict_get db (KStr "id")). }
  fold s2. rewrite Hid.
  unfold bind at 1. unfold py_contains. simpl.
  rewrite list_lookup_insert_ne by done. rewrite Hm, Hk.
  unfold bind at 1. fold s2.
  assert (Hlog : (if dict_has dm kid
                  then log_warning (MsgApiDuplicated api_id) else ret tt) s2
                 = (Val tt, s3)).
  { unfold s3. by destruct (dict_has dm kid). }
  rewrite Hlog. unfold py_setitem. simpl.
  assert (Hm3 : heap s3 !! m = Some (ODict dm)).
  { unfold s3. destruct (dict_has dm kid); simpl;
      by rewrite list_lookup_insert_ne. }
  rewrite Hm3, Hk. reflexivity.
Qed.

(** The whole of [load_api_folder] on an api file with two definitions
    without id: the mapping has the single key [None], bound to the second
    definition, and the warning is in the log. *)
Example load_api_folder_no_id :
  exists v s',
    load_api_folder no_id_world "/w/p/api" init_state = (Val v, s')
    /\ doc_of 3 (heap s') v
       = Some (DDict [(KNone, DDict [(KStr "validate", DList [])])])
    /\ log s' = [(LWarning, MsgApiDuplicated VNone)].
Proof.
  eexists _, _. split; [vm_compute; reflexivity|].
  split; vm_compute; reflexivity.
Qed.

(** ** Merging the config blocks *)

Lemma dict_get_not_in o k : k ∉ map fst o -> dict_get o k = None.
Proof.
  induction o as [|[k0 v0] o IH]; simpl; [done|].
  intros Hn. apply not_elem_of_cons in Hn as [Hne Hn].
  rewrite decide_False by done. by apply IH.
Qed.

Lemma dict_get_update o : forall d k,
  NoDup (map fst o) ->
  dict_get (dict_update d o) k
  = match dict_get o k with Some v => Some v | None => dict_get d k end.
Proof.
  unfold dict_update.
  induction o as [|[k0 v0] o IH]; intros d k Hnd; simpl; [done|].
  apply NoDup_cons in Hnd as [Hk0 Hnd]. rewrite IH by done.
  destruct (decide (k0 = k)) as [->|Hne].
  - rewrite dict_get_not_in by done. apply dict_get_set_eq.
  - by rewrite dict_get_set_ne.
Qed.

Lemma dict_get_merge ds : forall d0 k,
  Forall (fun d => NoDup (map fst d)) ds ->
  dict_get (fold_left dict_update ds d0) k
  = match last_binding ds k with Some v => Some v | None => dict_get d0 k end.
Proof.
  induction ds as [|d ds IH]; intros d0 k Hnd; simpl; [done|].
  inversion Hnd; subst. rewrite IH by done.
  destruct (last_binding ds k); [done|]. by apply dict_get_update.
Qed.

Lemma untouched_refl keep h : untouched keep h h.
Proof. split; [lia | done]. Qed.

Lemma untouched_trans keep h1 h2 h3 :
  untouched keep h1 h2 -> untouched keep h2 h3 -> untouched keep h1 h3.
Proof.
  intros [L1 F1] [L2 F2]. split; [lia|].
  intros x Hx Hk. rewrite F2, F1; [done..|lia|done].
Qed.

Lemma untouched_insert keep h a o :
  a ∈ keep -> untouched keep h (<[a := o]> h).
Proof.
  intros Ha. split; [by rewrite length_insert|].
  intros x Hx Hk. apply list_lookup_insert_ne. by intros ->.
Qed.

Lemma untouched_weaken keep keep' h h' :
  untouched keep h h' -> (forall x, x ∈ keep -> x ∈ keep') ->
  untouched keep' h h'.
Proof. intros [L F] Hsub. split; [done|]. intros x Hx Hk. apply F; auto. Qed.

Lemma block_at_untouched keep h h' b :
  untouched keep h h' -> block_at h b ->
  blk_item b ∉ keep -> blk_addr b ∉ keep -> block_at h' b.
Proof.
  intros [_ F] [Hi Ha] Hki Hka. split.
  - rewrite F; [done | by eapply lookup_lt_Some | done].
  - rewrite F; [done | by eapply lookup_lt_Some | done].
Qed.

Lemma eq_str_of_key k x : eq_str (of_key k) x = bool_decide (k = KStr x).
Proof.
  destruct k as [|z|y].
  - rewrite bool_decide_eq_false_2 by discriminate. reflexivity.
  - rewrite bool_decide_eq_false_2 by discriminate. reflexivity.
  - change (eq_str (of_key (KStr y)) x) with (String.eqb y x).
    destruct (String.eqb y x) eqn:E.
    + apply String.eqb_eq in E as ->. by rewrite bool_decide_eq_true_2.
    + apply String.eqb_neq in E. rewrite bool_decide_eq_false_2; congruence.
Qed.

Section ConfigMerge.
Context (W : world).

Lemma load_teststep_untouched fuel b s v s' :
  load_teststep W fuel (VRef b) s = (Val v, s') ->
  v = VRef b /\ untouched [1; b] (heap s) (heap s')
  /\ (forall d, b <> 1 -> heap s !! b = Some (ODict d) ->
        exists d', heap s' !! b = Some (ODict d') /\ step_effect d d').
Proof.
  intros Hrun.
  destruct (load_teststep_frame W fuel _ _ _ _ Hrun) as (-> & Hl & Hf & He).
  split; [done|]. split; [split; [done|]|].
  - intros x Hx Hk. apply Hf; [done | |].
    + intros ->. apply Hk, list_elem_of_here.
    + intros [= ->]. apply Hk, list_elem_of_further, list_elem_of_here.
  - intros d Hb1 Hd. by eapply He.
Qed.

(** One turn of the loop of [load_testcase] on a labelled block. *)
Lemma testcase_item_effect fuel b c t cfg ts s s1 :
  block_at (heap s) b ->
  heap s !! c = Some (ODict cfg) -> heap s !! t = Some (OList ts) ->
  NoDup [1; blk_item b; blk_addr b; c; t] ->
  testcase_item (load_teststep W fuel) (VRef c) (VRef t)
                (VRef (blk_item b)) s = (Val tt, s1) ->
  untouched [1; blk_item b; blk_addr b; c; t] (heap s) (heap s1)
  /\ heap s1 !! c
     = Some (ODict (if is_config b then dict_update cfg (blk_body b) else cfg))
  /\ heap s1 !! t
     = Some (OList (if is_test b then ts ++ [VRef (blk_addr b)] else ts)).
Proof.
  destruct b as [a k bb d]. unfold block_at, is_config, is_test. simpl.
  intros [Ha Hb] Hc Ht Hnd Hrun.
  assert (Hne : 1 <> a /\ 1 <> bb /\ 1 <> c /\ 1 <> t /\ a <> bb /\ a <> c
                /\ a <> t /\ bb <> c /\ bb <> t /\ c <> t).
  { repeat match goal with
           | H : NoDup (_ :: _) |- _ => apply NoDup_cons in H as [? H]
           end.
    repeat match goal with
           | H : _ ∉ _ :: _ |- _ => apply not_elem_of_cons in H as [? H]
           end.
    repeat split; congruence. }
  destruct Hne as (? & ? & ? & ? & ? & ? & ? & ? & ? & ?).
  unfold testcase_item in Hrun.
  apply bind_inv in Hrun as (s0 & s0' & Hget0 & Hrun).
  inversion Hget0; subst s0 s0'; clear Hget0.
  destruct (is_dict (VRef a) s) eqn:Hd; [|done].
  destruct (Nat.eqb (len_of (VRef a) s) 1) eqn:Hl; [|done]. simpl in Hrun.
  apply bind_inv in Hrun as ([key test_block] & s2 & Hp & Hrun).
  apply py_popitem_inv in Hp
    as (a' & d' & kk & rest & [= <-] & Ha' & Hpop & -> & ->).
  rewrite Ha in Ha'. inversion Ha'; subst d'; clear Ha'.
  simpl in Hpop. inversion Hpop; subst kk test_block rest; clear Hpop.
  set (h2 := <[a := ODict []]> (heap s)) in *.
  assert (Hu2 : untouched [1; a; bb; c; t] (heap s) h2).
  { apply untouched_insert. apply list_elem_of_further, list_elem_of_here. }
  assert (Hb2 : h2 !! bb = Some (ODict d))
    by (unfold h2; by rewrite list_lookup_insert_ne).
  assert (Hc2 : h2 !! c = Some (ODict cfg))
    by (unfold h2; by rewrite list_lookup_insert_ne).
  assert (Ht2 : h2 !! t = Some (OList ts))
    by (unfold h2; by rewrite list_lookup_insert_ne).
  apply bind_inv in Hrun as (s0 & s0' & Hget0 & Hrun).
  inversion Hget0; subst s0 s0'; clear Hget0.
  destruct (is_dict (VRef bb) _) eqn:Hd2; [|done]. simpl in Hrun.
  rewrite !eq_str_of_key in Hrun.
  destruct (bool_decide (k = KStr "config")) eqn:Ek1.
  { apply bool_decide_eq_true_1 in Ek1 as ->.
    rewrite bool_decide_eq_false_2 by done.
    apply py_update_dict_inv in Hrun
      as (c' & dc & b' & o' & [= <-] & [= <-] & Hcc & Hb' & ->); [|exact Hd2].
    simpl in *. rewrite Hc2 in Hcc. rewrite Hb2 in Hb'.
    inversion Hcc; subst dc. inversion Hb'; subst o'.
    split; [|split].
    - eapply untouched_trans; [exact Hu2|]. apply untouched_insert.
      do 3 apply list_elem_of_further. apply list_elem_of_here.
    - apply list_lookup_insert_eq. by eapply lookup_lt_Some.
    - by rewrite list_lookup_insert_ne. }
  destruct (bool_decide (k = KStr "test")) eqn:Ek2.
  { apply bind_inv in Hrun as (teststep & s3 & Hs & Hrun).
    apply load_teststep_untouched in Hs as (-> & Hu3 & _).
    apply py_append_inv in Hrun as (t' & xs & [= <-] & Hxs & ->).
    simpl in *.
    assert (Hlt : forall x o, h2 !! x = Some o -> x < length h2)
      by (intros x o Hx; by eapply lookup_lt_Some).
    assert (Hnot : forall x, x <> 1 -> x <> bb -> x ∉ [1; bb]).
    { intros x ?? Hin. apply elem_of_cons in Hin as [->|Hin]; [done|].
      apply elem_of_cons in Hin as [->|Hin]; [done|].
      by apply elem_of_nil in Hin. }
    destruct Hu3 as [Hl3 Hf3].
    rewrite Hf3 in Hxs by eauto. rewrite Ht2 in Hxs. inversion Hxs; subst xs.
    split; [|split].
    - eapply untouched_trans; [exact Hu2|].
      eapply untouched_trans.
      + eapply untouched_weaken; [split; [exact Hl3 | exact Hf3]|].
        intros x Hx. apply elem_of_cons in Hx as [->|Hx];
          [apply list_elem_of_here|].
        apply elem_of_cons in Hx as [->|Hx]; [|by apply elem_of_nil in Hx].
        do 2 apply list_elem_of_further. apply list_elem_of_here.
      + apply untouched_insert. do 4 apply list_elem_of_further.
        apply list_elem_of_here.
    - rewrite list_lookup_insert_ne by done. rewrite Hf3 by eauto. done.
    - apply list_lookup_insert_eq.
      assert (t < length h2) by eauto. lia. }
  inversion Hrun; subst; clear Hrun. simpl. done.
Qed.

End ConfigMerge.

Lemma nodup_block (a b c t : nat) (rest : list nat) :
  NoDup (1 :: c :: t :: a :: b :: rest) ->
  NoDup [1; a; b; c; t] /\ NoDup (1 :: c :: t :: rest)
  /\ (forall x, x ∈ rest -> x ∉ [1; a; b; c; t]).
Proof.
  intros H. rewrite !NoDup_cons, !not_elem_of_cons in H.
  destruct H as ((?&?&?&?&?) & (?&?&?&?) & (?&?&?) & (?&?) & ? & ?).
  split; [|split].
  - rewrite !NoDup_cons, !not_elem_of_cons.
    repeat split; try congruence; try apply not_elem_of_nil;
      try apply NoDup_nil_2.
  - rewrite !NoDup_cons, !not_elem_of_cons. repeat split; congruence || done.
  - intros x Hx. rewrite !not_elem_of_cons.
    repeat split; try (intros ->; done). apply not_elem_of_nil.
Qed.

Lemma block_addrs_elem b bs :
  b ∈ bs -> blk_item b ∈ block_addrs bs /\ blk_addr b ∈ block_addrs bs.
Proof.
  intros Hin. unfold block_addrs. split; apply list_elem_of_In, in_flat_map;
    exists b; (split; [by apply list_elem_of_In|]); simpl; auto.
Qed.

Lemma config_bodies_cons b bs :
  config_bodies (b :: bs)
  = if is_config b then blk_body b :: config_bodies bs else config_bodies bs.
Proof.
  unfold config_bodies. rewrite filter_cons.
  destruct (is_config b); [by rewrite decide_True | by rewrite decide_False].
Qed.

Lemma test_steps_cons b bs :
  test_steps (b :: bs)
  = if is_test b then VRef (blk_addr b) :: test_steps bs else test_steps bs.
Proof.
  unfold test_steps. rewrite filter_cons.
  destruct (is_test b); [by rewrite decide_True | by rewrite decide_False].
Qed.

Section ConfigMergeLoop.
Context (W : world).

Lemma testcase_loop_effect fuel c t bs : forall cfg ts s u s',
  Forall (block_at (heap s)) bs ->
  NoDup (1 :: c :: t :: block_addrs bs) ->
  heap s !! c = Some (ODict cfg) -> heap s !! t = Some (OList ts) ->
  for_each (block_items bs)
    (testcase_item (load_teststep W fuel) (VRef c) (VRef t)) s = (Val u, s') ->
  length (heap s) <= length (heap s')
  /\ heap s' !! c
     = Some (ODict (fold_left dict_update (config_bodies bs) cfg))
  /\ heap s' !! t = Some (OList (ts ++ test_steps bs)).
Proof.
  induction bs as [|b bs IH]; intros cfg ts s u s' Hat Hnd Hc Ht Hrun.
  - simpl in Hrun. inversion Hrun; subst. simpl.
    split; [done|]. split; [done|]. by rewrite app_nil_r.
  - simpl in Hrun. apply for_each_inv in Hrun as (s1 & H1 & H2).
    inversion Hat as [|?? Hb Hbs]; subst.
    simpl in Hnd. apply nodup_block in Hnd as (Hnd1 & Hnd2 & Hnd3).
    destruct (testcase_item_effect W fuel b c t cfg ts s s1 Hb Hc Ht Hnd1 H1)
      as (Hu & Hc1 & Ht1).
    assert (Hbs1 : Forall (block_at (heap s1)) bs).
    { apply Forall_forall. intros b' Hin.
      rewrite Forall_forall in Hbs.
      destruct (block_addrs_elem b' bs Hin) as [Hi Ha].
      eapply block_at_untouched; [exact Hu | by apply Hbs | by apply Hnd3
                                 | by apply Hnd3]. }
    destruct (IH _ _ s1 u s' Hbs1 Hnd2 Hc1 Ht1 H2) as (Hl & Hc' & Ht').
    destruct Hu as [Hl1 _]. split; [lia|].
    rewrite config_bodies_cons, test_steps_cons.
    split.
    + rewrite Hc'. by destruct (is_config b).
    + rewrite Ht'. destruct (is_test b); [|done]. by rewrite <- app_assoc.
Qed.

End ConfigMergeLoop.

(** ** The loop of [load_testcase] returns *)

Lemma nodup5_ne (a b c t : nat) :
  NoDup [1; a; b; c; t] ->
  1 <> a /\ 1 <> b /\ 1 <> c /\ 1 <> t /\ a <> b /\ a <> c
  /\ a <> t /\ b <> c /\ b <> t /\ c <> t.
Proof.
  intros Hnd.
  repeat match goal with
         | H : NoDup (_ :: _) |- _ => apply NoDup_cons in H as [? H]
         end.
  repeat match goal with
         | H : _ ∉ _ :: _ |- _ => apply not_elem_of_cons in H as [? H]
         end.
  repeat split; congruence.
Qed.

Section TestcaseReturns.
Context (W : world).

(** A step that is defined directly is returned as it is. *)
Lemma load_teststep_direct rec b d s :
  heap s !! b = Some (ODict d) -> direct_step d = true ->
  load_teststep_with W rec (VRef b) s = (Val (VRef b), s).
Proof.
  intros Hb Hd. unfold direct_step in Hd.
  apply andb_prop in Hd as [Hapi Hrest]. apply negb_true_iff in Hapi.
  unfold load_teststep_with. unfold bind at 1. unfold py_contains at 1.
  simpl. rewrite Hb, Hapi.
  unfold bind at 1. unfold py_contains at 1. simpl. rewrite Hb.
  destruct (dict_has d (KStr "func")); [reflexivity|].
  simpl in Hrest. apply negb_true_iff in Hrest.
  unfold bind at 1. unfold py_contains at 1. simpl. rewrite Hb, Hrest.
  reflexivity.
Qed.

Lemma testcase_item_returns fuel b c t cfg ts s :
  block_at (heap s) b ->
  heap s !! c = Some (ODict cfg) -> heap s !! t = Some (OList ts) ->
  NoDup [1; blk_item b; blk_addr b; c; t] ->
  direct_block b ->
  exists s1,
    testcase_item (load_teststep W fuel) (VRef c) (VRef t)
                  (VRef (blk_item b)) s = (Val tt, s1).
Proof.
  destruct b as [a k bb d]. unfold block_at, direct_block, is_test. simpl.
  intros [Ha Hb] Hc Ht Hnd Hdir.
  apply nodup5_ne in Hnd as (? & ? & ? & ? & ? & ? & ? & ? & ? & ?).
  unfold testcase_item. unfold bind at 1, get_state at 1.
  unfold is_dict at 1, len_of at 1. simpl. rewrite Ha. simpl.
  unfold bind at 1. unfold py_popitem at 1. simpl. rewrite Ha. simpl.
  remember (set_heap (<[a := ODict []]> (heap s)) s) as s2 eqn:E2.
  assert (Hb2 : heap s2 !! bb = Some (ODict d))
    by (subst s2; simpl; by rewrite list_lookup_insert_ne).
  assert (Hc2 : heap s2 !! c = Some (ODict cfg))
    by (subst s2; simpl; by rewrite list_lookup_insert_ne).
  assert (Ht2 : heap s2 !! t = Some (OList ts))
    by (subst s2; simpl; by rewrite list_lookup_insert_ne).
  unfold bind at 1, get_state at 1. unfold is_dict at 1. simpl.
  rewrite Hb2. simpl. rewrite !eq_str_of_key.
  destruct (bool_decide (k = KStr "config")) eqn:Ek1.
  { unfold py_update. simpl. rewrite Hb2, Hc2. by eexists. }
  destruct (bool_decide (k = KStr "test")) eqn:Ek2.
  { unfold bind at 1. unfold load_teststep.
    rewrite (load_teststep_direct _ bb d s2 Hb2 (Hdir eq_refl)).
    unfold py_append. simpl. rewrite Ht2. by eexists. }
  by eexists.
Qed.

Lemma testcase_loop_returns fuel c t bs : forall cfg ts s,
  Forall (block_at (heap s)) bs ->
  NoDup (1 :: c :: t :: block_addrs bs) ->
  heap s !! c = Some (ODict cfg) -> heap s !! t = Some (OList ts) ->
  Forall direct_block bs ->
  exists s',
    for_each (block_items bs)
      (testcase_item (load_teststep W fuel) (VRef c) (VRef t)) s
    = (Val tt, s').
Proof.
  induction bs as [|b bs IH]; intros cfg ts s Hat Hnd Hc Ht Hdir.
  - by eexists.
  - inversion Hat as [|?? Hb Hbs]; subst.
    inversion Hdir as [|?? Hdb Hdbs]; subst.
    simpl in Hnd. apply nodup_block in Hnd as (Hnd1 & Hnd2 & Hnd3).
    destruct (testcase_item_returns fuel b c t cfg ts s Hb Hc Ht Hnd1 Hdb)
      as [s1 H1].
    destruct (testcase_item_effect W fuel b c t cfg ts s s1 Hb Hc Ht Hnd1 H1)
      as (Hu & Hc1 & Ht1).
    assert (Hbs1 : Forall (block_at (heap s1)) bs).
    { apply Forall_forall. intros b' Hin.
      rewrite Forall_forall in Hbs.
      destruct (block_addrs_elem b' bs Hin) as [Hi Ha].
      eapply block_at_untouched; [exact Hu | by apply Hbs | by apply Hnd3
                                 | by apply Hnd3]. }
    destruct (IH _ _ s1 Hbs1 Hnd2 Hc1 Ht1 Hdbs) as [s' H2].
    exists s'. simpl. unfold bind at 1. by rewrite H1.
Qed.

(** [load_testcase] returns for a list of blocks whose steps are defined
    directly, whatever the fuel left for nested testcases. *)
Lemma load_testcase_returns fuel r bs s :
  2 <= length (heap s) ->
  heap s !! r = Some (OList (block_items bs)) ->
  Forall (block_at (heap s)) bs ->
  NoDup (1 :: block_addrs bs) ->
  Forall direct_block bs ->
  exists v s', load_testcase W (S fuel) (VRef r) s = (Val v, s').
Proof.
  intros Hlen Hr Hat Hnd Hdir.
  assert (Hlt : r < length (heap s)) by (by eapply lookup_lt_Some).
  set (h2 := (heap s ++ [ODict []]) ++ [OList []]).
  set (s2 := set_heap h2 (set_heap (heap s ++ [ODict []]) s)).
  assert (Hlc : length (heap s ++ [ODict []]) = S (length (heap s)))
    by (rewrite length_app; simpl; lia).
  assert (Hold : forall x o, heap s !! x = Some o -> h2 !! x = Some o).
  { intros x o Hx. unfold h2. apply lookup_lt_Some in Hx as Hxl.
    rewrite !lookup_app_l; [done | lia | lia]. }
  assert (Hc2 : h2 !! length (heap s) = Some (ODict [])).
  { unfold h2. rewrite lookup_app_l by lia.
    rewrite lookup_app_r by lia. by rewrite Nat.sub_diag. }
  assert (Ht2 : h2 !! S (length (heap s)) = Some (OList [])).
  { unfold h2. rewrite lookup_app_r by lia. rewrite Hlc.
    by rewrite Nat.sub_diag. }
  assert (Hsmall : forall x, x ∈ block_addrs bs -> x < length (heap s)).
  { intros x Hx. apply list_elem_of_In, in_flat_map in Hx as (b & Hb & Hx).
    apply list_elem_of_In in Hb. rewrite Forall_forall in Hat.
    destruct (Hat b Hb) as [Hi Ha].
    destruct Hx as [<-|[<-|[]]]; by eapply lookup_lt_Some. }
  destruct (testcase_loop_returns fuel (length (heap s)) (S (length (heap s)))
              bs [] [] s2) as [s4 Hloop]; [| |exact Hc2|exact Ht2|exact Hdir|].
  - simpl. eapply Forall_impl; [exact Hat|].
    intros b [Hi Ha]. split; by apply Hold.
  - apply NoDup_cons in Hnd as [Hn1 Hnd].
    rewrite !NoDup_cons, !not_elem_of_cons.
    repeat split; try lia; try done.
    + intros Hin. apply Hsmall in Hin. lia.
    + intros Hin. apply Hsmall in Hin. lia.
  - eexists _, _. simpl. unfold load_testcase_with.
    unfold bind at 1, alloc at 1. unfold bind at 1, alloc at 1.
    cbn [heap set_heap]. rewrite Hlc.
    unfold bind at 1. unfold py_iter. simpl.
    fold h2. rewrite (Hold _ _ Hr). fold s2.
    unfold bind at 1.
    match goal with
    | |- context [for_each ?l ?f s2] =>
        replace (for_each l f s2) with (@Val unit tt, s4)
          by (symmetry; exact Hloop)
    end.
    reflexivity.
Qed.

End TestcaseReturns.

Section ConfigMergeTheorem.
Context (W : world).

Lemma load_testcase_merged fuel r bs s v s' :
  2 <= length (heap s) ->
  heap s !! r = Some (OList (block_items bs)) ->
  Forall (block_at (heap s)) bs ->
  NoDup (1 :: block_addrs bs) ->
  load_testcase W fuel (VRef r) s = (Val v, s') ->
  merged_testcase bs (heap s') v.
Proof.
  intros Hlen Hr Hat Hnd Hrun. destruct fuel as [|fuel]; [done|].
  simpl in Hrun. unfold load_testcase_with in Hrun.
  apply bind_inv in Hrun as (config & s1 & Ha1 & Hrun).
  apply alloc_inv in Ha1 as [[= ->] ->].
  apply bind_inv in Hrun as (teststeps & s2 & Ha2 & Hrun).
  apply alloc_inv in Ha2 as [[= ->] ->]. simpl in Hrun.
  apply bind_inv in Hrun as (items' & s3 & Hit & Hrun).
  assert (Hlt : r < length (heap s)) by (by eapply lookup_lt_Some).
  assert (Hlc : length (heap s ++ [ODict []]) = S (length (heap s)))
    by (rewrite length_app; simpl; lia).
  rewrite Hlc in *.
  set (h2 := (heap s ++ [ODict []]) ++ [OList []]) in *.
  assert (Hl2 : length h2 = S (S (length (heap s))))
    by (unfold h2; rewrite length_app, Hlc; simpl; lia).
  assert (Hold : forall x o, heap s !! x = Some o -> h2 !! x = Some o).
  { intros x o Hx. unfold h2. apply lookup_lt_Some in Hx as Hxl.
    rewrite !lookup_app_l; [done | lia | lia]. }
  assert (Hc2 : h2 !! length (heap s) = Some (ODict [])).
  { unfold h2. rewrite lookup_app_l by lia.
    rewrite lookup_app_r by lia. by rewrite Nat.sub_diag. }
  assert (Ht2 : h2 !! S (length (heap s)) = Some (OList [])).
  { unfold h2. rewrite lookup_app_r by lia. rewrite Hlc.
    by rewrite Nat.sub_diag. }
  set (s2 := set_heap h2 (set_heap (heap s ++ [ODict []]) s)) in *.
  assert (items' = block_items bs /\ s3 = s2) as [-> ->].
  { revert Hit. unfold py_iter. simpl. rewrite (Hold _ _ Hr).
    by intros [= <- <-]. }
  apply bind_inv in Hrun as ([] & s4 & Hloop & Hrun).
  apply alloc_inv in Hrun as [[= ->] ->]. simpl.
  assert (Hsmall : forall x, x ∈ block_addrs bs -> x < length (heap s)).
  { intros x Hx. apply list_elem_of_In, in_flat_map in Hx as (b & Hb & Hx).
    apply list_elem_of_In in Hb. rewrite Forall_forall in Hat.
    destruct (Hat b Hb) as [Hi Ha].
    destruct Hx as [<-|[<-|[]]]; by eapply lookup_lt_Some. }
  destruct (testcase_loop_effect W fuel (length (heap s)) (S (length (heap s)))
              bs [] [] s2 tt s4) as (Hl4 & Hc4 & Ht4);
    [| |exact Hc2|exact Ht2|exact Hloop|].
  - simpl. eapply Forall_impl; [exact Hat|].
    intros b [Hi Ha]. split; by apply Hold.
  - apply NoDup_cons in Hnd as [Hn1 Hnd].
    rewrite !NoDup_cons, !not_elem_of_cons.
    repeat split; try lia; try done.
    + intros Hin. apply Hsmall in Hin. lia.
    + intros Hin. apply Hsmall in Hin. lia.
  - simpl in Hl4. rewrite Hl2 in Hl4.
    exists (length (heap s4)), (length (heap s)), (S (length (heap s))).
    split; [done|]. split; [|split].
    + rewrite lookup_app_r by lia. rewrite Nat.sub_diag. reflexivity.
    + rewrite lookup_app_l by lia. exact Hc4.
    + rewrite lookup_app_l by lia. exact Ht4.
Qed.

(** C7.  [load_testcase] on a list of labelled blocks (distinct objects,
    none of them [tests_def_mapping]).  When it returns, the config of
    the testcase is the bodies of the ["config"] blocks merged from left
    to right with [dict.update], and the steps are the bodies of the
    ["test"] blocks in file order.  It does return, with one level of
    fuel, when every step is defined directly (no ["api"] entry; a
    ["func"] entry or no ["testcase"] entry), so in particular for a list
    of config blocks.  In the merged config a key has the value of the
    last config block that binds it. *)
Theorem load_testcase_merges_config
    (fuel r : nat) (bs : list block) (s : state) :
  2 <= length (heap s) ->
  heap s !! r = Some (OList (block_items bs)) ->
  Forall (block_at (heap s)) bs ->
  NoDup (1 :: block_addrs bs) ->
  (forall v s',
      load_testcase W fuel (VRef r) s = (Val v, s') ->
      merged_testcase bs (heap s') v)
  /\ (Forall direct_block bs ->
      exists v s',
        load_testcase W (S fuel) (VRef r) s = (Val v, s')
        /\ merged_testcase bs (heap s') v)
  /\ (Forall (fun d => NoDup (map fst d)) (config_bodies bs) ->
      forall k, dict_get (fold_left dict_update (config_bodies bs) []) k
                = last_binding (config_bodies bs) k).
Proof.
  intros Hlen Hr Hat Hnd. split; [|split].
  - intros v s' Hrun. by eapply load_testcase_merged.
  - intros Hdir.
    destruct (load_testcase_returns W fuel r bs s Hlen Hr Hat Hnd Hdir)
      as (v & s' & Hrun).
    exists v, s'. split; [exact Hrun|]. by eapply load_testcase_merged.
  - intros Hk k. rewrite dict_get_merge by done.
    by destruct (last_binding _ k).
Qed.

End ConfigMergeTheorem.

Lemma load_testcase_merges_config_witness :
  exists tc c t s',
    load_testcase project_world 1 (VRef (raw_addr two_configs_yml))
      (raw_state two_configs_yml) = (Val (VRef tc), s')
    /\ heap s' !! tc
       = Some (ODict [(KStr "config", VRef c); (KStr "teststeps", VRef t)])
    /\ heap s' !! c
       = Some (ODict [(KStr "name", VStr "y"); (KStr "variables", VRef 15)])
    /\ heap s' !! t = Some (OList [])
    /\ forall k, dict_get [(KStr "name", VStr "y");
                           (KStr "variables", VRef 15)] k
                 = last_binding (config_bodies two_configs_blocks) k.
Proof.
  assert (H1 : 2 <= length (heap (raw_state two_configs_yml)))
    by (vm_compute; lia).
  assert (H2 : heap (raw_state two_configs_yml) !! raw_addr two_configs_yml
               = Some (OList (block_items two_configs_blocks)))
    by (vm_compute; reflexivity).
  assert (H3 : Forall (block_at (heap (raw_state two_configs_yml)))
                 two_configs_blocks)
    by (repeat constructor; vm_compute; reflexivity).
  assert (H4 : NoDup (1 :: block_addrs two_configs_blocks)).
  { vm_compute. repeat (apply NoDup_cons; split; [not_in_list|]).
    apply NoDup_nil_2. }
  destruct (load_testcase_merges_config project_world 0
              (raw_addr two_configs_yml) two_configs_blocks
              (raw_state two_configs_yml) H1 H2 H3 H4) as (_ & Hret & Hlast).
  destruct Hret as (v & s' & Hrun & tc & c & t & -> & Htc & Hc & Ht).
  { repeat constructor; intros Ht; vm_compute in Ht; discriminate Ht. }
  exists tc, c, t, s'. split; [exact Hrun|]. split; [exact Htc|].
  split; [exact Hc|]. split; [exact Ht|].
  apply Hlast. repeat constructor; simpl; not_in_list.
Defined.

(** ** Weighted steps *)

Lemma step_effect_get d d' k :
  step_effect d d' -> k <> KStr "api_def" -> k <> KStr "testcase_def" ->
  dict_get d' k = dict_get d k.
Proof.
  unfold step_effect. intros He H1 H2.
  destruct (dict_has d (KStr "api")); [destruct He as [x ->]|].
  { by rewrite dict_get_set_ne. }
  destruct (dict_has d (KStr "func")); [by subst|].
  destruct (dict_has d (KStr "testcase")); [destruct He as [x ->]|by subst].
  by rewrite dict_get_set_ne.
Qed.



Section Weighted.
Context (W : world).

(** The turn of the loop of [load_locust_tests] for a test block: the
    block is popped, its step is resolved by one call of [load_teststep],
    and the result is appended as often as the weight says. *)
Lemma locust_item_test fuel b c t s :
  block_at (heap s) b -> is_test b = true ->
  locust_item W fuel (VRef c) (VRef t) (VRef (blk_item b)) s
  = (do teststep <- load_teststep W fuel (VRef (blk_addr b));
     do weight <- py_get (VRef (blk_addr b)) (VStr "weight") (VInt 1);
     do n <- py_range weight;
     for_each (seq 0 n) (fun _ => py_append (VRef t) teststep))
      (set_heap (<[blk_item b := ODict []]> (heap s)) s).
Proof.
  destruct b as [a k bb d]. unfold block_at, is_test. simpl.
  intros [Ha Hb] Hk. apply bool_decide_eq_true_1 in Hk as ->.
  unfold locust_item. unfold bind at 1. unfold py_popitem. simpl.
  rewrite Ha. simpl. reflexivity.
Qed.



End Weighted.







(** * Further properties

    ** The file loader *)

Lemma is_nonempty_container_truthy h v s :
  heap s = h -> is_nonempty_container h v = true -> truthy v s = true.
Proof.
  intros <-. destruct v as [| | | | |a]; simpl; try done.
  destruct (heap s !! a) as [[[|]|[|]]|]; done.
Qed.

(** The decision table of [_check_format]. *)
Lemma check_format_run (file_path : string) (content : value)
    (s : state) :
  _check_format file_path content s
  = if is_nonempty_container (heap s) content then (Val tt, s)
    else (Exc FileFormatError,
          add_log LError
            (if truthy content s then MsgContentInvalid file_path
             else MsgContentEmpty file_path) s).
Proof.
  unfold _check_format, bind, get_state, log_error, modify, raise, ret.
  destruct content as [|b|z|x|f|a]; simpl; try done.
  - by destruct b.
  - by destruct (Z.eqb z 0).
  - by destruct (String.eqb x "").
  - destruct (heap s !! a) as [[[|]|[|]]|]; done.
Qed.

(** X1.  [_check_format] lets through the lists and dictionaries that are not
    empty, and nothing else: for them it returns and leaves the state as
    it is; anything else raises [FileFormatError] after one error is
    logged ("empty" for a false value, "invalid" for a true scalar), the
    heap unchanged. *)
Theorem check_format_accepts (file_path : string) (content : value)
    (s : state) :
  _check_format file_path content s
  = if is_nonempty_container (heap s) content then (Val tt, s)
    else (Exc FileFormatError,
          add_log LError
            (if truthy content s then MsgContentInvalid file_path
             else MsgContentEmpty file_path) s).
Proof. apply check_format_run. Qed.


Lemma build_doc_run d s :
  exists v h', build d (heap s) = (v, h')
               /\ build_doc d s = (Val v, set_heap h' s)
               /\ built d (heap s) v h'.
Proof.
  destruct (build d (heap s)) as [v h'] eqn:E. exists v, h'.
  split; [done|]. split; [unfold build_doc; by rewrite E|].
  by apply build_built.
Qed.

Lemma built_denotes d h v h' : built d h v h' -> denotes h' v d.
Proof.
  intros (_ & _ & _ & Hd). exists (doc_depth d). by apply Hd.
Qed.

Lemma check_format_val file_path content s r s' :
  _check_format file_path content s = (r, s') ->
  match r with
  | Val _ => is_nonempty_container (heap s) content = true /\ s' = s
  | Exc e => e = FileFormatError
             /\ is_nonempty_container (heap s) content = false
             /\ exists m, s' = add_log LError m s
  | Timeout => False
  end.
Proof.
  rewrite check_format_run.
  destruct (is_nonempty_container (heap s) content); intros [= <- <-];
    eauto.
Qed.

(** What a parsed file goes through: the document is built and checked. *)
Lemma load_parsed_run file_path d s r s' :
  (do content <- build_doc d;
   do _ <- _check_format file_path content;
   ret content) s = (r, s') ->
  exists v h', built d (heap s) v h'
    /\ if is_nonempty_container h' v
       then r = Val v /\ s' = set_heap h' s
       else r = Exc FileFormatError
            /\ exists m, s' = add_log LError m (set_heap h' s).
Proof.
  destruct (build_doc_run d s) as (v & h' & _ & Hrun & Hb).
  unfold bind at 1. rewrite Hrun. unfold bind.
  rewrite check_format_run. simpl heap. intros H.
  exists v, h'. split; [done|].
  destruct (is_nonempty_container h' v); inversion H; eauto.
Qed.

Section LoadFile.
Context (W : world).

(** The reader that [load_file] applies to a path, by its suffix. *)
Lemma load_file_dispatch file_path s :
  load_file W file_path s
  = if negb (isfile W file_path) then (Exc FileNotFound, s)
    else
      let suffix := lower (snd (splitext W file_path)) in
      if decide (suffix = ".json") then load_json_file W file_path s
      else if bool_decide (suffix ∈ [".yaml"; ".yml"])
      then load_yaml_file W file_path s
      else if decide (suffix = ".csv") then load_csv_file W file_path s
      else (Val (VRef (length (heap s))),
            set_heap (heap s ++ [OList []])
              (add_log LWarning (MsgUnsupportedFormat file_path) s)).
Proof.
  unfold load_file. destruct (isfile W file_path); simpl; [|done].
  repeat case_match; done.
Qed.

(** X2.  When [load_file] returns for a path with the suffix [.json],
    [.yaml] or [.yml] (in any case of letters), the value is a list or a
    dictionary that is not empty, it stands for the document the parser
    gave, its objects are new and come after the ones there were, which
    are unchanged; the file was opened once and nothing was logged. *)
Theorem load_file_parsed_document
    (file_path : string) (v : value) (s s' : state) :
  lower (snd (splitext W file_path)) ∈ [".json"; ".yaml"; ".yml"] ->
  load_file W file_path s = (Val v, s') ->
  exists d,
    (if decide (lower (snd (splitext W file_path)) = ".json")
     then json_load W file_path else yaml_load W file_path) = Some d
    /\ denotes (heap s') v d
    /\ is_nonempty_container (heap s') v = true
    /\ val_ge (length (heap s)) v
    /\ (exists new, heap s' = heap s ++ new)
    /\ opened s' = opened s ++ [file_path]
    /\ log s' = log s
    /\ isfile W file_path = true.
Proof.
  intros Hsuf Hrun. rewrite load_file_dispatch in Hrun.
  destruct (isfile W file_path); [|done]. simpl in Hrun.
  assert (Hparsed : forall o,
    (do _ <- modify (add_opened file_path);
     match o with
     | None => raise YAMLError
     | Some d =>
         do content <- build_doc d;
         do _ <- _check_format file_path content;
         ret content
     end) s = (Val v, s') \/
    (do _ <- modify (add_opened file_path);
     match o with
     | None => do _ <- log_error (MsgJSONDecodeError file_path);
               raise FileFormatError
     | Some d =>
         do content <- build_doc d;
         do _ <- _check_format file_path content;
         ret content
     end) s = (Val v, s') ->
    exists d, o = Some d
      /\ denotes (heap s') v d
      /\ is_nonempty_container (heap s') v = true
      /\ val_ge (length (heap s)) v
      /\ (exists new, heap s' = heap s ++ new)
      /\ opened s' = opened s ++ [file_path]
      /\ log s' = log s
      /\ true = true).
  { intros [d|] H0; [|by destruct H0].
    assert (H1 : (do content <- build_doc d;
                  do _ <- _check_format file_path content;
                  ret content) (add_opened file_path s) = (Val v, s'))
      by (by destruct H0).
    apply load_parsed_run in H1 as (v' & h' & Hb & H1).
    destruct (is_nonempty_container h' v') eqn:E;
      [|by destruct H1 as [? _]].
    destruct H1 as [[= ->] ->]. exists d. split; [done|].
    split; [by eapply built_denotes|]. split; [done|].
    destruct Hb as (Hnew & Hge & _). done. }
  destruct (decide (lower (splitext W file_path).2 = ".json")).
  { apply (Hparsed (json_load W file_path)). by right. }
  rewrite bool_decide_eq_true_2 in Hrun.
  { apply (Hparsed (yaml_load W file_path)). by left. }
  apply elem_of_cons in Hsuf as [?|Hsuf]; [done|]. exact Hsuf.
Qed.

End LoadFile.

Lemma load_file_parsed_document_witness :
  exists v s',
    load_file files_world "/w/d/b.YML" init_state = (Val v, s')
    /\ denotes (heap s') v (DList [DStr "x"])
    /\ opened s' = ["/w/d/b.YML"].
Proof.
  destruct (load_file files_world "/w/d/b.YML" init_state)
    as [[v|e|] s'] eqn:Hrun;
    [| vm_compute in Hrun; discriminate Hrun
     | vm_compute in Hrun; discriminate Hrun].
  assert (Hsuf : lower (snd (splitext files_world "/w/d/b.YML"))
                 ∈ [".json"; ".yaml"; ".yml"]).
  { vm_compute. do 2 apply list_elem_of_further. apply list_elem_of_here. }
  destruct (load_file_parsed_document files_world "/w/d/b.YML" v
              init_state s' Hsuf Hrun)
    as (d & Hd & Hden & _ & _ & _ & Ho & _).
  clear Hrun Hsuf. vm_compute in Hd. inversion Hd; subst d.
  exists v, s'. split; [reflexivity|]. split; [exact Hden | exact Ho].
Defined.

(** The rows of a csv file, appended to the list at [L] one after the
    other: the loop returns, and the list stands for the rows read. *)
Lemma load_csv_loop L rows : forall s vs done,
  L < length (heap s) ->
  heap s !! L = Some (OList vs) ->
  (forall hx, same_on (S L) (length (heap s)) hx (heap s) ->
     Forall2 (fun v d => forall n, doc_depth d <= n ->
                           doc_of n hx v = Some d) vs done) ->
  exists s' vs',
    for_each rows (fun r => do row <- build_doc r; py_append (VRef L) row) s
    = (Val tt, s')
    /\ heap s' !! L = Some (OList vs')
    /\ take L (heap s') = take L (heap s)
    /\ length (heap s) <= length (heap s')
    /\ log s' = log s /\ opened s' = opened s
    /\ sys_path s' = sys_path s /\ os_environ s' = os_environ s
    /\ (forall hx, same_on (S L) (length (heap s')) hx (heap s') ->
          Forall2 (fun v d => forall n, doc_depth d <= n ->
                                doc_of n hx v = Some d) vs' (done ++ rows)).
Proof.
  induction rows as [|r rows IH]; intros s vs done HL Hvs Hinv.
  - exists s, vs. rewrite app_nil_r. by repeat split.
  - destruct (build_doc_run r s) as (v & h' & _ & Hrun & Hb).
    destruct Hb as ((new & ->) & Hge & _ & Hdoc).
    set (s1 := set_heap (<[L := OList (vs ++ [v])]> (heap s ++ new)) s).
    assert (H1 : (do row <- build_doc r; py_append (VRef L) row) s
                 = (Val tt, s1)).
    { unfold bind. rewrite Hrun. unfold py_append. simpl.
      rewrite lookup_app_l by done. rewrite Hvs. reflexivity. }
    assert (Hlen1 : length (heap s1) = length (heap s) + length new).
    { unfold s1. simpl. by rewrite length_insert, length_app. }
    destruct (IH s1 (vs ++ [v]) (done ++ [r])) as (s' & vs' & IH').
    + rewrite Hlen1. lia.
    + unfold s1. simpl. apply list_lookup_insert_eq.
      rewrite length_app. lia.
    + intros hx Hx. apply Forall2_app.
      * apply Hinv. intros a Ha. rewrite Hx by (rewrite Hlen1; lia).
        unfold s1. simpl. rewrite list_lookup_insert_ne by lia.
        by rewrite lookup_app_l by lia.
      * constructor; [|constructor]. intros n Hn. apply Hdoc; [|done].
        intros a Ha. rewrite length_app in Ha.
        rewrite Hx by (rewrite Hlen1; lia).
        unfold s1. simpl. by rewrite list_lookup_insert_ne by lia.
    + destruct IH' as (Hrun' & HL' & Htake & Hlen & Hlog & Hop & Hsp & Henv
                       & Hinv').
      exists s', vs'. simpl. unfold bind at 1. rewrite H1.
      split; [exact Hrun'|]. split; [exact HL'|].
      split.
      { rewrite Htake. unfold s1. simpl.
        rewrite take_insert_ge by lia. by rewrite take_app_le by lia. }
      split; [lia|]. rewrite <- app_assoc in Hinv'. by repeat split.
Qed.

Lemma Forall2_and_r {A B} (P R : A -> B -> Prop) (Q : B -> Prop) l k :
  Forall2 P l k -> Forall Q k ->
  (forall x y, P x y -> Q y -> R x y) -> Forall2 R l k.
Proof.
  intros H. induction H; intros HQ HR; [constructor|].
  inversion HQ; subst. constructor; auto.
Qed.

Section LoadCsv.
Context (W : world).

Lemma load_csv_file_run csv_file s :
  match csv_DictReader W csv_file with
  | CsvOpenError e =>
      load_csv_file W csv_file s
      = (Exc e, set_heap (heap s ++ [OList []]) s)
  | CsvRows rows err =>
      exists s' vs,
        load_csv_file W csv_file s
        = (match err with
           | Some e => Exc e
           | None => Val (VRef (length (heap s)))
           end, s')
        /\ heap s' !! length (heap s) = Some (OList vs)
        /\ take (length (heap s)) (heap s') = heap s
        /\ length (heap s) < length (heap s')
        /\ log s' = log s /\ opened s' = opened s ++ [csv_file]
        /\ sys_path s' = sys_path s /\ os_environ s' = os_environ s
        /\ denotes (heap s') (VRef (length (heap s))) (DList rows)
  end.
Proof.
  destruct (csv_DictReader W csv_file) as [e|rows err] eqn:Hr.
  { unfold load_csv_file. rewrite Hr. reflexivity. }
  set (s1 := add_opened csv_file (set_heap (heap s ++ [OList []]) s)).
  assert (E : load_csv_file W csv_file s
              = match for_each rows
                        (fun r => do row <- build_doc r;
                                  py_append (VRef (length (heap s))) row) s1
                with
                | (Val _, s') =>
                    (match err with
                     | Some e => Exc e
                     | None => Val (VRef (length (heap s)))
                     end, s')
                | (Exc e, s') => (Exc e, s')
                | (Timeout, s') => (Timeout, s')
                end).
  { unfold load_csv_file. rewrite Hr. unfold bind, alloc, modify. fold s1.
    destruct (for_each rows _ s1) as [[u|e|] s2]; [|done..].
    by destruct err. }
  destruct (load_csv_loop (length (heap s)) rows s1 [] [])
    as (s' & vs & Hrun & HL & Htake & Hlen & Hlog & Hop & Hsp & Henv & Hinv).
  { unfold s1. simpl. rewrite length_app. simpl. lia. }
  { unfold s1. simpl. by rewrite lookup_app_r, Nat.sub_diag by lia. }
  { intros; constructor. }
  exists s', vs. rewrite E, Hrun.
  split; [done|]. split; [done|].
  split.
  { rewrite Htake. unfold s1. simpl. by rewrite take_app_length. }
  split.
  { unfold s1 in Hlen. simpl in Hlen. rewrite length_app in Hlen.
    simpl in Hlen. lia. }
  split; [done|]. split; [done|]. split; [done|]. split; [done|].
  exists (S (list_max (map doc_depth rows))).
  simpl. rewrite HL. simpl.
  rewrite (mapM_Some_2 _ _ rows); [done|].
  specialize (Hinv (heap s') (fun _ _ => eq_refl)). simpl in Hinv.
  eapply (Forall2_and_r _ _
            (fun d => doc_depth d <= list_max (map doc_depth rows)));
    [exact Hinv | |].
  - pose proof (list_max_le_Forall _ _
                  (le_n (list_max (map doc_depth rows)))) as Hmax.
    by apply Forall_fmap in Hmax.
  - intros v d Hv Hd. by apply Hv.
Qed.

(** X3.  [load_csv_file] does not check what it reads.  When [io.open]
    raises, the error is passed on and the file is not opened.  When the
    file is opened, every row the reader yields is appended, in order, to
    a new list; the list is returned when the reader ends (an empty list
    for a file without rows), and when the reader raises while it is
    iterated the error is passed on, the rows read so far being in the
    list.  In every case the objects that were there are unchanged and
    nothing is logged. *)
Theorem load_csv_file_rows (csv_file : string) (s : state) :
  match csv_DictReader W csv_file with
  | CsvOpenError e =>
      load_csv_file W csv_file s
      = (Exc e, set_heap (heap s ++ [OList []]) s)
  | CsvRows rows err =>
      exists s',
        load_csv_file W csv_file s
        = (match err with
           | Some e => Exc e
           | None => Val (VRef (length (heap s)))
           end, s')
        /\ denotes (heap s') (VRef (length (heap s))) (DList rows)
        /\ take (length (heap s)) (heap s') = heap s
        /\ log s' = log s /\ opened s' = opened s ++ [csv_file]
  end.
Proof.
  pose proof (load_csv_file_run csv_file s) as H.
  destruct (csv_DictReader W csv_file) as [e|rows err]; [exact H|].
  destruct H as (s' & vs & ? & ? & ? & ? & ? & ? & ? & ? & ?).
  exists s'. by repeat split.
Qed.

End LoadCsv.

Lemma load_csv_file_rows_witness :
  (exists s',
      load_csv_file files_world "/w/d/rows.csv" init_state
      = (Val (VRef 4), s')
      /\ denotes (heap s') (VRef 4)
           (DList [DDict [(KStr "username", DStr "test1");
                          (KStr "password", DStr "111111")];
                   DDict [(KStr "username", DStr "test2");
                          (KStr "password", DStr "222222")]])
      /\ opened s' = ["/w/d/rows.csv"])
  /\ load_csv_file files_world "/w/d/missing.csv" init_state
     = (Exc IOError, set_heap (init_heap ++ [OList []]) init_state)
  /\ (exists s',
      load_csv_file files_world "/w/d/bad.csv" init_state
      = (Exc UnicodeDecodeError, s')
      /\ take 4 (heap s') = init_heap).
Proof.
  split; [|split].
  - pose proof (load_csv_file_rows files_world "/w/d/rows.csv" init_state)
      as H.
    assert (E : csv_DictReader files_world "/w/d/rows.csv"
                = CsvRows [DDict [(KStr "username", DStr "test1");
                                  (KStr "password", DStr "111111")];
                           DDict [(KStr "username", DStr "test2");
                                  (KStr "password", DStr "222222")]] None)
      by (vm_compute; reflexivity).
    rewrite E in H. destruct H as (s' & Hrun & Hd & _ & _ & Ho).
    exists s'. split; [exact Hrun|]. split; [exact Hd | exact Ho].
  - pose proof (load_csv_file_rows files_world "/w/d/missing.csv" init_state)
      as H.
    assert (E : csv_DictReader files_world "/w/d/missing.csv"
                = CsvOpenError IOError) by (vm_compute; reflexivity).
    rewrite E in H. exact H.
  - pose proof (load_csv_file_rows files_world "/w/d/bad.csv" init_state)
      as H.
    assert (E : csv_DictReader files_world "/w/d/bad.csv"
                = CsvRows [] (Some UnicodeDecodeError))
      by (vm_compute; reflexivity).
    rewrite E in H. destruct H as (s' & Hrun & _ & Ht & _).
    exists s'. split; [exact Hrun | exact Ht].
Defined.

Section LoadFileFailures.
Context (W : world).




Lemma load_file_unsupported_run (file_path : string) (s : state) :
  isfile W file_path = true ->
  lower (snd (splitext W file_path)) ∉ [".json"; ".yaml"; ".yml"; ".csv"] ->
  load_file W file_path s
  = (Val (VRef (length (heap s))),
     mkState (heap s ++ [OList []])
             (log s ++ [(LWarning, MsgUnsupportedFormat file_path)])
             (opened s) (sys_path s) (os_environ s)).
Proof.
  intros Hf Hsuf. rewrite load_file_dispatch, Hf. simpl.
  rewrite !not_elem_of_cons in Hsuf. destruct Hsuf as (H1 & H2 & H3 & H4 & _).
  rewrite decide_False by done.
  rewrite bool_decide_eq_false_2.
  2:{ rewrite !not_elem_of_cons. repeat split; [done..|apply not_elem_of_nil]. }
  by rewrite decide_False by done.
Qed.

(** X5.  A file whose suffix is none of [.json], [.yaml], [.yml] and
    [.csv] is not opened: [load_file] logs one warning and returns a new
    empty list. *)
Theorem load_file_unsupported (file_path : string) (s : state) :
  isfile W file_path = true ->
  lower (snd (splitext W file_path)) ∉ [".json"; ".yaml"; ".yml"; ".csv"] ->
  load_file W file_path s
  = (Val (VRef (length (heap s))),
     mkState (heap s ++ [OList []])
             (log s ++ [(LWarning, MsgUnsupportedFormat file_path)])
             (opened s) (sys_path s) (os_environ s)).
Proof. apply load_file_unsupported_run. Qed.


End LoadFileFailures.


Lemma load_file_unsupported_witness :
  load_file files_world "/w/d/notes.txt" init_state
  = (Val (VRef 4),
     mkState (init_heap ++ [OList []])
             [(LWarning, MsgUnsupportedFormat "/w/d/notes.txt")] [] [] []).
Proof.
  apply (load_file_unsupported files_world "/w/d/notes.txt" init_state).
  - vm_compute. reflexivity.
  - vm_compute. not_in_list.
Defined.

(** ** Folders *)

Section FolderFiles.
Context (W : world).

Lemma load_folder_files_path_elem folder_path recursive x :
  x ∈ load_folder_files_path W folder_path recursive <->
  path_exists W folder_path = true
  /\ exists dirpath dirnames filenames filename,
       (dirpath, dirnames, filenames)
         ∈ (if recursive then walk W folder_path
            else take 1 (walk W folder_path))
       /\ filename ∈ filenames /\ artifact_name filename = true
       /\ x = join W dirpath filename.
Proof.
  unfold load_folder_files_path.
  destruct (path_exists W folder_path); simpl.
  2:{ split; [intros H; inversion H | by intros [? _]]. }
  rewrite list_elem_of_In, in_flat_map. split.
  - intros ([[dirpath dirnames] filenames] & Hin & Hx).
    split; [done|]. apply list_elem_of_In in Hin, Hx.
    apply list_elem_of_fmap in Hx as (filename & -> & Hf).
    apply list_elem_of_filter in Hf as [Hok Hf].
    exists dirpath, dirnames, filenames, filename.
    repeat split; try done. by apply Is_true_true.
  - intros (_ & dirpath & dirnames & filenames & filename & Hin & Hf & Hok
            & ->).
    exists (dirpath, dirnames, filenames). split; [by apply list_elem_of_In|].
    apply list_elem_of_In, list_elem_of_fmap. exists filename.
    split; [done|]. apply list_elem_of_filter. split; [|done].
    by apply Is_true_true.
Qed.

(** X6.  [load_folder_files] on a path that does not exist gives no
    file.  Otherwise it gives, for the folders [os.walk] visits and in
    that order, the names that end in [.yml], [.yaml] or [.json] (small
    letters only) joined to their folder, and nothing else; without
    [recursive] only the files of the first folder visited, which come
    first in the recursive result.  For a list of paths it gives the
    files of each path of the list. *)
Theorem load_folder_files_spec (folder_path : string) (recursive : bool) :
  (path_exists W folder_path = false ->
   load_folder_files W (OnePath folder_path) recursive = [])
  /\ (forall x,
        x ∈ load_folder_files W (OnePath folder_path) recursive <->
        path_exists W folder_path = true
        /\ exists dirpath dirnames filenames filename,
             (dirpath, dirnames, filenames)
               ∈ (if recursive then walk W folder_path
                  else take 1 (walk W folder_path))
             /\ filename ∈ filenames /\ artifact_name filename = true
             /\ x = join W dirpath filename)
  /\ load_folder_files W (OnePath folder_path) false
       `prefix_of` load_folder_files W (OnePath folder_path) true
  /\ (forall ps x,
        x ∈ load_folder_files W (ManyPaths ps) recursive <->
        exists p, p ∈ ps
                  /\ x ∈ load_folder_files W (OnePath p) recursive).
Proof.
  split; [|split; [|split]].
  - intros Hne. simpl. unfold load_folder_files_path. by rewrite Hne.
  - intros x. apply load_folder_files_path_elem.
  - simpl. unfold load_folder_files_path.
    destruct (path_exists W folder_path); simpl; [|by exists []].
    rewrite <- (take_drop 1 (walk W folder_path)) at 2.
    rewrite flat_map_app. by eexists.
  - intros ps x. simpl. rewrite list_elem_of_In, in_flat_map. split.
    + intros (p & Hp & Hx). exists p.
      rewrite <- list_elem_of_In, elem_of_remove_dups in Hp.
      rewrite <- list_elem_of_In in Hx. done.
    + intros (p & Hp & Hx). exists p.
      rewrite <- list_elem_of_In, elem_of_remove_dups.
      rewrite <- list_elem_of_In. done.
Qed.

End FolderFiles.

Lemma load_folder_files_spec_witness :
  load_folder_files files_world (OnePath "/w/nowhere") true = []
  /\ load_folder_files files_world (OnePath "/w/d") false
     = ["/w/d/a.json"; "/w/d/empty.yml"; "/w/d/scalar.yaml";
        "/w/d/bad.json"; "/w/d/bad.yml"]
  /\ load_folder_files files_world (OnePath "/w/d") true
     = ["/w/d/a.json"; "/w/d/empty.yml"; "/w/d/scalar.yaml";
        "/w/d/bad.json"; "/w/d/bad.yml"; "/w/d/sub/c.yaml"].
Proof.
  destruct (load_folder_files_spec files_world "/w/nowhere" true)
    as (H1 & _).
  split; [apply H1; vm_compute; reflexivity|].
  split; vm_compute; reflexivity.
Defined.

(** ** The environment file *)

Lemma split_once_first c l r :
  has_char c l = false -> split_once c (l +:+ String c r) = Some (l, r).
Proof.
  induction l as [|c' l IH]; simpl.
  - intros _. by rewrite Ascii.eqb_refl.
  - destruct (Ascii.eqb c' c); [done|]. intros H. by rewrite IH.
Qed.

Lemma has_char_app c l r :
  has_char c (l +:+ r) = has_char c l || has_char c r.
Proof.
  induction l as [|c' l IH]; simpl; [done|].
  by destruct (Ascii.eqb c' c).
Qed.


Section DotEnv.
Context (W : world).


End DotEnv.

(** X8.  A line of the environment file is split at its first [=], also
    when a [:] comes before it or more separators follow; only a line
    without [=] is split at its first [:].  The two halves are stripped
    and entered in the mapping. *)
Theorem dot_env_line_first_separator
    (a : nat) (d : list (key * value)) (l r : string) (s : state) :
  heap s !! a = Some (ODict d) ->
  (has_char "=" l = false ->
   dot_env_line (VRef a) (l +:+ String "=" r) s
   = (Val tt,
      set_heap (<[a := ODict (dict_set d (KStr (strip l)) (VStr (strip r)))]>
                  (heap s)) s))
  /\ (has_char "=" l = false -> has_char "=" r = false ->
      has_char ":" l = false ->
      dot_env_line (VRef a) (l +:+ String ":" r) s
      = (Val tt,
         set_heap (<[a := ODict (dict_set d (KStr (strip l))
                                          (VStr (strip r)))]>
                     (heap s)) s)).
Proof.
  intros Ha. split.
  - intros Hl. rewrite (dot_env_line_run a _ s d Ha).
    unfold env_pair. by rewrite split_once_first.
  - intros Hl Hr Hc. rewrite (dot_env_line_run a _ s d Ha).
    unfold env_pair.
    assert (Hno : split_once "=" (l +:+ String ":" r) = None).
    { apply split_once_has_char. rewrite has_char_app, Hl. simpl.
      exact Hr. }
    rewrite Hno. by rewrite split_once_first.
Qed.


Lemma dot_env_line_first_separator_witness :
  dot_env_line (VRef 0) "URL = http://h:80/?a=b" init_state
  = (Val tt,
     set_heap (<[0 := ODict [(KStr "URL", VStr "http://h:80/?a=b")]]>
                 init_heap) init_state).
Proof.
  destruct (dot_env_line_first_separator 0 [] "URL " " http://h:80/?a=b"
              init_state eq_refl) as [H _].
  exact (H eq_refl).
Defined.

(** ** The upward search *)

Section LocateNearest.
Context (W : world).

(** X9.  [locate_file] only reads the file system: the state is as
    before, and the only error it raises is [FileNotFound].  When it
    returns, the result is the absolute path of a file named [file_name]
    that exists, in the nearest of the directories above the start that
    holds one; none of the directories passed on the way is the working
    directory or the root. *)
Theorem locate_file_nearest
    (fuel : nat) (start_path file_name : string) (s : state)
    (r : outcome string) (s' : state) :
  locate_file W fuel start_path file_name s = (r, s') ->
  s' = s
  /\ match r with
     | Val path =>
         exists n,
           n < fuel
           /\ path = abspath W (join W (search_dir W n start_path) file_name)
           /\ isfile W (join W (search_dir W n start_path) file_name) = true
           /\ forall i, i < n ->
                isfile W (join W (search_dir W i start_path) file_name)
                = false
                /\ ~ is_boundary W (search_dir W i start_path)
     | Exc e => e = FileNotFound
     | Timeout => True
     end.
Proof.
  revert start_path. induction fuel as [|fuel IH]; intros start_path.
  { simpl. by intros [= <- <-]. }
  simpl. unfold bind at 1.
  assert (Hstart :
    (isfile W start_path = false /\ isdir W start_path = false) \/
    (if isfile W start_path then ret (dirname W start_path)
     else if isdir W start_path then ret start_path
     else raise FileNotFound) s = (Val (start_dir W start_path), s)).
  { unfold start_dir. destruct (isfile W start_path); [by right|].
    destruct (isdir W start_path); [by right | by left]. }
  destruct Hstart as [[Hf Hd]|Hstart].
  { rewrite Hf, Hd. by intros [= <- <-]. }
  rewrite Hstart.
  destruct (isfile W (join W (start_dir W start_path) file_name)) eqn:Hfile.
  { intros [= <- <-]. split; [done|]. exists 0.
    split; [lia|]. split; [done|]. split; [done|]. intros i Hi. lia. }
  destruct (bool_decide (abspath W (start_dir W start_path)
                           ∈ [getcwd W; abspath W (sep W)])) eqn:Hb.
  { by intros [= <- <-]. }
  apply bool_decide_eq_false_1 in Hb.
  intros Hrun. apply IH in Hrun as [-> Hr]. split; [done|].
  destruct r as [path|e|]; [|done..].
  destruct Hr as (n & Hn & Hp & Hfp & Hbelow).
  exists (S n). split; [lia|]. split; [done|]. split; [done|].
  intros [|i] Hi; [by split|]. apply Hbelow. lia.
Qed.

End LocateNearest.

Lemma locate_file_nearest_witness :
  exists n,
    locate_file anchor_world 3 "/w/p/tests" "debugtalk.py" init_state
    = (Val (abspath anchor_world
              (join anchor_world (search_dir anchor_world n "/w/p/tests")
                    "debugtalk.py")), init_state)
    /\ search_dir anchor_world n "/w/p/tests" = "/w/p".
Proof.
  destruct (locate_file anchor_world 3 "/w/p/tests" "debugtalk.py" init_state)
    as [[path|e|] s'] eqn:Hrun;
    [| vm_compute in Hrun; discriminate Hrun
     | vm_compute in Hrun; discriminate Hrun].
  destruct (locate_file_nearest anchor_world 3 "/w/p/tests" "debugtalk.py"
              init_state _ _ Hrun) as (-> & n & Hn & -> & Hf & Hb).
  clear Hrun. exists n. split; [reflexivity|].
  destruct n as [|[|[|n]]]; [| |
    vm_compute in Hf; discriminate Hf | lia].
  - vm_compute in Hf. discriminate Hf.
  - vm_compute. reflexivity.
Defined.

(** ** The functions of debugtalk.py *)

Lemma dict_set_new d k v :
  dict_get d k = None -> dict_set d k v = d ++ [(k, v)].
Proof.
  induction d as [|[k' v'] d IH]; simpl; [done|].
  destruct (decide (k' = k)); [done|]. intros H. by rewrite IH.
Qed.

Lemma dict_get_None_keys d k : dict_get d k = None <-> k ∉ map fst d.
Proof.
  induction d as [|[k' v'] d IH]; simpl.
  - split; [intros _; apply not_elem_of_nil | done].
  - rewrite not_elem_of_cons. destruct (decide (k' = k)) as [->|Hne].
    + split; [done | by intros [? _]].
    + rewrite IH. split; [intros ?; split; [congruence | done] | by intros [_ ?]].
Qed.

Lemma module_loop_run L module : forall s d,
  heap s !! L = Some (ODict d) ->
  for_each module (fun '(name, item) =>
     if is_function item then py_setitem (VRef L) (VStr name) item
     else ret tt) s
  = (Val tt, set_heap (<[L := ODict (module_dict module d)]> (heap s)) s).
Proof.
  induction module as [|[name item] module IH]; intros s d HL; simpl.
  - rewrite list_insert_id by done. by rewrite set_heap_same.
  - unfold bind. destruct (is_function item) eqn:E.
    + unfold py_setitem. simpl. rewrite HL. simpl.
      rewrite (IH _ (dict_set d (KStr name) item)).
      * simpl. by rewrite list_insert_insert_eq.
      * simpl. apply list_lookup_insert_eq. by eapply lookup_lt_Some.
    + unfold ret. by rewrite (IH _ d).
Qed.

Lemma load_module_functions_run module s :
  load_module_functions module s
  = (Val (VRef (length (heap s))),
     set_heap (heap s ++ [ODict (module_dict module [])]) s).
Proof.
  unfold load_module_functions. unfold bind at 1, alloc at 1.
  unfold bind at 1.
  rewrite (module_loop_run _ _ _ []).
  - simpl. rewrite insert_app_r_alt by lia. by rewrite Nat.sub_diag.
  - simpl. rewrite lookup_app_r by lia. by rewrite Nat.sub_diag.
Qed.

Lemma module_dict_nodup module : forall d,
  NoDup (map fst d ++ map (fun nv => KStr (fst nv)) module) ->
  module_dict module d
  = d ++ map (fun nv => (KStr (fst nv), snd nv))
             (filter (fun nv => is_function (snd nv) = true) module).
Proof.
  induction module as [|[name item] module IH]; intros d Hnd; simpl.
  - by rewrite app_nil_r.
  - rewrite filter_cons. simpl.
    assert (Hk : dict_get d (KStr name) = None).
    { apply dict_get_None_keys. apply NoDup_app in Hnd as (_ & Hd & _).
      intros Hin. apply (Hd _ Hin). apply list_elem_of_here. }
    destruct (is_function item) eqn:E.
    + rewrite decide_True by done. rewrite dict_set_new by done.
      rewrite IH.
      * simpl. by rewrite <- app_assoc.
      * rewrite map_app. simpl. rewrite <- app_assoc. exact Hnd.
    + rewrite decide_False by (by rewrite not_true_iff_false).
      apply IH. simpl in Hnd.
      apply NoDup_app in Hnd as (H1 & H2 & H3). apply NoDup_app.
      split; [done|]. split.
      * intros x Hx Hin. apply (H2 x Hx). by apply list_elem_of_further.
      * by apply NoDup_cons in H3 as [_ H3].
Qed.

(** X10.  [load_module_functions] always returns a new dictionary.  For
    the attributes of a module (their names are distinct) it holds the
    attributes that are functions, under their names, in the order of
    the module, and none of the others. *)
Theorem load_module_functions_filter
    (module : list (string * value)) (s : state) :
  NoDup (map fst module) ->
  load_module_functions module s
  = (Val (VRef (length (heap s))),
     set_heap
       (heap s
        ++ [ODict (map (fun nv => (KStr (fst nv), snd nv))
                       (filter (fun nv => is_function (snd nv) = true)
                               module))]) s).
Proof.
  intros Hnd. rewrite load_module_functions_run.
  rewrite (module_dict_nodup module []); [done|]. simpl.
  rewrite <- (map_map fst KStr). apply NoDup_fmap_2; [|done].
  by intros x y [= ->].
Qed.

Lemma load_module_functions_filter_witness :
  load_module_functions
    [("setup", VFunc "setup"); ("VERSION", VStr "1.0");
     ("teardown", VFunc "teardown")] init_state
  = (Val (VRef 4),
     set_heap (init_heap ++ [ODict [(KStr "setup", VFunc "setup");
                                    (KStr "teardown", VFunc "teardown")]])
              init_state).
Proof.
  apply (load_module_functions_filter
           [("setup", VFunc "setup"); ("VERSION", VStr "1.0");
            ("teardown", VFunc "teardown")] init_state).
  repeat (apply NoDup_cons; split; [not_in_list|]). apply NoDup_nil_2.
Defined.

Section DebugtalkPy.
Context (W : world).

Lemma locate_file_state fuel : forall start_path file_name s r s',
  locate_file W fuel start_path file_name s = (r, s') ->
  s' = s /\ match r with Exc e => e = FileNotFound | _ => True end.
Proof.
  induction fuel as [|fuel IH]; intros start_path file_name s r s'; simpl.
  { by intros [= <- <-]. }
  unfold bind.
  destruct (isfile W start_path); [|destruct (isdir W start_path)]; simpl;
    try (by intros [= <- <-]);
    repeat case_match; try (by intros [= <- <-]); apply IH.
Qed.

Lemma load_debugtalk_functions_run s :
  load_debugtalk_functions W s
  = match import_module W (sys_path s) "debugtalk" with
    | Some module =>
        (Val (VRef (length (heap s))),
         set_heap (heap s ++ [ODict (module_dict module [])]) s)
    | None => (Exc ImportError, s)
    end.
Proof.
  unfold load_debugtalk_functions, bind, get_state.
  destruct (import_module W (sys_path s) "debugtalk"); [|done].
  apply load_module_functions_run.
Qed.

(** X11.  [load_debugtalk_py] never raises [FileNotFound]: when no
    [debugtalk.py] is found above the start path, the working directory
    is the project directory and the functions are a new empty
    dictionary.  When one is found, the project directory is the
    directory of the file, and the functions are those of the module
    imported with that directory first in [sys.path].  In both cases the
    project directory is put in front of [sys.path]; it stays there when
    the import fails. *)
Theorem load_debugtalk_py_outcome
    (fuel : nat) (start_path : string) (s : state)
    (r : outcome (string * value)) (s' : state) :
  load_debugtalk_py W fuel start_path s = (r, s') ->
  log s' = log s /\ opened s' = opened s /\ os_environ s' = os_environ s
  /\ match r with
     | Val (pwd, fns) =>
         sys_path s' = pwd :: sys_path s
         /\ fns = VRef (length (heap s))
         /\ ((exists path module,
                 locate_file W fuel start_path "debugtalk.py" s
                 = (Val path, s)
                 /\ pwd = dirname W path
                 /\ import_module W (pwd :: sys_path s) "debugtalk"
                    = Some module
                 /\ heap s' = heap s ++ [ODict (module_dict module [])])
             \/ (locate_file W fuel start_path "debugtalk.py" s
                 = (Exc FileNotFound, s)
                 /\ pwd = getcwd W
                 /\ heap s' = heap s ++ [ODict []]))
     | Exc e =>
         e = ImportError
         /\ exists path,
              locate_file W fuel start_path "debugtalk.py" s = (Val path, s)
              /\ import_module W (dirname W path :: sys_path s) "debugtalk"
                 = None
              /\ sys_path s' = dirname W path :: sys_path s
              /\ heap s' = heap s
     | Timeout =>
         locate_file W fuel start_path "debugtalk.py" s = (Timeout, s)
         /\ s' = s
     end.
Proof.
  unfold load_debugtalk_py, try_except. unfold bind at 1.
  destruct (locate_file W fuel start_path "debugtalk.py" s)
    as [[path|e|] s1] eqn:Hloc;
    apply locate_file_state in Hloc as Hst; destruct Hst as [-> He].
  - unfold bind at 1, modify at 1. unfold bind at 1.
    rewrite load_debugtalk_functions_run. simpl.
    destruct (import_module W (dirname W path :: sys_path s) "debugtalk")
      as [module|] eqn:Himp; simpl.
    + intros [= <- <-]. simpl. repeat split; try done.
      left. by exists path, module.
    + intros [= <- <-]. simpl. repeat split; try done. by exists path.
  - subst e. simpl. intros [= <- <-]. simpl. repeat split; try done.
    by right.
  - by intros [= <- <-].
Qed.

End DebugtalkPy.

Lemma load_debugtalk_py_outcome_witness :
  (exists s',
      load_debugtalk_py debugtalk_world 5 "/w/p/tests" init_state
      = (Val ("/w/p", VRef 4), s')
      /\ sys_path s' = ["/w/p"]
      /\ heap s' = init_heap ++ [ODict [(KStr "setup", VFunc "setup");
                                        (KStr "teardown", VFunc "teardown")]])
  /\ (exists s',
        load_debugtalk_py debugtalk_world 5 "/w/q" init_state
        = (Val ("/w", VRef 4), s')
        /\ sys_path s' = ["/w"]).
Proof.
  split.
  - destruct (load_debugtalk_py debugtalk_world 5 "/w/p/tests" init_state)
      as [[[pwd fns]|e|] s'] eqn:Hrun;
      [| vm_compute in Hrun; discriminate Hrun
       | vm_compute in Hrun; discriminate Hrun].
    destruct (load_debugtalk_py_outcome debugtalk_world _ _ _ _ _ Hrun)
      as (_ & _ & _ & Hsp & -> & _).
    vm_compute in Hrun. inversion Hrun; subst pwd s'.
    eexists. split; [reflexivity|]. split; reflexivity.
  - destruct (load_debugtalk_py debugtalk_world 5 "/w/q" init_state)
      as [[[pwd fns]|e|] s'] eqn:Hrun;
      [| vm_compute in Hrun; discriminate Hrun
       | vm_compute in Hrun; discriminate Hrun].
    destruct (load_debugtalk_py_outcome debugtalk_world _ _ _ _ _ Hrun)
      as (_ & _ & _ & Hsp & -> & _).
    vm_compute in Hrun. inversion Hrun; subst pwd s'.
    eexists. split; reflexivity.
Defined.

(** ** The api folder *)

Lemma same_env_refl s : same_env s s.
Proof. by split. Qed.

Lemma same_env_trans s1 s2 s3 :
  same_env s1 s2 -> same_env s2 s3 -> same_env s1 s3.
Proof. intros [? ?] [? ?]. split; congruence. Qed.

Lemma same_env_set_heap h s : same_env s (set_heap h s).
Proof. by split. Qed.

Lemma same_env_add_log l m s : same_env s (add_log l m s).
Proof. by split. Qed.

Lemma same_env_add_opened p s : same_env s (add_opened p s).
Proof. by split. Qed.

Section LoadFileEnv.
Context (W : world).

Lemma load_file_env file_path s r s' :
  load_file W file_path s = (r, s') -> same_env s s'.
Proof.
  rewrite load_file_dispatch.
  destruct (isfile W file_path); simpl; [|intros [= <- <-]; by split].
  assert (Hparsed : forall d s0 r0 s0',
    (do content <- build_doc d;
     do _ <- _check_format file_path content;
     ret content) s0 = (r0, s0') -> same_env s0 s0').
  { intros d s0 r0 s0' H. apply load_parsed_run in H as (v & h' & _ & H).
    destruct (is_nonempty_container h' v).
    - destruct H as [_ ->]. by split.
    - destruct H as [_ [m ->]]. by split. }
  destruct (decide _) as [_|_]; [|destruct (bool_decide _);
    [|destruct (decide _) as [_|_]]].
  - unfold load_json_file. unfold bind at 1, modify at 1.
    destruct (json_load W file_path) as [d|].
    + intros H. by apply Hparsed in H as [? ?].
    + intros [= <- <-]. by split.
  - unfold load_yaml_file. unfold bind at 1, modify at 1.
    destruct (yaml_load W file_path) as [d|].
    + intros H. by apply Hparsed in H as [? ?].
    + intros [= <- <-]. by split.
  - pose proof (load_csv_file_run W file_path s) as Hcsv.
    destruct (csv_DictReader W file_path) as [e|rows err].
    + rewrite Hcsv. intros [= <- <-]. by split.
    + destruct Hcsv as (s1 & vs & H1 & _ & _ & _ & _ & _ & Hsp & Henv & _).
      rewrite H1. intros [= <- <-]. by split.
  - intros [= <- <-]. by split.
Qed.

End LoadFileEnv.

Lemma obj_ge_dict_set lo d k v :
  obj_ge lo (ODict d) -> val_ge lo v -> obj_ge lo (ODict (dict_set d k v)).
Proof.
  simpl. intros Hd Hv. apply Forall_forall. intros [k' v'] Hin.
  apply dict_set_elem in Hin as [Hin|[-> ->]]; [|done].
  rewrite Forall_forall in Hd. by apply (Hd (k', v')).
Qed.

Lemma grows_obj h0 h a o :
  grows h0 h -> length h0 <= a -> h !! a = Some o -> obj_ge (length h0) o.
Proof. intros [_ H]. apply H. Qed.

Lemma grows_setitem h0 c k v s u s' :
  grows h0 (heap s) -> val_ge (length h0) c -> val_ge (length h0) v ->
  py_setitem c k v s = (Val u, s') ->
  grows h0 (heap s') /\ same_env s s'
  /\ log s' = log s /\ opened s' = opened s.
Proof.
  intros Hg Hc Hv H.
  apply py_setitem_inv in H as (a & d & kk & -> & Ha & _ & ->). simpl.
  split; [|done]. apply grows_insert; [done | done |].
  apply obj_ge_dict_set; [|done]. by eapply grows_obj.
Qed.

Lemma grows_popitem h0 c k v s s' :
  grows h0 (heap s) -> val_ge (length h0) c ->
  py_popitem c s = (Val (k, v), s') ->
  grows h0 (heap s') /\ val_ge (length h0) v /\ same_env s s'
  /\ log s' = log s /\ opened s' = opened s.
Proof.
  intros Hg Hc H.
  apply py_popitem_inv in H as (a & d & kk & rest & -> & Ha & Hpop & -> & ->).
  apply dict_popitem_app in Hpop as ->.
  pose proof (grows_obj _ _ _ _ Hg Hc Ha) as Hd. simpl in Hd.
  apply Forall_app in Hd as [Hrest Hlast].
  split; [by apply grows_insert|].
  split; [by inversion Hlast; subst|]. done.
Qed.

Lemma api_item_step_grows h0 m item s u s' :
  grows h0 (heap s) -> val_ge (length h0) m -> val_ge (length h0) item ->
  api_item_step m item s = (Val u, s') ->
  grows h0 (heap s') /\ same_env s s' /\ opened s' = opened s.
Proof.
  intros Hg Hm Hi H. unfold api_item_step in H.
  apply bind_inv in H as ([key api_dict] & s1 & Hp & H).
  apply (grows_popitem h0) in Hp as (Hg1 & Hv & He1 & _ & Ho1); [|done..].
  apply bind_inv in H as (api_id & s2 & Hget & H).
  apply py_get_reads in Hget as ->.
  apply bind_inv in H as (dup & s2 & Hc & H).
  apply py_contains_reads in Hc as ->.
  apply bind_inv in H as ([] & s2 & Hl & H).
  assert (Hs2 : heap s2 = heap s1 /\ same_env s1 s2
                /\ opened s2 = opened s1).
  { destruct dup; inversion Hl; subst; by repeat split. }
  destruct Hs2 as (Hh2 & He2 & Ho2).
  apply (grows_setitem h0) in H as (Hg3 & He3 & _ & Ho3);
    [|by rewrite Hh2|done..].
  split; [done|]. split; [|congruence].
  eapply same_env_trans; [exact He1|]. by eapply same_env_trans.
Qed.

Lemma api_loop_grows h0 m items : forall s u s',
  grows h0 (heap s) -> val_ge (length h0) m ->
  Forall (val_ge (length h0)) items ->
  for_each items (api_item_step m) s = (Val u, s') ->
  grows h0 (heap s') /\ same_env s s' /\ opened s' = opened s.
Proof.
  induction items as [|item items IH]; intros s u s' Hg Hm Hi H.
  - inversion H; subst. split; [done|]. split; [apply same_env_refl | done].
  - apply for_each_inv in H as (s1 & H1 & H2).
    inversion Hi as [|?? Hitem Hitems]; subst.
    apply (api_item_step_grows h0) in H1 as (Hg1 & He1 & Ho1); [|done..].
    destruct (IH _ _ _ Hg1 Hm Hitems H2) as (Hg2 & He2 & Ho2).
    split; [done|]. split; [by eapply same_env_trans | congruence].
Qed.

Lemma py_iter_grows h0 v items s s' :
  grows h0 (heap s) -> val_ge (length h0) v ->
  py_iter v s = (Val items, s') ->
  s' = s /\ Forall (val_ge (length h0)) items.
Proof.
  intros Hg Hv H. pose proof (py_iter_reads _ _ _ _ H) as ->.
  split; [done|]. unfold py_iter in H.
  destruct v as [| | |x| |a]; simpl in H; try done.
  - inversion H; subst. apply Forall_fmap, Forall_forall. by intros.
  - destruct (heap s !! a) as [[d|l]|] eqn:Ha; [| |done].
    + inversion H; subst. apply Forall_fmap, Forall_forall.
      intros [[| |] ?] _; done.
    + inversion H; subst. apply (grows_obj _ _ _ _ Hg Hv Ha).
Qed.

Section FolderContent.
Context (W : world).

(** The document of a parsed file can be read from its own objects. *)
Lemma load_file_parsed_region file_path v s s' :
  lower (snd (splitext W file_path)) ∈ [".json"; ".yaml"; ".yml"] ->
  load_file W file_path s = (Val v, s') ->
  exists d,
    (if decide (lower (snd (splitext W file_path)) = ".json")
     then json_load W file_path else yaml_load W file_path) = Some d
    /\ forall hx, same_on (length (heap s)) (length (heap s')) hx (heap s') ->
                  denotes hx v d.
Proof.
  intros Hsuf Hrun. rewrite load_file_dispatch in Hrun.
  destruct (isfile W file_path); [|done]. simpl in Hrun.
  assert (Hparsed : forall d s0,
    (do content <- build_doc d;
     do _ <- _check_format file_path content;
     ret content) s0 = (Val v, s') ->
    heap s0 = heap s ->
    forall hx, same_on (length (heap s)) (length (heap s')) hx (heap s') ->
               denotes hx v d).
  { intros d s0 H Hs0 hx Hx.
    apply load_parsed_run in H as (v' & h' & Hb & H).
    destruct (is_nonempty_container h' v'); [|by destruct H].
    destruct H as [[= ->] ->]. simpl in Hx.
    destruct Hb as (_ & _ & _ & Hd). exists (doc_depth d).
    apply Hd; [|done]. by rewrite Hs0. }
  destruct (decide (lower (splitext W file_path).2 = ".json")).
  - unfold load_json_file in Hrun. unfold bind at 1, modify at 1 in Hrun.
    destruct (json_load W file_path) as [d|]; [|done].
    exists d. split; [done|]. by eapply Hparsed.
  - rewrite bool_decide_eq_true_2 in Hrun.
    2:{ apply elem_of_cons in Hsuf as [?|Hsuf]; [done | exact Hsuf]. }
    unfold load_yaml_file in Hrun. unfold bind at 1, modify at 1 in Hrun.
    destruct (yaml_load W file_path) as [d|]; [|done].
    exists d. split; [done|]. by eapply Hparsed.
Qed.

Lemma folder_loop h0 files : forall done s u s',
  grows h0 (heap s) -> length h0 < length (heap s) ->
  content_of W (length h0) done s ->
  for_each files
    (fun file_path =>
       do content <- load_file W file_path;
       py_setitem (VRef (length h0)) (VStr file_path) content) s
  = (Val u, s') ->
  grows h0 (heap s') /\ same_env s s'
  /\ content_of W (length h0) (done ++ files) s'.
Proof.
  induction files as [|f files IH]; intros done s u s' Hg Hlen Hc H.
  - inversion H; subst. rewrite app_nil_r.
    split; [done|]. split; [apply same_env_refl | done].
  - apply for_each_inv in H as (s2 & H1 & H2).
    apply bind_inv in H1 as (c & s1 & Hload & Hset).
    pose proof (load_file_env W _ _ _ _ Hload) as He1.
    pose proof (load_file_inv W _ _ _ _ Hload) as [Hg1 Hv1].
    assert (Hlen1 : length (heap s) <= length (heap s1))
      by (by apply grows_length).
    assert (Hpre : forall a, a < length (heap s) ->
                             heap s1 !! a = heap s !! a).
    { intros a Ha. by apply grows_lookup. }
    destruct Hc as (d & HL & Hkeys & Hdocs).
    apply py_setitem_inv in Hset as (a & d1 & kk & [= <-] & Ha & [= <-] & ->).
    rewrite Hpre, HL in Ha by done. inversion Ha; subst d1; clear Ha.
    assert (Hg2 : grows h0 (<[length h0 := ODict (dict_set d (KStr f) c)]>
                              (heap s1))).
    { apply grows_insert; [by eapply grows_trans | done |].
      apply obj_ge_dict_set.
      - by eapply (grows_obj h0 (heap s)).
      - eapply val_ge_weaken; [exact Hv1|]. lia. }
    assert (Hc2 : content_of W (length h0) (done ++ [f])
                    (set_heap (<[length h0 := ODict (dict_set d (KStr f) c)]>
                                 (heap s1)) s1)).
    { exists (dict_set d (KStr f) c). simpl. rewrite length_insert.
      split; [apply list_lookup_insert_eq; lia|]. split.
      * intros k. unfold dict_has.
        destruct (decide (KStr f = k)) as [<-|Hne].
        { rewrite dict_get_set_eq. split; [|done]. intros _. exists f.
          split; [|done]. apply elem_of_app. right. apply list_elem_of_here. }
        rewrite dict_get_set_ne by done. fold (dict_has d k).
        rewrite Hkeys. split.
        { intros (f' & Hf' & ->). exists f'. split; [|done].
          apply elem_of_app. by left. }
        intros (f' & Hf' & ->). exists f'. split; [|done].
        apply elem_of_app in Hf' as [?|Hf']; [done|].
        apply elem_of_cons in Hf' as [->|Hf']; [done | inversion Hf'].
      * intros f' c' Hget Hsuf.
        destruct (decide (f = f')) as [<-|Hne].
        { rewrite dict_get_set_eq in Hget. inversion Hget; subst c'.
          destruct (load_file_parsed_region f c s s1 Hsuf Hload)
            as (doc & Hdoc & Hread).
          exists doc. split; [done|]. intros hx Hx. apply Hread.
          intros x Hxr. rewrite Hx by lia.
          apply list_lookup_insert_ne. lia. }
        rewrite dict_get_set_ne in Hget by congruence.
        destruct (Hdocs f' c' Hget Hsuf) as (doc & Hdoc & Hread).
        exists doc. split; [done|]. intros hx Hx. apply Hread.
        intros x Hxr. rewrite Hx by lia.
        rewrite list_lookup_insert_ne by lia. apply Hpre. lia. }
    assert (Hlen2 : length h0
                    < length (<[length h0 := ODict (dict_set d (KStr f) c)]>
                                (heap s1)))
      by (rewrite length_insert; lia).
    destruct (IH (done ++ [f])
                (set_heap (<[length h0 := ODict (dict_set d (KStr f) c)]>
                             (heap s1)) s1) u s' Hg2 Hlen2 Hc2 H2)
      as (Hg' & He' & Hc').
    split; [done|]. split.
    { eapply same_env_trans; [exact He1|]. exact He'. }
    by rewrite <- app_assoc in Hc'.
Qed.

Lemma load_folder_content_run folder_path s v s' :
  load_folder_content W folder_path s = (Val v, s') ->
  v = VRef (length (heap s))
  /\ grows (heap s) (heap s') /\ same_env s s'
  /\ content_of W (length (heap s))
       (load_folder_files W (OnePath folder_path) true) s'.
Proof.
  unfold load_folder_content. intros H.
  apply bind_inv in H as (m & s1 & Ha & H).
  apply alloc_inv in Ha as [[= ->] ->].
  apply bind_inv in H as ([] & s2 & Hloop & H). inversion H; subst; clear H.
  split; [done|].
  apply (folder_loop (heap s) _ []) in Hloop as (Hg & He & Hc).
  - done.
  - simpl. apply grows_alloc. constructor.
  - simpl. rewrite length_app. simpl. lia.
  - exists []. simpl. split.
    { by rewrite lookup_app_r, Nat.sub_diag by lia. }
    split.
    + intros k. split; [done|]. intros (f & Hf & _). inversion Hf.
    + intros f c Hget. done.
Qed.

End FolderContent.

Lemma build_all_length {A B} (f : A -> list obj -> B * list obj) l :
  forall h ys h', build_all f l h = (ys, h') -> length ys = length l.
Proof.
  induction l as [|x l IH]; intros h ys h'; simpl.
  - by intros [= <- <-].
  - destruct (f x h) as [y h1]. destruct (build_all f l h1) as [ys' h2] eqn:E.
    intros [= <- <-]. simpl. f_equal. by eapply IH.
Qed.

Lemma build_nonempty d h v h' :
  build d h = (v, h') -> is_nonempty_container h' v = nonempty_doc d.
Proof.
  destruct d as [| | | |l|kd]; simpl; try (by intros [= <- <-]).
  - destruct (build_all build l h) as [vs h1] eqn:E. intros [= <- <-].
    apply build_all_length in E. simpl.
    rewrite lookup_app_r, Nat.sub_diag by lia. simpl.
    destruct l, vs; simpl in *; done.
  - destruct (build_all _ kd h) as [kvs h1] eqn:E. intros [= <- <-].
    apply build_all_length in E. simpl.
    rewrite lookup_app_r, Nat.sub_diag by lia. simpl.
    destruct kd, kvs; simpl in *; done.
Qed.

Section Loadable.
Context (W : world).

Lemma load_parsed_returns file_path d s :
  (exists v s',
      (do content <- build_doc d;
       do _ <- _check_format file_path content;
       ret content) s = (Val v, s'))
  <-> nonempty_doc d = true.
Proof.
  destruct (build_doc_run d s) as (v & h' & Hb & Hrun & _).
  apply build_nonempty in Hb.
  unfold bind at 1. rewrite Hrun. unfold bind.
  rewrite check_format_run. simpl heap. rewrite Hb.
  destruct (nonempty_doc d); split; try done.
  - intros _. by eexists _, _.
  - by intros (? & ? & ?).
Qed.

(** Whether [load_file] returns depends on the file only. *)
Lemma load_file_loadable file_path s :
  (exists v s', load_file W file_path s = (Val v, s'))
  <-> loadable W file_path = true.
Proof.
  rewrite load_file_dispatch. unfold loadable.
  destruct (isfile W file_path); simpl; [|split; [by intros (?&?&?)|done]].
  destruct (decide _) as [_|_]; [|destruct (bool_decide _);
    [|destruct (decide _) as [_|_]]].
  - unfold load_json_file. unfold bind at 1, modify at 1.
    destruct (json_load W file_path) as [d|].
    + apply load_parsed_returns.
    + split; [by intros (?&?&?)|done].
  - unfold load_yaml_file. unfold bind at 1, modify at 1.
    destruct (yaml_load W file_path) as [d|].
    + apply load_parsed_returns.
    + split; [by intros (?&?&?)|done].
  - pose proof (load_csv_file_run W file_path s) as Hcsv.
    destruct (csv_DictReader W file_path) as [e|rows err].
    + rewrite Hcsv. split; [by intros (?&?&?)|done].
    + destruct Hcsv as (s1 & vs & H1 & _). rewrite H1.
      destruct err as [e|]; [split; [by intros (?&?&?)|done]|].
      split; [done|]. intros _. by eexists _, _.
  - split; [done|]. intros _. by eexists _, _.
Qed.

Lemma folder_loop_returns L files : forall s d,
  heap s !! L = Some (ODict d) ->
  (exists u s',
      for_each files
        (fun file_path =>
           do content <- load_file W file_path;
           py_setitem (VRef L) (VStr file_path) content) s = (Val u, s'))
  <-> Forall (fun f => loadable W f = true) files.
Proof.
  induction files as [|f files IH]; intros s d HL.
  - split; [constructor|]. intros _. by eexists _, _.
  - split.
    + intros (u & s' & H). apply for_each_inv in H as (s2 & H1 & H2).
      apply bind_inv in H1 as (c & s1 & Hload & Hset).
      constructor.
      * apply (load_file_loadable f s). by eexists _, _.
      * apply py_setitem_inv in Hset as (a & d1 & kk & [= <-] & Ha & _ & ->).
        eapply (IH _ (dict_set d1 kk c)); [|by eexists _, _].
        simpl. apply list_lookup_insert_eq. by eapply lookup_lt_Some.
    + intros Hall. inversion Hall as [|?? Hf Hfiles]; subst.
      apply (load_file_loadable f s) in Hf as (c & s1 & Hload).
      pose proof (load_file_inv W _ _ _ _ Hload) as [Hg _].
      assert (HL1 : heap s1 !! L = Some (ODict d)).
      { rewrite (grows_lookup _ _ _ Hg); [done|]. by eapply lookup_lt_Some. }
      set (s2 := set_heap (<[L := ODict (dict_set d (KStr f) c)]> (heap s1))
                          s1).
      assert (Hbody : (do content <- load_file W f;
                       py_setitem (VRef L) (VStr f) content) s
                      = (Val tt, s2)).
      { unfold bind. rewrite Hload. unfold py_setitem. simpl.
        by rewrite HL1. }
      destruct (IH s2 (dict_set d (KStr f) c)) as [_ (u & s' & Hrest)];
        [| exact Hfiles |].
      * simpl. apply list_lookup_insert_eq. by eapply lookup_lt_Some.
      * exists u, s'. simpl. unfold bind at 1. by rewrite Hbody.
Qed.

(** X12.  [load_folder_content] returns a new dictionary; the
    objects that were there are unchanged.  Its keys are the paths
    [load_folder_files] finds in the folder, and the value for a path
    with the suffix [.json], [.yaml] or [.yml] stands for the document
    parsed from that file. *)
Theorem load_folder_content_mapping
    (folder_path : string) (s : state) (v : value) (s' : state) :
  load_folder_content W folder_path s = (Val v, s') ->
  v = VRef (length (heap s))
  /\ take (length (heap s)) (heap s') = heap s
  /\ exists d,
       heap s' !! length (heap s) = Some (ODict d)
       /\ (forall k, dict_has d k = true <->
              exists f, f ∈ load_folder_files W (OnePath folder_path) true
                        /\ k = KStr f)
       /\ forall f c,
            dict_get d (KStr f) = Some c ->
            lower (snd (splitext W f)) ∈ [".json"; ".yaml"; ".yml"] ->
            exists doc,
              (if decide (lower (snd (splitext W f)) = ".json")
               then json_load W f else yaml_load W f) = Some doc
              /\ denotes (heap s') c doc.
Proof.
  intros H. apply load_folder_content_run in H as (-> & Hg & _ & Hc).
  split; [done|]. split.
  { destruct Hg as [[new ->] _]. apply take_app_length. }
  destruct Hc as (d & HL & Hkeys & Hdocs). exists d.
  split; [done|]. split; [done|].
  intros f c Hget Hsuf. destruct (Hdocs f c Hget Hsuf) as (doc & Hdoc & Hread).
  exists doc. split; [done|]. by apply Hread.
Qed.

Lemma folder_content_returns (folder_path : string) (s : state) :
  (exists v s', load_folder_content W folder_path s = (Val v, s'))
  <-> Forall (fun f => loadable W f = true)
             (load_folder_files W (OnePath folder_path) true).
Proof.
  rewrite <- (folder_loop_returns (length (heap s)) _
                (set_heap (heap s ++ [ODict []]) s) []).
  2:{ simpl. by rewrite lookup_app_r, Nat.sub_diag by lia. }
  assert (E : load_folder_content W folder_path s
              = match for_each
                        (load_folder_files W (OnePath folder_path) true)
                        (fun file_path =>
                           do content <- load_file W file_path;
                           py_setitem (VRef (length (heap s)))
                                      (VStr file_path) content)
                        (set_heap (heap s ++ [ODict []]) s)
                with
                | (Val _, s') => (Val (VRef (length (heap s))), s')
                | (Exc e, s') => (Exc e, s')
                | (Timeout, s') => (Timeout, s')
                end) by reflexivity.
  rewrite E.
  destruct (for_each _ _ _) as [[[]|e|] s1]; split;
    try (by intros (? & ? & ?)); by eexists _, _.
Qed.

(** X13.  [load_folder_content] skips nothing: it returns exactly when
    [load_file] returns for every file found in the folder, that is when
    each of them parses to a list or a dictionary that is not empty. *)
Theorem load_folder_content_returns_iff (folder_path : string) (s : state) :
  (exists v s', load_folder_content W folder_path s = (Val v, s'))
  <-> Forall (fun f => loadable W f = true)
             (load_folder_files W (OnePath folder_path) true).
Proof. apply folder_content_returns. Qed.


End Loadable.

Lemma load_folder_content_mapping_witness :
  exists v s' c,
    load_folder_content files_world "/w/d/sub" init_state = (Val v, s')
    /\ heap s' !! 4 = Some (ODict [(KStr "/w/d/sub/c.yaml", c)])
    /\ denotes (heap s') c (DList [DInt 1]).
Proof.
  destruct (load_folder_content files_world "/w/d/sub" init_state)
    as [[v|e|] s'] eqn:Hrun;
    [| vm_compute in Hrun; discriminate Hrun
     | vm_compute in Hrun; discriminate Hrun].
  destruct (load_folder_content_mapping files_world _ _ _ _ Hrun)
    as (-> & _ & d & Hd & _ & Hdocs).
  assert (Hd' : heap s' !! 4 = Some (ODict [(KStr "/w/d/sub/c.yaml", VRef 5)])).
  { clear Hd Hdocs. vm_compute in Hrun. inversion Hrun; subst s'.
    reflexivity. }
  clear Hrun. simpl in Hd. rewrite Hd' in Hd. inversion Hd; subst d.
  destruct (Hdocs "/w/d/sub/c.yaml" (VRef 5) eq_refl) as (doc & Hdoc & Hden).
  { vm_compute. apply list_elem_of_further, list_elem_of_here. }
  vm_compute in Hdoc. inversion Hdoc; subst doc.
  exists (VRef 4), s', (VRef 5). split; [reflexivity|].
  split; [exact Hd' | exact Hden].
Defined.

Lemma load_folder_content_returns_iff_witness :
  (exists v s', load_folder_content files_world "/w/d/sub" init_state
                = (Val v, s'))
  /\ ~ (exists v s', load_folder_content files_world "/w/d" init_state
                     = (Val v, s')).
Proof.
  split.
  - apply (load_folder_content_returns_iff files_world "/w/d/sub").
    assert (E : load_folder_files files_world (OnePath "/w/d/sub") true
                = ["/w/d/sub/c.yaml"]) by (vm_compute; reflexivity).
    rewrite E. apply List.Forall_cons; [vm_compute; reflexivity|].
    apply List.Forall_nil.
  - intros H.
    apply (load_folder_content_returns_iff files_world "/w/d") in H.
    assert (E : load_folder_files files_world (OnePath "/w/d") true
                = ["/w/d/a.json"; "/w/d/empty.yml"; "/w/d/scalar.yaml";
                   "/w/d/bad.json"; "/w/d/bad.yml"; "/w/d/sub/c.yaml"])
      by (vm_compute; reflexivity).
    rewrite E in H. clear E.
    apply Forall_cons in H as [_ H]. apply Forall_cons in H as [H _].
    vm_compute in H. discriminate H.
Defined.

Section ApiFolder.
Context (W : world).

Lemma load_api_folder_run api_folder_path s v s' :
  load_api_folder W api_folder_path s = (Val v, s') ->
  v = VRef (length (heap s))
  /\ grows (heap s) (heap s') /\ same_env s s'
  /\ Forall (fun f => loadable W f = true)
            (load_folder_files W (OnePath api_folder_path) true).
Proof.
  unfold load_api_folder. intros H.
  apply bind_inv in H as (m & s1 & Ha & H).
  apply alloc_inv in Ha as [[= ->] ->].
  apply bind_inv in H as (im & s2 & Hc & H).
  assert (Hall : Forall (fun f => loadable W f = true)
                   (load_folder_files W (OnePath api_folder_path) true)).
  { apply (folder_content_returns W api_folder_path
             (set_heap (heap s ++ [ODict []]) s)). by eexists _, _. }
  apply load_folder_content_run in Hc as (-> & Hg2 & He2 & _).
  simpl in Hg2, He2.
  assert (Hg02 : grows (heap s) (heap s2)).
  { eapply grows_trans; [|exact Hg2]. apply grows_alloc. constructor. }
  apply bind_inv in H as (files & s3 & Hi & H).
  assert (Hfiles : s3 = s2 /\ Forall (fun kv => val_ge (length (heap s))
                                                       (snd kv)) files).
  { unfold py_items in Hi. simpl in Hi. rewrite length_app in Hi.
    simpl in Hi.
    destruct (heap s2 !! (length (heap s) + 1)) as [[d|l]|] eqn:Hd;
      [|done..].
    inversion Hi; subst. split; [done|].
    assert (Hd' : obj_ge (length (heap s)) (ODict d)).
    { eapply grows_obj; [exact Hg02| |exact Hd]. lia. }
    simpl in Hd'. apply Forall_fmap. eapply Forall_impl; [exact Hd'|].
    by intros [k x]. }
  destruct Hfiles as [-> Hfiles].
  apply bind_inv in H as ([] & s4 & Hloop & H). inversion H; subst; clear H.
  split; [done|].
  assert (Hinv : grows (heap s) (heap s') /\ same_env s2 s').
  { eapply (for_each_invariant
              (fun st => grows (heap s) (heap st) /\ same_env s2 st)
              (fun kv : value * value => val_ge (length (heap s)) (snd kv)));
      [| exact Hfiles | | exact Hloop].
    - intros [k api_items] st st1 Hv [Hg He] Hbody. simpl in Hv.
      apply bind_inv in Hbody as (items & st0 & Hit & Hbody).
      apply (py_iter_grows (heap s)) in Hit as [-> Hitems]; [|done..].
      apply (api_loop_grows (heap s)) in Hbody as (Hg' & He' & _);
        [|done| simpl; lia |done].
      split; [done|]. by eapply same_env_trans.
    - split; [done | apply same_env_refl]. }
  destruct Hinv as [Hg He]. split; [done|]. split; [|done].
  eapply same_env_trans; [|exact He]. destruct He2 as [? ?]. by split.
Qed.

Lemma load_api_folder_dict api_folder_path s v s' :
  load_api_folder W api_folder_path s = (Val v, s') ->
  exists d, heap s' !! length (heap s) = Some (ODict d).
Proof.
  intros H0. unfold load_api_folder in H0.
  apply bind_inv in H0 as (m & s1 & Ha & H0).
  apply alloc_inv in Ha as [[= ->] ->].
  apply bind_inv in H0 as (im & s2 & Hc & H0).
  apply load_folder_content_run in Hc as (-> & Hg2 & _ & _).
  apply bind_inv in H0 as (files & s3 & Hi & H0).
  apply bind_inv in H0 as ([] & s4 & Hloop & H0).
  inversion H0; subst; clear H0.
  assert (Hi3 : s3 = s2).
  { unfold py_items in Hi. repeat case_match; congruence. }
  subst s3.
  eapply (for_each_invariant
            (fun st => exists d, heap st !! length (heap s)
                                 = Some (ODict d))
            (fun _ => True)); [| | |exact Hloop].
  + intros [k api_items] st st1 _ Hd Hbody.
    apply bind_inv in Hbody as (items & st0 & Hit & Hbody).
    apply py_iter_reads in Hit as ->.
    eapply (for_each_invariant
              (fun st => exists d, heap st !! length (heap s)
                                   = Some (ODict d))
              (fun _ => True)); [| | exact Hd |exact Hbody].
    * intros item st2 st3 _ [d Hd2] Hstep. unfold api_item_step in Hstep.
      apply bind_inv in Hstep as ([key api_dict] & st4 & Hp & Hstep).
      apply py_popitem_inv in Hp
        as (a & d0 & kk & rest & -> & Ha & Hpop & -> & ->).
      apply bind_inv in Hstep as (api_id & st5 & Hget & Hstep).
      apply py_get_reads in Hget as ->.
      apply bind_inv in Hstep as (dup & st5 & Hcn & Hstep).
      apply py_contains_reads in Hcn as ->.
      apply bind_inv in Hstep as ([] & st5 & Hl & Hstep).
      apply py_setitem_inv in Hstep
        as (a' & d' & kk' & [= <-] & Ha' & _ & ->).
      simpl. eexists. apply list_lookup_insert_eq.
      by eapply lookup_lt_Some.
    * apply Forall_forall. done.
  + apply Forall_forall. done.
  + exists []. rewrite (grows_lookup _ _ _ Hg2).
    * simpl. by rewrite lookup_app_r, Nat.sub_diag by lia.
    * simpl. rewrite length_app. simpl. lia.
Qed.

(** X14.  [load_api_folder] returns a new dictionary and changes none of
    the objects that were there, nor [sys.path] or [os.environ]; it
    returns only if every file found in the folder loads.  For a folder
    that does not exist the dictionary is empty and nothing is logged or
    opened. *)
Theorem load_api_folder_fresh
    (api_folder_path : string) (s : state) :
  (forall v s',
      load_api_folder W api_folder_path s = (Val v, s') ->
      v = VRef (length (heap s))
      /\ take (length (heap s)) (heap s') = heap s
      /\ (exists d, heap s' !! length (heap s) = Some (ODict d))
      /\ sys_path s' = sys_path s /\ os_environ s' = os_environ s
      /\ Forall (fun f => loadable W f = true)
                (load_folder_files W (OnePath api_folder_path) true))
  /\ (path_exists W api_folder_path = false ->
      load_api_folder W api_folder_path s
      = (Val (VRef (length (heap s))),
         set_heap (heap s ++ [ODict []; ODict []]) s)).
Proof.
  split.
  - intros v s' H. pose proof H as H0.
    apply load_api_folder_run in H as (-> & Hg & [Hsp Henv] & Hall).
    split; [done|]. split.
    { destruct Hg as [[new ->] _]. apply take_app_length. }
    split; [|done]. by eapply load_api_folder_dict.
  - intros Hne. unfold load_api_folder, load_folder_content. simpl.
    unfold load_folder_files_path. rewrite Hne. simpl.
    unfold bind, alloc, ret, py_items. simpl.
    rewrite !length_app. simpl.
    rewrite lookup_app_r by (rewrite length_app; simpl; lia).
    rewrite length_app. simpl.
    replace (length (heap s) + 1 - (length (heap s) + 1)) with 0 by lia.
    simpl. by rewrite <- app_assoc.
Qed.

End ApiFolder.

Lemma load_api_folder_fresh_witness :
  (exists v s',
      load_api_folder project_world "/w/p/api" init_state = (Val v, s')
      /\ v = VRef 4 /\ take 4 (heap s') = init_heap)
  /\ load_api_folder files_world "/w/d/api" init_state
     = (Val (VRef 4), set_heap (init_heap ++ [ODict []; ODict []]) init_state).
Proof.
  split.
  - destruct (load_api_folder project_world "/w/p/api" init_state)
      as [[v|e|] s'] eqn:Hrun;
      [| vm_compute in Hrun; discriminate Hrun
       | vm_compute in Hrun; discriminate Hrun].
    destruct (load_api_folder_fresh project_world "/w/p/api" init_state)
      as [H _].
    destruct (H v s' Hrun) as (Hv & Ht & _).
    by exists v, s'.
  - destruct (load_api_folder_fresh files_world "/w/d/api" init_state)
      as [_ H].
    apply H. vm_compute. reflexivity.
Defined.

(** ** The project *)

Section ProjectTests.
Context (W : world).

Lemma load_debugtalk_py_val fuel start_path s pwd fns s' :
  load_debugtalk_py W fuel start_path s = (Val (pwd, fns), s') ->
  fns = VRef (length (heap s))
  /\ (exists d, heap s' = heap s ++ [ODict d])
  /\ sys_path s' = pwd :: sys_path s
  /\ (pwd = getcwd W
      \/ exists path,
           locate_file W fuel start_path "debugtalk.py" s = (Val path, s)
           /\ pwd = dirname W path).
Proof.
  unfold load_debugtalk_py, try_except. unfold bind at 1.
  destruct (locate_file W fuel start_path "debugtalk.py" s)
    as [[path|e|] s1] eqn:Hloc;
    apply locate_file_state in Hloc as Hst; destruct Hst as [-> He].
  - unfold bind at 1, modify at 1. unfold bind at 1.
    rewrite load_debugtalk_functions_run. simpl.
    destruct (import_module W (dirname W path :: sys_path s) "debugtalk")
      as [module|]; simpl; [|done].
    intros [= <- <- <-]. simpl. split; [done|]. split; [by eexists|].
    split; [done|]. right. by exists path.
  - subst e. simpl. intros [= <- <- <-]. simpl.
    split; [done|]. split; [by eexists|]. split; [done|]. by left.
  - done.
Qed.

Lemma load_dot_env_file_val dot_env_path s v s' :
  load_dot_env_file W dot_env_path s = (Val v, s') ->
  v = VRef (length (heap s))
  /\ (exists d, heap s' = heap s ++ [ODict d])
  /\ sys_path s' = sys_path s.
Proof.
  destruct (isfile W dot_env_path) eqn:Hf.
  - rewrite (load_dot_env_file_run W dot_env_path s Hf). simpl.
    destruct (snd (env_fold (readlines W dot_env_path) [])); [|done].
    intros [= <- <-]. simpl. split; [done|]. split; [by eexists | done].
  - unfold load_dot_env_file. rewrite Hf. simpl.
    intros [= <- <-]. simpl. split; [done|]. split; [by eexists | done].
Qed.

Lemma load_project_tests_run
    (fuel : nat) (test_path : string) (dot_env_path : option string)
    (pm td : list (key * value)) (s s' : state) :
  heap s !! 0 = Some (ODict pm) ->
  heap s !! 1 = Some (ODict td) ->
  load_project_tests W fuel test_path dot_env_path s = (Val tt, s') ->
  let n := length (heap s) in
  exists pwd fns env apis,
    heap s' !! 0
    = Some (ODict (dict_set (dict_set (dict_set pm (KStr "PWD") (VStr pwd))
                                      (KStr "functions") (VRef n))
                            (KStr "env") (VRef (S n))))
    /\ heap s' !! 1 = Some (ODict (dict_set td (KStr "api") (VRef (S (S n)))))
    /\ heap s' !! n = Some (ODict fns)
    /\ heap s' !! S n = Some (ODict env)
    /\ heap s' !! S (S n) = Some (ODict apis)
    /\ (forall x, 2 <= x < n -> heap s' !! x = heap s !! x)
    /\ sys_path s' = pwd :: sys_path s
    /\ (pwd = getcwd W
        \/ exists path,
             locate_file W fuel test_path "debugtalk.py" s = (Val path, s)
             /\ pwd = dirname W path).
Proof.
  intros H0 H1 Hrun n. unfold load_project_tests in Hrun.
  assert (Hn : 2 <= n).
  { apply lookup_lt_Some in H1. unfold n. lia. }
  apply bind_inv in Hrun as ([pwd fns] & s1 & Hd & Hrun).
  apply load_debugtalk_py_val in Hd as (-> & [dfns Hh1] & Hsp1 & Hpwd).
  fold n in Hrun.
  apply bind_inv in Hrun as ([] & s2 & Hs & Hrun).
  apply py_setitem_inv in Hs as (a & d & kk & [= <-] & Ha & [= <-] & ->).
  rewrite Hh1, lookup_app_l, H0 in Ha by (fold n; lia).
  inversion Ha; subst d; clear Ha.
  apply bind_inv in Hrun as ([] & s3 & Hs & Hrun).
  apply py_setitem_inv in Hs as (a & d & kk & [= <-] & Ha & [= <-] & ->).
  cbn [heap set_heap] in Ha, Hrun.
  rewrite list_lookup_insert_eq in Ha
    by (rewrite Hh1, length_app; simpl; lia).
  inversion Ha; subst d; clear Ha.
  rewrite list_insert_insert_eq in Hrun.
  set (pm2 := dict_set (dict_set pm (KStr "PWD") (VStr pwd))
                       (KStr "functions") (VRef n)) in *.
  apply bind_inv in Hrun as (env & s4 & He & Hrun).
  apply load_dot_env_file_val in He as (-> & [denv Hh4] & Hsp4).
  cbn [heap set_heap sys_path] in Hh4, Hsp4, Hrun.
  rewrite length_insert, Hh1, length_app in Hrun. simpl length in Hrun.
  fold n in Hrun. replace (n + 1) with (S n) in Hrun by lia.
  apply bind_inv in Hrun as ([] & s5 & Hs & Hrun).
  apply py_setitem_inv in Hs as (a & d & kk & [= <-] & Ha & [= <-] & ->).
  assert (Hl1 : length (heap s1) = S n).
  { rewrite Hh1, length_app. simpl. fold n. lia. }
  rewrite Hh4, lookup_app_l in Ha by (rewrite length_insert; lia).
  rewrite list_lookup_insert_eq in Ha by lia.
  inversion Ha; subst d; clear Ha.
  set (pm3 := dict_set pm2 (KStr "env") (VRef (S n))) in *.
  apply bind_inv in Hrun as (api & s6 & Hapi & Hrun).
  pose proof (load_api_folder_dict W _ _ _ _ Hapi) as [apis Hapis].
  apply load_api_folder_run in Hapi as (-> & [[new Hh6] _] & [Hsp6 _] & _).
  cbn [heap set_heap sys_path] in Hh6, Hsp6, Hapis, Hrun.
  apply py_setitem_inv in Hrun as (a & d & kk & [= <-] & Ha & [= <-] & ->).
  cbn [heap set_heap sys_path].
  set (h5 := <[0 := ODict pm3]> (heap s4)) in *.
  assert (Hl5 : length h5 = S (S n)).
  { unfold h5. rewrite length_insert, Hh4, length_app, length_insert, Hl1.
    simpl. lia. }
  assert (Hlook : forall x, 1 <= x < n -> h5 !! x = heap s !! x).
  { intros x Hx. unfold h5. rewrite list_lookup_insert_ne by lia.
    rewrite Hh4, lookup_app_l by (rewrite length_insert; lia).
    rewrite list_lookup_insert_ne by lia.
    rewrite Hh1. apply lookup_app_l. fold n. lia. }
  rewrite Hh6, lookup_app_l, Hlook, H1 in Ha by lia.
  inversion Ha; subst d; clear Ha.
  rewrite Hl5 in Hapis |- *.
  exists pwd, dfns, denv, apis.
  assert (Hl6 : S (S n) < length (heap s6)) by (by eapply lookup_lt_Some).
  split; [|split; [|split; [|split; [|split; [|split; [|split]]]]]].
  - rewrite list_lookup_insert_ne by lia. rewrite Hh6, lookup_app_l by lia.
    unfold h5. apply list_lookup_insert_eq.
    rewrite Hh4, length_app, length_insert. lia.
  - apply list_lookup_insert_eq. lia.
  - rewrite list_lookup_insert_ne by lia. rewrite Hh6, lookup_app_l by lia.
    unfold h5. rewrite list_lookup_insert_ne by lia.
    rewrite Hh4, lookup_app_l by (rewrite length_insert; lia).
    rewrite list_lookup_insert_ne by lia.
    rewrite Hh1, lookup_app_r by (fold n; lia). fold n.
    by rewrite Nat.sub_diag.
  - rewrite list_lookup_insert_ne by lia. rewrite Hh6, lookup_app_l by lia.
    unfold h5. rewrite list_lookup_insert_ne by lia.
    rewrite Hh4, lookup_app_r by (rewrite length_insert; lia).
    rewrite length_insert, Hl1. by rewrite Nat.sub_diag.
  - rewrite list_lookup_insert_ne by lia. exact Hapis.
  - intros x Hx. rewrite list_lookup_insert_ne by lia.
    rewrite Hh6, lookup_app_l by lia. apply Hlook. lia.
  - rewrite Hsp6, Hsp4. exact Hsp1.
  - exact Hpwd.
Qed.

(** X15.  What [load_project_tests] does to the two module-level
    dictionaries.  [project_mapping] gets the entries ["PWD"],
    ["functions"] and ["env"], its other entries are kept;
    [tests_def_mapping] gets a new ["api"] dictionary, so the definitions
    of an earlier call are no longer reached, and its other entries, the
    ["testcases"] one among them, are kept.  The three dictionaries are
    new objects, every other object that was there is unchanged, and the
    project directory is put in front of [sys.path] (once more at each
    call). *)
Theorem load_project_tests_effect
    (fuel : nat) (test_path : string) (dot_env_path : option string)
    (pm td : list (key * value)) (s s' : state) :
  heap s !! 0 = Some (ODict pm) ->
  heap s !! 1 = Some (ODict td) ->
  load_project_tests W fuel test_path dot_env_path s = (Val tt, s') ->
  let n := length (heap s) in
  exists pwd fns env apis,
    heap s' !! 0
    = Some (ODict (dict_set (dict_set (dict_set pm (KStr "PWD") (VStr pwd))
                                      (KStr "functions") (VRef n))
                            (KStr "env") (VRef (S n))))
    /\ heap s' !! 1 = Some (ODict (dict_set td (KStr "api") (VRef (S (S n)))))
    /\ heap s' !! n = Some (ODict fns)
    /\ heap s' !! S n = Some (ODict env)
    /\ heap s' !! S (S n) = Some (ODict apis)
    /\ (forall x, 2 <= x < n -> heap s' !! x = heap s !! x)
    /\ sys_path s' = pwd :: sys_path s
    /\ (pwd = getcwd W
        \/ exists path,
             locate_file W fuel test_path "debugtalk.py" s = (Val path, s)
             /\ pwd = dirname W path).
Proof. apply load_project_tests_run. Qed.

End ProjectTests.

Lemma load_project_tests_effect_witness :
  exists s',
    load_project_tests project_world 5 "/w/p" None init_state = (Val tt, s')
    /\ heap s' !! 0
       = Some (ODict [(KStr "PWD", VStr "/w/p"); (KStr "functions", VRef 4);
                      (KStr "env", VRef 5)])
    /\ heap s' !! 1
       = Some (ODict [(KStr "api", VRef 6); (KStr "testcases", VRef 3)])
    /\ heap s' !! 3 = Some (ODict [])
    /\ sys_path s' = ["/w/p"].
Proof.
  destruct (load_project_tests project_world 5 "/w/p" None init_state)
    as [[[]|e|] s'] eqn:Hrun;
    [| vm_compute in Hrun; discriminate Hrun
     | vm_compute in Hrun; discriminate Hrun].
  destruct (load_project_tests_effect project_world 5 "/w/p" None []
              [(KStr "api", VRef 2); (KStr "testcases", VRef 3)]
              init_state s' eq_refl eq_refl Hrun)
    as (pwd & fns & env & apis & Hpm & Htd & _ & _ & _ & Hold & Hsp & _).
  assert (Hpwd : sys_path s' = ["/w/p"]).
  { clear Hpm Htd Hold Hsp. vm_compute in Hrun. inversion Hrun; subst s'.
    reflexivity. }
  clear Hrun. rewrite Hpwd in Hsp. inversion Hsp; subst pwd.
  exists s'. split; [reflexivity|]. split; [exact Hpm|].
  split; [exact Htd|]. split; [|exact Hpwd].
  rewrite Hold; [reflexivity | simpl; lia].
Defined.

(** ** Steps *)

Lemma get_api_definition_fields name s r s' :
  _get_api_definition name s = (r, s') ->
  log s' = log s /\ opened s' = opened s /\ same_env s s'
  /\ match r with Timeout => False | _ => True end.
Proof.
  unfold _get_api_definition, try_except, bind.
  destruct (py_getitem tests_def_mapping (VStr "api") s)
    as [[api|e|] s0] eqn:E0;
    pose proof (py_getitem_reads _ _ _ _ _ E0) as ->.
  2:{ destruct (decide _); intros [= <- <-]; by repeat split. }
  2:{ revert E0. unfold py_getitem. repeat case_match; congruence. }
  destruct (py_getitem api name s) as [[blk|e|] s0] eqn:E1;
    pose proof (py_getitem_reads _ _ _ _ _ E1) as ->.
  2:{ destruct (decide _); intros [= <- <-]; by repeat split. }
  2:{ revert E1. unfold py_getitem. repeat case_match; congruence. }
  unfold deepcopy_dict.
  destruct (doc_of _ _ blk) as [d|].
  - destruct (build_doc_run d s) as (v & h' & _ & -> & _).
    intros [= <- <-]. by repeat split.
  - destruct (decide _); intros [= <- <-]; by repeat split.
Qed.

Section StepPrecedence.
Context (W : world).

(** X16.  The order in which [load_teststep] looks at a step.  With an
    ["api"] entry only the api is resolved, whatever the fuel and also
    when the step has a ["testcase"] entry: no file is opened and nothing
    is logged.  Without ["api"], a step with a ["func"] entry, or with
    none of the three entries, is returned as it is and the state is
    unchanged. *)
Theorem load_teststep_precedence
    (fuel : nat) (b : nat) (d : list (key * value)) (s : state) :
  heap s !! b = Some (ODict d) ->
  (forall name r s',
      dict_get d (KStr "api") = Some name ->
      load_teststep W fuel (VRef b) s = (r, s') ->
      load_teststep W 0 (VRef b) s = (r, s')
      /\ opened s' = opened s /\ log s' = log s
      /\ match r with
         | Val v => v = VRef b
         | Exc e => _get_api_definition name s = (Exc e, s')
         | Timeout => False
         end)
  /\ (dict_has d (KStr "api") = false ->
      dict_has d (KStr "func") = true
      \/ dict_has d (KStr "testcase") = false ->
      load_teststep W fuel (VRef b) s = (Val (VRef b), s)).
Proof.
  intros Hb. split.
  - intros name r s' Hn. rewrite !(load_teststep_api W _ b d name s Hb Hn).
    destruct (_get_api_definition name s) as [[v|e|] s1] eqn:E;
      apply get_api_definition_fields in E as (Hl & Ho & _ & Ht);
      intros [= <- <-]; by repeat split.
  - intros Hapi Hrest. unfold load_teststep, load_teststep_with.
    unfold bind at 1. rewrite (py_contains_dict "api" b d s Hb), Hapi.
    unfold bind at 1. rewrite (py_contains_dict "func" b d s Hb).
    destruct (dict_has d (KStr "func")); [done|].
    destruct Hrest as [?|Htc]; [done|].
    unfold bind at 1. rewrite (py_contains_dict "testcase" b d s Hb), Htc.
    done.
Qed.

Lemma load_teststep_testcase_run fuel b d rel pwd td t cached s :
  testcase_step s b d rel pwd td t cached ->
  load_teststep W fuel (VRef b) s
  = (do testcase_dict <-
       (if negb cached then
          do raw_testcase <- load_file W (join W pwd rel);
          do testcase_dict <- load_testcase W fuel raw_testcase;
          do _ <- py_setitem tests_def_mapping (VStr (join W pwd rel))
                             testcase_dict;
          ret testcase_dict
        else py_getitem tests_def_mapping (VStr rel));
     do _ <- py_setitem (VRef b) (VStr "testcase_def") testcase_dict;
     ret (VRef b)) s.
Proof.
  intros [Hb Hapi Hfunc Htc (pm & Hpm & Hpwd) Htd Hts (tc & Ht & Hc)].
  unfold load_teststep, load_teststep_with.
  unfold bind at 1. rewrite (py_contains_dict "api" b d s Hb), Hapi.
  unfold bind at 1. rewrite (py_contains_dict "func" b d s Hb), Hfunc.
  unfold bind at 1. rewrite (py_contains_dict "testcase" b d s Hb).
  unfold dict_has. rewrite Htc.
  unfold bind at 1. unfold py_getitem at 1. simpl. rewrite Hb. simpl.
  rewrite Htc.
  unfold bind at 1. unfold py_getitem at 1. simpl. rewrite Htd. simpl.
  rewrite Hts.
  unfold bind at 1. unfold py_contains at 1. simpl. rewrite Ht. simpl.
  fold (dict_has tc (KStr rel)). rewrite Hc.
  destruct cached; simpl; [reflexivity|].
  match goal with
  | |- bind ?X _ _ = bind ?Y _ _ =>
      assert (E : X s = Y s);
      [ unfold bind at 1; unfold py_getitem; simpl; rewrite Hpm; simpl;
        rewrite Hpwd; reflexivity
      | unfold bind at 1; rewrite E; reflexivity ]
  end.
Qed.

End StepPrecedence.

Section StepTestcase.
Context (W : world).

Lemma file_testcase_frame fuel file_path s s1 s2 raw testcase :
  2 <= length (heap s) ->
  load_file W file_path s = (Val raw, s1) ->
  load_testcase W fuel raw s1 = (Val testcase, s2) ->
  length (heap s) <= length (heap s2)
  /\ forall a, a < length (heap s) -> a <> 1 -> heap s2 !! a = heap s !! a.
Proof.
  intros Hlen Hf Ht. apply load_file_inv in Hf as [Hg Hraw].
  pose proof (grows_length _ _ Hg) as Hl1.
  destruct (load_testcase_ok W fuel raw s1 testcase s2 (length (heap s))
              Ht Hlen Hl1) as [[Hl2 Hfr] _].
  - eapply grows_closed; [exact Hg | lia | apply region_closed_length].
  - by eapply grows_items.
  - split; [lia|]. intros a Ha Ha1. rewrite Hfr by done.
    by apply grows_lookup.
Qed.

(** X17.  A step that refers to a testcase file that is not memoized:
    what goes wrong in loading the file or in assembling its testcase
    ends [load_teststep] with the same error, in the state where it was
    raised; nothing is caught here.  A file that does not exist gives
    [FileNotFound] and the state is unchanged. *)
Theorem load_teststep_testcase_errors
    (fuel b : nat) (d : list (key * value)) (rel pwd : string)
    (td : list (key * value)) (t : nat) (s : state) :
  testcase_step s b d rel pwd td t false ->
  (forall e s1,
      load_file W (join W pwd rel) s = (Exc e, s1) ->
      load_teststep W fuel (VRef b) s = (Exc e, s1))
  /\ (isfile W (join W pwd rel) = false ->
      load_teststep W fuel (VRef b) s = (Exc FileNotFound, s))
  /\ (forall raw s1 e s2,
        load_file W (join W pwd rel) s = (Val raw, s1) ->
        load_testcase W fuel raw s1 = (Exc e, s2) ->
        load_teststep W fuel (VRef b) s = (Exc e, s2)).
Proof.
  intros Hstep.
  rewrite (load_teststep_testcase_run W fuel b d rel pwd td t false s Hstep).
  simpl. split; [|split].
  - intros e s1 Hf. unfold bind. by rewrite Hf.
  - intros Hf. unfold bind, load_file. by rewrite Hf.
  - intros raw s1 e s2 Hf Ht. unfold bind. by rewrite Hf, Ht.
Qed.

(** X18.  When the path of the step is a key of
    [tests_def_mapping["testcases"]], the testcase is read from
    [tests_def_mapping] itself under that key: the step gets that entry,
    and [KeyError] is raised when there is none.  No file is loaded. *)
Theorem load_teststep_cached_lookup
    (fuel b : nat) (d : list (key * value)) (rel pwd : string)
    (td : list (key * value)) (t : nat) (s : state) :
  testcase_step s b d rel pwd td t true ->
  load_teststep W fuel (VRef b) s
  = match dict_get td (KStr rel) with
    | Some testcase_dict =>
        (Val (VRef b),
         set_heap (<[b := ODict (dict_set d (KStr "testcase_def")
                                          testcase_dict)]> (heap s)) s)
    | None => (Exc KeyError, s)
    end.
Proof.
  intros Hstep.
  rewrite (load_teststep_testcase_run W fuel b d rel pwd td t true s Hstep).
  destruct Hstep as [Hb _ _ _ _ Htd _ _]. simpl.
  unfold bind at 1. unfold py_getitem. simpl. rewrite Htd. simpl.
  destruct (dict_get td (KStr rel)) as [v|]; [|done].
  unfold bind, py_setitem. simpl. by rewrite Hb.
Qed.

(** X19.  When a step that refers to a testcase file that is not
    memoized is resolved, the assembled testcase is entered in
    [tests_def_mapping] itself, under the path joined to the project
    directory, and the step gets it as ["testcase_def"]; the dictionary
    [tests_def_mapping["testcases"]] that is asked for the path is left
    as it was. *)
Theorem load_teststep_memo_key
    (fuel b : nat) (d : list (key * value)) (rel pwd : string)
    (td : list (key * value)) (t : nat) (s : state) (v : value)
    (s' : state) :
  testcase_step s b d rel pwd td t false ->
  b <> 1 -> t <> 1 -> t <> b ->
  load_teststep W fuel (VRef b) s = (Val v, s') ->
  v = VRef b
  /\ exists testcase_dict td' raw s1 s2,
       load_file W (join W pwd rel) s = (Val raw, s1)
       /\ load_testcase W fuel raw s1 = (Val testcase_dict, s2)
       /\ heap s' !! 1 = Some (ODict td')
       /\ dict_get td' (KStr (join W pwd rel)) = Some testcase_dict
       /\ heap s' !! b
          = Some (ODict (dict_set d (KStr "testcase_def") testcase_dict))
       /\ heap s' !! t = heap s !! t.
Proof.
  intros Hstep Hb1 Ht1 Htb Hrun.
  destruct (load_teststep_frame W fuel (VRef b) s v s' Hrun)
    as (-> & _ & Hframe & _).
  split; [done|].
  rewrite (load_teststep_testcase_run W fuel b d rel pwd td t false s Hstep)
    in Hrun.
  destruct Hstep as [Hb Hapi Hfunc Htc _ Htd Hts (tc & Ht & _)].
  simpl in Hrun.
  apply bind_inv in Hrun as (tcd & s3 & Hload & Hrun).
  apply bind_inv in Hload as (raw & s1 & Hf & Hload).
  apply bind_inv in Hload as (tcd' & s2 & Hr & Hload).
  apply bind_inv in Hload as ([] & s4 & Hs & Hload).
  inversion Hload; subst; clear Hload.
  apply py_setitem_inv in Hs as (a & d1 & kk & [= <-] & Ha & [= <-] & ->).
  apply bind_inv in Hrun as ([] & s5 & Hs & Hrun).
  inversion Hrun; subst; clear Hrun.
  apply py_setitem_inv in Hs as (a & d2 & kk & [= <-] & Ha2 & [= <-] & ->).
  simpl in Ha2 |- *.
  assert (H1lt : 1 < length (heap s2)) by (by eapply lookup_lt_Some).
  exists tcd, (dict_set d1 (KStr (join W pwd rel)) tcd), raw, s1, s2.
  split; [done|]. split; [done|].
  split.
  { rewrite list_lookup_insert_ne by done.
    by apply list_lookup_insert_eq. }
  split; [apply dict_get_set_eq|].
  assert (Hlen2 : 2 <= length (heap s)).
  { apply lookup_lt_Some in Htd. lia. }
  destruct (file_testcase_frame fuel _ s s1 s2 raw tcd Hlen2 Hf Hr)
    as [Hl2 Hfr].
  assert (Hblt : b < length (heap s)) by (by eapply lookup_lt_Some).
  rewrite list_lookup_insert_ne in Ha2 by done.
  rewrite Hfr, Hb in Ha2 by done. inversion Ha2; subst d2.
  split.
  - apply list_lookup_insert_eq. rewrite length_insert. lia.
  - apply Hframe; [by eapply lookup_lt_Some | done | congruence].
Qed.

(** X20.  [load_teststep] works in place: it returns the object it was
    given, and of the objects that were there it changes at most that
    one, which gets its ["api_def"] or ["testcase_def"] entry, and
    [tests_def_mapping]; no object is removed. *)
Theorem load_teststep_in_place
    (fuel : nat) (raw_stepinfo : value) (s : state) (v : value)
    (s' : state) :
  load_teststep W fuel raw_stepinfo s = (Val v, s') ->
  v = raw_stepinfo
  /\ length (heap s) <= length (heap s')
  /\ (forall a, a < length (heap s) -> a <> 1 -> raw_stepinfo <> VRef a ->
                heap s' !! a = heap s !! a)
  /\ (forall a d, raw_stepinfo = VRef a -> a <> 1 ->
                  heap s !! a = Some (ODict d) ->
        exists d', heap s' !! a = Some (ODict d') /\ step_effect d d').
Proof. apply load_teststep_frame. Qed.

(** X21.  Assembling the testcase of a file that was just loaded changes
    none of the objects that were there before the file was loaded,
    [tests_def_mapping] apart: the blocks that are consumed and the steps
    that are extended are objects of the file. *)
Theorem load_file_testcase_frame
    (fuel : nat) (file_path : string) (s s1 s2 : state)
    (raw testcase : value) :
  2 <= length (heap s) ->
  load_file W file_path s = (Val raw, s1) ->
  load_testcase W fuel raw s1 = (Val testcase, s2) ->
  length (heap s) <= length (heap s2)
  /\ forall a, a < length (heap s) -> a <> 1 -> heap s2 !! a = heap s !! a.
Proof. apply file_testcase_frame. Qed.

End StepTestcase.

Lemma load_teststep_precedence_witness :
  (exists s',
      load_teststep project_world 0 (VRef 13) (api_step_state "login")
      = (Val (VRef 13), s')
      /\ opened s' = opened (api_step_state "login"))
  /\ load_teststep project_world 5 (VRef 4) (cached_state true)
     = (Val (VRef 4), cached_state true).
Proof.
  split.
  - destruct (load_teststep project_world 5 (VRef 13)
                (api_step_state "login")) as [r s'] eqn:Hrun.
    destruct (load_teststep_precedence project_world 5 13
                [(KStr "name", VStr "s"); (KStr "api", VStr "login")]
                (api_step_state "login")) as [H _];
      [vm_compute; reflexivity|].
    destruct (H (VStr "login") r s' eq_refl Hrun) as (H0 & Ho & _ & Hr).
    clear H. destruct r as [v|e|].
    + subst v. exists s'. split; [exact H0 | exact Ho].
    + clear H0 Ho Hr. vm_compute in Hrun. discriminate Hrun.
    + destruct Hr.
  - destruct (load_teststep_precedence project_world 5 4
                [(KStr "config", VRef 2); (KStr "teststeps", VRef 2)]
                (cached_state true)) as [_ H]; [reflexivity|].
    apply H; [reflexivity | by right].
Defined.

Lemma load_teststep_testcase_errors_witness :
  load_teststep project_world 5 (VRef 13) (ref_step_state "missing.yml")
  = (Exc FileNotFound, ref_step_state "missing.yml").
Proof.
  destruct (load_teststep_testcase_errors project_world 5 13
              [(KStr "name", VStr "s"); (KStr "testcase", VStr "missing.yml")]
              "missing.yml" "/w/p"
              [(KStr "api", VRef 6); (KStr "testcases", VRef 3)] 3
              (ref_step_state "missing.yml")) as (_ & H & _).
  - testcase_step_here.
  - apply H. vm_compute. reflexivity.
Defined.

Lemma load_teststep_cached_lookup_witness :
  load_teststep project_world 0 (VRef 5) (cached_state false)
  = (Exc KeyError, cached_state false)
  /\ exists s',
       load_teststep project_world 0 (VRef 5) (cached_state true)
       = (Val (VRef 5), s')
       /\ heap s' !! 5
          = Some (ODict [(KStr "name", VStr "s");
                         (KStr "testcase", VStr "sub.yml");
                         (KStr "testcase_def", VRef 4)]).
Proof.
  split.
  - rewrite (load_teststep_cached_lookup project_world 0 5
               [(KStr "name", VStr "s"); (KStr "testcase", VStr "sub.yml")]
               "sub.yml" "/w/p"
               [(KStr "api", VRef 2); (KStr "testcases", VRef 3)] 3
               (cached_state false)); [reflexivity|].
    testcase_step_here.
  - rewrite (load_teststep_cached_lookup project_world 0 5
               [(KStr "name", VStr "s"); (KStr "testcase", VStr "sub.yml")]
               "sub.yml" "/w/p"
               [(KStr "api", VRef 2); (KStr "testcases", VRef 3);
                (KStr "sub.yml", VRef 4)] 3
               (cached_state true)); [|testcase_step_here].
    eexists. split; reflexivity.
Defined.

Lemma load_teststep_memo_key_witness :
  exists s' td' testcase_dict,
    load_teststep project_world 5 (VRef 13) (ref_step_state "sub.yml")
    = (Val (VRef 13), s')
    /\ heap s' !! 1 = Some (ODict td')
    /\ dict_get td' (KStr "/w/p/sub.yml") = Some testcase_dict
    /\ heap s' !! 3 = Some (ODict []).
Proof.
  destruct (load_teststep project_world 5 (VRef 13)
              (ref_step_state "sub.yml")) as [[v|e|] s'] eqn:Hrun;
    [| vm_compute in Hrun; discriminate Hrun
     | vm_compute in Hrun; discriminate Hrun].
  destruct (load_teststep_memo_key project_world 5 13
              [(KStr "name", VStr "s"); (KStr "testcase", VStr "sub.yml")]
              "sub.yml" "/w/p"
              [(KStr "api", VRef 6); (KStr "testcases", VRef 3)] 3
              (ref_step_state "sub.yml") v s')
    as (-> & tcd & td' & raw & s1 & s2 & _ & _ & Htd & Hget & _ & Ht);
    [testcase_step_here | done | done | done | exact Hrun |].
  clear Hrun. exists s', td', tcd. split; [reflexivity|].
  split; [exact Htd|]. split; [exact Hget|]. rewrite Ht. reflexivity.
Defined.

Lemma load_teststep_in_place_witness :
  exists s',
    load_teststep project_world 5 (VRef 13) (ref_step_state "sub.yml")
    = (Val (VRef 13), s')
    /\ heap s' !! 0 = heap (ref_step_state "sub.yml") !! 0.
Proof.
  destruct (load_teststep project_world 5 (VRef 13)
              (ref_step_state "sub.yml")) as [[v|e|] s'] eqn:Hrun;
    [| vm_compute in Hrun; discriminate Hrun
     | vm_compute in Hrun; discriminate Hrun].
  destruct (load_teststep_in_place project_world 5 (VRef 13)
              (ref_step_state "sub.yml") v s' Hrun) as (-> & _ & Hf & _).
  clear Hrun. exists s'. split; [reflexivity|].
  apply Hf; [vm_compute; lia | done | done].
Defined.

Lemma load_file_testcase_frame_witness :
  exists raw s1 testcase s2,
    load_file project_world "/w/p/suite/good.yml" project_state
    = (Val raw, s1)
    /\ load_testcase project_world 5 raw s1 = (Val testcase, s2)
    /\ heap s2 !! 0 = heap project_state !! 0.
Proof.
  destruct (load_file project_world "/w/p/suite/good.yml" project_state)
    as [[raw|e|] s1] eqn:Hf;
    [| vm_compute in Hf; discriminate Hf | vm_compute in Hf; discriminate Hf].
  destruct (load_testcase project_world 5 raw s1) as [[tc|e|] s2] eqn:Ht.
  - assert (Hlen : 2 <= length (heap project_state))
      by (vm_compute; lia).
    destruct (load_file_testcase_frame project_world 5 _ _ _ _ _ _
                Hlen Hf Ht) as [_ Hfr].
    clear Hf. exists raw, s1, tc, s2. split; [reflexivity|].
    split; [exact Ht|]. clear Ht. apply Hfr; [vm_compute; lia | done].
  - vm_compute in Hf. inversion Hf; subst raw s1. clear Hf.
    vm_compute in Ht. discriminate Ht.
  - vm_compute in Hf. inversion Hf; subst raw s1. clear Hf.
    vm_compute in Ht. discriminate Ht.
Defined.

(** ** Blocks that are not as expected *)

Lemma is_dict_of_key k s : is_dict (of_key k) s = false.
Proof. by destruct k. Qed.

Section Malformed.
Context (W : world).

Lemma load_testcase_head fuel r item rest s :
  heap s !! r = Some (OList (item :: rest)) ->
  load_testcase W (S fuel) (VRef r) s
  = (do _ <- for_each (item :: rest)
               (testcase_item (load_teststep W fuel)
                  (VRef (length (heap s))) (VRef (S (length (heap s)))));
     alloc (ODict [(KStr "config", VRef (length (heap s)));
                   (KStr "teststeps", VRef (S (length (heap s))))]))
      (set_heap (heap s ++ [ODict []; OList []]) s).
Proof.
  intros Hr. simpl. unfold load_testcase_with.
  unfold bind at 1, alloc at 1. unfold bind at 1, alloc at 1.
  unfold bind at 1, py_iter at 1. simpl.
  assert (Hl : r < length (heap s)) by (by eapply lookup_lt_Some).
  rewrite <- app_assoc. simpl.
  rewrite lookup_app_l, Hr by done.
  rewrite length_app. simpl. rewrite Nat.add_1_r. reflexivity.
Qed.

(** X22.  [load_testcase] on a list whose first element is not a
    dictionary with exactly one entry raises [FileFormatError] and
    leaves the element as it is.  When the first element has one entry
    whose value is not a dictionary, it raises [FileFormatError] too, but
    only after [popitem]: the element is left empty.  In both cases the
    two objects for the config and the steps have been made. *)
Theorem load_testcase_malformed_block
    (fuel r : nat) (item : value) (rest : list value) (s : state) :
  heap s !! r = Some (OList (item :: rest)) ->
  let s0 := set_heap (heap s ++ [ODict []; OList []]) s in
  (is_dict item s = false \/ len_of item s <> 1 ->
   load_testcase W (S fuel) (VRef r) s = (Exc FileFormatError, s0))
  /\ (forall a k v,
        item = VRef a -> heap s !! a = Some (ODict [(k, v)]) ->
        is_dict v (set_heap (<[a := ODict []]> (heap s0)) s0) = false ->
        load_testcase W (S fuel) (VRef r) s
        = (Exc FileFormatError, set_heap (<[a := ODict []]> (heap s0)) s0)).
Proof.
  intros Hr s0. rewrite (load_testcase_head fuel r item rest s Hr).
  subst s0.
  remember (set_heap (heap s ++ [ODict []; OList []]) s) as s0 eqn:E0.
  assert (Hpre : forall a, a < length (heap s) ->
                           heap s0 !! a = heap s !! a).
  { intros a Ha. rewrite E0. simpl. by apply lookup_app_l. }
  split.
  - intros Hbad.
    assert (Hbad0 : negb (is_dict item s0)
                    || negb (Nat.eqb (len_of item s0) 1) = true).
    { unfold is_dict, len_of, deref in *.
      destruct item as [| | | | |a]; try done.
      destruct (heap s !! a) as [o|] eqn:Ha.
      - rewrite Hpre, Ha by (by eapply lookup_lt_Some).
        destruct Hbad as [Hd|Hn]; [by rewrite Hd|].
        destruct o as [d|l]; [|done]. simpl.
        destruct (Nat.eqb_spec (length d) 1); [done|]. done.
      - destruct (heap s0 !! a) as [[d|l]|] eqn:Ha0; [|done..].
        rewrite E0 in Ha0. simpl in Ha0.
        apply lookup_ge_None in Ha.
        rewrite lookup_app_r in Ha0 by done.
        destruct (a - length (heap s)) as [|[|n]]; simpl in Ha0; try done.
        inversion Ha0; subst. done. }
    unfold bind at 1. simpl for_each. unfold bind at 1.
    unfold testcase_item at 1. unfold bind at 1, get_state at 1.
    by rewrite Hbad0.
  - intros a k v -> Ha Hv.
    assert (Hlt : a < length (heap s)) by (by eapply lookup_lt_Some).
    unfold bind at 1. simpl for_each. unfold bind at 1.
    unfold testcase_item at 1. unfold bind at 1, get_state at 1.
    unfold is_dict at 1, len_of at 1. unfold deref.
    rewrite (Hpre a Hlt), Ha. simpl.
    unfold bind at 1, py_popitem at 1. unfold deref.
    rewrite (Hpre a Hlt), Ha. simpl.
    unfold bind at 1, get_state at 1. by rewrite Hv.
Qed.

(** X23.  A file whose top level is a mapping instead of a list of
    blocks: iterating it gives its keys, the first of which is no
    dictionary, so [load_testcase] raises [FileFormatError]; in
    [load_test_file] the error is caught and the result is a new empty
    dictionary, which [load_tests] does not enter in its list. *)
Theorem load_test_file_mapping
    (fuel : nat) (path : string) (s : state) (r : nat) (s1 : state)
    (kv : key * value) (d : list (key * value)) (testcases_list : value) :
  load_file W path s = (Val (VRef r), s1) ->
  heap s1 !! r = Some (ODict (kv :: d)) ->
  let s2 := set_heap (heap s1 ++ [ODict []; OList []; ODict []]) s1 in
  load_test_file W (S fuel) path s
  = (Val (VRef (S (S (length (heap s1))))), s2)
  /\ load_tests_item W (S fuel) testcases_list path s = (Val tt, s2).
Proof.
  intros Hf Hr s2.
  assert (Ht : load_testcase W (S fuel) (VRef r) s1
               = (Exc FileFormatError,
                  set_heap (heap s1 ++ [ODict []; OList []]) s1)).
  { simpl. unfold load_testcase_with.
    unfold bind at 1, alloc at 1. unfold bind at 1, alloc at 1.
    unfold bind at 1, py_iter at 1. simpl.
    assert (Hl : r < length (heap s1)) by (by eapply lookup_lt_Some).
    rewrite <- app_assoc. simpl. rewrite lookup_app_l, Hr by done.
    simpl. unfold bind at 1. unfold bind at 1.
    unfold testcase_item at 1. unfold bind at 1, get_state at 1.
    by rewrite is_dict_of_key. }
  assert (Hfile : load_test_file W (S fuel) path s
                  = (Val (VRef (S (S (length (heap s1))))), s2)).
  { unfold load_test_file. unfold bind at 1. rewrite Hf.
    unfold try_except. unfold bind at 1. rewrite Ht.
    rewrite decide_True by done. unfold alloc, s2. simpl.
    rewrite length_app. simpl. rewrite Nat.add_comm. simpl.
    by rewrite <- app_assoc. }
  split; [done|].
  unfold load_tests_item. unfold bind at 1. rewrite Hfile.
  unfold bind, get_state. simpl.
  rewrite lookup_app_r by lia.
  replace (S (S (length (heap s1))) - length (heap s1)) with 2 by lia.
  done.
Qed.

End Malformed.

(** X24.  A block whose key is neither ["config"] nor ["test"] is
    consumed and adds nothing to the config or to the steps: in
    [load_testcase] a warning is logged for it, in [load_locust_tests] it
    is passed over without one. *)
Theorem unexpected_block_key
    (step : value -> M value) (fuel : nat) (W : world)
    (config tests : value) (a b : nat) (k : key) (body : list (key * value))
    (s : state) :
  heap s !! a = Some (ODict [(k, VRef b)]) ->
  heap s !! b = Some (ODict body) -> a <> b ->
  k <> KStr "config" -> k <> KStr "test" ->
  let s1 := set_heap (<[a := ODict []]> (heap s)) s in
  testcase_item step config tests (VRef a) s
  = (Val tt, add_log LWarning (MsgUnexpectedBlockKey (of_key k)) s1)
  /\ locust_item W fuel config tests (VRef a) s = (Val tt, s1).
Proof.
  intros Ha Hb Hab Hk1 Hk2 s1.
  assert (E1 : eq_str (of_key k) "config" = false).
  { rewrite eq_str_of_key. by apply bool_decide_eq_false_2. }
  assert (E2 : eq_str (of_key k) "test" = false).
  { rewrite eq_str_of_key. by apply bool_decide_eq_false_2. }
  split.
  - unfold testcase_item. unfold bind at 1, get_state at 1.
    unfold is_dict at 1, len_of at 1. unfold deref. rewrite Ha. simpl.
    unfold bind at 1, py_popitem at 1. unfold deref. rewrite Ha. simpl.
    unfold bind at 1, get_state at 1.
    unfold is_dict. unfold deref. cbn [heap set_heap].
    rewrite list_lookup_insert_ne, Hb by done. simpl.
    by rewrite E1, E2.
  - unfold locust_item. unfold bind at 1, py_popitem at 1. unfold deref.
    rewrite Ha. simpl. by rewrite E1, E2.
Qed.

Section UnhashableApi.
Context (W : world).

(** X25.  A step whose ["api"] entry is a list or a dictionary: the
    lookup in the mapping of definitions raises [TypeError], which is
    not turned into [ApiNotFound]; the state is unchanged. *)
Theorem load_teststep_api_unhashable
    (fuel b : nat) (d cache : list (key * value)) (name : value)
    (s : state) :
  heap s !! b = Some (ODict d) ->
  dict_get d (KStr "api") = Some name ->
  api_cache s cache ->
  to_key name = None ->
  load_teststep W fuel (VRef b) s = (Exc TypeError, s).
Proof.
  intros Hb Hn (top & A & Htop & Hapi & HA) Hk.
  rewrite (load_teststep_api W fuel b d name s Hb Hn).
  unfold _get_api_definition, try_except.
  unfold bind at 1, py_getitem at 1. simpl. rewrite Htop. simpl.
  rewrite Hapi.
  unfold bind at 1, py_getitem at 1. simpl. rewrite HA. simpl.
  rewrite Hk. by rewrite decide_False.
Qed.

End UnhashableApi.

Lemma load_testcase_malformed_block_witness :
  (exists s',
      load_testcase project_world 1 (VRef (raw_addr scalar_block_yml))
        (raw_state scalar_block_yml) = (Exc FileFormatError, s'))
  /\ (exists s',
        load_testcase project_world 1 (VRef (raw_addr scalar_body_yml))
          (raw_state scalar_body_yml) = (Exc FileFormatError, s')
        /\ heap (raw_state scalar_body_yml) !! 13
           = Some (ODict [(KStr "test", VStr "oops")])
        /\ heap s' !! 13 = Some (ODict [])).
Proof.
  split.
  - destruct (load_testcase_malformed_block project_world 0
                (raw_addr scalar_block_yml) (VStr "oops") []
                (raw_state scalar_block_yml)) as [H _];
      [vm_compute; reflexivity|].
    eexists. apply H. by left.
  - destruct (load_testcase_malformed_block project_world 0
                (raw_addr scalar_body_yml) (VRef 13) []
                (raw_state scalar_body_yml)) as [_ H];
      [vm_compute; reflexivity|].
    eexists. split; [|split].
    + apply (H 13 (KStr "test") (VStr "oops") eq_refl);
        vm_compute; reflexivity.
    + vm_compute. reflexivity.
    + vm_compute. reflexivity.
Defined.

Lemma load_test_file_mapping_witness :
  exists v s',
    load_test_file mapping_world 1 "/w/p/single.yml" init_state = (Val v, s')
    /\ truthy v s' = false
    /\ load_tests_item mapping_world 1 (VRef 100) "/w/p/single.yml"
         init_state = (Val tt, s').
Proof.
  destruct (load_file mapping_world "/w/p/single.yml" init_state)
    as [r s1] eqn:Hf.
  assert (Hr : r = Val (VRef 5)
               /\ heap s1 !! 5 = Some (ODict [(KStr "config", VRef 4)])).
  { vm_compute in Hf. inversion Hf; subst r s1. split; reflexivity. }
  destruct Hr as [-> Hr].
  destruct (load_test_file_mapping mapping_world 0 "/w/p/single.yml"
              init_state 5 s1 (KStr "config", VRef 4) [] (VRef 100) Hf Hr)
    as [H1 H2].
  eexists _, _. split; [exact H1|]. split; [|exact H2].
  clear H1 H2 Hr. vm_compute in Hf. inversion Hf; subst s1. reflexivity.
Defined.

Lemma unexpected_block_key_witness :
  exists s1,
    testcase_item (load_teststep project_world 0) (VRef 0) (VRef 0) (VRef 14)
      (raw_state setup_block_yml)
    = (Val tt, add_log LWarning (MsgUnexpectedBlockKey (VStr "setup")) s1)
    /\ locust_item project_world 0 (VRef 0) (VRef 0) (VRef 14)
         (raw_state setup_block_yml) = (Val tt, s1)
    /\ heap s1 !! 14 = Some (ODict []).
Proof.
  destruct (unexpected_block_key (load_teststep project_world 0) 0
              project_world (VRef 0) (VRef 0) 14 13 (KStr "setup") []
              (raw_state setup_block_yml)) as [H1 H2];
    [vm_compute; reflexivity | vm_compute; reflexivity | done | done | done |].
  eexists. split; [exact H1|]. split; [exact H2|]. vm_compute. reflexivity.
Defined.

Lemma load_teststep_api_unhashable_witness :
  let s := snd (build_doc list_api_step project_state) in
  load_teststep project_world 5 (VRef 14) s = (Exc TypeError, s).
Proof.
  intros s.
  apply (load_teststep_api_unhashable project_world 5 14
           [(KStr "api", VRef 13)]
           [(KStr "login", VRef 10)] (VRef 13) s).
  - vm_compute. reflexivity.
  - reflexivity.
  - eexists _, _. split; [vm_compute; reflexivity|].
    split; vm_compute; reflexivity.
  - reflexivity.
Defined.
(** ** Files that are not testcases *)

Section UnsupportedTestcase.
Context (W : world).

Lemma load_testcase_empty fuel r s :
  heap s !! r = Some (OList []) ->
  load_testcase W (S fuel) (VRef r) s
  = (Val (VRef (S (S (length (heap s))))),
     set_heap (heap s ++ [ODict []; OList [];
                          ODict [(KStr "config", VRef (length (heap s)));
                                 (KStr "teststeps",
                                  VRef (S (length (heap s))))]]) s).
Proof.
  intros Hr. simpl. unfold load_testcase_with.
  unfold bind at 1, alloc at 1. unfold bind at 1, alloc at 1.
  unfold bind at 1, py_iter at 1. simpl.
  assert (Hl : r < length (heap s)) by (by eapply lookup_lt_Some).
  rewrite <- app_assoc. simpl. rewrite lookup_app_l, Hr by done.
  unfold bind, alloc. simpl. rewrite !length_app. simpl.
  rewrite Nat.add_1_r. replace (length (heap s) + 2) with
    (S (S (length (heap s)))) by lia.
  by rewrite <- app_assoc.
Qed.

(** The inner [load_test_file] on a file with a suffix that [load_file]
    does not know. *)
Lemma load_test_file_unsupported_run (fuel : nat) (path : string) (s : state) :
  isfile W path = true ->
  lower (snd (splitext W path)) ∉ [".json"; ".yaml"; ".yml"; ".csv"] ->
  let n := length (heap s) in
  load_test_file W (S fuel) path s
  = (Val (VRef (S (S (S n)))),
     mkState (heap s ++ [OList []; ODict [(KStr "path", VStr path)];
                         OList [];
                         ODict [(KStr "config", VRef (S n));
                                (KStr "teststeps", VRef (S (S n)))]])
             (log s ++ [(LWarning, MsgUnsupportedFormat path)])
             (opened s) (sys_path s) (os_environ s)).
Proof.
  intros Hf Hsuf n.
  unfold load_test_file. unfold bind at 1.
  rewrite (load_file_unsupported_run W path s Hf Hsuf).
  unfold try_except. unfold bind at 1.
  rewrite load_testcase_empty.
  2:{ simpl. by rewrite lookup_app_r, Nat.sub_diag by lia. }
  cbn [heap set_heap]. rewrite length_app. simpl length. fold n.
  replace (n + 1) with (S n) by lia.
  unfold bind at 1, py_getitem at 1. unfold deref. cbn [heap set_heap].
  rewrite <- app_assoc. simpl app.
  rewrite lookup_app_r by (fold n; lia). fold n.
  replace (S (S (S n)) - n) with 3 by lia. simpl.
  unfold bind, py_setitem. unfold deref. cbn [heap set_heap].
  rewrite lookup_app_r by (fold n; lia). fold n.
  replace (S n - n) with 1 by lia. simpl.
  rewrite insert_app_r_alt by (fold n; lia). fold n.
  replace (S n - n) with 1 by lia. reflexivity.
Qed.

(** X26.  [load_tests] on the path of a single file with a suffix that
    [load_file] does not know (the path is made absolute first): the
    file is not refused.  Once the project is loaded, [load_file] logs
    the warning and gives an empty list, [load_testcase] assembles it to
    a testcase without steps, the inner [load_test_file] sets its
    [config.path], and the result of [load_tests] holds this one
    testcase. *)
Theorem load_tests_unsupported_file
    (fuel : nat) (path : string) (dot_env_path : option string)
    (s s2 : state) :
  path_exists W path = true ->
  let file_path :=
    if negb (isabs W path) then join W (getcwd W) path else path in
  isdir W file_path = false ->
  isfile W file_path = true ->
  lower (snd (splitext W file_path)) ∉ [".json"; ".yaml"; ".yml"; ".csv"] ->
  load_project_tests W (S fuel) file_path dot_env_path s = (Val tt, s2) ->
  let n := length (heap s2) in
  load_tests W (S fuel) path dot_env_path s
  = (Val (VRef n),
     mkState (heap s2
              ++ [ODict [(KStr "project_mapping", VRef 0);
                         (KStr "testcases", VRef (S n))];
                  OList [VRef (n + 5)];
                  OList [];
                  ODict [(KStr "path", VStr file_path)];
                  OList [];
                  ODict [(KStr "config", VRef (n + 3));
                         (KStr "teststeps", VRef (n + 4))]])
             (log s2 ++ [(LWarning, MsgUnsupportedFormat file_path)])
             (opened s2) (sys_path s2) (os_environ s2)).
Proof.
  intros He file_path Hd Hf Hsuf Hproj n.
  unfold load_tests. rewrite He. cbn [negb]. fold file_path.
  unfold bind at 1. rewrite Hproj.
  unfold bind at 1, alloc at 1. unfold bind at 1, alloc at 1.
  cbn [heap set_heap]. rewrite Hd, Hf. fold n.
  assert (Hl1 : length (heap s2 ++ [ODict [(KStr "project_mapping",
                                            project_mapping)]]) = S n)
    by (rewrite length_app; simpl; fold n; lia).
  rewrite Hl1.
  remember (set_heap ((heap s2 ++ [ODict [(KStr "project_mapping",
                                           project_mapping)]])
                      ++ [OList []])
              (set_heap (heap s2 ++ [ODict [(KStr "project_mapping",
                                             project_mapping)]]) s2))
    as s3 eqn:E3.
  assert (Hl3 : length (heap s3) = S (S n)).
  { subst s3. cbn [heap set_heap]. rewrite length_app, Hl1. simpl. lia. }
  pose proof (load_test_file_unsupported_run fuel file_path s3 Hf Hsuf)
    as Hfile. cbn zeta in Hfile. rewrite Hl3 in Hfile.
  assert (Htl : heap s3 !! S n = Some (OList [])).
  { subst s3. cbn [heap set_heap]. rewrite lookup_app_r by lia.
    by rewrite Hl1, Nat.sub_diag. }
  assert (Htm : heap s3 !! n
                = Some (ODict [(KStr "project_mapping", project_mapping)])).
  { subst s3. cbn [heap set_heap]. rewrite lookup_app_l by lia.
    rewrite lookup_app_r by (fold n; lia). fold n.
    by rewrite Nat.sub_diag. }
  remember (heap s3 ++ [OList []; ODict [(KStr "path", VStr file_path)];
                        OList [];
                        ODict [(KStr "config", VRef (S (S (S n))));
                               (KStr "teststeps", VRef (S (S (S (S n)))))]])
    as h4 eqn:E4.
  assert (Hbranch :
    (do testcase <- load_test_file W (S fuel) file_path;
     do s <- get_state;
     if truthy testcase s then py_append (VRef (S n)) testcase else ret tt)
      s3
    = (Val tt,
       mkState (<[S n := OList [VRef (S (S (S (S (S n)))))]]> h4)
               (log s3 ++ [(LWarning, MsgUnsupportedFormat file_path)])
               (opened s3) (sys_path s3) (os_environ s3))).
  { unfold bind at 1. rewrite Hfile. unfold bind at 1, get_state at 1.
    unfold truthy. cbn [heap]. rewrite E4.
    rewrite lookup_app_r by lia. rewrite Hl3.
    replace (S (S (S (S (S n)))) - S (S n)) with 3 by lia. simpl.
    unfold py_append. unfold deref. cbn [heap].
    rewrite lookup_app_l, Htl by lia. reflexivity. }
  rewrite (bind_val _ _ _ _ _ Hbranch).
  unfold bind at 1. unfold py_setitem. unfold deref. cbn [heap].
  rewrite list_lookup_insert_ne by lia.
  rewrite E4. rewrite lookup_app_l, Htm by lia. simpl.
  unfold ret. f_equal. unfold set_heap.
  cbn [heap log opened sys_path os_environ].
  subst s3. cbn [heap set_heap log opened sys_path os_environ].
  f_equal.
  rewrite <- !app_assoc. simpl app.
  rewrite insert_app_r_alt by (fold n; lia). fold n.
  replace (S n - n) with 1 by lia. simpl.
  rewrite insert_app_r_alt by (fold n; lia). fold n.
  rewrite Nat.sub_diag. simpl.
  replace (n + 5) with (S (S (S (S (S n))))) by lia.
  replace (n + 3) with (S (S (S n))) by lia.
  replace (n + 4) with (S (S (S (S n)))) by lia.
  reflexivity.
Qed.

End UnsupportedTestcase.

Lemma load_tests_unsupported_file_witness :
  exists tm tl tc s',
    load_tests files_world 5 "/w/d/notes.txt" None init_state
    = (Val (VRef tm), s')
    /\ heap s' !! tm
       = Some (ODict [(KStr "project_mapping", VRef 0);
                      (KStr "testcases", VRef tl)])
    /\ heap s' !! tl = Some (OList [VRef tc])
    /\ doc_of 3 (heap s') (VRef tc)
       = Some (DDict [(KStr "config",
                       DDict [(KStr "path", DStr "/w/d/notes.txt")]);
                      (KStr "teststeps", DList [])])
    /\ (LWarning, MsgUnsupportedFormat "/w/d/notes.txt") ∈ log s'.
Proof.
  pose (s2 := snd (load_project_tests files_world 5 "/w/d/notes.txt" None
                     init_state)).
  pose proof (load_tests_unsupported_file files_world 4 "/w/d/notes.txt"
                None init_state s2) as H.
  cbn zeta in H.
  assert (H1 : path_exists files_world "/w/d/notes.txt" = true)
    by (vm_compute; reflexivity).
  assert (H2 : isdir files_world
                 (if negb (isabs files_world "/w/d/notes.txt")
                  then join files_world (getcwd files_world) "/w/d/notes.txt"
                  else "/w/d/notes.txt") = false)
    by (vm_compute; reflexivity).
  assert (H3 : isfile files_world
                 (if negb (isabs files_world "/w/d/notes.txt")
                  then join files_world (getcwd files_world) "/w/d/notes.txt"
                  else "/w/d/notes.txt") = true)
    by (vm_compute; reflexivity).
  assert (H4 : lower (snd (splitext files_world
                 (if negb (isabs files_world "/w/d/notes.txt")
                  then join files_world (getcwd files_world) "/w/d/notes.txt"
                  else "/w/d/notes.txt")))
               ∉ [".json"; ".yaml"; ".yml"; ".csv"])
    by (vm_compute; not_in_list).
  assert (H5 : load_project_tests files_world 5
                 (if negb (isabs files_world "/w/d/notes.txt")
                  then join files_world (getcwd files_world) "/w/d/notes.txt"
                  else "/w/d/notes.txt") None init_state = (Val tt, s2))
    by (vm_compute; reflexivity).
  specialize (H H1 H2 H3 H4 H5). clear H1 H2 H3 H4 H5.
  eexists _, _, _, _. split; [exact H|]. clear H.
  split; [vm_compute; reflexivity|]. split; [vm_compute; reflexivity|].
  split; [vm_compute; reflexivity|].
  vm_compute. apply list_elem_of_here.
Defined.

(** ** What [load_test_file] returns *)

Section TestFileResult.
Context (W : world).

Lemma testcase_item_length fuel config teststeps item s s1 :
  testcase_item (load_teststep W fuel) config teststeps item s = (Val tt, s1) ->
  length (heap s) <= length (heap s1).
Proof.
  unfold testcase_item. intros H.
  apply bind_inv in H as (s0 & s0' & Hg & H). inversion Hg; subst; clear Hg.
  destruct (negb _ || negb _); [done|].
  apply bind_inv in H as ([key test_block] & s2 & Hp & H).
  apply py_popitem_inv in Hp as (a & d & kk & rest & -> & Ha & _ & -> & ->).
  apply bind_inv in H as (s3 & s3' & Hg & H). inversion Hg; subst; clear Hg.
  destruct (negb _); [done|].
  destruct (eq_str _ "config").
  { apply py_update_frame in H as [Hl _]. simpl in Hl.
    rewrite length_insert in Hl. lia. }
  destruct (eq_str _ "test").
  - apply bind_inv in H as (teststep & s3 & Hs & H).
    apply load_teststep_frame in Hs as (_ & Hl & _). simpl in Hl.
    rewrite length_insert in Hl.
    apply py_append_inv in H as (t & xs & _ & _ & ->). simpl.
    rewrite length_insert. lia.
  - inversion H; subst. simpl. by rewrite length_insert.
Qed.

Lemma load_testcase_val fuel raw s v s' :
  load_testcase W fuel raw s = (Val v, s') ->
  exists sl,
    length (heap s) + 2 <= length (heap sl)
    /\ v = VRef (length (heap sl))
    /\ s' = set_heap
              (heap sl ++ [ODict [(KStr "config", VRef (length (heap s)));
                                  (KStr "teststeps",
                                   VRef (S (length (heap s))))]]) sl.
Proof.
  destruct fuel as [|fuel]; [done|]. simpl. unfold load_testcase_with.
  intros H.
  apply bind_inv in H as (config & s1 & Ha & H).
  apply alloc_inv in Ha as [[= ->] ->].
  apply bind_inv in H as (teststeps & s2 & Ha & H).
  apply alloc_inv in Ha as [[= ->] ->].
  apply bind_inv in H as (items & s3 & Hi & H).
  apply py_iter_reads in Hi as ->.
  apply bind_inv in H as ([] & sl & Hloop & H).
  apply alloc_inv in H as [[= ->] ->].
  exists sl. split; [|split; [done|]].
  - eapply (for_each_invariant
              (fun st => length (heap s) + 2 <= length (heap st))
              (fun _ => True)); [| | |exact Hloop].
    + intros x st st1 _ Hst Hx.
      apply testcase_item_length in Hx. lia.
    + by apply Forall_forall.
    + simpl. rewrite !length_app. simpl. lia.
  - simpl. rewrite length_app. simpl. by rewrite Nat.add_1_r.
Qed.

(** X27.  What the inner [load_test_file] of [load_tests] returns is
    either a new empty dictionary, when assembling the content of the
    file raised [FileFormatError], or the assembled testcase, a
    dictionary with the entries ["config"] and ["teststeps"] whose config
    has the path of the file as ["path"]; an error of another kind, or
    one of [load_file], is not caught. *)
Theorem load_test_file_result
    (fuel : nat) (path : string) (s : state) (v : value) (s' : state) :
  load_test_file W fuel path s = (Val v, s') ->
  exists raw s1,
    load_file W path s = (Val raw, s1)
    /\ ((exists s2,
            load_testcase W fuel raw s1 = (Exc FileFormatError, s2)
            /\ v = VRef (length (heap s2))
            /\ s' = set_heap (heap s2 ++ [ODict []]) s2)
        \/ (exists tc c t cfg,
              v = VRef tc
              /\ heap s' !! tc
                 = Some (ODict [(KStr "config", VRef c);
                                (KStr "teststeps", VRef t)])
              /\ c = length (heap s1) /\ t = S c /\ c < tc
              /\ heap s' !! c = Some (ODict cfg)
              /\ dict_get cfg (KStr "path") = Some (VStr path))).
Proof.
  unfold load_test_file. intros H.
  apply bind_inv in H as (raw & s1 & Hf & H).
  exists raw, s1. split; [done|].
  unfold try_except in H.
  destruct (load_testcase W fuel raw s1) as [[tc|e|] s2] eqn:Ht.
  - right. unfold bind at 1 in H. rewrite Ht in H.
    apply load_testcase_val in Ht as (sl & Hlen & -> & ->).
    unfold bind at 1, py_getitem at 1, deref in H. cbn [heap set_heap] in H.
    rewrite lookup_app_r, Nat.sub_diag in H by lia. simpl in H.
    unfold bind at 1 in H.
    destruct (py_setitem _ _ _ _) as [[[]|e|] s4] eqn:Hs in H.
    2:{ assert (e = TypeError) as ->.
        { revert Hs. unfold py_setitem. repeat case_match; congruence. }
        by rewrite decide_False in H. }
    2:{ revert Hs. unfold py_setitem. repeat case_match; congruence. }
    inversion H; subst; clear H.
    apply py_setitem_inv in Hs as (a & d & kk & [= <-] & Ha & [= <-] & ->).
    cbn [heap set_heap] in *.
    exists (length (heap sl)), (length (heap s1)), (S (length (heap s1))),
           (dict_set d (KStr "path") (VStr path)).
    split; [done|]. split.
    { rewrite list_lookup_insert_ne by lia.
      by rewrite lookup_app_r, Nat.sub_diag by lia. }
    split; [done|]. split; [done|]. split; [lia|]. split.
    + apply list_lookup_insert_eq. rewrite length_app. simpl. lia.
    + apply dict_get_set_eq.
  - left. unfold bind at 1 in H. rewrite Ht in H.
    destruct (decide (e = FileFormatError)) as [->|]; [|done].
    apply alloc_inv in H as [[= ->] ->]. by exists s2.
  - unfold bind at 1 in H. by rewrite Ht in H.
Qed.

End TestFileResult.

Lemma load_test_file_result_witness :
  exists v s' c cfg,
    load_test_file project_world 5 "/w/p/suite/good.yml" project_state
    = (Val v, s')
    /\ heap s' !! c = Some (ODict cfg)
    /\ dict_get cfg (KStr "path") = Some (VStr "/w/p/suite/good.yml").
Proof.
  destruct (load_test_file project_world 5 "/w/p/suite/good.yml"
              project_state) as [[v|e|] s'] eqn:Hrun;
    [| vm_compute in Hrun; discriminate Hrun
     | vm_compute in Hrun; discriminate Hrun].
  destruct (load_test_file_result project_world _ _ _ _ _ Hrun)
    as (raw & s1 & Hf & [(s2 & Ht & _)|(tc & c & t & cfg & _ & _ & _ & _ & _
                                         & Hc & Hp)]).
  - clear Hrun. vm_compute in Hf. inversion Hf; subst raw s1. clear Hf.
    vm_compute in Ht. discriminate Ht.
  - clear Hrun Hf. by exists v, s', c, cfg.
Defined.

(** ** What loading never does *)

Lemma extends_refl s : extends s s.
Proof. by repeat split. Qed.

Lemma extends_trans s1 s2 s3 : extends s1 s2 -> extends s2 s3 -> extends s1 s3.
Proof.
  intros (H1 & H2 & H3 & H4 & H5) (G1 & G2 & G3 & G4 & G5).
  split; [lia|]. split; [by etrans|]. split; [by etrans|].
  split; congruence.
Qed.

Lemma extends_set_heap h s :
  length (heap s) <= length h -> extends s (set_heap h s).
Proof. intros H. by repeat split. Qed.

Lemma steady_ret {A} (a : A) : steady (ret a).
Proof. intros s r s' [= <- <-]. apply extends_refl. Qed.

Lemma steady_raise {A} e : steady (@raise A e).
Proof. intros s r s' [= <- <-]. apply extends_refl. Qed.

Lemma steady_timeout {A} : steady (@timeout A).
Proof. intros s r s' [= <- <-]. apply extends_refl. Qed.

Lemma steady_bind {A B} (m : M A) (f : A -> M B) :
  steady m -> (forall a, steady (f a)) -> steady (bind m f).
Proof.
  intros Hm Hf s r s'. unfold bind.
  destruct (m s) as [[a|e|] s1] eqn:E; apply Hm in E.
  - intros H. apply Hf in H. by eapply extends_trans.
  - by intros [= <- <-].
  - by intros [= <- <-].
Qed.

Lemma steady_try_except {A} (m h : M A) e :
  steady m -> steady h -> steady (try_except m e h).
Proof.
  intros Hm Hh s r s'. unfold try_except.
  destruct (m s) as [[a|e'|] s1] eqn:E; apply Hm in E.
  - by intros [= <- <-].
  - destruct (decide (e' = e)).
    + intros H. apply Hh in H. by eapply extends_trans.
    + by intros [= <- <-].
  - by intros [= <- <-].
Qed.

Lemma steady_for_each {A} (l : list A) (body : A -> M unit) :
  (forall x, steady (body x)) -> steady (for_each l body).
Proof.
  intros Hb. induction l as [|x l IH]; simpl.
  - apply steady_ret.
  - apply steady_bind; [apply Hb | intros _; apply IH].
Qed.

Lemma steady_reads {A} (m : M A) : reads_only m -> steady m.
Proof. intros H s r s' E. apply H in E as ->. apply extends_refl. Qed.

Lemma steady_get_state : steady get_state.
Proof. intros s r s' [= <- <-]. apply extends_refl. Qed.

Lemma steady_log l m : steady (modify (add_log l m)).
Proof.
  intros s r s' [= <- <-]. repeat split; try done. simpl.
  by apply prefix_app_r.
Qed.

Lemma steady_opened p : steady (modify (add_opened p)).
Proof.
  intros s r s' [= <- <-]. repeat split; try done. simpl.
  by apply prefix_app_r.
Qed.

Lemma steady_alloc o : steady (alloc o).
Proof.
  intros s r s' [= <- <-]. apply extends_set_heap.
  rewrite length_app. lia.
Qed.

Lemma steady_setitem c k v : steady (py_setitem c k v).
Proof.
  intros s r s'. unfold py_setitem.
  repeat case_match; intros [= <- <-]; try apply extends_refl.
  apply extends_set_heap. by rewrite length_insert.
Qed.

Lemma steady_popitem c : steady (py_popitem c).
Proof.
  intros s r s'. unfold py_popitem.
  repeat case_match; intros [= <- <-]; try apply extends_refl.
  apply extends_set_heap. by rewrite length_insert.
Qed.

Lemma steady_append l v : steady (py_append l v).
Proof.
  intros s r s'. unfold py_append.
  repeat case_match; intros [= <- <-]; try apply extends_refl.
  apply extends_set_heap. by rewrite length_insert.
Qed.

Lemma steady_update c other : steady (py_update c other).
Proof.
  intros s r s'. unfold py_update.
  destruct (deref other s) as [[o|l]|] eqn:E.
  - repeat case_match; intros [= <- <-]; try apply extends_refl.
    apply extends_set_heap. by rewrite length_insert.
  - apply steady_bind; [apply steady_reads, py_iter_reads|].
    intros items. apply steady_for_each. intros item.
    apply steady_bind; [apply steady_reads, py_iter_reads|].
    intros kv. repeat case_match; try apply steady_raise.
    apply steady_setitem.
  - apply steady_bind; [apply steady_reads, py_iter_reads|].
    intros items. apply steady_for_each. intros item.
    apply steady_bind; [apply steady_reads, py_iter_reads|].
    intros kv. repeat case_match; try apply steady_raise.
    apply steady_setitem.
Qed.

Lemma steady_build_doc d : steady (build_doc d).
Proof.
  intros s r s' H. destruct (build_doc_run d s) as (v & h' & _ & E & Hb).
  rewrite E in H. inversion H; subst. apply extends_set_heap.
  destruct Hb as [[new ->] _]. rewrite length_app. lia.
Qed.

Lemma steady_deepcopy data : steady (deepcopy_dict data).
Proof.
  intros s r s'. unfold deepcopy_dict.
  destruct (doc_of _ _ data); [apply steady_build_doc|].
  intros [= <- <-]. apply extends_refl.
Qed.

Lemma steady_check_format file_path content :
  steady (_check_format file_path content).
Proof.
  intros s r s'. rewrite check_format_run.
  destruct (is_nonempty_container _ _); intros [= <- <-].
  - apply extends_refl.
  - by eapply (steady_log LError _ s (Val tt)).
Qed.

Ltac steady_step :=
  first
    [ apply steady_ret | apply steady_raise | apply steady_timeout
    | apply steady_get_state | apply steady_log | apply steady_opened
    | apply steady_alloc | apply steady_setitem | apply steady_popitem
    | apply steady_append | apply steady_update | apply steady_build_doc
    | apply steady_deepcopy | apply steady_check_format
    | apply steady_reads, py_getitem_reads
    | apply steady_reads, py_contains_reads
    | apply steady_reads, py_get_reads
    | apply steady_reads, py_iter_reads
    | apply steady_bind; [|intros ?]
    | apply steady_try_except
    | apply steady_for_each; intros ? ].

Section Steady.
Context (W : world).

Lemma steady_load_file file_path : steady (load_file W file_path).
Proof.
  unfold load_file, load_json_file, load_yaml_file, load_csv_file,
    log_warning, log_error.
  repeat case_match; repeat steady_step.
Qed.

Lemma steady_get_api name : steady (_get_api_definition name).
Proof. unfold _get_api_definition. repeat steady_step. Qed.

Lemma steady_py_join a b : steady (py_join W a b).
Proof. unfold py_join. repeat case_match; steady_step. Qed.

Lemma steady_teststep_with rec :
  (forall raw, steady (rec raw)) ->
  forall b, steady (load_teststep_with W rec b).
Proof.
  intros Hrec b. unfold load_teststep_with.
  steady_step; [steady_step|]. case_match.
  { repeat steady_step. }
  steady_step; [steady_step|]. case_match; [steady_step|].
  steady_step; [steady_step|]. case_match; [|steady_step].
  do 3 (steady_step; [steady_step|]).
  steady_step; [|repeat steady_step].
  case_match; simpl; [|steady_step].
  steady_step; [steady_step|].
  steady_step; [apply steady_py_join|].
  steady_step; [apply steady_load_file|].
  steady_step; [apply Hrec|]. repeat steady_step.
Qed.

Lemma steady_testcase_item step config teststeps item :
  (forall b, steady (step b)) ->
  steady (testcase_item step config teststeps item).
Proof.
  intros Hstep. unfold testcase_item, log_warning.
  steady_step; [steady_step|]. case_match; [steady_step|].
  steady_step; [steady_step|]. destruct a0 as [key test_block].
  steady_step; [steady_step|].
  repeat case_match; repeat steady_step. apply Hstep.
Qed.

Lemma steady_testcase_with step raw :
  (forall b, steady (step b)) -> steady (load_testcase_with step raw).
Proof.
  intros Hstep. unfold load_testcase_with.
  do 3 (steady_step; [steady_step|]).
  steady_step; [|steady_step].
  apply steady_for_each. intros item. by apply steady_testcase_item.
Qed.

Lemma steady_load_testcase fuel : forall raw, steady (load_testcase W fuel raw).
Proof.
  induction fuel as [|fuel IH]; intros raw; simpl.
  - apply steady_timeout.
  - apply steady_testcase_with. intros b. by apply steady_teststep_with.
Qed.

Lemma steady_load_teststep fuel b : steady (load_teststep W fuel b).
Proof. apply steady_teststep_with. apply steady_load_testcase. Qed.

Lemma steady_load_test_file fuel path : steady (load_test_file W fuel path).
Proof.
  unfold load_test_file. steady_step; [apply steady_load_file|].
  steady_step; [|steady_step].
  steady_step; [apply steady_load_testcase|]. repeat steady_step.
Qed.

Lemma steady_api_item m item : steady (api_item_step m item).
Proof.
  unfold api_item_step, log_warning.
  steady_step; [steady_step|]. destruct a as [key api_dict].
  do 2 (steady_step; [steady_step|]).
  steady_step; [case_match; steady_step | steady_step].
Qed.

Lemma steady_load_api_folder p : steady (load_api_folder W p).
Proof.
  unfold load_api_folder, load_folder_content.
  steady_step; [steady_step|].
  steady_step.
  { steady_step; [steady_step|]. steady_step; [|steady_step].
    apply steady_for_each. intros f.
    steady_step; [apply steady_load_file | steady_step]. }
  steady_step.
  { intros s r s' H. unfold py_items in H.
    repeat case_match; inversion H; subst; apply extends_refl. }
  steady_step; [|steady_step].
  apply steady_for_each. intros [k api_items].
  steady_step; [steady_step|].
  apply steady_for_each. intros item. apply steady_api_item.
Qed.

(** X28.  However they end, with a value, with an exception or out of
    fuel, [load_file], [load_teststep], [load_testcase], the inner
    [load_test_file] of [load_tests] and [load_api_folder] only extend
    the state: no object is removed, what was logged and the list of
    opened files are kept and grow at the end, and [sys.path] and
    [os.environ] are not touched. *)
Theorem loading_extends_state (fuel : nat) :
  (forall file_path, steady (load_file W file_path))
  /\ (forall raw_stepinfo, steady (load_teststep W fuel raw_stepinfo))
  /\ (forall raw_testcase, steady (load_testcase W fuel raw_testcase))
  /\ (forall path, steady (load_test_file W fuel path))
  /\ (forall api_folder_path, steady (load_api_folder W api_folder_path)).
Proof.
  split; [apply steady_load_file|].
  split; [apply steady_load_teststep|].
  split; [apply steady_load_testcase|].
  split; [apply steady_load_test_file | apply steady_load_api_folder].
Qed.

End Steady.

Lemma loading_extends_state_witness :
  exists s',
    load_test_file project_world 5 "/w/p/broken/empty.yml" project_state
    = (Exc FileFormatError, s')
    /\ extends project_state s'.
Proof.
  destruct (load_test_file project_world 5 "/w/p/broken/empty.yml"
              project_state) as [r s'] eqn:Hrun.
  destruct (loading_extends_state project_world 5) as (_ & _ & _ & H & _).
  pose proof (H _ _ _ _ Hrun) as Hext. clear H.
  assert (Hr : r = Exc FileFormatError).
  { clear Hext. vm_compute in Hrun. by inversion Hrun. }
  subst r. by exists s'.
Defined.

(** ** A weight that is not a number *)

Section WeightType.
Context (W : world).

(** X29.  In [load_locust_tests] the weight of a step is given to
    [range] as it is: for a weight that is neither an integer nor a
    boolean (a string, [None], a list), the step is resolved and then
    [TypeError] is raised; nothing is appended to the tests. *)
Theorem locust_item_weight_type
    (fuel : nat) (config tests : value) (a b : nat)
    (body : list (key * value)) (w v : value) (s s3 : state) :
  heap s !! a = Some (ODict [(KStr "test", VRef b)]) ->
  heap s !! b = Some (ODict body) ->
  a <> b -> b <> 1 ->
  dict_get body (KStr "weight") = Some w ->
  match w with VInt _ | VBool _ => False | _ => True end ->
  load_teststep W fuel (VRef b) (set_heap (<[a := ODict []]> (heap s)) s)
  = (Val v, s3) ->
  locust_item W fuel config tests (VRef a) s = (Exc TypeError, s3).
Proof.
  intros Ha Hb Hab Hb1 Hw Hty Hstep.
  unfold locust_item. unfold bind at 1, py_popitem at 1. unfold deref.
  rewrite Ha. simpl.
  unfold bind at 1. rewrite Hstep.
  destruct (load_teststep_frame W fuel (VRef b) _ v s3 Hstep)
    as (-> & _ & _ & Heff).
  destruct (Heff b body eq_refl Hb1) as (d' & Hd' & He).
  { simpl. by rewrite list_lookup_insert_ne. }
  unfold bind at 1, py_get at 1. unfold deref. rewrite Hd'. simpl.
  rewrite (step_effect_get body d' (KStr "weight") He) by done.
  rewrite Hw. unfold bind, py_range.
  by destruct w.
Qed.

End WeightType.

Lemma locust_item_weight_type_witness :
  exists s',
    locust_item project_world 5 (VRef 0) (VRef 0) (VRef 14)
      (raw_state string_weight_yml) = (Exc TypeError, s')
    /\ heap s' !! 14 = Some (ODict []).
Proof.
  destruct (load_teststep project_world 5 (VRef 13)
              (set_heap (<[14 := ODict []]> (heap (raw_state string_weight_yml)))
                        (raw_state string_weight_yml)))
    as [[v|e|] s3] eqn:Hstep;
    [| vm_compute in Hstep; discriminate Hstep
     | vm_compute in Hstep; discriminate Hstep].
  exists s3. split.
  - apply (locust_item_weight_type project_world 5 (VRef 0) (VRef 0) 14 13
             [(KStr "name", VStr "a"); (KStr "weight", VStr "3")]
             (VStr "3") v (raw_state string_weight_yml) s3);
      [vm_compute; reflexivity | vm_compute; reflexivity | done | done
      | reflexivity | done | exact Hstep].
  - vm_compute in Hstep. inversion Hstep; subst s3. reflexivity.
Defined.

(** ** A testcase that refers to itself *)

Section SelfReference.
Context (W : world).

Lemma load_file_referring path rel s :
  isfile W path = true ->
  lower (snd (splitext W path)) ∈ [".yaml"; ".yml"] ->
  yaml_load W path = Some (referring_yml rel) ->
  let n := length (heap s) in
  load_file W path s
  = (Val (VRef (S (S n))),
     mkState (heap s ++ [ODict [(KStr "testcase", VStr rel)];
                         ODict [(KStr "test", VRef n)];
                         OList [VRef (S n)]])
             (log s) (opened s ++ [path]) (sys_path s) (os_environ s)).
Proof.
  intros Hf Hsuf Hy n. rewrite load_file_dispatch, Hf. simpl negb. cbv iota.
  cbv zeta.
  assert (Hj : lower (splitext W path).2 <> ".json").
  { intros E. rewrite E in Hsuf.
    apply elem_of_cons in Hsuf as [?|Hsuf]; [done|].
    apply elem_of_cons in Hsuf as [?|Hsuf]; [done|]. inversion Hsuf. }
  rewrite decide_False by done. rewrite bool_decide_eq_true_2 by done.
  unfold load_yaml_file. rewrite Hy.
  unfold bind at 1, modify at 1. unfold bind at 1.
  unfold build_doc, referring_yml. cbn [build build_all fst snd heap add_opened].
  rewrite !length_app. cbn [length]. fold n.
  replace (n + 1 + 1) with (S (S n)) by lia.
  replace (n + 1) with (S n) by lia.
  unfold bind. rewrite check_format_run. cbn [heap set_heap].
  unfold is_nonempty_container.
  rewrite lookup_app_r by (rewrite !length_app; simpl; fold n; lia).
  rewrite !length_app. cbn [length]. fold n.
  replace (S (S n) - (n + 1 + 1)) with 0 by lia. simpl.
  unfold set_heap, add_opened, ret. simpl.
  by rewrite <- !app_assoc.
Qed.

(** X30.  A testcase file whose step refers to the file itself is never
    assembled: the memo is written only after the nested call returns,
    so each level loads the file again, and [load_teststep] runs out of
    every recursion depth it is given. *)
Theorem self_reference_never_returns (rel pwd : string) :
  isfile W (join W pwd rel) = true ->
  lower (snd (splitext W (join W pwd rel))) ∈ [".yaml"; ".yml"] ->
  yaml_load W (join W pwd rel) = Some (referring_yml rel) ->
  forall fuel b d td t s,
    testcase_step s b d rel pwd td t false ->
    exists s', load_teststep W fuel (VRef b) s = (Timeout, s').
Proof.
  intros Hf Hsuf Hy fuel.
  induction fuel as [|fuel IH]; intros b d td t s Hstep;
    rewrite (load_teststep_testcase_run W _ b d rel pwd td t false s Hstep);
    simpl negb; cbv iota;
    unfold bind at 1; unfold bind at 1;
    rewrite (load_file_referring _ rel s Hf Hsuf Hy).
  { unfold bind. simpl. by eexists. }
  set (n := length (heap s)).
  set (s1 := mkState _ _ _ _ _).
  unfold bind at 1.
  assert (Hr : heap s1 !! S (S n) = Some (OList [VRef (S n)])).
  { unfold s1. simpl. rewrite lookup_app_r by (fold n; lia). fold n.
    by replace (S (S n) - n) with 2 by lia. }
  rewrite (load_testcase_head W fuel (S (S n)) (VRef (S n)) [] s1 Hr).
  assert (Hl1 : length (heap s1) = n + 3).
  { unfold s1. simpl. rewrite length_app. simpl. fold n. lia. }
  remember (set_heap (heap s1 ++ [ODict []; OList []]) s1) as s2 eqn:E2.
  assert (Hblk : heap s2 !! S n = Some (ODict [(KStr "test", VRef n)])).
  { rewrite E2. unfold s1. simpl. rewrite lookup_app_l
      by (rewrite length_app; simpl; fold n; lia).
    rewrite lookup_app_r by (fold n; lia). fold n.
    by replace (S n - n) with 1 by lia. }
  remember (set_heap (<[S n := ODict []]> (heap s2)) s2) as s3 eqn:E3.
  assert (Hbody : heap s3 !! n
                  = Some (ODict [(KStr "testcase", VStr rel)])).
  { rewrite E3. simpl. rewrite list_lookup_insert_ne by lia.
    rewrite E2. unfold s1. simpl. rewrite lookup_app_l
      by (rewrite length_app; simpl; fold n; lia).
    rewrite lookup_app_r by (fold n; lia). fold n.
    by rewrite Nat.sub_diag. }
  assert (Hold : forall x, x < n -> heap s3 !! x = heap s !! x).
  { intros x Hx. rewrite E3. simpl. rewrite list_lookup_insert_ne by lia.
    rewrite E2. unfold s1. simpl. rewrite lookup_app_l
      by (rewrite length_app; simpl; fold n; lia).
    apply lookup_app_l. fold n. lia. }
  assert (Hstep3 : testcase_step s3 n [(KStr "testcase", VStr rel)]
                     rel pwd td t false).
  { destruct Hstep as [Hb _ _ _ (pm & Hpm & Hpwd) Htd Hts (tc & Ht & Hc)].
    constructor; try done.
    - exists pm. rewrite Hold; [done | by eapply lookup_lt_Some].
    - rewrite Hold; [done | by eapply lookup_lt_Some].
    - exists tc. rewrite Hold; [done | by eapply lookup_lt_Some]. }
  destruct (IH n _ td t s3 Hstep3) as [s' Hs'].
  assert (Hitem : testcase_item (load_teststep W fuel)
                    (VRef (length (heap s1))) (VRef (S (length (heap s1))))
                    (VRef (S n)) s2 = (Timeout, s')).
  { unfold testcase_item. unfold bind at 1, get_state at 1.
    unfold is_dict at 1, len_of at 1. unfold deref. rewrite Hblk. simpl.
    unfold bind at 1, py_popitem at 1. unfold deref. rewrite Hblk.
    cbn [dict_popitem of_key]. rewrite <- E3.
    unfold bind at 1, get_state at 1.
    unfold is_dict. unfold deref. rewrite Hbody. simpl.
    unfold bind. by rewrite Hs'. }
  exists s'. unfold bind at 1. cbn [for_each].
  unfold bind at 1. by rewrite Hitem.
Qed.

End SelfReference.

Lemma self_reference_never_returns_witness :
  exists s', load_teststep loop_world 7 (VRef 8) loop_state = (Timeout, s').
Proof.
  apply (self_reference_never_returns loop_world "loop.yml" "/w/p"
           eq_refl) with (d := [(KStr "testcase", VStr "loop.yml")])
                         (td := [(KStr "api", VRef 6);
                                 (KStr "testcases", VRef 3)]) (t := 3).
  - vm_compute. apply list_elem_of_further, list_elem_of_here.
  - vm_compute. reflexivity.
  - testcase_step_here.
Defined.

(** ** [load_locust_tests] as a whole *)

Lemma untouched_app keep h new : untouched keep h (h ++ new).
Proof.
  split; [rewrite length_app; lia|]. intros x Hx _. by apply lookup_app_l.
Qed.

Lemma untouched_alloc keep o s r s' :
  alloc o s = (r, s') -> untouched keep (heap s) (heap s').
Proof. intros H. apply alloc_inv in H as [_ ->]. apply untouched_app. Qed.

Lemma untouched_setitem keep c k v s u s' :
  c ∈ keep -> py_setitem (VRef c) k v s = (Val u, s') ->
  untouched keep (heap s) (heap s')
  /\ exists d, heap s' !! c = Some (ODict d).
Proof.
  intros Hc H.
  apply py_setitem_inv in H as (a & d & kk & [= <-] & Ha & _ & ->). simpl.
  split; [by apply untouched_insert|]. eexists.
  apply list_lookup_insert_eq. by eapply lookup_lt_Some.
Qed.

Section LocustTests.
Context (W : world).

Lemma untouched_parse_data keep data variables functions s r s' :
  parse_data_frame W ->
  parse_data W data variables functions s = (r, s') ->
  untouched keep (heap s) (heap s').
Proof.
  intros Hpf H. destruct (Hpf _ _ _ _ _ _ H) as [Hl Hf].
  split; [done|]. intros x Hx _. by apply Hf.
Qed.

(** The steps of a run of [load_locust_tests] that returns: the file is
    loaded, then the project; [config] and [tests] are the two objects
    made next; the loop runs over the elements of the file's list; what
    follows changes [config] only, and the result is a new dictionary
    that binds ["config"] and ["tests"] to the two objects. *)
Lemma load_locust_tests_inv fuel path dot_env_path s v s' :
  parse_data_frame W ->
  load_locust_tests W fuel path dot_env_path s = (Val v, s') ->
  exists raw s1 s2 items s4 out,
    let c := length (heap s2) in
    let s3 := set_heap ((heap s2 ++ [ODict []]) ++ [OList []]) s2 in
    load_file W path s = (Val raw, s1)
    /\ load_project_tests W fuel path dot_env_path s1 = (Val tt, s2)
    /\ py_iter raw s3 = (Val items, s3)
    /\ for_each items (locust_item W fuel (VRef c) (VRef (S c))) s3
       = (Val tt, s4)
    /\ v = VRef out
    /\ heap s' !! out
       = Some (ODict [(KStr "config", VRef c); (KStr "tests", VRef (S c))])
    /\ untouched [c] (heap s4) (heap s')
    /\ exists cfg, heap s' !! c = Some (ODict cfg).
Proof.
  intros Hpf Hrun. unfold load_locust_tests in Hrun.
  apply bind_inv in Hrun as (raw & s1 & Hfile & Hrun).
  apply bind_inv in Hrun as ([] & s2 & Hproj & Hrun).
  apply bind_inv in Hrun as (config & s0 & Ha & Hrun).
  apply alloc_inv in Ha as [[= ->] ->].
  apply bind_inv in Hrun as (tests & s0 & Ha & Hrun).
  apply alloc_inv in Ha as [[= ->] ->].
  cbn [heap set_heap] in Hrun.
  assert (Hlc : length (heap s2 ++ [ODict []]) = S (length (heap s2)))
    by (rewrite length_app; simpl; lia).
  rewrite Hlc in Hrun.
  remember (set_heap ((heap s2 ++ [ODict []]) ++ [OList []])
                     (set_heap (heap s2 ++ [ODict []]) s2)) as s3 eqn:E3.
  assert (E3' : s3 = set_heap ((heap s2 ++ [ODict []]) ++ [OList []]) s2)
    by (subst s3; reflexivity).
  clear E3. rename E3' into E3.
  apply bind_inv in Hrun as (items & s0 & Hit & Hrun).
  pose proof (py_iter_reads _ _ _ _ Hit) as ->.
  apply bind_inv in Hrun as ([] & s4 & Hloop & Hrun).
  set (c := length (heap s2)) in *.
  apply bind_inv in Hrun as (empty_list & s5 & Ha & Hrun).
  pose proof (untouched_alloc [c] _ _ _ _ Ha) as U45.
  apply alloc_inv in Ha as [_ E5].
  apply bind_inv in Hrun as (raw_config_variables & s0 & Hg & Hrun).
  apply py_get_reads in Hg as ->.
  apply bind_inv in Hrun as (empty_dict & s6 & Ha & Hrun).
  pose proof (untouched_alloc [c] _ _ _ _ Ha) as U56. clear Ha.
  apply bind_inv in Hrun as (functions & s0 & Hg & Hrun).
  apply py_getitem_reads in Hg as ->.
  apply bind_inv in Hrun as (config_variables & s7 & Hp & Hrun).
  pose proof (untouched_parse_data [c] _ _ _ _ _ _ Hpf Hp) as U67. clear Hp.
  apply bind_inv in Hrun as (name & s0 & Hg & Hrun).
  apply py_get_reads in Hg as ->.
  apply bind_inv in Hrun as (functions2 & s0 & Hg & Hrun).
  apply py_getitem_reads in Hg as ->.
  apply bind_inv in Hrun as (parsed_name & s8 & Hp & Hrun).
  pose proof (untouched_parse_data [c] _ _ _ _ _ _ Hpf Hp) as U78. clear Hp.
  apply bind_inv in Hrun as ([] & s9 & Hs & Hrun).
  apply (untouched_setitem [c]) in Hs as [U89 _]; [|apply list_elem_of_here].
  apply bind_inv in Hrun as (empty_dict2 & s10 & Ha & Hrun).
  pose proof (untouched_alloc [c] _ _ _ _ Ha) as U910. clear Ha.
  apply bind_inv in Hrun as (request & s0 & Hg & Hrun).
  apply py_get_reads in Hg as ->.
  apply bind_inv in Hrun as (functions3 & s0 & Hg & Hrun).
  apply py_getitem_reads in Hg as ->.
  apply bind_inv in Hrun as (parsed_request & s11 & Hp & Hrun).
  pose proof (untouched_parse_data [c] _ _ _ _ _ _ Hpf Hp) as U1011. clear Hp.
  apply bind_inv in Hrun as ([] & s12 & Hs & Hrun).
  apply (untouched_setitem [c]) in Hs as [U1112 [cfg Hcfg]];
    [|apply list_elem_of_here].
  apply alloc_inv in Hrun as [[= ->] ->].
  exists raw, s1, s2, items, s4, (length (heap s12)).
  cbn zeta. fold c. rewrite <- E3.
  split; [done|]. split; [done|]. split; [done|]. split; [done|].
  split; [done|]. cbn [heap set_heap].
  split; [by rewrite lookup_app_r, Nat.sub_diag by lia|].
  split.
  - repeat (eapply untouched_trans; [eassumption|]). apply untouched_app.
  - exists cfg. rewrite lookup_app_l; [done | by eapply lookup_lt_Some].
Qed.

End LocustTests.

(** ** The loop of [load_locust_tests] returns *)



Section LocustReturns.
Context (W : world).



End LocustReturns.

Section LocustWeighted.
Context (W : world).


End LocustWeighted.





Section LocustResult.
Context (W : world).




End LocustResult.

Section LocustTheorem.
Context (W : world).


End LocustTheorem.

Lemma parse_data_frame_posix cwd dirs files :
  parse_data_frame (posix_world cwd dirs files).
Proof. intros data variables functions s r s' [= <- <-]. by split. Qed.



(** ** A load-test file, end to end *)

Example load_locust_tests_run :
  exists v s',
    load_locust_tests locust_world 5 "/w/p/locust.yml" None init_state
    = (Val v, s')
    /\ doc_of 9 (heap s') v
       = Some (DDict
           [(KStr "config", DDict [(KStr "name", DStr "load");
                                   (KStr "request", DDict [])]);
            (KStr "tests",
             DList [locust_step_a; locust_step_a; locust_step_a;
                    DDict [(KStr "name", DStr "b");
                           (KStr "request", DDict [])]])]).
Proof.
  eexists _, _. split; [vm_compute; reflexivity|]. vm_compute. reflexivity.
Qed.

(** ** [load_api_folder] as a whole *)

Lemma hashable_id_key b : hashable_id b -> is_Some (to_key (api_id b)).
Proof.
  unfold hashable_id, api_id. intros H.
  destruct (dict_get (blk_body b) (KStr "id")) as [x|]; [by apply H|].
  by eexists.
Qed.

Lemma api_mapping_app l1 l2 dm :
  api_mapping (l1 ++ l2) dm = api_mapping l2 (api_mapping l1 dm).
Proof. unfold api_mapping. apply fold_left_app. Qed.

Lemma api_warnings_app l1 : forall l2 dm,
  Forall hashable_id l1 ->
  api_warnings (l1 ++ l2) dm
  = api_warnings l1 dm ++ api_warnings l2 (api_mapping l1 dm).
Proof.
  induction l1 as [|b l1 IH]; intros l2 dm Hh; [done|].
  inversion Hh as [|?? Hb Hl1]; subst.
  destruct (hashable_id_key b Hb) as [k Hk]. simpl.
  rewrite Hk, IH by done. by rewrite app_assoc.
Qed.

Lemma to_key_none x : to_key x = Some KNone -> x = VNone.
Proof. destruct x as [| [|] | | | |]; simpl; congruence. Qed.

Lemma dict_has_set d k k' v :
  dict_has d k' = true -> dict_has (dict_set d k v) k' = true.
Proof.
  unfold dict_has. destruct (decide (k = k')) as [->|Hne].
  - by rewrite dict_get_set_eq.
  - by rewrite dict_get_set_ne.
Qed.

Lemma api_mapping_has l : forall dm k,
  dict_has dm k = true -> dict_has (api_mapping l dm) k = true.
Proof.
  induction l as [|b l IH]; intros dm k Hk; [done|]. simpl.
  apply IH. destruct (to_key (api_id b)); [by apply dict_has_set | done].
Qed.

(** A definition without id is bound to [None] until a later one
    replaces it. *)
Lemma api_mapping_none_last l2 : forall dm v,
  dict_get dm KNone = Some v ->
  Forall (fun b => api_id b <> VNone) l2 ->
  dict_get (api_mapping l2 dm) KNone = Some v.
Proof.
  induction l2 as [|b l2 IH]; intros dm v Hv Hl2; [done|].
  inversion Hl2 as [|?? Hb Hrest]; subst. simpl. apply IH; [|done].
  destruct (to_key (api_id b)) as [k|] eqn:Hk; [|done].
  rewrite dict_get_set_ne; [done|]. intros ->. by apply to_key_none in Hk.
Qed.

Lemma api_mapping_none_bound l1 : forall dm b0,
  b0 ∈ l1 -> api_id b0 = VNone ->
  dict_has (api_mapping l1 dm) KNone = true.
Proof.
  induction l1 as [|b l1 IH]; intros dm b0 Hin Hb0; [inversion Hin|].
  apply elem_of_cons in Hin as [<-|Hin].
  - simpl. rewrite Hb0. simpl. apply api_mapping_has.
    unfold dict_has. by rewrite dict_get_set_eq.
  - simpl. by eapply IH.
Qed.

Lemma obj_kinds_differ (h : list obj) x y l d :
  h !! x = Some (OList l) -> h !! y = Some (ODict d) -> x <> y.
Proof. intros Hx Hy ->. congruence. Qed.

(** One turn of the loop on a labelled block. *)
Lemma api_block_run n b dm kid s :
  block_at (heap s) b -> heap s !! n = Some (ODict dm) ->
  n <> blk_item b -> n <> blk_addr b -> blk_item b <> blk_addr b ->
  to_key (api_id b) = Some kid ->
  exists s',
    api_item_step (VRef n) (VRef (blk_item b)) s = (Val tt, s')
    /\ heap s' = <[n := ODict (dict_set dm kid (VRef (blk_addr b)))]>
                   (<[blk_item b := ODict []]> (heap s))
    /\ log s' = log s ++ (if dict_has dm kid
                          then [(LWarning, MsgApiDuplicated (api_id b))]
                          else []).
Proof.
  destruct b as [a k bb d]. unfold block_at, api_id. simpl.
  intros [Ha Hb] Hn Hna Hnb Hab Hk.
  pose proof (api_item_step_run n a bb [(k, VRef bb)] k [] d dm kid s
                Ha eq_refl (not_eq_sym Hna) Hab Hb Hn Hk) as Hrun.
  cbn zeta in Hrun. eexists. split; [exact Hrun|].
  destruct (dict_has dm kid); simpl; [done|]. by rewrite app_nil_r.
Qed.

(** The loop over the blocks of one file. *)
Lemma api_blocks_run n bs : forall dm s,
  heap s !! n = Some (ODict dm) ->
  Forall (block_at (heap s)) bs ->
  NoDup (n :: block_addrs bs) ->
  Forall hashable_id bs ->
  exists s',
    for_each (block_items bs) (api_item_step (VRef n)) s = (Val tt, s')
    /\ heap s' !! n = Some (ODict (api_mapping bs dm))
    /\ log s' = log s ++ api_warnings bs dm
    /\ untouched (n :: map blk_item bs) (heap s) (heap s')
    /\ Forall (emptied (heap s')) (block_items bs).
Proof.
  induction bs as [|b bs IH]; intros dm s Hn Hat Hnd Hh.
  - exists s. split; [done|]. split; [done|].
    split; [by rewrite app_nil_r|]. split; [apply untouched_refl|constructor].
  - inversion Hat as [|?? Hb Hbs]; subst.
    inversion Hh as [|?? Hhb Hhbs]; subst.
    destruct (hashable_id_key b Hhb) as [kid Hk].
    simpl in Hnd. rewrite !NoDup_cons, !not_elem_of_cons in Hnd.
    destruct Hnd as ((Hna & Hnb & Hnbs) & (Hab & Habs) & Hbbs & Hnd).
    destruct (api_block_run n b dm kid s Hb Hn Hna Hnb Hab Hk)
      as (s1 & H1 & Hh1 & Hl1).
    assert (Hln : n < length (heap s)) by (by eapply lookup_lt_Some).
    assert (Hla : blk_item b < length (heap s))
      by (destruct Hb as [Hb _]; by eapply lookup_lt_Some).
    assert (Hn1 : heap s1 !! n
                  = Some (ODict (dict_set dm kid (VRef (blk_addr b))))).
    { rewrite Hh1. apply list_lookup_insert_eq. by rewrite length_insert. }
    assert (Hu1 : untouched [n; blk_item b] (heap s) (heap s1)).
    { rewrite Hh1. eapply untouched_trans; apply untouched_insert.
      - apply list_elem_of_further, list_elem_of_here.
      - apply list_elem_of_here. }
    assert (Hbs1 : Forall (block_at (heap s1)) bs).
    { apply Forall_forall. intros b' Hin. rewrite Forall_forall in Hbs.
      destruct (block_addrs_elem b' bs Hin) as [Hi Ha].
      eapply block_at_untouched; [exact Hu1 | by apply Hbs | |].
      - rewrite !not_elem_of_cons. repeat split; [| |apply not_elem_of_nil];
          intros Heq; rewrite Heq in Hi; done.
      - rewrite !not_elem_of_cons. repeat split; [| |apply not_elem_of_nil];
          intros Heq; rewrite Heq in Ha; done. }
    destruct (IH _ s1 Hn1 Hbs1) as (s' & H2 & Hn' & Hl' & Hu' & He'); [|done|].
    { rewrite NoDup_cons. by split. }
    exists s'. split; [simpl; unfold bind at 1; by rewrite H1|].
    simpl. rewrite Hk. split; [exact Hn'|].
    split; [by rewrite Hl', Hl1, app_assoc|].
    split.
    + eapply untouched_trans.
      * eapply untouched_weaken; [exact Hu1|]. intros x Hx.
        rewrite !elem_of_cons, elem_of_nil in Hx. rewrite !elem_of_cons.
        tauto.
      * eapply untouched_weaken; [exact Hu'|]. intros x Hx.
        rewrite !elem_of_cons in Hx. rewrite !elem_of_cons. tauto.
    + constructor; [|exact He'].
      exists (blk_item b). split; [done|].
      destruct Hu' as [_ Hf]. rewrite Hf.
      * rewrite Hh1. rewrite list_lookup_insert_ne by done.
        by apply list_lookup_insert_eq.
      * rewrite Hh1, !length_insert. done.
      * rewrite not_elem_of_cons. split; [congruence|].
        intros Hin. apply list_elem_of_fmap in Hin as (b' & Heq & Hin).
        destruct (block_addrs_elem b' bs Hin) as [Hi _].
        rewrite <- Heq in Hi. done.
Qed.

Lemma block_addrs_app l1 l2 :
  block_addrs (l1 ++ l2) = block_addrs l1 ++ block_addrs l2.
Proof. unfold block_addrs. apply flat_map_app. Qed.

Lemma block_item_addr b bs : b ∈ bs -> blk_item b ∈ block_addrs bs.
Proof. intros H. by apply block_addrs_elem. Qed.

Lemma emptied_block h b bs :
  Forall (emptied h) (block_items bs) -> b ∈ bs ->
  h !! blk_item b = Some (ODict []).
Proof.
  intros Hall Hin. rewrite Forall_forall in Hall.
  destruct (Hall (VRef (blk_item b))) as (a & [= <-] & Ha); [|done].
  apply list_elem_of_fmap. by exists b.
Qed.

Lemma block_addr_not_item bs : forall b b',
  NoDup (block_addrs bs) -> b ∈ bs -> b' ∈ bs -> blk_addr b <> blk_item b'.
Proof.
  induction bs as [|a bs IH]; intros b b' Hnd Hb Hb'; [inversion Hb|].
  simpl in Hnd. rewrite !NoDup_cons, !not_elem_of_cons in Hnd.
  destruct Hnd as ((Hia & Hi) & Ha & Hnd).
  apply elem_of_cons in Hb as [->|Hb]; apply elem_of_cons in Hb' as [->|Hb'].
  - congruence.
  - intros Heq. apply Ha. rewrite Heq. by apply block_item_addr.
  - intros Heq. apply Hi. rewrite <- Heq. by apply block_addrs_elem.
  - by apply IH.
Qed.

(** The loop over the files of the folder. *)
Lemma api_files_run n fs : forall dm s,
  heap s !! n = Some (ODict dm) ->
  Forall (fun f : key * nat * list block =>
            heap s !! f.1.2 = Some (OList (block_items f.2))
            /\ Forall (block_at (heap s)) f.2) fs ->
  NoDup (n :: block_addrs (all_blocks fs)) ->
  Forall hashable_id (all_blocks fs) ->
  exists s',
    for_each (map (fun f : key * nat * list block =>
                     (of_key f.1.1, VRef f.1.2)) fs)
      (fun '(api_file_path, api_items) =>
         do items <- py_iter api_items;
         for_each items (api_item_step (VRef n))) s = (Val tt, s')
    /\ heap s' !! n = Some (ODict (api_mapping (all_blocks fs) dm))
    /\ log s' = log s ++ api_warnings (all_blocks fs) dm
    /\ untouched (n :: map blk_item (all_blocks fs)) (heap s) (heap s')
    /\ forall b, b ∈ all_blocks fs -> heap s' !! blk_item b = Some (ODict []).
Proof.
  induction fs as [|[[k l] bs] fs IH]; intros dm s Hn Hfs Hnd Hh.
  - exists s. split; [done|]. split; [done|].
    split; [by rewrite app_nil_r|]. split; [apply untouched_refl|].
    intros b Hb. inversion Hb.
  - inversion Hfs as [|?? [Hl Hbs] Hrest]; subst. simpl in Hl, Hbs.
    change (all_blocks (((k, l), bs) :: fs)) with (bs ++ all_blocks fs)
      in *.
    set (rest := all_blocks fs) in *.
    apply Forall_app in Hh as [Hh1 Hh2].
    rewrite block_addrs_app in Hnd.
    apply NoDup_cons in Hnd as [Hnn Hnd].
    apply not_elem_of_app in Hnn as [Hn1 Hn2].
    apply NoDup_app in Hnd as (Hnd1 & Hdis & Hnd2).
    destruct (api_blocks_run n bs dm s Hn Hbs) as (s1 & H1 & Hn' & Hl1 & Hu1 & He1);
      [by apply NoDup_cons | done |].
    assert (Hkeep : forall x, x ∈ block_addrs rest ->
                              x ∉ n :: map blk_item bs).
    { intros x Hx. rewrite not_elem_of_cons. split; [by intros ->|].
      intros Hin. apply list_elem_of_fmap in Hin as (b' & -> & Hin).
      by apply (Hdis (blk_item b')); [apply block_item_addr|]. }
    assert (Hrest1 : Forall (fun f : key * nat * list block =>
                       heap s1 !! f.1.2 = Some (OList (block_items f.2))
                       /\ Forall (block_at (heap s1)) f.2) fs).
    { apply Forall_forall. intros f Hf. rewrite Forall_forall in Hrest.
      destruct (Hrest f Hf) as [Hfl Hfb].
      pose proof Hu1 as [Hlen1 Hf1]. split.
      - rewrite Hf1; [done | by eapply lookup_lt_Some|].
        rewrite not_elem_of_cons. split.
        + eapply obj_kinds_differ; [exact Hfl | exact Hn].
        + intros Hin. apply list_elem_of_fmap in Hin as (b' & Heq & Hin).
          rewrite Forall_forall in Hbs. destruct (Hbs b' Hin) as [Hi _].
          rewrite <- Heq in Hi. congruence.
      - apply Forall_forall. intros b' Hb'. rewrite Forall_forall in Hfb.
        assert (Hin : b' ∈ rest).
        { unfold rest, all_blocks. apply list_elem_of_In, in_flat_map.
          exists f. split; by apply list_elem_of_In. }
        destruct (block_addrs_elem b' rest Hin) as [Hi Ha].
        eapply block_at_untouched;
          [exact Hu1 | by apply Hfb
          | by apply Hkeep | by apply Hkeep]. }
    destruct (IH _ s1 Hn' Hrest1) as (s' & H2 & Hn2' & Hl2 & Hu2 & He2);
      [by apply NoDup_cons | done |].
    exists s'. split.
    { simpl. unfold bind at 1. unfold bind at 1. unfold py_iter at 1.
      simpl. rewrite Hl. rewrite H1. exact H2. }
    split; [by rewrite api_mapping_app|].
    split; [by rewrite api_warnings_app, Hl2, Hl1, app_assoc|].
    split.
    + rewrite map_app. eapply untouched_trans.
      * eapply untouched_weaken; [exact Hu1|]. intros x Hx.
        rewrite elem_of_cons in Hx.
        rewrite elem_of_cons, elem_of_app. tauto.
      * eapply untouched_weaken; [exact Hu2|]. intros x Hx.
        rewrite elem_of_cons in Hx.
        rewrite elem_of_cons, elem_of_app. tauto.
    + intros b Hb. apply elem_of_app in Hb as [Hb|Hb]; [|by apply He2].
      destruct Hu2 as [_ Hf2]. pose proof (emptied_block _ b bs He1 Hb) as Hb1.
      rewrite Hf2; [done | by eapply lookup_lt_Some|].
      rewrite not_elem_of_cons. split.
      * intros Heq. apply Hn1. rewrite <- Heq. by apply block_item_addr.
      * intros Hin. apply list_elem_of_fmap in Hin as (b' & Heq & Hin).
        apply (Hdis (blk_item b)); [by apply block_item_addr|].
        rewrite Heq. by apply block_item_addr.
Qed.

Section ApiFolder.
Context (W : world).

(** [load_api_folder] on a folder whose files are lists of labelled
    blocks with ids that can be keys: it returns the new mapping, which
    binds each id to the last definition that has it; a warning is logged
    for each definition whose id was bound already; every block is left
    empty, and the definitions themselves are unchanged. *)
Lemma load_api_folder_blocks api_folder_path s s1 m fs :
  load_folder_content W api_folder_path (set_heap (heap s ++ [ODict []]) s)
  = (Val (VRef m), s1) ->
  folder_blocks (heap s1) m fs ->
  NoDup (length (heap s) :: block_addrs (all_blocks fs)) ->
  Forall hashable_id (all_blocks fs) ->
  exists s',
    load_api_folder W api_folder_path s = (Val (VRef (length (heap s))), s')
    /\ heap s' !! length (heap s)
       = Some (ODict (api_mapping (all_blocks fs) []))
    /\ log s' = log s1 ++ api_warnings (all_blocks fs) []
    /\ Forall (emptied (heap s')) (block_items (all_blocks fs))
    /\ (forall b, b ∈ all_blocks fs ->
                  heap s' !! blk_addr b = Some (ODict (blk_body b)))
    /\ Forall (fun f : key * nat * list block =>
                 heap s' !! f.1.2 = Some (OList (block_items f.2))) fs.
Proof.
  intros Hc [Hm Hfs] Hnd Hh.
  set (n := length (heap s)) in *.
  pose proof (load_folder_content_run W _ _ _ _ Hc) as (_ & Hg & _).
  simpl in Hg.
  assert (Hn : heap s1 !! n = Some (ODict [])).
  { rewrite (grows_lookup _ _ _ Hg) by (rewrite length_app; simpl; lia).
    rewrite lookup_app_r by (fold n; lia). fold n.
    by rewrite Nat.sub_diag. }
  destruct (api_files_run n fs [] s1 Hn Hfs Hnd Hh)
    as (s' & Hloop & Hn' & Hl' & Hu' & He').
  exists s'. split.
  { unfold load_api_folder. unfold bind at 1, alloc at 1. fold n.
    rewrite (bind_val _ _ _ _ _ Hc).
    unfold bind at 1. unfold py_items at 1. simpl. rewrite Hm.
    rewrite map_map. simpl.
    unfold bind at 1.
    match goal with
    | |- context [for_each ?l ?f s1] =>
        replace (for_each l f s1) with (@Val unit tt, s')
          by (symmetry; exact Hloop)
    end.
    reflexivity. }
  split; [exact Hn'|]. split; [exact Hl'|]. split; [|split].
  - apply Forall_forall. intros item Hin.
    apply list_elem_of_fmap in Hin as (b & -> & Hin).
    exists (blk_item b). split; [done|]. by apply He'.
  - intros b Hb.
    assert (Hat : block_at (heap s1) b).
    { unfold all_blocks in Hb.
      apply list_elem_of_In, in_flat_map in Hb as (f & Hf & Hb).
      apply list_elem_of_In in Hf. apply list_elem_of_In in Hb.
      rewrite Forall_forall in Hfs. destruct (Hfs f Hf) as [_ Hfb].
      rewrite Forall_forall in Hfb. by apply Hfb. }
    destruct Hat as [Hi Ha]. destruct Hu' as [_ Hf].
    rewrite Hf; [done | by eapply lookup_lt_Some|].
    destruct (block_addrs_elem b _ Hb) as [_ Hxa].
    rewrite not_elem_of_cons. split.
    + intros Heq. apply NoDup_cons in Hnd as [Hnn _]. apply Hnn.
      by rewrite <- Heq.
    + intros Hin. apply list_elem_of_fmap in Hin as (b' & Heq & Hin).
      apply NoDup_cons in Hnd as [_ Hnd].
      by apply (block_addr_not_item _ b b' Hnd Hb Hin).
  - apply Forall_forall. intros f Hf. rewrite Forall_forall in Hfs.
    destruct (Hfs f Hf) as [Hfl _]. destruct Hu' as [_ Hfr].
    rewrite Hfr; [done | by eapply lookup_lt_Some|].
    rewrite not_elem_of_cons. split.
    + eapply obj_kinds_differ; [exact Hfl | exact Hn].
    + intros Hin. apply list_elem_of_fmap in Hin as (b' & Heq & Hin).
      unfold all_blocks in Hin.
      apply list_elem_of_In, in_flat_map in Hin as (f' & Hf' & Hin).
      apply list_elem_of_In in Hf'. apply list_elem_of_In in Hin.
      destruct (Hfs f' Hf') as [_ Hfb']. rewrite Forall_forall in Hfb'.
      destruct (Hfb' b' Hin) as [Hi _]. rewrite <- Heq in Hi. congruence.
Qed.

End ApiFolder.

Section ApiWithoutId.
Context (W : world).

(** C10.  [load_api_folder] on a folder whose files are lists of
    labelled blocks (distinct objects), where an id, if a definition has
    one, can be a key.  A definition without id makes no difference to
    that: the call returns the mapping of definitions, which binds each
    id to the last definition that has it, a definition without id being
    bound to [None]; for each definition whose id was bound already one
    warning is logged.  So the last definition without id is the one
    under [None], unchanged, and when there was one before it the
    warning for [None] is logged at its turn. *)
Theorem api_without_id_is_cached
    (api_folder_path : string) (s s1 : state) (m : nat)
    (fs : list (key * nat * list block)) :
  load_folder_content W api_folder_path (set_heap (heap s ++ [ODict []]) s)
  = (Val (VRef m), s1) ->
  folder_blocks (heap s1) m fs ->
  NoDup (length (heap s) :: block_addrs (all_blocks fs)) ->
  Forall hashable_id (all_blocks fs) ->
  exists s' dm,
    load_api_folder W api_folder_path s = (Val (VRef (length (heap s))), s')
    /\ heap s' !! length (heap s) = Some (ODict dm)
    /\ dm = api_mapping (all_blocks fs) []
    /\ log s' = log s1 ++ api_warnings (all_blocks fs) []
    /\ forall l1 b l2,
         all_blocks fs = l1 ++ b :: l2 ->
         dict_get (blk_body b) (KStr "id") = None ->
         (Forall (fun b' => api_id b' <> VNone) l2 ->
          dict_get dm KNone = Some (VRef (blk_addr b))
          /\ heap s' !! blk_addr b = Some (ODict (blk_body b)))
         /\ ((exists b0, b0 ∈ l1 /\ api_id b0 = VNone) ->
             exists rest,
               api_warnings (all_blocks fs) []
               = api_warnings l1 []
                 ++ (LWarning, MsgApiDuplicated VNone) :: rest).
Proof.
  intros Hc Hfb Hnd Hh.
  destruct (load_api_folder_blocks W api_folder_path s s1 m fs Hc Hfb Hnd Hh)
    as (s' & Hrun & Hn & Hl & _ & Hbody & _).
  exists s', (api_mapping (all_blocks fs) []).
  split; [exact Hrun|]. split; [exact Hn|]. split; [done|].
  split; [exact Hl|].
  intros l1 b l2 Hall Hid.
  assert (Hb : api_id b = VNone) by (unfold api_id; by rewrite Hid).
  split.
  - intros Hl2. split.
    + rewrite Hall, api_mapping_app. simpl. rewrite Hb. simpl.
      apply api_mapping_none_last; [apply dict_get_set_eq | exact Hl2].
    + apply Hbody. rewrite Hall. apply elem_of_app. right.
      apply list_elem_of_here.
  - intros (b0 & Hin & Hb0). rewrite Hall in Hh |- *.
    apply Forall_app in Hh as [Hh1 _].
    rewrite api_warnings_app by done. simpl. rewrite Hb. simpl.
    rewrite (api_mapping_none_bound l1 [] b0 Hin Hb0). simpl.
    by eexists.
Qed.

End ApiWithoutId.

Lemma api_without_id_is_cached_witness :
  exists s',
    load_api_folder no_id_world "/w/p/api" init_state = (Val (VRef 4), s')
    /\ heap s' !! 4 = Some (ODict [(KNone, VRef 10)])
    /\ heap s' !! 10 = Some (ODict [(KStr "validate", VRef 9)])
    /\ log s' = [(LWarning, MsgApiDuplicated VNone)].
Proof.
  pose (s1 := snd (load_folder_content no_id_world "/w/p/api"
                     (set_heap (heap init_state ++ [ODict []]) init_state))).
  destruct (api_without_id_is_cached no_id_world "/w/p/api" init_state s1 5
              no_id_files)
    as (s' & dm & Hrun & Hn & -> & Hl & Hlast).
  - vm_compute. reflexivity.
  - split; [vm_compute; reflexivity|].
    repeat constructor; vm_compute; reflexivity.
  - vm_compute. repeat (apply NoDup_cons; split; [not_in_list|]).
    apply NoDup_nil_2.
  - repeat constructor; intros x Hx; vm_compute in Hx; discriminate Hx.
  - exists s'. split; [exact Hrun|]. split; [exact Hn|].
    destruct (Hlast [mkBlock 8 (KStr "api") 7 [(KStr "request", VRef 6)]]
                (mkBlock 11 (KStr "api") 10 [(KStr "validate", VRef 9)])
                [] eq_refl eq_refl) as [Hb _].
    destruct (Hb (List.Forall_nil _)) as [_ Hbody].
    split; [exact Hbody | exact Hl].
Defined.

(** ** Blocks are consumed, by the three loaders *)

Section ConsumedTheorem.
Context (W : world).

Lemma load_locust_tests_consumes
    fuel path dot_env_path pm td r items s s1 v s' :
  parse_data_frame W ->
  heap s !! 0 = Some (ODict pm) ->
  heap s !! 1 = Some (ODict td) ->
  load_file W path s = (Val (VRef r), s1) ->
  heap s1 !! r = Some (OList items) ->
  Forall (block_item inert [0; 1] (length (heap s1)) (heap s1)) items ->
  load_locust_tests W fuel path dot_env_path s = (Val v, s') ->
  Forall (emptied (heap s')) items.
Proof.
  intros Hpf H0 H1 Hfile Hr Hitems Hrun.
  destruct (load_locust_tests_inv W _ _ _ _ _ _ Hpf Hrun)
    as (raw & s1' & s2 & items' & s4 & out & Hf' & Hproj & Hit & Hloop
        & _ & _ & Hu & _).
  rewrite Hfile in Hf'. inversion Hf'; subst raw s1'; clear Hf'.
  cbn zeta in *.
  pose proof (load_file_inv W _ _ _ _ Hfile) as [Hg _].
  assert (Hl0 : 1 < length (heap s)) by (by eapply lookup_lt_Some).
  assert (H0' : heap s1 !! 0 = Some (ODict pm))
    by (rewrite (grows_lookup _ _ _ Hg); [done | lia]).
  assert (H1' : heap s1 !! 1 = Some (ODict td))
    by (rewrite (grows_lookup _ _ _ Hg); [done | lia]).
  destruct (load_project_tests_run W fuel path dot_env_path pm td s1 s2
              H0' H1' Hproj)
    as (pwd & fns & env & apis & _ & _ & _ & _ & Hapis & Hframe & _).
  set (n := length (heap s1)) in *.
  set (c := length (heap s2)) in *.
  assert (Hn : S (S n) < c) by (by eapply lookup_lt_Some).
  remember (set_heap ((heap s2 ++ [ODict []]) ++ [OList []]) s2) as s3
    eqn:E3.
  assert (Hl3 : length (heap s3) = S (S c)).
  { subst s3. simpl. rewrite !length_app. simpl. fold c. lia. }
  assert (Hold : forall x o, 2 <= x -> heap s1 !! x = Some o ->
                             heap s3 !! x = Some o).
  { intros x o Hx Hxo. apply lookup_lt_Some in Hxo as Hxl. fold n in Hxl.
    subst s3. simpl. rewrite !lookup_app_l
      by (rewrite ?length_app; simpl; fold c; lia).
    rewrite Hframe by lia. done. }
  assert (Hr2 : 2 <= r).
  { destruct r as [|[|r]]; [congruence | congruence | lia]. }
  assert (items' = items) as ->.
  { pose proof (Hold r _ Hr2 Hr) as Hr3. revert Hit.
    unfold py_iter, deref. rewrite Hr3. by intros [= <-]. }
  assert (Hitems3 : Forall (block_item inert [1; c; S c] (length (heap s3))
                              (heap s3)) items).
  { eapply Forall_impl; [exact Hitems|].
    intros item (a & d & -> & Ha & Hex & Hd & Hin).
    rewrite !not_elem_of_cons in Hex. destruct Hex as (Ha0 & Ha1 & _).
    exists a, d. split; [done|]. split; [lia|]. split.
    - rewrite !not_elem_of_cons. repeat split; try lia.
      apply not_elem_of_nil.
    - split; [|done]. apply Hold; [lia | done]. }
  pose proof (locust_loop_consumes W fuel c (S c) items s3 tt s4
                Hitems3 Hloop) as Hem.
  rewrite Forall_forall in Hitems, Hem. apply Forall_forall.
  intros item Hin.
  destruct (Hitems item Hin) as (a & d & -> & Ha & _).
  destruct (Hem _ Hin) as (a' & [= <-] & Ha4).
  exists a. split; [done|]. destruct Hu as [_ Hf].
  rewrite Hf; [done | by eapply lookup_lt_Some|].
  intros ->%list_elem_of_singleton. lia.
Qed.

(** C9.  [load_testcase] consumes its input: when it returns, every
    element of the caller's list is an empty dictionary (the elements
    being objects of the caller, not [tests_def_mapping]).
    [load_locust_tests] does the same to the list that [load_file]
    returned: when it returns, every element is an empty dictionary (the
    elements being blocks with a single entry, none of them one of the
    two module-level dictionaries; [parse_data] leaves the objects that
    are there as they are).  So does [load_api_folder] to the lists that
    [load_folder_content] returned: it returns, and every element of
    every list is an empty dictionary, the lists themselves being as
    they were (the elements being labelled blocks, distinct objects,
    with ids that can be keys). *)
Theorem blocks_are_consumed :
  (forall fuel r items s v s',
      heap s !! r = Some (OList items) ->
      (forall a, VRef a ∈ items -> a < length (heap s) /\ a <> 1) ->
      load_testcase W fuel (VRef r) s = (Val v, s') ->
      Forall (emptied (heap s')) items)
  /\ (forall fuel path dot_env_path pm td r items s s1 v s',
      parse_data_frame W ->
      heap s !! 0 = Some (ODict pm) ->
      heap s !! 1 = Some (ODict td) ->
      load_file W path s = (Val (VRef r), s1) ->
      heap s1 !! r = Some (OList items) ->
      Forall (block_item inert [0; 1] (length (heap s1)) (heap s1)) items ->
      load_locust_tests W fuel path dot_env_path s = (Val v, s') ->
      Forall (emptied (heap s')) items)
  /\ (forall api_folder_path s s1 m fs,
      load_folder_content W api_folder_path
        (set_heap (heap s ++ [ODict []]) s) = (Val (VRef m), s1) ->
      folder_blocks (heap s1) m fs ->
      NoDup (length (heap s) :: block_addrs (all_blocks fs)) ->
      Forall hashable_id (all_blocks fs) ->
      exists s',
        load_api_folder W api_folder_path s
        = (Val (VRef (length (heap s))), s')
        /\ Forall (fun f : key * nat * list block =>
                     heap s' !! f.1.2 = Some (OList (block_items f.2))
                     /\ Forall (emptied (heap s')) (block_items f.2)) fs).
Proof.
  split; [|split].
  - apply load_testcase_consumes.
  - apply load_locust_tests_consumes.
  - intros api_folder_path s s1 m fs Hc Hfb Hnd Hh.
    destruct (load_api_folder_blocks W api_folder_path s s1 m fs
                Hc Hfb Hnd Hh) as (s' & Hrun & _ & _ & Hem & _ & Hlists).
    exists s'. split; [exact Hrun|].
    apply Forall_forall. intros f Hf.
    rewrite Forall_forall in Hlists. split; [by apply Hlists|].
    apply Forall_forall. intros item Hin.
    rewrite Forall_forall in Hem. apply Hem.
    apply list_elem_of_fmap in Hin as (b & -> & Hin).
    apply list_elem_of_fmap. exists b. split; [done|].
    unfold all_blocks. apply list_elem_of_In, in_flat_map.
    exists f. split; by apply list_elem_of_In.
Qed.

End ConsumedTheorem.

Lemma blocks_are_consumed_witness :
  (exists items,
      heap (raw_state good_yml) !! raw_addr good_yml = Some (OList items)
      /\ length items = 2
      /\ exists v s',
           load_testcase project_world 5 (VRef (raw_addr good_yml))
             (raw_state good_yml) = (Val v, s')
           /\ Forall (emptied (heap s')) items)
  /\ (exists v s',
        load_locust_tests locust_world 5 "/w/p/locust.yml" None init_state
        = (Val v, s')
        /\ heap s' !! 11 = Some (OList [VRef 5; VRef 7; VRef 10])
        /\ Forall (emptied (heap s')) [VRef 5; VRef 7; VRef 10])
  /\ (exists s',
        load_api_folder no_id_world "/w/p/api" init_state
        = (Val (VRef 4), s')
        /\ heap s' !! 12 = Some (OList [VRef 8; VRef 11])
        /\ Forall (emptied (heap s')) [VRef 8; VRef 11]).
Proof.
  split; [|split].
  - destruct (blocks_are_consumed project_world) as (Htc & _ & _).
    eexists. split; [vm_compute; reflexivity|]. split; [reflexivity|].
    run_val Hrun.
    eapply Htc; cycle 2; [exact Hrun | vm_compute; reflexivity |].
    clear Hrun. intros a Hin.
    apply elem_of_cons in Hin as [[= ->]|Hin]; [vm_compute; lia|].
    apply elem_of_cons in Hin as [[= ->]|Hin]; [vm_compute; lia|].
    inversion Hin.
  - destruct (blocks_are_consumed locust_world) as (_ & Hlocust & _).
    pose (s1 := snd (load_file locust_world "/w/p/locust.yml" init_state)).
    assert (Hitems : Forall (block_item inert [0; 1] (length (heap s1))
                               (heap s1)) [VRef 5; VRef 7; VRef 10]).
    { repeat (constructor; [block_item_here|]). constructor. }
    destruct (load_locust_tests locust_world 5 "/w/p/locust.yml" None
                init_state) as [[v|e|] s'] eqn:Hrun;
      [| vm_compute in Hrun; discriminate Hrun
       | vm_compute in Hrun; discriminate Hrun].
    exists v, s'. split; [reflexivity|].
    split; [vm_compute in Hrun; inversion Hrun; subst; reflexivity|].
    eapply (Hlocust 5 "/w/p/locust.yml" None [] _ 11 _ init_state s1);
      [ apply parse_data_frame_posix | reflexivity | reflexivity
      | vm_compute; reflexivity | vm_compute; reflexivity
      | exact Hitems | exact Hrun ].
  - destruct (blocks_are_consumed no_id_world) as (_ & _ & Hapi).
    pose (s1 := snd (load_folder_content no_id_world "/w/p/api"
                       (set_heap (heap init_state ++ [ODict []])
                                 init_state))).
    destruct (Hapi "/w/p/api" init_state s1 5 no_id_files)
      as (s' & Hrun & Hfs).
    + vm_compute. reflexivity.
    + split; [vm_compute; reflexivity|].
      repeat constructor; vm_compute; reflexivity.
    + vm_compute. repeat (apply NoDup_cons; split; [not_in_list|]).
      apply NoDup_nil_2.
    + repeat constructor; intros x Hx; vm_compute in Hx; discriminate Hx.
    + exists s'. split; [exact Hrun|].
      inversion Hfs as [|?? [Hl Hem] _]; subst. split; [exact Hl | exact Hem].
Defined.
